(* ===== verification/_CoqProject ===== *)
-Q . S2P
Prelude.v
Machine.v
DataStruct.v
Memory.v
Bus.v
DataMemory.v
Cfu.v
Isa.v
Reference.v
Cpu.v
CpuRef.v
Soc.v
Dma.v
DmaCopy.v
Grid.v
SystolicPE.v
Systolic.v
SystolicMatmul.v
SystolicPorts.v
MemPacket.v
RvCpu.v
Pipeline.v
RvSystem.v
RvProgress.v
CString.v
Emulator.v
RvEmulator.v
Asm.v
Assembler.v
AsmPass.v
AsmLink.v
AsmCorrect.v
AsmSource.v
AsmRun.v
AsmErrors.v
RvSource.v
Device.v
Network.v
SocDevices.v
SocDma.v
SocSystolic.v
SocSystem.v
SocAccess.v
Transactions.v
DmaLink.v
DmaSteps.v
DmaStart.v
DmaProgress.v
SocTransfer.v
Timed.v
SocExec.v
SocLink.v
SocTimed.v
SocProgress.v
SocProgram.v
