(* ===== verification/Prelude.v ===== *)
(** A verification development of the simulators of this repository: the SoC
    of [soc/] (a processor, a data memory, a SIMD function unit, a DMA
    controller and a systolic array on a crossbar), the processor of
    [src/riscv/] (an instruction simulator that feeds a five-stage pipeline
    timing model), and the assembler with which both fill their memories.
    File names below are relative to the source tree; those without a
    directory are in [soc/].

    * How the program is put together

    Every device is a module of the ACALSim framework.  The framework calls
    a module's [step] in each tick in which something reaches it, fires the
    lambda events that modules schedule, in the order of their ticks, and
    calls [masterPortRetry] when a pipe register that refused a packet has
    room again.  A device pushes packets into pipe registers; the crossbar
    carries them by the device numbers of [MMIOUtil.hh].  In [src/riscv/] the
    processor executes one instruction per event and pushes a packet that
    describes it to a port of the IF stage; the packet then travels through
    the stages IF, ID, EXE, MEM and WB by the pipe registers between them,
    each stage deciding in its [step] whether it moves or waits, and WB
    recycles it.  Before a run the assembler ([libs/Emulator.cc], one copy in
    each simulator) reads the program as text, writes the instructions as
    structures into the instruction memory and the data section as bytes
    into the data memory, and in a second pass replaces labels by addresses.
    The framework is a git submodule whose sources are not in the repository:
    it is a parameter here.  [Framework] (in this file) says whether an error
    statement of the logger ends the run and what an uninitialised [int] and an
    uninitialised enumeration hold;
    [Bus.PipeRegister] is a register with its [isStalled] and [push], and
    [Bus.PipeRegisterLaws] the one thing the proofs need of it: an accepted
    packet is appended to what the register has taken, a refused one leaves
    the register as it was.  [Network.CrossBar] is the crossbar, and
    [Network.CrossBarLaws] that it hands a packet to the slave port of its
    destination number.  The pipelined processor needs a recycle
    container, a master port ([RvCpu.RecycleContainer], [RvCpu.MasterPort])
    and the registers between stages ([Pipeline.StageRegister]), each with
    its laws in a class of its own: an acquired object is not in use, and is
    in use until it is recycled; a register is a queue.  That a program comes
    to its end needs one law more, [RvProgress.StageRegisterLive]: after a
    synchronisation a packet inside is visible, and an empty register accepts;
    for the processor alone it is [RvCpu.MasterPortLive], the other end of the
    port can take what it holds; on the SoC it is [Bus.PipeRegisterLive]: the
    crossbar can take what a register holds, which then accepts the next packet.  The theorems
    on a DMA transfer also use that such a register holds one packet at most
    ([Bus.PipeRegisterSingle]).  Witnesses
    instantiate all of them ([printing_framework], [Bus.SlotRegister] and
    their companions).

    * How code becomes definitions

    A handler is a function of the monad [M S W]: it takes the module's
    state [S], and returns a value, the new state and the list of what it
    scheduled or sent ([W]), or a [fault]: undefined behaviour, a failed
    assertion, an error that ends the run, a call to [exit].  Nothing that
    C++ leaves undefined is given a meaning, with two exceptions that are
    named where they occur: uninitialised members are [indet_int], or the
    enumerator at [indet_enum], about which nothing is assumed but where a
    hypothesis says so (the field that the assembler tests for a jump,
    [Asm.jump_field]), and what
    the flush cycles of the systolic array read outside of a vector is the
    argument [junk].  Integers are in Z, reduced with [Machine.uint] and
    [Machine.sint] at the widths of the source; memories are lists of bytes.
    Printing and tracing are left out.  In [soc/] the recycling of packet
    objects is left out too, and packets are values, since no handler keeps a
    packet after it is recycled.  In [src/riscv/] the processor, the port and
    the stages share packet objects, and a packet is written after it was
    sent: there packets are references into a heap.

    The assembler is text processing with [strtok], [strtol], [memcmp] and
    their like; [CString] gives them the meaning of the C standard.  A C
    string is a [string]; what is undefined for it stays undefined ([tolower]
    of a negative [char], [memcmp] past the end of a literal, a null pointer
    where a function needs a string).  The position of [strtok], the two
    memories, the label table and the copy of the source are the state
    [Emulator.Emulator]; the file is an argument, [None] if it cannot be
    opened.  The two copies of the assembler differ in their mnemonics only,
    which are the class [Emulator.AsmTarget]: every theorem is proved for
    both.

    * The files

    - [Prelude]: results, the monad, loops, list lemmas, partial-correctness
      rules, tactics.
    - [Machine]: machine integers and little-endian bytes.
    - [DataStruct]: opcodes, operands, instructions ([include/DataStruct.hh]).
    - [Memory]: [BaseMemory] and the sized accesses of [libs/DataMemory.cc].
    - [Bus]: packets ([include/packet/XBarPacket.hh]), the address map and
      the packet constructors ([include/MMIOUtil.hh]), pipe registers.
    - [DataMemory]: the data memory on the bus.
    - [Cfu]: the SIMD function unit ([libs/CFU.cc]).
    - [Isa]: register file, the arithmetic of [CPU::processInstr], and a
      reference step of the RV32I instructions, written from the manual.
    - [Reference]: the reference machine, which adds loads and stores to the
      steps of [Isa], the instructions on which it is compared with the two
      processors, and how the registers correspond.
    - [Cpu]: the processor ([libs/CPU.cc], [include/CPU.hh]); [CpuRef]: one
      of its instructions and a step of the reference.
    - [Soc]: processor, memory and function unit composed.
    - [Dma]: the DMA controller ([libs/DMA.cc], [include/DMA.hh]);
      [DmaCopy]: what a transfer does to memory.
    - [Grid]: two-dimensional arrays; [SystolicPE]: the processing elements
      and the schedule of a tile; [Systolic]: the device
      ([libs/SystolicArray.cc]); [SystolicMatmul]: it multiplies;
      [SystolicPorts]: it and the bus.
    - [MemPacket]: the memory packets of [src/riscv/], their visits and the
      data memory that serves them at once ([src/riscv/libs/MemPacket.cc],
      [DataMemory.cc]); [RvCpu]: the processor with its instruction packets
      ([src/riscv/libs/CPU.cc], [SOC.cc]), and its steps against the
      reference; [Pipeline]: the stages, their hazard and stall
      logic ([PipelineUtils.hh], [IFStage.cc] and the others) and their
      composition as a step relation.
    - [RvSystem]: the processor, its port and the pipeline as one step
      relation ([src/riscv/include/SOCTop.hh]) and its invariant;
      [RvProgress]: every state of it can go on until the program has ended;
      [RvSource]: the start from the text of a program ([SOC::init]), and
      what the program does from its text to the packets that leave.
    - [CString]: the functions of [string.h], [stdlib.h], [stdio.h] and
      [ctype.h] that the assembler uses, and their laws.
    - [Emulator]: the assembler of [soc/] ([libs/Emulator.cc],
      [include/Emulator.hh]), function by function; [RvEmulator]: the one of
      [src/riscv/], and in which mnemonics they differ.
    - [Asm]: the specification: programs as syntax trees, their text, their
      instruction words and layout, and when a program fits.
    - [Assembler], [AsmPass], [AsmLink]: the assembler on a line, the first
      pass on a program, the second pass on a word; [AsmCorrect]: both passes
      composed; [AsmSource]: the program as the reference machine sees it, and
      that what the assembler writes means the same; [AsmRun]: assembled code
      on the processor of [Cpu]; [AsmErrors]: termination, range checks and what they miss.
    - [Device]: the interface between a device and the crossbar, as a class,
      and the promises of a device, as a class of laws; [Network]: devices on
      a crossbar as a step relation, and its invariant, proved from the
      interface; [SocDevices], [SocDma], [SocSystolic]: the devices of the SoC
      are instances and keep the promises; [SocSystem]: the wiring and the
      start-up of [include/SOC.hh], and the theorems on the whole SoC.
    - [SocAccess]: single accesses at the data memory; [Transactions]: the
      data memory as a bag of burst transactions, a specification that it
      refines.
    - [DmaLink]: the DMA controller, the data memory and the registers between
      them, and the invariant of a transfer; [DmaSteps]: every call keeps it,
      and the step relation of the two; [DmaStart]: the register writes that
      start a transfer; [DmaProgress]: a transfer can always go on;
      [SocTransfer]: the SoC during a transfer, its steps as steps of the two
      devices and back, and the theorems on the whole SoC.
    - [Timed]: the network in time; [SocExec]: one execution of the processor; [SocLink]: the
      processor, the data memory and the two registers of the bus between
      them in time, as a step relation, and the invariant that relates it to
      the reference; [SocTimed]: the timed SoC is a run of [SocLink] while
      the other devices are idle; [SocProgress]: what there is to do has a cost
      that the SoC can always make smaller; [SocProgram]: programs from their
      text.

    * What the theorems show

    - Refinement.  An instruction that the processor executes is the
      reference step if it is [Isa.conforming]; the instructions that are not
      are listed with what they do instead ([Cpu.cpu_refines_rv32]); a load and a store give the reference
      result through request, service and response ([Soc.load_end_to_end],
      [Soc.store_end_to_end]); the data memory serves any number of
      interleaved burst transactions as if each were alone
      ([Transactions.mem_serves_bursts]); the systolic array leaves the product
      of the matrices in its SRAM ([SystolicMatmul.sa_multiplies]); the
      processor of [src/riscv/] runs a program as the reference does, and to
      its end, whatever the other side of its port does
      ([RvCpu.rv_runs_program]).
    - The whole pipelined simulator, for every order in which the framework
      runs the processor, the retries and the stages.  Booted from the text
      of a program it executes, instruction by instruction, what the
      reference machine does with that text, with the same registers and the
      same memory ([RvSource.rv_program_followed]); a program that ends can
      be brought to its end from every reachable state, with its whole trace
      retired in order ([RvSource.rv_program_completes]); and whatever the
      program, no packet is lost, repeated, reordered or recycled while it is
      in flight ([RvSystem.rv_packets_conserved]).  The processors write
      register 0 like any other, and the [JAL] of [j] does: the reference
      machine keeps the register at zero, and the states are compared with
      [Reference.x0_view] as long as the program does not read the register
      after it was written.
    - The whole SoC on a program that does not use the DMA controller or the
      systolic array, from its text: between two instructions the registers,
      the program counter and, once the stores under way have been performed,
      the memory are those of the reference, for every order of events within
      a tick, every delivery and every stall ([SocProgram.soc_program_followed]);
      and a program that ends can be brought to its end from every state of
      such a run, with nothing left on its way
      ([SocProgram.soc_program_completes]).
      The runs are those in which an event fires in its tick, a register hands
      over at most one packet per tick and the bus refuses no store: what a
      refused store does is another theorem ([Cpu.cpu_retry_repeats_store]).
    - The whole SoC during a DMA transfer that the processor has programmed,
      for every order of calls, deliveries, events and stalls: the words of
      the source tile are copied to the destination and nothing else changes,
      at any moment of the transfer ([SocTransfer.soc_transfer_copies]); and
      from every state the transfer can be brought to its end, after which
      nothing of it comes back ([SocTransfer.soc_transfer_completes]).
      Source and destination lie apart in the data memory, and the processor
      and the systolic array are idle.  That DONE is then set is proved
      unless the last round of the transfer is a single burst (1, 2 or 4 words
      modulo 256), where the flag can be missed
      ([DmaCopy.dma_done_counts_queued]).
    - Equivalence with a plain specification: the SIMD unit and lane
      arithmetic ([Cfu]), the grid of processing elements and the product of
      two tiles ([SystolicPE]), the SRAM and a memory at an offset
      ([SystolicPorts.sa_sram_is_memory]).
    - The assembler is the inverse of the printer of [Asm]: the text of every
      well-formed program that fits assembles to its instruction words with
      all labels, forward references included, replaced by addresses, and to
      its data ([AsmCorrect.assemble_correct]); the two words made of [li] and
      [la] load the constant or the address when the processor runs them
      ([AsmRun.pseudo_load_runs]); on every input at all the assembler ends
      ([AsmErrors.assemble_terminates]).
    - The whole SoC, for every assembled program and every order of events and
      deliveries: a request reaches the device that owns the address of its
      first beat ([SocSystem.soc_requests_reach_owner]), and a response
      reaches the device that asked and answers one of its requests, beat for
      beat ([SocSystem.soc_responses_answer_requests]).
    - Invariants and conservation: any sequence of framework calls keeps the
      processor well formed; the data memory neither loses, duplicates nor
      reorders responses; interleaved transactions are answered once each;
      the packets of executed instructions reach the IF stage once each and
      in order under back-pressure ([RvCpu.rv_back_pressure]), and leave the
      pipeline in that order ([Pipeline.pipeline_in_order]).
    - The hazard check against the registers an instruction reads and writes,
      register 0 apart, which the check ignores although instructions write it
      ([Pipeline.hazard_check_sound], [Pipeline.hazard_check_misses_x0]), and the length of a memory stall
      ([Pipeline.mem_stall_time]).
    - Round trips and bounds of memory accesses and of the register files of
      the devices.
    - Behaviour that differs from what the code means to do, proved of the
      code as it is: a retried store is repeated, the done flag of the DMA
      controller counts only queued bursts, a refused request of the
      systolic array is lost, the assembler accepts register x32 and a
      pseudo-instruction in the last word, it accepts or refuses a jump by a
      field that nothing initialises ([AsmErrors.branch_and_jump_range]), and
      others.

    * Bounds and fuel

    Fuel occurs in four places.  [Dma.call_depth] bounds the depth to which
    the two scheduling routines of the DMA controller call each other, and
    [Dma.writes_loop] has one unit per buffered word; the theorems of
    [DmaCopy] show that both suffice on every state a transfer reaches.
    [Systolic.fire_all] runs pending events; [SystolicMatmul.sa_multiplies]
    gives the fuel with which none is left.  [Emulator.data_loop] has one unit
    more than the rest of the line has characters, and
    [AsmErrors.assemble_terminates] shows that it is never used up.  All other recursion is
    structural: loops run over [seq 0 n].  [RvCpu.rv_runs_program] is stated
    for the number of instructions that the reference executes, and
    [RvSource.rv_program_completes] and [SocProgram.soc_program_completes] for
    runs of fewer instructions than the [int] that counts them can hold.  The
    theorem on responses holds for runs of up to [2 ^ 32] transactions, as
    many as the counter of [XBarPacket.hh] can tell apart.  The order in which
    [Network] fires events is arbitrary, so that every order of ticks and
    every schedule of the framework is covered; one call of a device is one
    step, as each module runs in one thread.

    * What is not modelled

    The framework and the inside of its crossbar, [main.cc], configuration files, loggers
    and trace records (input and output only); the Chisel generator and the
    Python code generator of the repository (not part of the simulators). *)
From Stdlib Require Export ZArith Lia.
From stdpp Require Export base option strings numbers gmap list.

(** * Outcomes of a C++ routine

    A routine of the simulator either produces a value or ends the run.  The
    constructors of [fault] are the ways in which it can end: behaviour the
    C++ standard leaves undefined, a failed assertion, an error statement of
    the framework's logger, or a call to [exit]. *)

Inductive fault : Type :=
  | Undefined (what : string)
  | AssertFailed (what : string)
  | ErrorLogged (what : string)
  | Exited (code : Z).

Inductive result (A : Type) : Type :=
  | Ok (a : A)
  | Err (f : fault).
Arguments Ok {A} a.
Arguments Err {A} f.

#[export] Instance fault_eq_dec : EqDecision fault.
Proof. solve_decision. Defined.

#[export] Instance result_eq_dec {A} `{EqDecision A} : EqDecision (result A).
Proof. solve_decision. Defined.

#[export] Instance result_ret : MRet result := fun _ a => Ok a.
#[export] Instance result_bind : MBind result := fun _ _ k m =>
  match m with Ok a => k a | Err f => Err f end.
#[export] Instance result_fmap : FMap result := fun _ _ k m =>
  match m with Ok a => Ok (k a) | Err f => Err f end.

Definition check (b : bool) (f : fault) : result unit :=
  if b then Ok tt else Err f.

Definition from_opt {A} (f : fault) (o : option A) : result A :=
  match o with Some a => Ok a | None => Err f end.

(** * The simulation framework

    ACALSim is a git submodule whose sources are not part of the repository.
    What the model needs of it is a parameter: whether an error statement of
    its logger ([CLASS_ERROR], [LABELED_ERROR], [ERROR]) ends the run, and
    which values an [int] and an enumeration (by the position of the
    enumerator) hold before they are assigned. *)

Class Framework : Type := {
  error_halts : bool;
  indet_int : Z;
  indet_enum : nat;
}.

Definition log_error `{Framework} (msg : string) : result unit :=
  if error_halts then Err (ErrorLogged msg) else Ok tt.

(** A concrete framework, for examples: errors are only printed. *)
Definition printing_framework : Framework := {| error_halts := false; indet_int := 0; indet_enum := 0 |}.

(** * A monad of state, emitted effects and failure *)

Definition M (S W A : Type) : Type := S -> result (A * S * list W).

#[export] Instance M_ret {S W} : MRet (M S W) := fun _ a s => Ok (a, s, []).
#[export] Instance M_bind {S W} : MBind (M S W) := fun _ _ k m s =>
  match m s with
  | Ok (a, s1, w1) =>
      match k a s1 with
      | Ok (b, s2, w2) => Ok (b, s2, w1 ++ w2)
      | Err f => Err f
      end
  | Err f => Err f
  end.

Section Monad_operations.
Context {S W : Type}.

Definition get : M S W S := fun s => Ok (s, s, []).
Definition put (s' : S) : M S W unit := fun _ => Ok (tt, s', []).
Definition modify (f : S -> S) : M S W unit := fun s => Ok (tt, f s, []).
Definition emit (w : W) : M S W unit := fun s => Ok (tt, s, [w]).
Definition lift {A} (r : result A) : M S W A := fun s =>
  match r with Ok a => Ok (a, s, []) | Err f => Err f end.
Definition fail {A} (f : fault) : M S W A := fun _ => Err f.
Definition when (b : bool) (m : M S W unit) : M S W unit :=
  if b then m else mret tt.

(** [for x in xs do body x], left to right. *)
Fixpoint foreach {A} (xs : list A) (body : A -> M S W unit) : M S W unit :=
  match xs with
  | [] => mret tt
  | x :: xs' => body x ≫= fun _ => foreach xs' body
  end.

(** A loop that threads a C++ local variable through its iterations. *)
Fixpoint foldM {A B} (f : B -> A -> M S W B) (b : B) (xs : list A) : M S W B :=
  match xs with
  | [] => mret b
  | x :: xs' => f b x ≫= fun b' => foldM f b' xs'
  end.
End Monad_operations.

(** The state and the effects a run ends with. *)
Definition outcome {S W A} (m : M S W A) (s : S) : result (S * list W) :=
  match m s with Ok (_, s', w) => Ok (s', w) | Err f => Err f end.

(** A sequence of handlers run one after the other, their effects appended. *)
Fixpoint run_all {S W} (ms : list (M S W unit)) (s : S) : result (S * list W) :=
  match ms with
  | [] => Ok (s, [])
  | m :: ms' =>
      match outcome m s with
      | Ok (s1, w1) =>
          match run_all ms' s1 with
          | Ok (s2, w2) => Ok (s2, w1 ++ w2)
          | Err f => Err f
          end
      | Err f => Err f
      end
  end.

(** * Loops over results *)

Fixpoint foldR {A B} (f : B -> A -> result B) (b : B) (xs : list A) : result B :=
  match xs with
  | [] => Ok b
  | x :: xs' => f b x ≫= fun b' => foldR f b' xs'
  end.

(** * Tactics *)

(** Unfold the monads far enough for a concrete handler to compute. *)
Ltac unfold_monad :=
  unfold outcome, lift, modify, emit, get, put, fail, when, check, from_opt,
    mret, mbind, fmap, M_ret, M_bind, result_ret, result_bind, result_fmap in *.

(** Split on every [match] and [if] that blocks an equation or the goal. *)
Ltac split_matches :=
  repeat (first [ progress simplify_eq/= | case_match ]).

(** Step through a handler applied to a known state. *)
Ltac step_monad :=
  repeat (progress (unfold_monad; simpl)); rewrite ?app_nil_r.

(** Case on the condition of an [if], however deep inside a match. *)
Ltac case_if :=
  match goal with
  | |- context [if ?b then _ else _] =>
      lazymatch type of b with bool => destruct b eqn:? end
  end.

Create HintDb model.
Create Rewrite HintDb model.

(** * Lemmas on results and on the monad *)

Lemma bind_ok {A B} (m : result A) (k : A -> result B) b :
  (m ≫= k) = Ok b <-> exists a, m = Ok a /\ k a = Ok b.
Proof.
  destruct m as [a|f]; simpl; split.
  - intros H. by exists a.
  - intros (a' & [= <-] & H). done.
  - done.
  - intros (a' & [=] & _).
Qed.

Lemma M_bind_ok {S W A B} (m : M S W A) (k : A -> M S W B) s b s' w :
  (m ≫= k) s = Ok (b, s', w) <->
  exists a s1 w1 w2,
    m s = Ok (a, s1, w1) /\ k a s1 = Ok (b, s', w2) /\ w = w1 ++ w2.
Proof.
  unfold mbind, M_bind. destruct (m s) as [[[a s1] w1]|f].
  - destruct (k a s1) as [[[b' s2] w2]|f] eqn:Hk; split.
    + intros [= <- <- <-]. by exists a, s1, w1, w2.
    + intros (? & ? & ? & ? & [= <- <- <-] & Hk' & ->). congruence.
    + done.
    + intros (? & ? & ? & ? & [= <- <- <-] & Hk' & ->). congruence.
  - split; [done|]. by intros (? & ? & ? & ? & [=] & _).
Qed.

Lemma foreach_emit {S W A} (f : A -> W) (xs : list A) (s : S) :
  foreach xs (fun x => emit (f x)) s = Ok (tt, s, map f xs).
Proof. induction xs as [|x xs IH]; [done|]. simpl. step_monad. by rewrite IH. Qed.

Lemma foldR_app {A B} (f : B -> A -> result B) b xs ys :
  foldR f b (xs ++ ys) = foldR f b xs ≫= fun b' => foldR f b' ys.
Proof.
  revert b; induction xs as [|x xs IH]; intros b; simpl; [done|].
  destruct (f b x); simpl; [apply IH|done].
Qed.

(** A fold whose body never fails is a pure fold. *)
Lemma foldR_pure {A B} (f : B -> A -> result B) (g : B -> A -> B) b xs :
  (forall b x, x ∈ xs -> f b x = Ok (g b x)) -> foldR f b xs = Ok (foldl g b xs).
Proof.
  revert b; induction xs as [|x xs IH]; intros b Hf; simpl; [done|].
  rewrite Hf by apply list_elem_of_here. simpl.
  apply IH. intros ? ? ?. apply Hf. by apply list_elem_of_further.
Qed.

(** An invariant that every iteration keeps holds at the end. *)
Lemma foldR_inv {A B} (P : B -> Prop) (f : B -> A -> result B) b xs b' :
  P b -> (forall b x b1, x ∈ xs -> P b -> f b x = Ok b1 -> P b1) ->
  foldR f b xs = Ok b' -> P b'.
Proof.
  revert b; induction xs as [|x xs IH]; intros b; simpl; [by intros Hb _ [= <-]|].
  intros Hb Hf (b1 & H1 & H2)%bind_ok.
  eapply IH; [| |exact H2].
  - eapply Hf; [apply list_elem_of_here|exact Hb|exact H1].
  - intros ???? ??. eapply Hf; [by apply list_elem_of_further|done|done].
Qed.

Lemma run_all_cons {S W} (m : M S W unit) ms s :
  run_all (m :: ms) s =
  match outcome m s with
  | Ok (s1, w1) =>
      match run_all ms s1 with
      | Ok (s2, w2) => Ok (s2, w1 ++ w2)
      | Err f => Err f
      end
  | Err f => Err f
  end.
Proof. done. Qed.

Lemma run_all_app {S W} (ms1 ms2 : list (M S W unit)) s :
  run_all (ms1 ++ ms2) s =
  match run_all ms1 s with
  | Ok (s1, w1) =>
      match run_all ms2 s1 with
      | Ok (s2, w2) => Ok (s2, w1 ++ w2)
      | Err f => Err f
      end
  | Err f => Err f
  end.
Proof.
  revert s; induction ms1 as [|m ms1 IH]; intros s; simpl.
  - by destruct (run_all ms2 s) as [[]|].
  - destruct (outcome m s) as [[s1 w1]|]; [|done]. rewrite IH.
    destruct (run_all ms1 s1) as [[s2 w2]|]; [|done].
    destruct (run_all ms2 s2) as [[s3 w3]|]; [by rewrite app_assoc|done].
Qed.

(** * Lists *)

Lemma map_snd_imap {A B C T} (f : B -> C) (g : nat -> T) (h : A -> B) xs :
  map (f ∘ snd) (imap (fun i x => (g i, h x)) xs) = map (f ∘ h) xs.
Proof.
  revert g. induction xs as [|x xs IH]; intros g; [done|]. simpl. f_equal.
  apply (IH (g ∘ S)).
Qed.

(** [l] with its first [length v] elements from [i] on replaced by [v]: what
    [memcpy(l + i, v, n)] does inside the bounds of [l]. *)
Definition splice {A} (i : nat) (v l : list A) : list A :=
  take i l ++ v ++ drop (i + length v) l.

Definition slice {A} (i n : nat) (l : list A) : list A := take n (drop i l).

Lemma length_splice {A} i (v l : list A) :
  i + length v <= length l -> length (splice i v l) = length l.
Proof. intros. unfold splice. rewrite !length_app, length_take, length_drop. lia. Qed.

Lemma length_slice {A} i n (l : list A) :
  i + n <= length l -> length (slice i n l) = n.
Proof. intros. unfold slice. rewrite length_take, length_drop. lia. Qed.

Lemma lookup_splice {A} i (v l : list A) j :
  i + length v <= length l ->
  splice i v l !! j =
  if decide (i <= j < i + length v) then v !! (j - i) else l !! j.
Proof.
  intros Hl. unfold splice.
  assert (Ht : length (take i l) = i) by (rewrite length_take; lia).
  destruct (decide (j < i)) as [Hj|Hj].
  - rewrite lookup_app_l by lia. rewrite lookup_take_lt by lia.
    rewrite decide_False by lia. done.
  - rewrite lookup_app_r by lia. rewrite Ht. case_decide.
    + rewrite lookup_app_l by lia. done.
    + rewrite lookup_app_r by lia. rewrite lookup_drop. f_equal. lia.
Qed.

Lemma slice_splice_same {A} i (v l : list A) :
  i + length v <= length l -> slice i (length v) (splice i v l) = v.
Proof.
  intros. unfold slice, splice.
  rewrite drop_app_length' by (rewrite length_take; lia).
  by rewrite take_app_length.
Qed.

Lemma slice_splice_other {A} i j n (v l : list A) :
  i + length v <= length l -> (j + n <= i \/ i + length v <= j) ->
  slice j n (splice i v l) = slice j n l.
Proof.
  intros Hl Hd. apply list_eq. intros k. unfold slice.
  destruct (decide (k < n)) as [Hk|Hk].
  - rewrite !lookup_take_lt by lia. rewrite !lookup_drop.
    rewrite lookup_splice by lia. rewrite decide_False by lia. done.
  - rewrite !lookup_take_ge by lia. done.
Qed.

#[export] Hint Rewrite @length_splice @length_slice using (lia) : model.

(** Evaluate the first step of a sequence. *)
Lemma M_bind_eval {S W A B} (m : M S W A) (k : A -> M S W B) s a s1 w1 :
  m s = Ok (a, s1, w1) ->
  (m ≫= k) s =
  match k a s1 with Ok (b, s2, w2) => Ok (b, s2, w1 ++ w2) | Err f => Err f end.
Proof. intros H. unfold mbind, M_bind. by rewrite H. Qed.

(** The same for a step without effects. *)
Lemma M_bind_silent {S W A B} (m : M S W A) (k : A -> M S W B) s a s1 :
  m s = Ok (a, s1, []) -> (m ≫= k) s = k a s1.
Proof. intros H. unfold mbind, M_bind. rewrite H. by destruct (k a s1) as [[[]]|]. Qed.

Lemma M_bind_assoc {S W A B C} (m : M S W A) (f : A -> M S W B) (g : B -> M S W C) s :
  (m ≫= fun a => f a ≫= g) s = ((m ≫= f) ≫= g) s.
Proof.
  unfold mbind, M_bind. destruct (m s) as [[[a s1] w1]|]; [|done].
  destruct (f a s1) as [[[b s2] w2]|]; [|done].
  destruct (g b s2) as [[[c s3] w3]|]; [by rewrite app_assoc|done].
Qed.

Lemma outcome_bind {S W B} (m : M S W unit) (k : unit -> M S W B) s s1 w1 :
  outcome m s = Ok (s1, w1) ->
  (m ≫= k) s =
  match k tt s1 with Ok (b, s2, w2) => Ok (b, s2, w1 ++ w2) | Err f => Err f end.
Proof.
  unfold outcome. destruct (m s) as [[[[] ?] ?]|] eqn:E; [|done].
  intros [= -> ->]. by apply M_bind_eval.
Qed.

(** * Partial correctness of handlers

    [wp m Q s]: if [m] returns from state [s], its value, state and effects
    satisfy [Q]. *)

Definition wp {S W A} (m : M S W A) (Q : A -> S -> list W -> Prop) (s : S) : Prop :=
  forall a s' w, m s = Ok (a, s', w) -> Q a s' w.

Section Wp.
Context {S W : Type}.
Implicit Types s : S.

Lemma wp_mono {A} (m : M S W A) (P Q : A -> S -> list W -> Prop) s :
  wp m P s -> (forall a s' w, P a s' w -> Q a s' w) -> wp m Q s.
Proof. intros Hm HPQ a s' w E. by apply HPQ, Hm. Qed.

Lemma wp_ret {A} (a : A) (Q : A -> S -> list W -> Prop) s :
  Q a s [] -> wp (mret a) Q s.
Proof. intros HQ ??? [= <- <- <-]. done. Qed.

Lemma wp_bind {A B} (m : M S W A) (k : A -> M S W B) (Q : B -> S -> list W -> Prop) s :
  wp m (fun a s1 w1 => wp (k a) (fun b s2 w2 => Q b s2 (w1 ++ w2)) s1) s ->
  wp (m ≫= k) Q s.
Proof.
  intros Hm b s2 w E. apply M_bind_ok in E as (a & s1 & w1 & w2 & E1 & E2 & ->).
  by apply (Hm _ _ _ E1).
Qed.

Lemma wp_get (Q : S -> S -> list W -> Prop) s : Q s s [] -> wp get Q s.
Proof. intros HQ ??? [= <- <- <-]. done. Qed.

Lemma wp_put (Q : unit -> S -> list W -> Prop) s s' : Q tt s' [] -> wp (put s') Q s.
Proof. intros HQ ??? [= <- <- <-]. done. Qed.

Lemma wp_modify (f : S -> S) (Q : unit -> S -> list W -> Prop) s :
  Q tt (f s) [] -> wp (modify f) Q s.
Proof. intros HQ ??? [= <- <- <-]. done. Qed.

Lemma wp_emit (w : W) (Q : unit -> S -> list W -> Prop) s : Q tt s [w] -> wp (emit w) Q s.
Proof. intros HQ ??? [= <- <- <-]. done. Qed.

Lemma wp_lift {A} (r : result A) (Q : A -> S -> list W -> Prop) s :
  (forall a, r = Ok a -> Q a s []) -> wp (lift r) Q s.
Proof. unfold lift. intros HQ a s' w. destruct r; [|done]. intros [= <- <- <-]. by apply HQ. Qed.

Lemma wp_fail {A} f (Q : A -> S -> list W -> Prop) s : wp (fail f) Q s.
Proof. done. Qed.

Lemma wp_when b (m : M S W unit) (Q : unit -> S -> list W -> Prop) s :
  (b = true -> wp m Q s) -> (b = false -> Q tt s []) -> wp (when b m) Q s.
Proof. destruct b; simpl; [auto|]. intros _ HQ. by apply wp_ret, HQ. Qed.

(** A loop keeps what its body keeps. *)
Lemma wp_foreach {A} (xs : list A) (body : A -> M S W unit) (P : S -> Prop) s :
  P s -> (forall x s, x ∈ xs -> P s -> wp (body x) (fun _ s' _ => P s') s) ->
  wp (foreach xs body) (fun _ s' _ => P s') s.
Proof.
  revert s; induction xs as [|x xs IH]; intros s Hs Hb; simpl; [by apply wp_ret|].
  apply wp_bind. eapply wp_mono; [apply Hb; [apply list_elem_of_here|done]|].
  intros u s1 w1 Hs1. simpl. eapply wp_mono; [apply (IH s1 Hs1)|done].
  intros y s2 Hy Hs2. apply Hb; [by apply list_elem_of_further|done].
Qed.

(** The same with a bound that each iteration raises by [k], and with what
    holds of every effect. *)
Lemma wp_foreach_count {A} (xs : list A) (body : A -> M S W unit)
    (I : nat -> S -> Prop) (G : W -> Prop) k :
  (forall x s n, x ∈ xs -> I n s ->
     wp (body x) (fun _ s' w => I (n + k) s' /\ Forall G w) s) ->
  forall n s, I n s ->
  wp (foreach xs body) (fun _ s' w => I (n + k * length xs) s' /\ Forall G w) s.
Proof.
  induction xs as [|x xs IH]; intros Hb n s Hs; simpl.
  - apply wp_ret. by rewrite Nat.mul_0_r, Nat.add_0_r.
  - apply wp_bind. eapply wp_mono; [apply Hb; [apply list_elem_of_here|exact Hs]|].
    intros u s1 w1 [Hs1 Hw1]. simpl. eapply wp_mono.
    { apply (IH (fun y s2 m Hy => Hb y s2 m (list_elem_of_further _ _ _ Hy)) _ _ Hs1). }
    intros u2 s2 w2 [Hs2 Hw2]. split; [|by apply Forall_app].
    by rewrite Nat.mul_succ_r, (Nat.add_comm (k * _)), Nat.add_assoc.
Qed.

Lemma wp_outcome {A} (m : M S W A) (P : S -> list W -> Prop) s s' w :
  wp m (fun _ => P) s -> outcome m s = Ok (s', w) -> P s' w.
Proof.
  unfold outcome. intros Hm. destruct (m s) as [[[a s1] w1]|f] eqn:E; [|done].
  intros [= <- <-]. by apply (Hm _ _ _ E).
Qed.
End Wp.

(** Walk through a handler, one construct at a time. *)
Ltac wp_step :=
  match goal with
  | |- wp (_ ≫= _) _ _ => apply wp_bind
  | |- wp (mret _) _ _ => apply wp_ret
  | |- wp get _ _ => apply wp_get
  | |- wp (put _) _ _ => apply wp_put
  | |- wp (modify _) _ _ => apply wp_modify
  | |- wp (emit _) _ _ => apply wp_emit
  | |- wp (lift _) _ _ => apply wp_lift; intros ? ?
  | |- wp (fail _) _ _ => apply wp_fail
  | |- wp (when _ _) _ _ => apply wp_when; intros ?
  | |- wp (let '(_, _) := ?e in _) _ _ => destruct e as [? ?] eqn:?
  | |- wp (if ?b then _ else _) _ _ => destruct b eqn:?
  | |- wp (match ?e with _ => _ end) _ _ => destruct e eqn:?
  end; cbn beta iota.
Ltac wp_steps := repeat wp_step.

(** * Total correctness of handlers without effects

    [twp m Q s]: from state [s], [m] returns a value and a state that satisfy
    [Q], and schedules nothing. *)

Definition twp {S W A} (m : M S W A) (Q : A -> S -> Prop) (s : S) : Prop :=
  exists a s', m s = Ok (a, s', []) /\ Q a s'.

Section Twp.
Context {S W : Type}.
Implicit Types s : S.

Lemma twp_mono {A} (m : M S W A) (P Q : A -> S -> Prop) s :
  twp m P s -> (forall a s', P a s' -> Q a s') -> twp m Q s.
Proof. intros (a & s' & E & HP) HPQ. exists a, s'. eauto. Qed.

Lemma twp_ret {A} (a : A) (Q : A -> S -> Prop) s : Q a s -> twp (mret a : M S W A) Q s.
Proof. intros. by exists a, s. Qed.

Lemma twp_bind {A B} (m : M S W A) (k : A -> M S W B) (Q : B -> S -> Prop) s :
  twp m (fun a s1 => twp (k a) Q s1) s -> twp (m ≫= k) Q s.
Proof.
  intros (a & s1 & E & b & s2 & E2 & HQ). exists b, s2. split; [|done].
  by rewrite (M_bind_silent _ _ _ _ _ E).
Qed.

Lemma twp_get (Q : S -> S -> Prop) s : Q s s -> twp (get : M S W S) Q s.
Proof. intros. by exists s, s. Qed.
Lemma twp_put (Q : unit -> S -> Prop) s s' : Q tt s' -> twp (put s' : M S W unit) Q s.
Proof. intros. by exists tt, s'. Qed.
Lemma twp_modify f (Q : unit -> S -> Prop) s : Q tt (f s) -> twp (modify f : M S W unit) Q s.
Proof. intros. by exists tt, (f s). Qed.
Lemma twp_lift {A} (r : result A) a (Q : A -> S -> Prop) s :
  r = Ok a -> Q a s -> twp (lift r : M S W A) Q s.
Proof. intros -> ?. by exists a, s. Qed.
Lemma twp_when b (m : M S W unit) (Q : unit -> S -> Prop) s :
  (b = true -> twp m Q s) -> (b = false -> Q tt s) -> twp (when b m) Q s.
Proof. destruct b; [auto|]. intros _ HQ. by apply twp_ret, HQ. Qed.

(** A loop that advances an invariant by one element at a time. *)
Lemma twp_foreach {A} (body : A -> M S W unit) (P : list A -> S -> Prop) s done_ xs :
  P done_ s ->
  (forall ys x s, ys ++ [x] `prefix_of` done_ ++ xs -> P ys s ->
    twp (body x) (fun _ s' => P (ys ++ [x]) s') s) ->
  twp (foreach xs body) (fun _ s' => P (done_ ++ xs) s') s.
Proof.
  revert s done_. induction xs as [|x xs IH]; intros s dn HP Hb; simpl.
  - apply twp_ret. by rewrite app_nil_r.
  - apply twp_bind. eapply twp_mono; [apply Hb; [|exact HP]|].
    { exists xs. by rewrite <- app_assoc. }
    intros [] s1 H1. replace (dn ++ x :: xs) with ((dn ++ [x]) ++ xs) in *
      by (by rewrite <- app_assoc).
    apply IH; [done|]. intros ys y s2 Hy. by apply Hb.
Qed.

Lemma twp_outcome {A} (m : M S W A) (P : S -> Prop) s :
  twp m (fun _ s' => P s') s -> exists s', outcome m s = Ok (s', []) /\ P s'.
Proof. intros (a & s' & E & HP). exists s'. split; [|done]. unfold outcome. by rewrite E. Qed.
End Twp.

Ltac twp_step :=
  match goal with
  | |- twp (_ ≫= _) _ _ => apply twp_bind
  | |- twp (mret _) _ _ => apply twp_ret
  | |- twp get _ _ => apply twp_get
  | |- twp (put _) _ _ => apply twp_put
  | |- twp (modify _) _ _ => apply twp_modify
  end; cbn beta iota.
