(* ===== verification/Machine.v ===== *)
(** Machine integers: the fixed-width arithmetic of C++ on Z, and the
    little-endian view of a word that [memcpy] and pointer casts give. *)
From S2P Require Import Prelude.
Local Open Scope Z_scope.

(** * Conversions

    [uint n z] is the conversion of [z] to the unsigned type of [n] bits, [sint n z]
    the conversion to the signed one. *)

Definition uint (n z : Z) : Z := z mod 2 ^ n.
Definition sint (n z : Z) : Z := (z + 2 ^ (n - 1)) mod 2 ^ n - 2 ^ (n - 1).

Abbreviation u8 := (uint 8) (only parsing).
Abbreviation u16 := (uint 16) (only parsing).
Abbreviation u32 := (uint 32) (only parsing).
Abbreviation s8 := (sint 8) (only parsing).
Abbreviation s16 := (sint 16) (only parsing).
Abbreviation s32 := (sint 32) (only parsing).

(** The value set of an unsigned type. *)
Definition is_u (n z : Z) : Prop := 0 <= z < 2 ^ n.

#[export] Instance is_u_dec n z : Decision (is_u n z).
Proof. unfold is_u. apply _. Defined.

(** * Arithmetic of [uint32_t] *)

Definition add32 (x y : Z) : Z := u32 (x + y).
Definition sub32 (x y : Z) : Z := u32 (x - y).
Definition mul32 (x y : Z) : Z := u32 (x * y).

(** A shift by 32 or more is undefined in C++. *)
Definition shl32 (x k : Z) : result Z :=
  if k <? 32 then Ok (u32 (Z.shiftl x k)) else Err (Undefined "shift count").
Definition shr32 (x k : Z) : result Z :=
  if k <? 32 then Ok (Z.shiftr x k) else Err (Undefined "shift count").
Definition sar32 (x k : Z) : result Z :=
  if k <? 32 then Ok (u32 (Z.shiftr (s32 x) k)) else Err (Undefined "shift count").

(** * Little-endian bytes *)

Fixpoint le_bytes (n : nat) (z : Z) : list Z :=
  match n with
  | O => []
  | S n' => u8 z :: le_bytes n' (Z.shiftr z 8)
  end.

Fixpoint le_value (bs : list Z) : Z :=
  match bs with
  | [] => 0
  | b :: bs' => b + 256 * le_value bs'
  end.

(** * Lemmas *)

Lemma uint_range n z : 0 <= n -> is_u n (uint n z).
Proof. intros. apply Z.mod_pos_bound. lia. Qed.

Lemma uint_id n z : is_u n z -> uint n z = z.
Proof. apply Z.mod_small. Qed.

Lemma is_u_mono n n' z : n <= n' -> is_u n z -> is_u n' z.
Proof.
  intros Hn [H0 H1]. split; [done|]. eapply Z.lt_le_trans; [exact H1|].
  by apply Z.pow_le_mono_r.
Qed.

Lemma uint_uint n z : uint n (uint n z) = uint n z.
Proof. apply Zmod_mod. Qed.

Lemma uint_add_l n x y : uint n (uint n x + y) = uint n (x + y).
Proof. unfold uint. by rewrite Zplus_mod_idemp_l. Qed.

Lemma uint_add_r n x y : uint n (x + uint n y) = uint n (x + y).
Proof. unfold uint. by rewrite Zplus_mod_idemp_r. Qed.

Lemma uint_mul_l n x y : uint n (uint n x * y) = uint n (x * y).
Proof. unfold uint. by rewrite Zmult_mod_idemp_l. Qed.

Lemma uint_mul_r n x y : uint n (x * uint n y) = uint n (x * y).
Proof. unfold uint. by rewrite Zmult_mod_idemp_r. Qed.

Lemma uint_sub_l n x y : uint n (uint n x - y) = uint n (x - y).
Proof. unfold uint. by rewrite Zminus_mod_idemp_l. Qed.

Lemma uint_sub_r n x y : uint n (x - uint n y) = uint n (x - y).
Proof. unfold uint. by rewrite Zminus_mod_idemp_r. Qed.

#[export] Hint Rewrite uint_uint uint_add_l uint_add_r uint_mul_l uint_mul_r uint_sub_l uint_sub_r : model.

Lemma uint_sint n z : uint n (sint n z) = uint n z.
Proof.
  unfold sint. fold (uint n (z + 2 ^ (n - 1))). rewrite uint_sub_l. f_equal. lia.
Qed.

Lemma sint_uint n z : sint n (uint n z) = sint n z.
Proof. unfold sint, uint. by rewrite Zplus_mod_idemp_l. Qed.

#[export] Hint Rewrite uint_sint sint_uint : model.

Lemma sint_range n z : 0 < n -> - 2 ^ (n - 1) <= sint n z < 2 ^ (n - 1).
Proof.
  intros Hn. unfold sint.
  assert (2 ^ n = 2 * 2 ^ (n - 1)) as Hp.
  { replace n with (1 + (n - 1)) at 1 by lia. rewrite Z.pow_add_r by lia. done. }
  pose proof (Z.mod_pos_bound (z + 2 ^ (n - 1)) (2 ^ n)). lia.
Qed.

Lemma sint_id n z : 0 < n -> - 2 ^ (n - 1) <= z < 2 ^ (n - 1) -> sint n z = z.
Proof.
  intros Hn Hz. unfold sint.
  assert (2 ^ n = 2 * 2 ^ (n - 1)) as Hp.
  { replace n with (1 + (n - 1)) at 1 by lia. rewrite Z.pow_add_r by lia. done. }
  rewrite Z.mod_small by lia. lia.
Qed.

(** The signed reading of an unsigned value. *)
Lemma sint_of_uint n z : 0 < n -> is_u n z ->
  sint n z = if z <? 2 ^ (n - 1) then z else z - 2 ^ n.
Proof.
  intros Hn [Hz0 Hz1]. unfold sint.
  assert (2 ^ n = 2 * 2 ^ (n - 1)) as Hp.
  { replace n with (1 + (n - 1)) at 1 by lia. rewrite Z.pow_add_r by lia. done. }
  destruct (Z.ltb_spec z (2 ^ (n - 1))).
  - rewrite Z.mod_small by lia. lia.
  - replace (z + 2 ^ (n - 1)) with (z - 2 ^ (n - 1) + 1 * 2 ^ n) by lia.
    rewrite Z.mod_add by lia. rewrite Z.mod_small by lia. lia.
Qed.

Lemma add32_range x y : is_u 32 (add32 x y).
Proof. by apply uint_range. Qed.
Lemma sub32_range x y : is_u 32 (sub32 x y).
Proof. by apply uint_range. Qed.
Lemma mul32_range x y : is_u 32 (mul32 x y).
Proof. by apply uint_range. Qed.

Lemma shl32_range x k v : shl32 x k = Ok v -> is_u 32 v.
Proof. unfold shl32. case_match; [|done]. intros [= <-]. by apply uint_range. Qed.

Lemma sar32_range x k v : sar32 x k = Ok v -> is_u 32 v.
Proof. unfold sar32. case_match; [|done]. intros [= <-]. by apply uint_range. Qed.

Lemma shr32_range x k v : is_u 32 x -> 0 <= k -> shr32 x k = Ok v -> is_u 32 v.
Proof.
  unfold shr32, is_u. intros Hx Hk. case_match; [|done]. intros [= <-].
  rewrite Z.shiftr_div_pow2 by lia.
  assert (0 < 2 ^ k) by (apply Z.pow_pos_nonneg; lia).
  split; [apply Z.div_pos; lia|].
  apply Z.div_lt_upper_bound; [lia|nia].
Qed.

#[export] Hint Resolve add32_range sub32_range mul32_range shl32_range sar32_range
  shr32_range : model.

Lemma length_le_bytes n z : length (le_bytes n z) = n.
Proof. revert z; induction n; intros; simpl; [done|]. by rewrite IHn. Qed.
#[export] Hint Rewrite length_le_bytes : model.

Lemma le_bytes_range n z : Forall (is_u 8) (le_bytes n z).
Proof. revert z; induction n; intros; simpl; constructor; [by apply uint_range|done]. Qed.

Lemma le_value_bytes n z : le_value (le_bytes n z) = uint (8 * Z.of_nat n) z.
Proof.
  revert z; induction n as [|n IH]; intros z; simpl le_value.
  - unfold uint. by rewrite Z.mod_1_r.
  - rewrite IH. unfold uint. rewrite Z.shiftr_div_pow2 by lia.
    replace (8 * Z.of_nat (S n)) with (8 + 8 * Z.of_nat n) by lia.
    rewrite Z.pow_add_r by lia.
    rewrite Z.rem_mul_r by (try apply Z.pow_nonzero; lia). done.
Qed.

Lemma le_value_range bs :
  Forall (is_u 8) bs -> is_u (8 * Z.of_nat (length bs)) (le_value bs).
Proof.
  unfold is_u. induction 1 as [|b bs Hb _ IH]; simpl length; simpl le_value; [lia|].
  replace (8 * Z.of_nat (S (length bs))) with (8 + 8 * Z.of_nat (length bs)) by lia.
  rewrite Z.pow_add_r by lia. lia.
Qed.

Lemma le_bytes_value bs :
  Forall (is_u 8) bs -> le_bytes (length bs) (le_value bs) = bs.
Proof.
  induction 1 as [|b bs Hb Hbs IH]; simpl; [done|].
  unfold is_u in Hb. f_equal.
  - unfold uint. rewrite (Z.mul_comm 256), Z.mod_add by lia. apply Z.mod_small. lia.
  - rewrite Z.shiftr_div_pow2 by lia. rewrite (Z.mul_comm 256), Z.div_add by lia.
    rewrite Z.div_small by lia. done.
Qed.

Lemma le_value_shift bs k : Forall (is_u 8) bs -> (k <= length bs)%nat ->
  Z.shiftr (le_value bs) (8 * Z.of_nat k) = le_value (drop k bs).
Proof.
  revert bs. induction k as [|k IH]; intros bs Hbs Hk.
  - by rewrite Z.shiftr_0_r, drop_0.
  - destruct Hbs as [|b bs Hb Hbs]; [simpl in Hk; lia|]. simpl drop.
    rewrite <- IH by (done || (simpl in Hk; lia)).
    replace (8 * Z.of_nat (S k)) with (8 + 8 * Z.of_nat k) by lia.
    rewrite <- Z.shiftr_shiftr by lia. f_equal. simpl le_value.
    rewrite Z.shiftr_div_pow2 by lia. unfold is_u in Hb.
    rewrite (Z.mul_comm 256), Z.div_add by lia. rewrite Z.div_small by lia. lia.
Qed.

Lemma le_value_byte bs k b : Forall (is_u 8) bs -> bs !! k = Some b ->
  Z.land (Z.shiftr (le_value bs) (8 * Z.of_nat k)) 0xFF = b.
Proof.
  intros Hbs Hk. pose proof (lookup_lt_Some _ _ _ Hk).
  rewrite le_value_shift by (done || lia). rewrite (drop_S _ _ _ Hk). simpl le_value.
  change 0xFF with (Z.ones 8). rewrite Z.land_ones by lia.
  assert (is_u 8 b) as Hb by (by apply (Forall_lookup_1 _ _ _ _ Hbs Hk)). unfold is_u in Hb.
  rewrite (Z.mul_comm 256), Z.mod_add by lia. by apply Z.mod_small.
Qed.

(** * Packed bytes *)

Lemma lor_shiftl_add x y k : 0 <= k -> 0 <= y < 2 ^ k -> Z.lor (Z.shiftl x k) y = x * 2 ^ k + y.
Proof.
  intros Hk Hy. rewrite <- Z.shiftl_mul_pow2 by lia.
  assert (Z.land (Z.shiftl x k) y = 0) as Hl.
  { apply Z.bits_inj'. intros i Hi. rewrite Z.land_spec, Z.bits_0, Z.shiftl_spec by lia.
    destruct (Z.ltb_spec i k).
    - by rewrite Z.testbit_neg_r by lia.
    - destruct (decide (y = 0)) as [->|Hne]; [by rewrite Z.bits_0, andb_false_r|].
      rewrite (Z.bits_above_log2 y), andb_false_r; [done|lia|].
      apply Z.lt_le_trans with k; [apply Z.log2_lt_pow2; lia|lia]. }
  pose proof (Z.add_lor_land (Z.shiftl x k) y). lia.
Qed.

(** Four bytes packed by shifts into a word. *)
Lemma pack_bytes a b c d : is_u 8 a -> is_u 8 b -> is_u 8 c -> is_u 8 d ->
  Z.lor (Z.lor (Z.lor (Z.shiftl a 24) (Z.shiftl b 16)) (Z.shiftl c 8)) d =
  le_value [d; c; b; a].
Proof.
  unfold is_u. intros Ha Hb Hc Hd.
  replace (Z.shiftl a 24) with (Z.shiftl (Z.shiftl a 8) 16) by (by rewrite Z.shiftl_shiftl by lia).
  rewrite <- Z.shiftl_lor. rewrite (lor_shiftl_add a b) by lia.
  replace (Z.shiftl (a * 2 ^ 8 + b) 16) with (Z.shiftl (Z.shiftl (a * 2 ^ 8 + b) 8) 8)
    by (by rewrite Z.shiftl_shiftl by lia).
  rewrite <- Z.shiftl_lor. rewrite (lor_shiftl_add (a * 2 ^ 8 + b) c) by lia.
  rewrite lor_shiftl_add by lia. simpl. lia.
Qed.
