(* ===== verification/DataStruct.v ===== *)
(** The instruction data of [soc/include/DataStruct.hh] and of its copy
    [src/riscv/include/DataStruct.hh]: opcodes, operands, decoded
    instructions, and the printed names of the opcodes.

    The enumeration of the riscv tree is the one of the soc tree without the
    SIMD instructions, [MUL] and [NOP]; the model has the larger one, and
    [riscv_op] singles out the smaller. *)
From S2P Require Import Prelude Machine.

Inductive instr_type : Type :=
  | UNIMPL
  | ADD | ADDI | AND | ANDI | AUIPC
  | BEQ | BGE | BGEU | BLT | BLTU | BNE
  | JAL | JALR
  | LB | LBU | LH | LHU | LUI | LW
  | OR | ORI
  | SB | SH
  | SLL | SLLI | SLT | SLTI | SLTIU | SLTU
  | SRA | SRAI | SRL | SRLI
  | SUB | SW | XOR | XORI
  | S_ADDI8I8S_VV | S_ADDI16I16S_VV | S_SUBI8I8S_VV | S_SUBI16I16S_VV
  | S_PMULI8I16S_VV_L | S_PMULI8I16S_VV_H | S_AMULI8I8S_VV_NQ | S_AMULI8I8S_VV_L
  | MUL | NOP | HCF.

Inductive operand_type : Type :=
  | OPTYPE_NONE | OPTYPE_REG | OPTYPE_IMM | OPTYPE_LABEL.

#[export] Instance instr_type_eq_dec : EqDecision instr_type.
Proof. solve_decision. Defined.
#[export] Instance operand_type_eq_dec : EqDecision operand_type.
Proof. solve_decision. Defined.

(** [label] is the text of the [char] array up to its terminator; an array
    with no terminator holds [MAX_LABEL_LEN] characters. *)
Record operand : Type := Operand {
  o_type : operand_type;
  o_label : string;
  o_reg : Z;
  o_imm : Z;
}.

(** [psrc] points into the source buffer: it is an offset, or [NULL]. *)
Record instr : Type := Instr {
  i_op : instr_type;
  i_a1 : operand;
  i_a2 : operand;
  i_a3 : operand;
  i_psrc : option Z;
  i_orig_line : Z;
  i_breakpoint : bool;
}.

Definition MAX_LABEL_LEN : nat := 32.

#[export] Instance operand_eq_dec : EqDecision operand.
Proof. solve_decision. Defined.
#[export] Instance instr_eq_dec : EqDecision instr.
Proof. solve_decision. Defined.

(** The enumerators, and the one that an uninitialised opcode holds. *)
Definition instr_types : list instr_type :=
  [UNIMPL; ADD; ADDI; AND; ANDI; AUIPC; BEQ; BGE; BGEU; BLT; BLTU; BNE; JAL; JALR;
   LB; LBU; LH; LHU; LUI; LW; OR; ORI; SB; SH; SLL; SLLI; SLT; SLTI; SLTIU; SLTU;
   SRA; SRAI; SRL; SRLI; SUB; SW; XOR; XORI;
   S_ADDI8I8S_VV; S_ADDI16I16S_VV; S_SUBI8I8S_VV; S_SUBI16I16S_VV;
   S_PMULI8I16S_VV_L; S_PMULI8I16S_VV_H; S_AMULI8I8S_VV_NQ; S_AMULI8I8S_VV_L;
   MUL; NOP; HCF].
Definition indet_op `{Framework} : instr_type := nth indet_enum instr_types UNIMPL.

(** An [operand] or [instr] of automatic storage: the members with a default
    initialiser have it, the others are indeterminate. *)
Definition auto_operand `{Framework} : operand :=
  Operand OPTYPE_NONE "" indet_int indet_int.
Definition auto_instr `{Framework} : instr :=
  Instr indet_op auto_operand auto_operand auto_operand None (-1) false.

Definition set_imm (v : Z) (o : operand) : operand :=
  Operand (o_type o) (o_label o) (o_reg o) v.

(** The opcodes of [src/riscv/include/DataStruct.hh]. *)
Definition riscv_op (op : instr_type) : bool :=
  match op with
  | S_ADDI8I8S_VV | S_ADDI16I16S_VV | S_SUBI8I8S_VV | S_SUBI16I16S_VV
  | S_PMULI8I16S_VV_L | S_PMULI8I16S_VV_H | S_AMULI8I8S_VV_NQ | S_AMULI8I8S_VV_L
  | MUL | NOP => false
  | _ => true
  end.

(** [PipelineUtils::instrToString]. *)
Definition base_instrToString (op : instr_type) : string :=
  match op with
  | UNIMPL => "UNIMPL"
  | ADD => "ADD" | AND => "AND" | OR => "OR" | XOR => "XOR" | SUB => "SUB"
  | SLL => "SLL" | SRL => "SRL" | SRA => "SRA" | SLT => "SLT" | SLTU => "SLTU"
  | ADDI => "ADDI" | ANDI => "ANDI" | ORI => "ORI" | XORI => "XORI"
  | SLLI => "SLLI" | SRLI => "SRLI" | SRAI => "SRAI"
  | SLTI => "SLTI" | SLTIU => "SLTIU"
  | LB => "LB" | LBU => "LBU" | LH => "LH" | LHU => "LHU" | LW => "LW"
  | SB => "SB" | SH => "SH" | SW => "SW"
  | BEQ => "BEQ" | BNE => "BNE" | BGE => "BGE" | BGEU => "BGEU"
  | BLT => "BLT" | BLTU => "BLTU"
  | JAL => "JAL" | JALR => "JALR"
  | AUIPC => "AUIPC" | LUI => "LUI"
  | HCF => "HCF"
  | _ => "UNKNOWN"
  end.

(** [CPU::instrToString] of the riscv tree: the same table. *)
Definition rv_instrToString : instr_type -> string := base_instrToString.

(** [CPU::instrToString] of the soc tree. *)
Definition instrToString (op : instr_type) : string :=
  match op with
  | S_ADDI8I8S_VV => "S_ADDI8I8S.vv"
  | S_ADDI16I16S_VV => "S_ADDI16I16S.vv"
  | S_SUBI8I8S_VV => "S_SUBI8I8S.vv"
  | S_SUBI16I16S_VV => "S_SUBI16I16S.vv"
  | S_PMULI8I16S_VV_L => "S_PMULI8I16S.vv.L"
  | S_PMULI8I16S_VV_H => "S_PMULI8I16S.vv.H"
  | S_AMULI8I8S_VV_NQ => "S_AMULI8I8S.vv.NQ"
  | S_AMULI8I8S_VV_L => "S_AMULI8I8S.vv.L"
  | op => base_instrToString op
  end.

(** [SystolicArray::instrToString]. *)
Definition sa_instrToString (op : instr_type) : string :=
  match op with
  | LB => "LB" | LBU => "LBU" | LH => "LH" | LHU => "LHU" | LW => "LW"
  | SB => "SB" | SH => "SH" | SW => "SW"
  | _ => "UNKNOWN"
  end.
