(* ===== verification/Memory.v ===== *)
(** [BaseMemory] (soc/libs/BaseMemory.cc and its copy in src/riscv): a byte
    array with range-checked reads and writes, and the sized, sign- or
    zero-extending accesses that both [DataMemory] models make on it. *)
From S2P Require Import Prelude Machine DataStruct.
Local Open Scope Z_scope.

(** * The byte array *)

Definition mem : Type := list Z.

(** [calloc(size, 1)] *)
Definition BaseMemory_new (size : nat) : mem := replicate size 0.

Definition getSize (m : mem) : Z := Z.of_nat (length m).

Definition out_of_range : fault :=
  AssertFailed "The memory region to be accessed is out of range.".

(** The sum [_addr + _size] is one of [size_t]: it does not wrap for a 32-bit
    address and a size of a few bytes. *)
Definition in_range (m : mem) (addr size : Z) : bool := addr + size <=? getSize m.

(** The pointer that [readData] returns is read for [size] bytes. *)
Definition readData (m : mem) (addr size : Z) : result (list Z) :=
  check (in_range m addr size) out_of_range ≫= fun _ =>
  Ok (slice (Z.to_nat addr) (Z.to_nat size) m).

(** [_data] is never null in the callers. *)
Definition writeData (data : list Z) (addr size : Z) (m : mem) : result mem :=
  check (in_range m addr size) out_of_range ≫= fun _ =>
  Ok (splice (Z.to_nat addr) (take (Z.to_nat size) data) m).

(** * Sized accesses *)

(** The switch that computes [bytes]; an opcode it does not name leaves 0. *)
Definition load_bytes (op : instr_type) : Z :=
  match op with
  | LB | LBU => 1
  | LH | LHU => 2
  | LW => 4
  | _ => 0
  end.

(** The switch that reads through the returned pointer. *)
Definition load_value (op : instr_type) (data : list Z) : Z :=
  match op with
  | LB => u32 (s8 (le_value (take 1 data)))
  | LBU => le_value (take 1 data)
  | LH => u32 (s16 (le_value (take 2 data)))
  | LHU => le_value (take 2 data)
  | LW => le_value (take 4 data)
  | _ => 0
  end.

Definition load (m : mem) (op : instr_type) (addr : Z) : result Z :=
  readData m addr (load_bytes op) ≫= fun data => Ok (load_value op data).

Definition store_bytes (op : instr_type) : Z :=
  match op with
  | SB => 1
  | SH => 2
  | SW => 4
  | _ => 0
  end.

Definition store (m : mem) (op : instr_type) (addr data : Z) : result mem :=
  match op with
  | SB => writeData (le_bytes 1 (u8 data)) addr 1 m
  | SH => writeData (le_bytes 2 (u16 data)) addr 2 m
  | SW => writeData (le_bytes 4 (u32 data)) addr 4 m
  | _ => Ok m
  end.

(** The cells are bytes. *)
Definition wf_mem (m : mem) : Prop := Forall (is_u 8) m.

(** The load of the same width as a store, without sign extension. *)
Definition reload (op : instr_type) : instr_type :=
  match op with SB => LBU | SH => LHU | _ => LW end.

Definition is_load (op : instr_type) : bool :=
  match op with LB | LBU | LH | LHU | LW => true | _ => false end.
Definition is_store (op : instr_type) : bool :=
  match op with SB | SH | SW => true | _ => false end.

(** * Lemmas *)

Lemma readData_ok m addr size : 0 <= addr -> 0 <= size ->
  readData m addr size =
  if in_range m addr size then Ok (slice (Z.to_nat addr) (Z.to_nat size) m)
  else Err out_of_range.
Proof. intros. unfold readData, check. by case_match. Qed.

Lemma le_bytes_uint n z : le_bytes n (uint (8 * Z.of_nat n) z) = le_bytes n z.
Proof.
  rewrite <- le_value_bytes.
  pose proof (le_bytes_value (le_bytes n z) (le_bytes_range n z)) as H.
  by rewrite length_le_bytes in H.
Qed.

Lemma writeData_bytes m addr n z :
  writeData (le_bytes n (uint (8 * Z.of_nat n) z)) addr (Z.of_nat n) m =
  if in_range m addr (Z.of_nat n)
  then Ok (splice (Z.to_nat addr) (le_bytes n z) m)
  else Err out_of_range.
Proof.
  unfold writeData, check. case_match; [|done]. simpl. do 2 f_equal.
  rewrite Nat2Z.id, take_ge by (by rewrite length_le_bytes).
  apply le_bytes_uint.
Qed.

Lemma store_unfold m op addr data : is_store op = true ->
  store m op addr data =
  if in_range m addr (store_bytes op)
  then Ok (splice (Z.to_nat addr) (le_bytes (Z.to_nat (store_bytes op)) data) m)
  else Err out_of_range.
Proof.
  destruct op; try discriminate; intros _.
  - exact (writeData_bytes m addr 1 data).
  - exact (writeData_bytes m addr 2 data).
  - exact (writeData_bytes m addr 4 data).
Qed.

Lemma store_length m op addr data m' :
  0 <= addr -> store m op addr data = Ok m' -> length m' = length m.
Proof.
  intros Ha. destruct (is_store op) eqn:Hop.
  - rewrite store_unfold by done. unfold in_range, getSize.
    case_match eqn:Hr; [|done]. intros [= <-].
    apply Z.leb_le in Hr. apply length_splice. rewrite length_le_bytes.
    destruct op; try discriminate; simpl in *; lia.
  - destruct op; try discriminate; simpl; by intros [= <-].
Qed.

Lemma Forall_splice {A} (P : A -> Prop) i v l :
  Forall P v -> Forall P l -> Forall P (splice i v l).
Proof.
  intros Hv Hl. unfold splice. rewrite !Forall_app.
  split; [by apply Forall_take|]. split; [done|by apply Forall_drop].
Qed.

Lemma store_wf m op addr data m' :
  wf_mem m -> store m op addr data = Ok m' -> wf_mem m'.
Proof.
  intros Hm. destruct (is_store op) eqn:Hop.
  - rewrite store_unfold by done. case_match; [|done]. intros [= <-].
    apply Forall_splice; [apply le_bytes_range|done].
  - destruct op; try discriminate; simpl; by intros [= <-].
Qed.

Lemma load_unfold m op addr : is_load op = true -> 0 <= addr ->
  load m op addr =
  if in_range m addr (load_bytes op)
  then Ok (load_value op (slice (Z.to_nat addr) (Z.to_nat (load_bytes op)) m))
  else Err out_of_range.
Proof.
  intros Hop Ha. unfold load. rewrite readData_ok by (destruct op; done || simpl; lia).
  by case_match.
Qed.

Lemma le_value_take_range n bs :
  Forall (is_u 8) bs -> is_u (8 * Z.of_nat n) (le_value (take n bs)).
Proof.
  intros Hbs. eapply is_u_mono; [|by apply le_value_range, Forall_take].
  rewrite length_take. lia.
Qed.

Lemma load_range m op addr v : wf_mem m -> load m op addr = Ok v -> is_u 32 v.
Proof.
  intros Hm. unfold load, readData, check. case_match; [|done]. simpl.
  intros [= <-].
  assert (Forall (is_u 8) (slice (Z.to_nat addr) (Z.to_nat (load_bytes op)) m)) as Hs
    by (apply Forall_take, Forall_drop, Hm).
  destruct op; cbn [load_value]; try (by apply uint_range); try (by split).
  all: eapply is_u_mono; [|by apply le_value_take_range]; lia.
Qed.

#[export] Hint Resolve store_wf load_range : model.

(** Reading back the range that was written. *)
Lemma slice_store m op addr v m' :
  is_store op = true -> 0 <= addr -> store m op addr v = Ok m' ->
  in_range m' addr (store_bytes op) = true /\
  slice (Z.to_nat addr) (Z.to_nat (store_bytes op)) m' =
  le_bytes (Z.to_nat (store_bytes op)) v.
Proof.
  intros Hop Ha Hs. pose proof (store_length _ _ _ _ _ Ha Hs) as Hlen.
  rewrite store_unfold in Hs by done. unfold in_range, getSize in *.
  rewrite Hlen. case_match eqn:Hr; [|done]. injection Hs as <-.
  split; [done|]. apply Z.leb_le in Hr.
  assert (0 <= store_bytes op) by (destruct op; simpl; lia).
  rewrite <- (length_le_bytes (Z.to_nat (store_bytes op)) v) at 1.
  apply slice_splice_same. rewrite length_le_bytes. lia.
Qed.

Lemma load_value_bytes op n v :
  load_bytes op = Z.of_nat n -> is_load op = true ->
  load_value op (le_bytes n v) =
  match op with
  | LB | LH => u32 (sint (8 * Z.of_nat n) v)
  | _ => uint (8 * Z.of_nat n) v
  end.
Proof.
  intros Hn Hop.
  assert (Ht : take n (le_bytes n v) = le_bytes n v)
    by (apply take_ge; by rewrite length_le_bytes).
  destruct op; try discriminate; cbn [load_bytes] in Hn; cbn [load_value].
  all: first [ assert (n = 1%nat) as -> by lia | assert (n = 2%nat) as -> by lia
             | assert (n = 4%nat) as -> by lia ].
  all: rewrite Ht, le_value_bytes, ?sint_uint; done.
Qed.

(** The signed load of the same width as a store. *)
Definition sreload (op : instr_type) : instr_type :=
  match op with SB => LB | SH => LH | _ => LW end.

(** Reading back what a store wrote, and what it left alone. *)
Lemma load_store_same m op addr v m' :
  is_store op = true -> 0 <= addr -> store m op addr v = Ok m' ->
  load m' (reload op) addr = Ok (uint (8 * store_bytes op) v) /\
  load m' (sreload op) addr = Ok (u32 (sint (8 * store_bytes op) v)).
Proof.
  intros Hop Ha Hs. destruct (slice_store _ _ _ _ _ Hop Ha Hs) as [Hr Hsl].
  destruct op; try discriminate; rewrite !load_unfold by done; simpl load_bytes;
    simpl store_bytes in *; rewrite Hr, Hsl, !load_value_bytes by done; simpl;
    by rewrite ?uint_sint.
Qed.

Lemma load_store_disjoint m op addr v m' op' addr' :
  is_load op' = true -> 0 <= addr -> 0 <= addr' -> store m op addr v = Ok m' ->
  addr' + load_bytes op' <= addr \/ addr + store_bytes op <= addr' ->
  load m' op' addr' = load m op' addr'.
Proof.
  intros Hl Ha Ha' Hs Hd. pose proof (store_length _ _ _ _ _ Ha Hs) as Hlen.
  rewrite !load_unfold by done. unfold in_range, getSize. rewrite Hlen.
  case_if; [|done]. do 2 f_equal. destruct (is_store op) eqn:Hop.
  - rewrite store_unfold in Hs by done. unfold in_range, getSize in Hs.
    case_match eqn:Hr; [|done]. injection Hs as <-. apply Z.leb_le in Hr.
    assert (0 <= store_bytes op /\ 0 <= load_bytes op') by (destruct op, op'; simpl; lia).
    apply slice_splice_other; rewrite length_le_bytes; lia.
  - destruct op; try discriminate; simpl in Hs; by injection Hs as <-.
Qed.

(** * Properties *)

(** C37. What a store of 1, 2 or 4 bytes writes is what the loads of that
    width read back: zero-extended by LBU, LHU and LW, sign-extended to 32
    bits by LB and LH. *)
Theorem store_load m op addr v m' :
  is_store op = true -> 0 <= addr -> store m op addr v = Ok m' ->
  load m' (reload op) addr = Ok (uint (8 * store_bytes op) v) /\
  load m' (sreload op) addr = Ok (u32 (sint (8 * store_bytes op) v)).
Proof. apply load_store_same. Qed.

(** A store leaves every load from bytes it does not overlap as it was. *)
Theorem store_load_other m op addr v m' op' addr' :
  is_load op' = true -> 0 <= addr -> 0 <= addr' -> store m op addr v = Ok m' ->
  addr' + load_bytes op' <= addr \/ addr + store_bytes op <= addr' ->
  load m' op' addr' = load m op' addr'.
Proof. apply load_store_disjoint. Qed.

(** C38. An access ends with the range assertion exactly when its last byte is
    outside the memory, and otherwise completes. *)
Theorem access_range m op addr v :
  0 <= addr ->
  (is_load op = true ->
     if addr + load_bytes op <=? getSize m then exists w, load m op addr = Ok w
     else load m op addr = Err out_of_range) /\
  (is_store op = true ->
     if addr + store_bytes op <=? getSize m
     then exists m', store m op addr v = Ok m' /\ getSize m' = getSize m
     else store m op addr v = Err out_of_range).
Proof.
  intros Ha. split; intros Hop.
  - rewrite load_unfold by done. unfold in_range. case_if; eauto.
  - pose proof (store_length m op addr v) as Hlen. rewrite store_unfold in * by done.
    unfold in_range in *. case_if; [|done]. eexists. split; [done|].
    unfold getSize. by rewrite Hlen.
Qed.

(** * Witnesses *)

Lemma store_load_witness :
  load [0; 0; 0x80; 0xFF] LHU 2 = Ok 0xFF80 /\
  load [0; 0; 0x80; 0xFF] LH 2 = Ok 0xFFFFFF80.
Proof. apply (store_load [0; 0; 0; 0] SH 2 0xFF80); [done|lia|done]. Defined.

Lemma store_load_other_witness :
  load [0; 0; 0x80; 0xFF] LH 0 = load [0; 0; 0; 0] LH 0.
Proof.
  apply (store_load_other [0; 0; 0; 0] SH 2 0xFF80); [done|lia|lia|done|simpl; lia].
Defined.

Lemma access_range_witness : load [0; 0; 0; 0] LW 1 = Err out_of_range.
Proof. apply (access_range [0; 0; 0; 0] LW 1 0); [lia|done]. Defined.
