(* ===== verification/Bus.v ===== *)
(** The packets of the crossbar ([soc/include/packet/XBarPacket.hh]), the
    address map and the packet constructors of [MMIOUTIL]
    ([soc/include/MMIOUtil.hh]), and the interface of the framework's pipe
    registers through which the devices reach the crossbar. *)
From S2P Require Import Prelude Machine DataStruct.
Local Open Scope Z_scope.

(** * Payloads: one beat of a transfer *)

Record XBarMemReadReqPayload : Type := ReadReqPayload {
  rq_caller : string; rq_tid : Z; rq_i : instr; rq_op : instr_type;
  rq_addr : Z; rq_a1 : operand;
}.

Record XBarMemWriteReqPayload : Type := WriteReqPayload {
  wq_caller : string; wq_tid : Z; wq_i : instr; wq_op : instr_type;
  wq_addr : Z; wq_data : Z;
}.

Record XBarMemReadRespPayload : Type := ReadRespPayload {
  rr_tid : Z; rr_i : instr; rr_op : instr_type; rr_data : Z; rr_a1 : operand;
}.

Record XBarMemWriteRespPayload : Type := WriteRespPayload {
  wr_tid : Z; wr_i : instr;
}.

(** * Packets *)

(** [XBarMemPacket<PayloadType>] over [BurstModeBusPacket]. *)
Record XBarMemPacket (P : Type) : Type := XBarPacket {
  pk_tid : Z;
  pk_burstLength : Z;
  pk_burstSize : Z;
  pk_payloads : list P;
  pk_src : nat;
  pk_dst : nat;
}.
Arguments XBarPacket {P}. Arguments pk_tid {P}. Arguments pk_burstLength {P}.
Arguments pk_burstSize {P}. Arguments pk_payloads {P}. Arguments pk_src {P}.
Arguments pk_dst {P}.

Definition XBarMemReadReqPacket := XBarMemPacket XBarMemReadReqPayload.
Definition XBarMemWriteReqPacket := XBarMemPacket XBarMemWriteReqPayload.
Definition XBarMemReadRespPacket := XBarMemPacket XBarMemReadRespPayload.
Definition XBarMemWriteRespPacket := XBarMemPacket XBarMemWriteRespPayload.

(** What a port carries; the dynamic casts of the handlers branch on it. *)
Inductive packet : Type :=
  | ReadReq (p : XBarMemReadReqPacket)
  | WriteReq (p : XBarMemWriteReqPacket)
  | ReadResp (p : XBarMemReadRespPacket)
  | WriteResp (p : XBarMemWriteRespPacket).

(** [std::pow(2, burstMode)] converted to [int]: one half becomes 0. *)
Definition burst_size (burstMode : Z) : Z :=
  if burstMode <? 0 then 0 else 2 ^ burstMode.

(** The static counter of [generateTransactionID], an atomic [int]. *)
Definition generateTransactionID (ctr : Z) : Z * Z := (ctr, s32 (ctr + 1)).

(** [renew]: a recycled packet keeps its transaction id, [stale], unless a
    new one is asked for. *)
Definition renew {P} (stale ctr burstMode : Z) (payloads : list P)
    (src dst : nat) (required_new_tid : bool) : XBarMemPacket P * Z :=
  if required_new_tid then
    let '(tid, ctr') := generateTransactionID ctr in
    (XBarPacket tid burstMode (burst_size burstMode) payloads src dst, ctr')
  else (XBarPacket stale burstMode (burst_size burstMode) payloads src dst, ctr).

Definition setTID {P} (tid : Z) (p : XBarMemPacket P) : XBarMemPacket P :=
  XBarPacket tid (pk_burstLength p) (pk_burstSize p) (pk_payloads p) (pk_src p) (pk_dst p).

Definition set_payloads {P} (l : list P) (p : XBarMemPacket P) : XBarMemPacket P :=
  XBarPacket (pk_tid p) (pk_burstLength p) (pk_burstSize p) l (pk_src p) (pk_dst p).

Definition rq_setTid (tid : Z) (p : XBarMemReadReqPayload) : XBarMemReadReqPayload :=
  ReadReqPayload (rq_caller p) tid (rq_i p) (rq_op p) (rq_addr p) (rq_a1 p).
Definition rq_setCaller (c : string) (p : XBarMemReadReqPayload) : XBarMemReadReqPayload :=
  ReadReqPayload c (rq_tid p) (rq_i p) (rq_op p) (rq_addr p) (rq_a1 p).
Definition wq_setTid (tid : Z) (p : XBarMemWriteReqPayload) : XBarMemWriteReqPayload :=
  WriteReqPayload (wq_caller p) tid (wq_i p) (wq_op p) (wq_addr p) (wq_data p).
Definition wq_setCaller (c : string) (p : XBarMemWriteReqPayload) : XBarMemWriteReqPayload :=
  WriteReqPayload c (wq_tid p) (wq_i p) (wq_op p) (wq_addr p) (wq_data p).

(** * The address map *)

Definition DMA_MMIO_BASE : Z := 0xF000.
Definition DMA_MMIO_END : Z := 0xF03F.
Definition SA_MMIO_BASE : Z := 0x12000.
Definition SA_MMIO_END : Z := 0x120F0.
Definition SA_MEMORY_BASE : Z := 0x20000.
Definition SA_MEMORY_END : Z := 0x28000.

Definition getIndex (name : string) : nat :=
  if decide (name = "cpu" \/ name = "dm") then 0
  else if decide (name = "dma") then 1
  else if decide (name = "sa") then 2
  else 0.

Definition slaveIndex (addr : Z) : nat :=
  if (DMA_MMIO_BASE <=? addr) && (addr <=? DMA_MMIO_END) then 1
  else if ((SA_MMIO_BASE <=? addr) && (addr <=? SA_MMIO_END))
       || ((SA_MEMORY_BASE <=? addr) && (addr <=? SA_MEMORY_END)) then 2
  else 0.

(** * Packet construction *)

Definition Construct_MemReadpkt_non_burst (ctr : Z) (i : instr) (op : instr_type)
    (addr : Z) (a1 : operand) (caller : string) : XBarMemReadReqPacket * Z :=
  let mem_req := ReadReqPayload caller (-1) i op addr a1 in
  let '(pkt, ctr') := renew 0 ctr 0 [mem_req] (getIndex caller) (slaveIndex addr) true in
  (set_payloads (map (rq_setTid (pk_tid pkt)) (pk_payloads pkt)) pkt, ctr').

Definition Construct_MemWritepkt_non_burst (ctr : Z) (i : instr) (op : instr_type)
    (addr data : Z) (caller : string) : XBarMemWriteReqPacket * Z :=
  let mem_req := WriteReqPayload caller (-1) i op addr data in
  let '(pkt, ctr') := renew 0 ctr 0 [mem_req] (getIndex caller) (slaveIndex addr) true in
  (set_payloads (map (wq_setTid (pk_tid pkt)) (pk_payloads pkt)) pkt, ctr').

(** The switch on the number of payloads. *)
Definition burst_mode_of (payload_size : nat) : Z :=
  match payload_size with
  | 4%nat => 2
  | 2%nat => 1
  | 1%nat => 0
  | _ => -1
  end.

(** [payloads[0]] of an empty vector is undefined. *)
Definition Construct_MemReadpkt_burst (ctr : Z) (src : string)
    (payloads : list XBarMemReadReqPayload) : result (XBarMemReadReqPacket * Z) :=
  let burst := burst_mode_of (length payloads) in
  let payloads := map (rq_setCaller src) payloads in
  from_opt (Undefined "payloads[0]") (head payloads) ≫= fun p0 =>
  let '(pkt, ctr') :=
    renew 0 ctr burst payloads (getIndex src) (slaveIndex (rq_addr p0)) true in
  Ok (set_payloads (map (rq_setTid (pk_tid pkt)) (pk_payloads pkt)) pkt, ctr').

Definition Construct_MemWritepkt_burst (ctr : Z) (src : string)
    (payloads : list XBarMemWriteReqPayload) : result (XBarMemWriteReqPacket * Z) :=
  let burst := burst_mode_of (length payloads) in
  let payloads := map (wq_setCaller src) payloads in
  from_opt (Undefined "payloads[0]") (head payloads) ≫= fun p0 =>
  let '(pkt, ctr') :=
    renew 0 ctr burst payloads (getIndex src) (slaveIndex (wq_addr p0)) true in
  Ok (set_payloads (map (wq_setTid (pk_tid pkt)) (pk_payloads pkt)) pkt, ctr').

(** [(n == 1) ? 0 : ceil(log2(n))]; the logarithm of 0 has no [int] value. *)
Definition resp_burst_mode (n : nat) : result Z :=
  match n with
  | O => Err (Undefined "log2(0) converted to int")
  | _ => Ok (Z.log2_up (Z.of_nat n))
  end.

Section Responses.
Context `{Framework}.

Definition Construct_MemReadRespPkt (beats : list XBarMemReadRespPayload)
    (src dst : string) : result XBarMemReadRespPacket :=
  resp_burst_mode (length beats) ≫= fun mode =>
  Ok (renew indet_int 0 mode beats (getIndex src) (getIndex dst) false).1.

Definition Construct_MemWriteRespPkt (beats : list XBarMemWriteRespPayload)
    (src dst : string) : result XBarMemWriteRespPacket :=
  resp_burst_mode (length beats) ≫= fun mode =>
  Ok (renew indet_int 0 mode beats (getIndex src) (getIndex dst) false).1.
End Responses.

(** * Pipe registers

    [acalsim::SimPipeRegister] belongs to the framework.  A device asks
    whether the register is stalled and pushes a packet, which the register
    accepts or refuses. *)

Class PipeRegister : Type := {
  preg : Type;
  isStalled : preg -> bool;
  push : preg -> packet -> bool * preg;
}.

(** What a register must keep: [accepted] is the sequence of packets it has
    taken in; a refused push changes nothing. *)
Class PipeRegisterLaws `(PR : PipeRegister) : Type := {
  accepted : preg -> list packet;
  push_true : forall r p r', push r p = (true, r') -> accepted r' = accepted r ++ [p];
  push_false : forall r p r', push r p = (false, r') -> r' = r;
}.

(** A concrete register: one slot that the crossbar drains between ticks, a
    stall flag, and the packets taken so far. *)
Record slot_reg : Type := SlotReg {
  sr_full : bool;
  sr_stalled : bool;
  sr_taken : list packet;
}.

Definition slot_push (r : slot_reg) (p : packet) : bool * slot_reg :=
  if sr_full r then (false, r)
  else (true, SlotReg true (sr_stalled r) (sr_taken r ++ [p])).

#[export] Instance SlotRegister : PipeRegister := {
  preg := slot_reg;
  isStalled := sr_stalled;
  push := slot_push;
}.

#[export] Instance SlotRegisterLaws : PipeRegisterLaws SlotRegister.
Proof.
  refine {| accepted := sr_taken : @preg SlotRegister -> _ |}; simpl; unfold slot_push;
    intros r p r'; destruct (sr_full r); by intros [= <-].
Defined.

Definition empty_slot : @preg SlotRegister := SlotReg false false [].

(** The repeated idiom [!m_reg->isStalled() && m_reg->push(pkt)]. *)
Definition try_push `{PipeRegister} (r : preg) (p : packet) : bool * preg :=
  if isStalled r then (false, r) else push r p.

Lemma try_push_true `{PipeRegisterLaws} r p r' :
  try_push r p = (true, r') -> accepted r' = accepted r ++ [p].
Proof. unfold try_push. destruct (isStalled r); [done|apply push_true]. Qed.

Lemma try_push_false `{PipeRegisterLaws} r p r' :
  try_push r p = (false, r') -> r' = r.
Proof. unfold try_push. destruct (isStalled r); [congruence|apply push_false]. Qed.

(** A register that takes the next packet. *)
Definition open_reg `{PipeRegister} (r : preg) : Prop :=
  isStalled r = false /\ forall p, exists r', push r p = (true, r').

Lemma open_push `{PipeRegister} r p : open_reg r -> exists r', try_push r p = (true, r').
Proof. unfold try_push. by intros [-> Hp]. Qed.

(** The crossbar can take what a register holds, and then the register takes
    the next packet. *)
Class PipeRegisterLive (PR : PipeRegister) {PL : PipeRegisterLaws PR} : Prop := {
  pl_drained : forall r : preg, exists r', accepted r' = accepted r /\ open_reg r';
}.

#[export] Instance SlotRegisterLive : PipeRegisterLive SlotRegister.
Proof.
  split. intros [f st tk]. exists (SlotReg false false tk). split; [done|]. split; [done|].
  intros p. by eexists.
Qed.

(** A register holds one packet: until it is drained, it refuses a second. *)
Class PipeRegisterSingle (PR : PipeRegister) : Prop := {
  ps_once : forall (r : preg) p r' q, push r p = (true, r') -> (push r' q).1 = false;
}.

#[export] Instance SlotRegisterSingle : PipeRegisterSingle SlotRegister.
Proof.
  split. intros [f s l] p r' q. cbn. unfold slot_push. destruct f; cbn; [done|]. by intros [= <-].
Qed.

Definition packet_tid (k : packet) : Z :=
  match k with
  | ReadReq p => pk_tid p
  | WriteReq p => pk_tid p
  | ReadResp p => pk_tid p
  | WriteResp p => pk_tid p
  end.

Lemma Construct_MemReadRespPkt_ok `{Framework} beats src dst :
  beats <> [] ->
  Construct_MemReadRespPkt beats src dst =
  Ok (XBarPacket indet_int (Z.log2_up (Z.of_nat (length beats)))
        (burst_size (Z.log2_up (Z.of_nat (length beats)))) beats
        (getIndex src) (getIndex dst)).
Proof. by destruct beats. Qed.

Lemma Construct_MemWriteRespPkt_ok `{Framework} beats src dst :
  beats <> [] ->
  Construct_MemWriteRespPkt beats src dst =
  Ok (XBarPacket indet_int (Z.log2_up (Z.of_nat (length beats)))
        (burst_size (Z.log2_up (Z.of_nat (length beats)))) beats
        (getIndex src) (getIndex dst)).
Proof. by destruct beats. Qed.

(** * Bursts

    The sizes the constructors accept. *)
Definition valid_burst (n : nat) : bool :=
  match n with 1%nat | 2%nat | 4%nat => true | _ => false end.

Lemma burst_size_of n : valid_burst n = true -> burst_size (burst_mode_of n) = Z.of_nat n.
Proof. do 5 (destruct n as [|n]; try done). Qed.

Lemma burst_size_invalid n : valid_burst n = false -> burst_size (burst_mode_of n) = 0.
Proof. do 5 (destruct n as [|n]; try done). Qed.

(** The packet a burst of read requests becomes. *)
Definition read_packet (ctr : Z) (src : string) (ps : list XBarMemReadReqPayload)
    (addr : Z) : XBarMemReadReqPacket :=
  XBarPacket ctr (burst_mode_of (length ps)) (burst_size (burst_mode_of (length ps)))
    (map (fun p => rq_setTid ctr (rq_setCaller src p)) ps) (getIndex src) (slaveIndex addr).

Lemma Construct_MemReadpkt_burst_ok ctr src p ps :
  head ps = Some p ->
  Construct_MemReadpkt_burst ctr src ps =
  Ok (read_packet ctr src ps (rq_addr p), s32 (ctr + 1)).
Proof.
  destruct ps as [|q ps]; [done|]. intros Hp. injection Hp as ->.
  unfold Construct_MemReadpkt_burst, read_packet. simpl. do 2 f_equal.
  unfold set_payloads. simpl. do 2 f_equal. by rewrite map_map.
Qed.

Definition write_packet (ctr : Z) (src : string) (ps : list XBarMemWriteReqPayload)
    (addr : Z) : XBarMemWriteReqPacket :=
  XBarPacket ctr (burst_mode_of (length ps)) (burst_size (burst_mode_of (length ps)))
    (map (fun p => wq_setTid ctr (wq_setCaller src p)) ps) (getIndex src) (slaveIndex addr).

Lemma Construct_MemWritepkt_burst_ok ctr src p ps :
  head ps = Some p ->
  Construct_MemWritepkt_burst ctr src ps =
  Ok (write_packet ctr src ps (wq_addr p), s32 (ctr + 1)).
Proof.
  destruct ps as [|q ps]; [done|]. intros Hp. injection Hp as ->.
  unfold Construct_MemWritepkt_burst, write_packet. simpl. do 2 f_equal.
  unfold set_payloads. simpl. do 2 f_equal. by rewrite map_map.
Qed.
