(* ===== verification/DataMemory.v ===== *)
(** The data memory of the SoC ([soc/include/DataMemory.hh],
    [soc/libs/DataMemory.cc]): burst requests are split into one event per
    beat, the beats of a transaction are collected in a tracker, and one
    response packet leaves through a queue when the last beat is served. *)
From S2P Require Import Prelude Machine DataStruct Memory Bus.
Local Open Scope Z_scope.

(** * State *)

(** [operator[]] of [unordered_map] value-initialises a missing tracker. *)
Record BurstTracker : Type := Tracker {
  expected : Z;
  rbeats : list XBarMemReadRespPayload;
  wbeats : list XBarMemWriteRespPayload;
}.

Definition no_tracker : BurstTracker := Tracker 0 [] [].

(** The lambda events that [step] schedules. *)
Inductive dm_event : Type :=
  | DmRead (p : XBarMemReadReqPayload)
  | DmWrite (p : XBarMemWriteReqPayload)
  | DmTrySend.

Section Data_memory.
Context `{Framework} `{PR : PipeRegister}.

Record DataMemory : Type := DMem {
  dm_mem : mem;
  dm_pending : gmap Z BurstTracker;
  dm_respQ : list packet;
  dm_reg : preg;
}.

Definition set_mem (m : mem) (d : DataMemory) : DataMemory :=
  DMem m (dm_pending d) (dm_respQ d) (dm_reg d).
Definition set_pending (f : gmap Z BurstTracker -> gmap Z BurstTracker)
    (d : DataMemory) : DataMemory :=
  DMem (dm_mem d) (f (dm_pending d)) (dm_respQ d) (dm_reg d).
Definition push_respQ (p : packet) (d : DataMemory) : DataMemory :=
  DMem (dm_mem d) (dm_pending d) (dm_respQ d ++ [p]) (dm_reg d).

#[local] Abbreviation D := (M DataMemory (Z * dm_event) unit).

(** [scheduleEvent(event, tick)] *)
Definition schedule (tick : Z) (e : dm_event) : D := emit (tick, e).

Definition tracker (tid : Z) (d : DataMemory) : BurstTracker :=
  default no_tracker (dm_pending d !! tid).

(** * Handlers *)

Definition memReadReqHandler (p : XBarMemReadReqPayload) : D :=
  d ← get;
  ret ← lift (load (dm_mem d) (rq_op p) (rq_addr p));
  let memRespPkt := ReadRespPayload (rq_tid p) (rq_i p) (rq_op p) ret (rq_a1 p) in
  let tk := tracker (rq_tid p) d in
  let n := Z.max (expected tk) 1 in
  let beats := rbeats tk ++ [memRespPkt] in
  if Z.of_nat (length beats) =? n then
    modify (set_pending (delete (rq_tid p)));;
    respPtr ← lift (Construct_MemReadRespPkt beats "dm" (rq_caller p));
    modify (push_respQ (ReadResp (setTID (rq_tid p) respPtr)))
  else
    modify (set_pending (insert (rq_tid p) (Tracker n beats (wbeats tk)))).

Definition memWriteReqHandler (p : XBarMemWriteReqPayload) : D :=
  d ← get;
  m' ← lift (store (dm_mem d) (wq_op p) (wq_addr p) (wq_data p));
  modify (set_mem m');;
  let memRespPkt := WriteRespPayload (wq_tid p) (wq_i p) in
  let tk := tracker (wq_tid p) d in
  let n := Z.max (expected tk) 1 in
  let beats := wbeats tk ++ [memRespPkt] in
  if Z.of_nat (length beats) =? n then
    modify (set_pending (delete (wq_tid p)));;
    respPtr ← lift (Construct_MemWriteRespPkt beats "dm" (wq_caller p));
    modify (push_respQ (WriteResp (setTID (wq_tid p) respPtr)))
  else
    modify (set_pending (insert (wq_tid p) (Tracker n (rbeats tk) beats))).

(** [trySendResponse], which [masterPortRetry] calls. *)
Definition trySendResponse : D :=
  d ← get;
  match dm_respQ d with
  | [] => mret tt
  | p :: q =>
      let '(ok, r) := try_push (dm_reg d) p in
      put (DMem (dm_mem d) (dm_pending d) (if ok then q else p :: q) r)
  end.

Definition masterPortRetry : D := trySendResponse.

Definition dm_fire (e : dm_event) : D :=
  match e with
  | DmRead p => memReadReqHandler p
  | DmWrite p => memWriteReqHandler p
  | DmTrySend => trySendResponse
  end.

(** * One step of the module *)

Definition set_expected (tid n : Z) : DataMemory -> DataMemory :=
  fun d => set_pending
    (insert tid (Tracker n (rbeats (tracker tid d)) (wbeats (tracker tid d)))) d.

(** The loop of [step] that schedules beat [i] at [now + i + delay]. *)
Definition schedule_beats (now delay : Z) (es : list dm_event) : D :=
  foreach (imap (fun i e => (now + Z.of_nat i + delay, e)) es)
    (fun te => schedule te.1 te.2).

(** The body of the loop over the slave ports, for a popped packet. *)
Definition step_packet (now delay : Z) (pkt : packet) : D :=
  burst_size ←
    match pkt with
    | ReadReq p =>
        let size := Z.of_nat (length (pk_payloads p)) in
        when (negb (size =? pk_burstSize p)) (lift (log_error "burst size"));;
        lift (check (size =? pk_burstSize p) (AssertFailed "burst size"));;
        modify (set_expected (pk_tid p) size);;
        schedule_beats now delay (map DmRead (pk_payloads p));;
        mret size
    | WriteReq p =>
        let size := Z.of_nat (length (pk_payloads p)) in
        lift (check (size =? pk_burstSize p) (AssertFailed "burst size"));;
        modify (set_expected (pk_tid p) size);;
        schedule_beats now delay (map DmWrite (pk_payloads p));;
        mret size
    | _ => mret (-1)
    end;
  schedule (now + burst_size + 1 + delay) DmTrySend.

Definition step (now delay : Z) (popped : list packet) : D :=
  d ← get;
  when (negb (bool_decide (dm_respQ d = []))) trySendResponse;;
  foreach popped (step_packet now delay).
End Data_memory.

(** * Lemmas: one beat *)

(** The response beat that a read request produces on memory [m]. *)
Definition read_beat (m : mem) (p : XBarMemReadReqPayload) : XBarMemReadRespPayload :=
  ReadRespPayload (rq_tid p) (rq_i p) (rq_op p)
    (match load m (rq_op p) (rq_addr p) with Ok v => v | Err _ => 0 end) (rq_a1 p).

Definition write_beat (p : XBarMemWriteReqPayload) : XBarMemWriteRespPayload :=
  WriteRespPayload (wq_tid p) (wq_i p).

(** The response packets that answer a transaction. *)
Definition read_response (tid : Z) (caller : string)
    (beats : list XBarMemReadRespPayload) : packet :=
  let mode := Z.log2_up (Z.of_nat (length beats)) in
  ReadResp (XBarPacket tid mode (burst_size mode) beats (getIndex "dm") (getIndex caller)).

Definition write_response (tid : Z) (caller : string)
    (beats : list XBarMemWriteRespPayload) : packet :=
  let mode := Z.log2_up (Z.of_nat (length beats)) in
  WriteResp (XBarPacket tid mode (burst_size mode) beats (getIndex "dm") (getIndex caller)).

Definition loads_ok (m : mem) (p : XBarMemReadReqPayload) : Prop :=
  exists v, load m (rq_op p) (rq_addr p) = Ok v.

(** The stores of a sequence of write beats, in order. *)
Fixpoint store_all (ps : list XBarMemWriteReqPayload) (m : mem) : result mem :=
  match ps with
  | [] => Ok m
  | p :: ps' =>
      store m (wq_op p) (wq_addr p) (wq_data p) ≫= fun m1 => store_all ps' m1
  end.

Section Data_memory_lemmas.
Context `{Framework} `{PR : PipeRegister}.
Implicit Types d : DataMemory.

Lemma read_handler_outcome d p : loads_ok (dm_mem d) p ->
  let tk := tracker (rq_tid p) d in
  let n := Z.max (expected tk) 1 in
  let beats := rbeats tk ++ [read_beat (dm_mem d) p] in
  outcome (memReadReqHandler p) d =
  if Z.of_nat (length beats) =? n
  then Ok (push_respQ (read_response (rq_tid p) (rq_caller p) beats)
             (set_pending (delete (rq_tid p)) d), [])
  else Ok (set_pending (insert (rq_tid p) (Tracker n beats (wbeats tk))) d, []).
Proof.
  intros [v Hv]. unfold memReadReqHandler, read_beat. step_monad. rewrite Hv. simpl.
  case_if; simpl; [|done].
  rewrite Construct_MemReadRespPkt_ok by (by destruct (rbeats _)). done.
Qed.

Lemma write_handler_outcome d p m' :
  store (dm_mem d) (wq_op p) (wq_addr p) (wq_data p) = Ok m' ->
  let tk := tracker (wq_tid p) d in
  let n := Z.max (expected tk) 1 in
  let beats := wbeats tk ++ [write_beat p] in
  outcome (memWriteReqHandler p) d =
  if Z.of_nat (length beats) =? n
  then Ok (push_respQ (write_response (wq_tid p) (wq_caller p) beats)
             (set_pending (delete (wq_tid p)) (set_mem m' d)), [])
  else Ok (set_pending (insert (wq_tid p) (Tracker n (rbeats tk) beats)) (set_mem m' d), []).
Proof.
  intros Hm. unfold memWriteReqHandler, write_beat. step_monad. rewrite Hm. simpl.
  case_if; simpl; [|done].
  rewrite Construct_MemWriteRespPkt_ok by (by destruct (wbeats _)). done.
Qed.

(** A beat of another transaction leaves the tracker of [t] alone and adds
    no response of [t]. *)
Lemma read_other d p t : loads_ok (dm_mem d) p -> rq_tid p <> t ->
  exists d' new, outcome (memReadReqHandler p) d = Ok (d', [])
    /\ dm_mem d' = dm_mem d /\ dm_pending d' !! t = dm_pending d !! t
    /\ dm_respQ d' = dm_respQ d ++ new
    /\ filter (fun k => packet_tid k = t) new = [].
Proof.
  intros Hp Ht. rewrite read_handler_outcome by done. cbv zeta. case_match.
  - eexists _, [_]. split; [done|]. simpl. rewrite lookup_delete_ne by done.
    split_and!; [done..|]. by rewrite filter_cons_False.
  - eexists _, []. split; [done|]. simpl. rewrite lookup_insert_ne by done.
    by rewrite app_nil_r.
Qed.

Lemma reads_other ps d t :
  Forall (loads_ok (dm_mem d)) ps -> Forall (fun p => rq_tid p <> t) ps ->
  exists d' new, run_all (map memReadReqHandler ps) d = Ok (d', [])
    /\ dm_mem d' = dm_mem d /\ dm_pending d' !! t = dm_pending d !! t
    /\ dm_respQ d' = dm_respQ d ++ new
    /\ filter (fun k => packet_tid k = t) new = [].
Proof.
  intros Hl Hf. revert d Hl. induction Hf as [|p ps Hp Hps IH]; intros d Hl.
  - exists d, []. rewrite app_nil_r. done.
  - apply Forall_cons in Hl as [Hl1 Hl2].
    destruct (read_other d p t Hl1 Hp) as (d1 & n1 & E1 & Em1 & Ep1 & Eq1 & Ef1).
    destruct (IH d1) as (d2 & n2 & E2 & Em2 & Ep2 & Eq2 & Ef2); [by rewrite Em1|].
    exists d2, (n1 ++ n2). simpl. rewrite E1, E2. split_and!; [done|congruence..| |].
    + by rewrite Eq2, Eq1, app_assoc.
    + by rewrite filter_app, Ef1, Ef2.
Qed.

(** The beats still missing from transaction [t] complete it. *)
Lemma reads_complete ps d t n caller wb beats :
  Forall (loads_ok (dm_mem d)) ps ->
  dm_pending d !! t = Some (Tracker n beats wb) ->
  (forall p, p ∈ ps -> rq_tid p = t -> rq_caller p = caller) ->
  0 < n ->
  (0 < length (filter (fun p => rq_tid p = t) ps))%nat ->
  Z.of_nat (length beats + length (filter (fun p => rq_tid p = t) ps)) = n ->
  exists d' new, run_all (map memReadReqHandler ps) d = Ok (d', [])
    /\ dm_mem d' = dm_mem d /\ dm_pending d' !! t = None
    /\ dm_respQ d' = dm_respQ d ++ new
    /\ filter (fun k => packet_tid k = t) new =
       [read_response t caller
          (beats ++ map (read_beat (dm_mem d)) (filter (fun p => rq_tid p = t) ps))].
Proof.
  revert d beats. induction ps as [|p ps IH]; intros d beats Hl Hd Hc Hn0 Hpos Hn;
    [simpl in Hpos; lia|].
  apply Forall_cons in Hl as [Hl1 Hl2].
  destruct (decide (rq_tid p = t)) as [Ht|Ht].
  - rewrite filter_cons_True in * by done. simpl length in Hn.
    pose proof (read_handler_outcome d p Hl1) as E1. cbv zeta in E1.
    unfold tracker in E1. rewrite Ht, Hd in E1. simpl in E1.
    rewrite Z.max_l, length_app in E1 by lia. simpl in E1.
    rewrite (Hc p) in E1 by (done || apply list_elem_of_here).
    destruct (decide (length (filter (fun p => rq_tid p = t) ps) = 0%nat)) as [H0|H0].
    + rewrite (proj2 (Z.eqb_eq _ _)) in E1 by lia.
      assert (Hps : Forall (fun p => rq_tid p <> t) ps).
      { apply nil_length_inv in H0. apply Forall_forall. intros q Hq Hqt.
        apply (not_elem_of_nil q). rewrite <- H0. by apply list_elem_of_filter. }
      destruct (reads_other ps (push_respQ (read_response t caller
        (beats ++ [read_beat (dm_mem d) p])) (set_pending (delete t) d)) t)
        as (d2 & n2 & E2 & Em2 & Ep2 & Eq2 & Ef2); [done..|].
      exists d2, (read_response t caller (beats ++ [read_beat (dm_mem d) p]) :: n2).
      simpl. rewrite E1, E2. apply nil_length_inv in H0. rewrite H0. simpl.
      split_and!; [done|done| | |].
      * rewrite Ep2. apply lookup_delete_eq.
      * rewrite Eq2. simpl. by rewrite <- app_assoc.
      * by rewrite filter_cons_True, Ef2.
    + rewrite (proj2 (Z.eqb_neq _ _)) in E1 by lia.
      edestruct (IH (set_pending (insert t
        (Tracker n (beats ++ [read_beat (dm_mem d) p]) wb)) d)
        (beats ++ [read_beat (dm_mem d) p])) as (d2 & n2 & E2 & Em2 & Ep2 & Eq2 & Ef2).
      * done.
      * apply lookup_insert_eq.
      * intros q Hq. apply Hc. by apply list_elem_of_further.
      * done.
      * lia.
      * rewrite length_app. simpl. lia.
      * exists d2, n2. simpl. rewrite E1, E2.
        split_and!; [done..|]. rewrite Ef2. by rewrite <- app_assoc.
  - rewrite filter_cons_False in * by done.
    destruct (read_other d p t Hl1 Ht) as (d1 & n1 & E1 & Em1 & Ep1 & Eq1 & Ef1).
    destruct (IH d1 beats) as (d2 & n2 & E2 & Em2 & Ep2 & Eq2 & Ef2).
    + by rewrite Em1.
    + by rewrite Ep1.
    + intros q Hq. apply Hc. by apply list_elem_of_further.
    + done.
    + done.
    + done.
    + exists d2, (n1 ++ n2). simpl. rewrite E1, E2. split_and!; [done|congruence|done| |].
      * by rewrite Eq2, Eq1, app_assoc.
      * by rewrite filter_app, Ef1, Ef2, Em1.
Qed.

(** The same beats with nothing in between: the exact final state. *)
Lemma reads_burst ps d t n caller wb beats :
  Forall (fun p => rq_tid p = t /\ rq_caller p = caller) ps ->
  Forall (loads_ok (dm_mem d)) ps ->
  dm_pending d !! t = Some (Tracker n beats wb) ->
  ps <> [] -> Z.of_nat (length beats + length ps) = n ->
  run_all (map memReadReqHandler ps) d =
  Ok (push_respQ (read_response t caller (beats ++ map (read_beat (dm_mem d)) ps))
        (set_pending (delete t) d), []).
Proof.
  revert d beats. induction ps as [|p ps IH]; intros d beats Hf Hl Hd Hne Hn; [done|].
  apply Forall_cons in Hf as [[Ht Hc] Hf]. apply Forall_cons in Hl as [Hl1 Hl].
  pose proof (read_handler_outcome d p Hl1) as E1. cbv zeta in E1.
  unfold tracker in E1. rewrite Ht, Hc, Hd in E1. simpl in E1, Hn.
  rewrite Z.max_l, length_app in E1 by lia. simpl in E1.
  destruct ps as [|q ps].
  - rewrite (proj2 (Z.eqb_eq _ _)) in E1 by (simpl in Hn; lia).
    simpl. by rewrite E1.
  - rewrite (proj2 (Z.eqb_neq _ _)) in E1 by (simpl in Hn; lia).
    specialize (IH (set_pending (insert t (Tracker n (beats ++ [read_beat (dm_mem d) p]) wb))
      d) (beats ++ [read_beat (dm_mem d) p])).
    cbn [map] in *. rewrite run_all_cons, E1, IH;
      [| done | done | apply lookup_insert_eq | done
       | rewrite length_app; simpl in *; lia].
    unfold push_respQ, set_pending. simpl.
    rewrite delete_insert_eq, <- app_assoc. done.
Qed.

(** * Lemmas: the beats of a write transaction *)

Lemma writes_complete ps d t n caller rb beats m' :
  Forall (fun p => wq_tid p = t /\ wq_caller p = caller) ps ->
  store_all ps (dm_mem d) = Ok m' ->
  dm_pending d !! t = Some (Tracker n rb beats) ->
  ps <> [] -> Z.of_nat (length beats + length ps) = n ->
  run_all (map memWriteReqHandler ps) d =
  Ok (push_respQ (write_response t caller (beats ++ map write_beat ps))
        (set_pending (delete t) (set_mem m' d)), []).
Proof.
  revert d beats. induction ps as [|p ps IH]; intros d beats Hf Hs Hd Hne Hn; [done|].
  apply Forall_cons in Hf as [[Ht Hc] Hf].
  apply bind_ok in Hs as (m1 & Hm1 & Hs).
  pose proof (write_handler_outcome d p m1 Hm1) as E1. cbv zeta in E1.
  unfold tracker in E1. rewrite Ht, Hc, Hd in E1. simpl in E1, Hn.
  rewrite Z.max_l, length_app in E1 by lia. simpl in E1.
  destruct ps as [|q ps].
  - rewrite (proj2 (Z.eqb_eq _ _)) in E1 by (simpl in Hn; lia).
    simpl. rewrite E1. injection Hs as <-. done.
  - rewrite (proj2 (Z.eqb_neq _ _)) in E1 by (simpl in Hn; lia).
    specialize (IH (set_pending (insert t (Tracker n rb (beats ++ [write_beat p])))
      (set_mem m1 d)) (beats ++ [write_beat p])).
    cbn [map] in *. rewrite run_all_cons, E1, IH;
      [| done | exact Hs | apply lookup_insert_eq | done
       | rewrite length_app; simpl in *; lia].
    unfold push_respQ, set_pending, set_mem. simpl.
    rewrite delete_insert_eq, <- app_assoc. done.
Qed.

Lemma schedule_beats_eq now delay es d :
  schedule_beats now delay es d =
  Ok (tt, d, imap (fun i e => (now + Z.of_nat i + delay, e)) es).
Proof.
  unfold schedule_beats, schedule. rewrite (foreach_emit (fun te => (te.1, te.2))).
  do 2 f_equal. rewrite <- (map_id (imap _ _)) at 2. apply map_ext. by intros [].
Qed.

Lemma step_read_outcome d now delay pkt :
  dm_respQ d = [] -> pk_burstSize pkt = Z.of_nat (length (pk_payloads pkt)) ->
  outcome (step now delay [ReadReq pkt]) d =
  Ok (set_expected (pk_tid pkt) (Z.of_nat (length (pk_payloads pkt))) d,
      imap (fun i p => (now + Z.of_nat i + delay, DmRead p)) (pk_payloads pkt)
      ++ [(now + Z.of_nat (length (pk_payloads pkt)) + 1 + delay, DmTrySend)]).
Proof.
  intros Hq Hb. unfold step, step_packet, schedule. step_monad. rewrite Hq. simpl.
  rewrite Hb, Z.eqb_refl. step_monad. rewrite schedule_beats_eq. simpl.
  change (map DmRead) with (fmap DmRead : list _ -> list _).
  by rewrite imap_fmap, !app_nil_r.
Qed.

Lemma trySendResponse_single d p r :
  dm_respQ d = [p] -> try_push (dm_reg d) p = (true, r) ->
  outcome trySendResponse d = Ok (DMem (dm_mem d) (dm_pending d) [] r, []).
Proof. intros Hq Hp. unfold trySendResponse. step_monad. by rewrite Hq, Hp. Qed.

Lemma trySendResponse_conserves `{!PipeRegisterLaws PR} d d' w :
  outcome trySendResponse d = Ok (d', w) ->
  accepted (dm_reg d') ++ dm_respQ d' = accepted (dm_reg d) ++ dm_respQ d
  /\ dm_mem d' = dm_mem d /\ dm_pending d' = dm_pending d.
Proof.
  unfold trySendResponse. step_monad. destruct (dm_respQ d) as [|p q] eqn:Hq.
  - intros [= <- <-]. by rewrite Hq.
  - destruct (try_push (dm_reg d) p) as [[] r] eqn:Hp; intros [= <- <-]; simpl.
    + apply try_push_true in Hp. by rewrite Hp, <- app_assoc.
    + apply try_push_false in Hp. by rewrite Hp.
Qed.

Lemma step_write_outcome d now delay pkt :
  dm_respQ d = [] -> pk_burstSize pkt = Z.of_nat (length (pk_payloads pkt)) ->
  outcome (step now delay [WriteReq pkt]) d =
  Ok (set_expected (pk_tid pkt) (Z.of_nat (length (pk_payloads pkt))) d,
      imap (fun i p => (now + Z.of_nat i + delay, DmWrite p)) (pk_payloads pkt)
      ++ [(now + Z.of_nat (length (pk_payloads pkt)) + 1 + delay, DmTrySend)]).
Proof.
  intros Hq Hb. unfold step, step_packet, schedule. step_monad. rewrite Hq. simpl.
  rewrite Hb, Z.eqb_refl. step_monad. rewrite schedule_beats_eq. simpl.
  change (map DmWrite) with (fmap DmWrite : list _ -> list _).
  by rewrite imap_fmap, !app_nil_r.
Qed.

(** A request that arrives when nothing is queued is served by the events
    [step] schedules for it; the final state exactly. *)
Lemma read_served d now delay pkt caller r' :
  let t := pk_tid pkt in
  let ps := pk_payloads pkt in
  let n := length ps in
  let resp := read_response t caller (map (read_beat (dm_mem d)) ps) in
  pk_burstSize pkt = Z.of_nat n -> (0 < n)%nat ->
  Forall (fun p => rq_tid p = t /\ rq_caller p = caller) ps ->
  Forall (loads_ok (dm_mem d)) ps ->
  dm_respQ d = [] -> dm_pending d !! t = None ->
  try_push (dm_reg d) resp = (true, r') ->
  exists d1 evs, outcome (step now delay [ReadReq pkt]) d = Ok (d1, evs)
    /\ evs = imap (fun i p => (now + Z.of_nat i + delay, DmRead p)) ps
             ++ [(now + Z.of_nat n + 1 + delay, DmTrySend)]
    /\ run_all (map (dm_fire ∘ snd) evs) d1 =
       Ok (DMem (dm_mem d) (dm_pending d) [] r', []).
Proof.
  intros t ps n resp Hb Hn Hf Hl Hq Hp Hr.
  eexists _, _. split; [by apply step_read_outcome|]. split; [done|].
  assert (Hps : ps <> []) by (intros Hz; unfold n in Hn; rewrite Hz in Hn; simpl in Hn; lia).
  rewrite map_app, map_snd_imap, run_all_app.
  change (map (dm_fire ∘ DmRead) (pk_payloads pkt)) with (map memReadReqHandler ps).
  erewrite (reads_burst ps _ t (Z.of_nat n) caller [] []); [| done | done | | done | done].
  2: { unfold set_expected, tracker. simpl. fold t. by rewrite lookup_insert_eq, Hp. }
  simpl. erewrite (trySendResponse_single _ resp r'); [| simpl; by rewrite Hq | done].
  simpl. fold t. by rewrite delete_insert_id.
Qed.

Lemma write_served d now delay pkt caller m' r' :
  let t := pk_tid pkt in
  let ps := pk_payloads pkt in
  let n := length ps in
  let resp := write_response t caller (map write_beat ps) in
  pk_burstSize pkt = Z.of_nat n -> (0 < n)%nat ->
  Forall (fun p => wq_tid p = t /\ wq_caller p = caller) ps ->
  store_all ps (dm_mem d) = Ok m' ->
  dm_respQ d = [] -> dm_pending d !! t = None ->
  try_push (dm_reg d) resp = (true, r') ->
  exists d1 evs, outcome (step now delay [WriteReq pkt]) d = Ok (d1, evs)
    /\ evs = imap (fun i p => (now + Z.of_nat i + delay, DmWrite p)) ps
             ++ [(now + Z.of_nat n + 1 + delay, DmTrySend)]
    /\ run_all (map (dm_fire ∘ snd) evs) d1 =
       Ok (DMem m' (dm_pending d) [] r', []).
Proof.
  intros t ps n resp Hb Hn Hf Hl Hq Hp Hr.
  eexists _, _. split; [by apply step_write_outcome|]. split; [done|].
  assert (Hps : ps <> []) by (intros Hz; unfold n in Hn; rewrite Hz in Hn; simpl in Hn; lia).
  rewrite map_app, map_snd_imap, run_all_app.
  change (map (dm_fire ∘ DmWrite) (pk_payloads pkt)) with (map memWriteReqHandler ps).
  erewrite (writes_complete ps _ t (Z.of_nat n) caller [] []);
    [| done | done | | done | done].
  2: { unfold set_expected, tracker. simpl. fold t. by rewrite lookup_insert_eq, Hp. }
  simpl. erewrite (trySendResponse_single _ resp r'); [| simpl; by rewrite Hq | done].
  simpl. fold t. by rewrite delete_insert_id.
Qed.
End Data_memory_lemmas.

(** * Properties *)

Section Data_memory_properties.
Context `{Framework} `{PR : PipeRegister}.

(** Whatever read beats of other transactions are interleaved with them,
    the [n] beats of a read transaction produce exactly one response packet;
    it carries the transaction's id, is addressed to its caller, and its
    payloads are the loads of the beats in the order they were requested.  The
    tracker is gone afterwards and the memory is unchanged. *)
Theorem read_burst_answered (d : DataMemory) ps t n caller wb :
  Forall (loads_ok (dm_mem d)) ps ->
  dm_pending d !! t = Some (Tracker (Z.of_nat n) [] wb) ->
  length (filter (fun p => rq_tid p = t) ps) = n -> (0 < n)%nat ->
  Forall (fun p => rq_tid p = t -> rq_caller p = caller) ps ->
  exists d' new, run_all (map (dm_fire ∘ DmRead) ps) d = Ok (d', [])
    /\ dm_mem d' = dm_mem d /\ dm_pending d' !! t = None
    /\ dm_respQ d' = dm_respQ d ++ new
    /\ filter (fun k => packet_tid k = t) new =
       [read_response t caller
          (map (read_beat (dm_mem d)) (filter (fun p => rq_tid p = t) ps))].
Proof.
  intros Hl Hd Hn Hn0 Hc.
  change (map (dm_fire ∘ DmRead) ps) with (map memReadReqHandler ps).
  rewrite Forall_forall in Hc.
  apply (reads_complete ps d t (Z.of_nat n) caller wb []); simpl; lia || done.
Qed.

(** C34. The beats of a write transaction leave the memory that storing them
    in order leaves, close its tracker, and produce exactly one response
    packet with one payload per beat. *)
Theorem write_burst_answered (d : DataMemory) ps t caller rb m' :
  Forall (fun p => wq_tid p = t /\ wq_caller p = caller) ps ->
  store_all ps (dm_mem d) = Ok m' -> ps <> [] ->
  dm_pending d !! t = Some (Tracker (Z.of_nat (length ps)) rb []) ->
  run_all (map (dm_fire ∘ DmWrite) ps) d =
  Ok (push_respQ (write_response t caller (map write_beat ps))
        (set_pending (delete t) (set_mem m' d)), []).
Proof.
  intros Hf Hs Hne Hd.
  change (map (dm_fire ∘ DmWrite) ps) with (map memWriteReqHandler ps).
  by eapply (writes_complete ps d t _ caller rb []).
Qed.

(** A read burst popped by [step] while nothing is queued is answered:
    the events that [step] schedules are, tick by tick, its beats and then
    the attempt to send; firing them delivers one response with the loaded
    words to the pipe register and leaves queue and trackers as before. *)
Theorem read_request_served `{!PipeRegisterLaws PR}
    (d : DataMemory) now delay pkt t caller r' :
  let ps := pk_payloads pkt in
  let n := length ps in
  let resp := read_response t caller (map (read_beat (dm_mem d)) ps) in
  pk_tid pkt = t -> pk_burstSize pkt = Z.of_nat n -> (0 < n)%nat ->
  Forall (fun p => rq_tid p = t /\ rq_caller p = caller) ps ->
  Forall (loads_ok (dm_mem d)) ps ->
  dm_respQ d = [] -> dm_pending d !! t = None ->
  try_push (dm_reg d) resp = (true, r') ->
  exists d1 evs, outcome (step now delay [ReadReq pkt]) d = Ok (d1, evs)
    /\ evs = imap (fun i p => (now + Z.of_nat i + delay, DmRead p)) ps
             ++ [(now + Z.of_nat n + 1 + delay, DmTrySend)]
    /\ exists d2, run_all (map (dm_fire ∘ snd) evs) d1 = Ok (d2, [])
      /\ accepted (dm_reg d2) = accepted (dm_reg d) ++ [resp]
      /\ dm_respQ d2 = [] /\ dm_pending d2 = dm_pending d /\ dm_mem d2 = dm_mem d.
Proof.
  intros ps n resp Ht Hb Hn Hf Hl Hq Hp Hr. subst t.
  destruct (read_served d now delay pkt caller r') as (d1 & evs & E1 & E2 & E3); [done..|].
  exists d1, evs. split_and!; [done..|]. eexists. split; [exact E3|].
  apply try_push_true in Hr. done.
Qed.

(** [step] refuses a request whose payload count is not the burst size it
    announces, and then schedules nothing. *)
Theorem bad_burst_refused (d : DataMemory) now delay (q : XBarMemWriteReqPacket)
    (p : XBarMemReadReqPacket) :
  dm_respQ d = [] ->
  pk_burstSize p <> Z.of_nat (length (pk_payloads p)) ->
  pk_burstSize q <> Z.of_nat (length (pk_payloads q)) ->
  outcome (step now delay [WriteReq q]) d = Err (AssertFailed "burst size")
  /\ exists f, outcome (step now delay [ReadReq p]) d = Err f
     /\ (f = AssertFailed "burst size" \/ error_halts = true).
Proof.
  intros Hq Hp Hw. unfold step, step_packet, log_error, schedule. step_monad.
  rewrite Hq. simpl. rewrite !(proj2 (Z.eqb_neq _ _)) by congruence.
  step_monad. split; [done|]. destruct error_halts; simpl; eauto.
Qed.
End Data_memory_properties.

(** * Witnesses *)

Definition w_operand : operand := Operand OPTYPE_REG "" 5 0.
Definition w_instr (op : instr_type) : instr :=
  Instr op w_operand w_operand w_operand None 1 false.
Definition w_read (tid : Z) (op : instr_type) (addr : Z) : XBarMemReadReqPayload :=
  ReadReqPayload "cpu" tid (w_instr op) op addr w_operand.
Definition w_write (tid : Z) (op : instr_type) (addr data : Z) : XBarMemWriteReqPayload :=
  WriteReqPayload "cpu" tid (w_instr op) op addr data.
Definition w_mem : mem := [1; 2; 3; 4; 0x85; 6; 7; 0xF8].
Definition w_dm (pend : gmap Z BurstTracker) : @DataMemory SlotRegister :=
  @DMem SlotRegister w_mem pend [] empty_slot.
#[local] Existing Instance printing_framework.

Lemma read_burst_answered_witness :
  exists d' new,
    run_all (map (dm_fire ∘ DmRead) [w_read 7 LW 0; w_read 9 LB 4; w_read 7 LH 6])
      (w_dm {[7 := Tracker 2 [] []]}) = Ok (d', [])
    /\ dm_pending d' !! 7 = None /\ dm_respQ d' = new
    /\ map (fun k => packet_tid k) (filter (fun k => packet_tid k = 7) new) = [7].
Proof.
  destruct (read_burst_answered (w_dm {[7 := Tracker 2 [] []]})
    [w_read 7 LW 0; w_read 9 LB 4; w_read 7 LH 6] 7 2 "cpu" [])
    as (d' & new & Hr & _ & Hp & Hq & Hf).
  - repeat constructor; eexists; vm_compute; reflexivity.
  - reflexivity.
  - reflexivity.
  - lia.
  - by repeat constructor.
  - exists d', new. split_and!; [exact Hr|exact Hp|exact Hq|]. by rewrite Hf.
Defined.

Lemma write_burst_answered_witness :
  exists d', run_all (map (dm_fire ∘ DmWrite) [w_write 3 SH 0 0xABCD; w_write 3 SB 4 0x11])
               (w_dm {[3 := Tracker 2 [] []]}) = Ok (d', [])
    /\ dm_mem d' = [0xCD; 0xAB; 3; 4; 0x11; 6; 7; 0xF8].
Proof.
  eexists. split.
  - apply (write_burst_answered (w_dm {[3 := Tracker 2 [] []]}) _ 3 "cpu" []);
      [by repeat constructor | vm_compute; reflexivity | done | reflexivity].
  - reflexivity.
Defined.

Lemma read_request_served_witness :
  exists d1 evs, outcome (step 10 5 [ReadReq (XBarPacket 4 1 2
      [w_read 4 LW 0; w_read 4 LBU 4] 0 0)]) (w_dm ∅) = Ok (d1, evs)
    /\ map fst evs = [15; 16; 18].
Proof.
  destruct (read_request_served (w_dm ∅) 10 5
    (XBarPacket 4 1 2 [w_read 4 LW 0; w_read 4 LBU 4] 0 0) 4 "cpu"
    (slot_push empty_slot (read_response 4 "cpu"
       (map (read_beat w_mem) [w_read 4 LW 0; w_read 4 LBU 4]))).2)
    as (d1 & evs & Hs & He & _).
  - reflexivity.
  - reflexivity.
  - simpl. lia.
  - by repeat constructor.
  - repeat constructor; eexists; vm_compute; reflexivity.
  - reflexivity.
  - reflexivity.
  - reflexivity.
  - exists d1, evs. split; [exact Hs|]. by rewrite He.
Defined.

Lemma bad_burst_refused_witness :
  outcome (step 0 1 [WriteReq (XBarPacket 4 0 1 [w_write 4 SW 0 1; w_write 4 SW 4 1] 0 0)])
    (w_dm ∅) = Err (AssertFailed "burst size").
Proof.
  apply (bad_burst_refused (w_dm ∅) 0 1
    (XBarPacket 4 0 1 [w_write 4 SW 0 1; w_write 4 SW 4 1] 0 0)
    (XBarPacket 4 0 1 [w_read 4 LW 0; w_read 4 LW 4] 0 0)); [reflexivity|done|done].
Defined.

(** * Words stored by a sequence of write beats *)

Section Stored_words.

(** What a beat stores. *)
Definition beat_of (p : XBarMemWriteReqPayload) : instr_type * Z * Z :=
  (wq_op p, wq_addr p, wq_data p).

Lemma store_all_ext ps qs m : map beat_of ps = map beat_of qs ->
  store_all ps m = store_all qs m.
Proof.
  revert qs m. induction ps as [|p ps IH]; intros [|q qs] m; try done.
  simpl. intros [= E1 E2 E3 E4]. rewrite E1, E2, E3.
  destruct (store m _ _ _); simpl; [by apply IH|done].
Qed.

Lemma store_all_wf ps m m' : wf_mem m -> store_all ps m = Ok m' -> wf_mem m'.
Proof.
  revert m. induction ps as [|p ps IH]; intros m Hm; simpl; [by intros [= <-]|].
  intros (m1 & H1 & H2)%bind_ok. by eapply IH, H2; eapply store_wf.
Qed.

Definition disjoint_words (a b : Z) : Prop := a + 4 <= b \/ b + 4 <= a.

Lemma store_word_ok m a v : 0 <= a -> a + 4 <= getSize m -> exists m', store m SW a v = Ok m'.
Proof.
  intros Ha Hs. rewrite store_unfold by done. unfold in_range. cbn [store_bytes].
  rewrite (proj2 (Z.leb_le _ _)) by done. eauto.
Qed.

(** Word stores that do not overlap: each word reads back, and the words that
    overlap none of them are untouched. *)
Lemma store_all_words ps m :
  Forall (fun p => wq_op p = SW /\ 0 <= wq_addr p /\ wq_addr p + 4 <= getSize m) ps ->
  (forall i j p q, ps !! i = Some p -> ps !! j = Some q -> i <> j ->
     disjoint_words (wq_addr p) (wq_addr q)) ->
  exists m', store_all ps m = Ok m' /\ getSize m' = getSize m
    /\ (forall p, p ∈ ps -> load m' LW (wq_addr p) = Ok (u32 (wq_data p)))
    /\ (forall a, 0 <= a -> (forall p, p ∈ ps -> disjoint_words a (wq_addr p)) ->
        load m' LW a = load m LW a).
Proof.
  revert m. induction ps as [|p ps IH]; intros m Hf Hd.
  - exists m. split_and!; [done..| |done]. intros p Hp. by apply elem_of_nil in Hp.
  - apply Forall_cons in Hf as [(Hop & Ha & Hs) Hf].
    destruct (store_word_ok m (wq_addr p) (wq_data p)) as [m1 Hm1]; [done..|].
    assert (Hlen : getSize m1 = getSize m)
      by (unfold getSize; by rewrite (store_length _ _ _ _ _ Ha Hm1)).
    destruct (IH m1) as (m' & Hst & Hsz & Hin & Hout).
    + eapply Forall_impl; [exact Hf|]. intros q. by rewrite Hlen.
    + intros i j q r Hq Hr Hij. apply (Hd (S i) (S j)); [done..|congruence].
    + exists m'. simpl. rewrite Hop, Hm1. simpl. split_and!; [done|congruence| |].
      * intros q [->|Hq]%elem_of_cons; [|by apply Hin].
        rewrite Hout; [|done|].
        -- by apply (load_store_same m SW (wq_addr p)).
        -- intros r Hr. apply list_elem_of_lookup in Hr as [i Hi]. by apply (Hd 0%nat (S i)).
      * intros a Ha0 Hda. rewrite Hout; [|done|].
        -- eapply load_store_disjoint; [done| |done|exact Hm1|]; [done|].
           destruct (Hda p) as [Hp|Hp]; [apply list_elem_of_here|simpl; lia..].
        -- intros q Hq. apply Hda. by apply list_elem_of_further.
Qed.
End Stored_words.
