(* ===== verification/Cfu.v ===== *)
(** The custom function unit ([soc/include/CFU.hh], [soc/libs/CFU.cc],
    [soc/include/packet/CFUPacket.hh]): a controller, an add/subtract unit and
    a multiply unit that work on packed 8- and 16-bit lanes of two 32-bit
    operands; and the lane-by-lane reference the units implement. *)
From S2P Require Import Prelude Machine DataStruct.
Local Open Scope Z_scope.

(** * Packets *)

Record CFUReqPacket : Type := CFUReq { cq_i : instr; cq_rs1 : Z; cq_rs2 : Z }.
Record CFURespPacket : Type := CFUResp { cr_i : instr; cr_rd : Z }.

(** * State *)

Inductive Unit_Decision : Type := AddSub | Mul | Unknown.

(** [AddSubActivationUnit] and [MulUnit] have the same members. *)
Record unit_state : Type := UnitState {
  un_type : instr_type; un_rs1 : Z; un_rs2 : Z; un_result : Z;
}.

Record CFU : Type := MkCFU {
  ctl_type : instr_type;
  addSubUnit : unit_state;
  mulUnit : unit_state;
}.

Definition setOperands (rs1 rs2 : Z) (un : unit_state) : unit_state :=
  UnitState (un_type un) rs1 rs2 (un_result un).
Definition setInstrType (t : instr_type) (un : unit_state) : unit_state :=
  UnitState t (un_rs1 un) (un_rs2 un) (un_result un).
Definition set_result (r : Z) (un : unit_state) : unit_state :=
  UnitState (un_type un) (un_rs1 un) (un_rs2 un) r.

(** * The controller *)

Definition send_information_to_unit (i : instr) (rs1 rs2 : Z) (c : CFU) : CFU :=
  MkCFU (i_op i)
    (setOperands rs1 rs2 (setInstrType (i_op i) (addSubUnit c)))
    (setOperands rs1 rs2 (setInstrType (i_op i) (mulUnit c))).

Definition outputSel (c : CFU) : Unit_Decision :=
  match ctl_type c with
  | S_ADDI8I8S_VV | S_ADDI16I16S_VV | S_SUBI8I8S_VV | S_SUBI16I16S_VV => AddSub
  | S_PMULI8I16S_VV_L | S_PMULI8I16S_VV_H | S_AMULI8I8S_VV_NQ | S_AMULI8I8S_VV_L => Mul
  | _ => Unknown
  end.

(** * The units *)

(** [intN_t b = (rs >> sh) & mask] *)
Definition get8 (rs sh : Z) : Z := s8 (Z.land (Z.shiftr rs sh) 0xFF).
Definition get16 (rs sh : Z) : Z := s16 (Z.land (Z.shiftr rs sh) 0xFFFF).

(** [result |= (res << sh)], the shifted [int] converted to [uint32_t]. *)
Definition or_lane (result res sh : Z) : Z := Z.lor result (u32 (Z.shiftl res sh)).

(** [for (i = from; i < from + n; ++i) result |= lane(i) << at(i)] *)
Definition lane_loop (from n : nat) (lane at_ : Z -> Z) : Z :=
  foldl (fun result i => or_lane result (lane (Z.of_nat i)) (at_ (Z.of_nat i)))
    0 (seq from n).

Definition AddSub_computation (un : unit_state) : unit_state :=
  let rs1 := un_rs1 un in
  let rs2 := un_rs2 un in
  set_result
    (match un_type un with
     | S_ADDI8I8S_VV =>
         lane_loop 0 4
           (fun i => u8 (s8 (get8 rs1 (i * 8) + get8 rs2 (i * 8)))) (fun i => i * 8)
     | S_ADDI16I16S_VV =>
         lane_loop 0 2
           (fun i => u16 (s16 (get16 rs1 (i * 16) + get16 rs2 (i * 16)))) (fun i => i * 16)
     | S_SUBI8I8S_VV =>
         lane_loop 0 4
           (fun i => u8 (s8 (get8 rs1 (i * 8) - get8 rs2 (i * 8)))) (fun i => i * 8)
     | S_SUBI16I16S_VV =>
         lane_loop 0 2
           (fun i => u16 (s16 (get16 rs1 (i * 16) - get16 rs2 (i * 16)))) (fun i => i * 16)
     | _ => 0
     end) un.

(** [int16_t mul = static_cast<int16_t>(b1) * static_cast<int16_t>(b2)] *)
Definition mul16 (rs1 rs2 i : Z) : Z := s16 (get8 rs1 (i * 8) * get8 rs2 (i * 8)).

Definition Mul_computation (un : unit_state) : unit_state :=
  let rs1 := un_rs1 un in
  let rs2 := un_rs2 un in
  set_result
    (match un_type un with
     | S_PMULI8I16S_VV_L =>
         lane_loop 0 2 (fun i => u16 (mul16 rs1 rs2 i)) (fun i => i * 16)
     | S_PMULI8I16S_VV_H =>
         lane_loop 2 2 (fun i => u16 (mul16 rs1 rs2 i)) (fun i => (i - 2) * 16)
     | S_AMULI8I8S_VV_NQ =>
         lane_loop 0 4
           (fun i => u8 (Z.land (Z.shiftr (mul16 rs1 rs2 i) 8) 0xFF)) (fun i => i * 8)
     | S_AMULI8I8S_VV_L =>
         lane_loop 0 4 (fun i => u8 (Z.land (mul16 rs1 rs2 i) 0xFF)) (fun i => i * 8)
     | _ => 0
     end) un.

(** * The unit as a whole *)

Section Cfu.
Context `{Framework}.

(** [pushToMasterChannelPort(name + "-m_cpu", packet)] *)
Definition get_result (i : instr) (rs1 rs2 : Z) : M CFU CFURespPacket Z :=
  modify (send_information_to_unit i rs1 rs2);;
  modify (fun c => MkCFU (ctl_type c) (addSubUnit c) (Mul_computation (mulUnit c)));;
  modify (fun c => MkCFU (ctl_type c) (AddSub_computation (addSubUnit c)) (mulUnit c));;
  c ← get;
  match outputSel c with
  | AddSub => mret (un_result (addSubUnit c))
  | Mul => mret (un_result (mulUnit c))
  | Unknown => lift (log_error "(CFU) No such decision");; mret 0
  end.

Definition packet_handler (p : CFUReqPacket) : M CFU CFURespPacket unit :=
  result ← get_result (cq_i p) (cq_rs1 p) (cq_rs2 p);
  emit (CFUResp (cq_i p) result).

(** [step]: every request popped from a port visits the unit. *)
Definition cfu_step (popped : list CFUReqPacket) : M CFU CFURespPacket unit :=
  foreach popped packet_handler.
End Cfu.

(** * The reference: lane by lane

    [lane w k x] is the [k]-th [w]-bit lane of [x], [pack w vs] the word whose
    lanes are [vs]. *)

Definition lane (w : Z) (k : nat) (x : Z) : Z := uint w (Z.shiftr x (w * Z.of_nat k)).

Fixpoint pack (w : Z) (vs : list Z) : Z :=
  match vs with
  | [] => 0
  | v :: vs' => v + 2 ^ w * pack w vs'
  end.

(** The product of two signed 8-bit lanes. *)
Definition lane_product (k : nat) (x y : Z) : Z := s8 (lane 8 k x) * s8 (lane 8 k y).

Definition simd_spec (op : instr_type) (x y : Z) : option Z :=
  match op with
  | S_ADDI8I8S_VV =>
      Some (pack 8 (map (fun k => uint 8 (lane 8 k x + lane 8 k y)) (seq 0 4)))
  | S_SUBI8I8S_VV =>
      Some (pack 8 (map (fun k => uint 8 (lane 8 k x - lane 8 k y)) (seq 0 4)))
  | S_ADDI16I16S_VV =>
      Some (pack 16 (map (fun k => uint 16 (lane 16 k x + lane 16 k y)) (seq 0 2)))
  | S_SUBI16I16S_VV =>
      Some (pack 16 (map (fun k => uint 16 (lane 16 k x - lane 16 k y)) (seq 0 2)))
  | S_PMULI8I16S_VV_L =>
      Some (pack 16 (map (fun k => uint 16 (lane_product k x y)) (seq 0 2)))
  | S_PMULI8I16S_VV_H =>
      Some (pack 16 (map (fun k => uint 16 (lane_product k x y)) (seq 2 2)))
  | S_AMULI8I8S_VV_L =>
      Some (pack 8 (map (fun k => uint 8 (lane_product k x y)) (seq 0 4)))
  | S_AMULI8I8S_VV_NQ =>
      Some (pack 8 (map (fun k => uint 8 (lane_product k x y / 256)) (seq 0 4)))
  | _ => None
  end.

(** * Lemmas *)

Lemma get8_lane rs k : get8 rs (Z.of_nat k * 8) = s8 (lane 8 k rs).
Proof.
  unfold get8, lane. rewrite sint_uint, Z.mul_comm.
  change 0xFF with (Z.ones 8). rewrite Z.land_ones by lia. apply sint_uint.
Qed.

Lemma get16_lane rs k : get16 rs (Z.of_nat k * 16) = s16 (lane 16 k rs).
Proof.
  unfold get16, lane. rewrite sint_uint, Z.mul_comm.
  change 0xFFFF with (Z.ones 16). rewrite Z.land_ones by lia. apply sint_uint.
Qed.

(** The product of two [int8_t] fits [int16_t]. *)
Lemma mul16_lane rs1 rs2 k : mul16 rs1 rs2 (Z.of_nat k) = lane_product k rs1 rs2.
Proof.
  unfold mul16, lane_product. rewrite !get8_lane. apply sint_id; [lia|].
  pose proof (sint_range 8 (lane 8 k rs1)). pose proof (sint_range 8 (lane 8 k rs2)). nia.
Qed.

Lemma or_lane_add a v sh w :
  0 <= sh -> 0 <= w -> sh + w <= 32 -> 0 <= a < 2 ^ sh -> is_u w v ->
  or_lane a v sh = a + v * 2 ^ sh /\ 0 <= or_lane a v sh < 2 ^ (sh + w).
Proof.
  intros Hsh Hw Hn Ha [Hv0 Hv1]. unfold or_lane.
  assert (Hp : 2 ^ (sh + w) = 2 ^ sh * 2 ^ w) by (by apply Z.pow_add_r).
  assert (2 ^ (sh + w) <= 2 ^ 32) by (by apply Z.pow_le_mono_r).
  rewrite uint_id.
  - rewrite Z.lor_comm, lor_shiftl_add, Z.add_comm by done. split; [done|]. nia.
  - unfold is_u. rewrite Z.shiftl_mul_pow2 by done. nia.
Qed.

Lemma pack_range w vs : 0 <= w -> Forall (is_u w) vs ->
  is_u (w * Z.of_nat (length vs)) (pack w vs).
Proof.
  intros Hw. unfold is_u. induction 1 as [|v vs Hv _ IH]; simpl pack; simpl length; [lia|].
  replace (w * Z.of_nat (S (length vs))) with (w + w * Z.of_nat (length vs)) by lia.
  rewrite Z.pow_add_r by lia. nia.
Qed.

Lemma lane_pack w vs k v : 0 <= w -> Forall (is_u w) vs ->
  vs !! k = Some v -> lane w k (pack w vs) = v.
Proof.
  intros Hw Hf. revert k. induction Hf as [|v0 vs Hv0 Hf IH]; intros k Hk; [done|].
  assert (0 < 2 ^ w) by (apply Z.pow_pos_nonneg; lia). unfold is_u in Hv0.
  destruct k as [|k]; simpl in Hk.
  - injection Hk as ->. unfold lane. rewrite Z.mul_0_r, Z.shiftr_0_r. simpl pack.
    unfold uint. rewrite Z.mul_comm, Z.mod_add by lia. by apply Z.mod_small.
  - rewrite <- (IH k Hk). unfold lane.
    replace (w * Z.of_nat (S k)) with (w + w * Z.of_nat k) by lia.
    rewrite <- Z.shiftr_shiftr by lia. do 2 f_equal. simpl pack.
    rewrite Z.shiftr_div_pow2, Z.mul_comm, Z.div_add by lia.
    rewrite Z.div_small by done. done.
Qed.

(** A loop that ors consecutive lanes packs them. *)
Lemma lane_loop4 from (f at_ : Z -> Z) :
  (forall i, is_u 8 (f i)) -> (forall k, at_ (Z.of_nat (from + k)) = 8 * Z.of_nat k) ->
  lane_loop from 4 f at_ = pack 8 (map (fun k => f (Z.of_nat k)) (seq from 4)).
Proof.
  intros Hf Ha. unfold lane_loop. simpl seq. cbn [foldl map].
  pose proof (Ha 0%nat) as A0. pose proof (Ha 1%nat) as A1.
  pose proof (Ha 2%nat) as A2. pose proof (Ha 3%nat) as A3.
  rewrite Nat.add_0_r in A0. rewrite Nat.add_1_r in A1.
  replace (from + 2)%nat with (S (S from)) in A2 by lia.
  replace (from + 3)%nat with (S (S (S from))) in A3 by lia.
  change (8 * Z.of_nat 0) with 0 in A0. change (8 * Z.of_nat 1) with 8 in A1.
  change (8 * Z.of_nat 2) with 16 in A2. change (8 * Z.of_nat 3) with 24 in A3.
  rewrite A0, A1, A2, A3.
  destruct (or_lane_add 0 (f (Z.of_nat from)) 0 8) as [E0 R0]; [lia..|done|].
  destruct (or_lane_add _ (f (Z.of_nat (S from))) 8 8 ltac:(lia) ltac:(lia) ltac:(lia) R0 (Hf _)) as [E1 R1].
  destruct (or_lane_add _ (f (Z.of_nat (S (S from)))) 16 8 ltac:(lia) ltac:(lia) ltac:(lia) R1 (Hf _)) as [E2 R2].
  destruct (or_lane_add _ (f (Z.of_nat (S (S (S from))))) 24 8 ltac:(lia) ltac:(lia) ltac:(lia) R2 (Hf _)) as [E3 _].
  rewrite E3, E2, E1, E0. simpl pack. lia.
Qed.

Lemma lane_loop2 from (f at_ : Z -> Z) :
  (forall i, is_u 16 (f i)) -> (forall k, at_ (Z.of_nat (from + k)) = 16 * Z.of_nat k) ->
  lane_loop from 2 f at_ = pack 16 (map (fun k => f (Z.of_nat k)) (seq from 2)).
Proof.
  intros Hf Ha. unfold lane_loop. simpl seq. cbn [foldl map].
  pose proof (Ha 0%nat) as A0. pose proof (Ha 1%nat) as A1.
  rewrite Nat.add_0_r in A0. rewrite Nat.add_1_r in A1.
  change (16 * Z.of_nat 0) with 0 in A0. change (16 * Z.of_nat 1) with 16 in A1.
  rewrite A0, A1.
  destruct (or_lane_add 0 (f (Z.of_nat from)) 0 16) as [E0 R0]; [lia..|done|].
  destruct (or_lane_add _ (f (Z.of_nat (S from))) 16 16 ltac:(lia) ltac:(lia) ltac:(lia) R0 (Hf _)) as [E1 R1].
  rewrite E1, E0. simpl pack. lia.
Qed.

#[local] Hint Resolve uint_range : core.

Lemma map_ext_seq {A} (f g : nat -> A) from n :
  (forall k, f k = g k) -> map f (seq from n) = map g (seq from n).
Proof. intros Hfg. by apply map_ext. Qed.

(** The signed detour of a lane does not change its bits. *)
Lemma wrap_lanes_add w x y :
  uint w (sint w (sint w x + sint w y)) = uint w (x + y).
Proof. rewrite uint_sint, <- uint_add_l, uint_sint, uint_add_l, <- uint_add_r,
  uint_sint. apply uint_add_r. Qed.

Lemma wrap_lanes_sub w x y :
  uint w (sint w (sint w x - sint w y)) = uint w (x - y).
Proof. rewrite uint_sint, <- uint_sub_l, uint_sint, uint_sub_l, <- uint_sub_r,
  uint_sint. apply uint_sub_r. Qed.

Lemma low_byte x : u8 (Z.land x 0xFF) = u8 x.
Proof. change 0xFF with (Z.ones 8). rewrite Z.land_ones by lia. apply uint_uint. Qed.

(** Both units compute the reference on their opcodes. *)
Lemma AddSub_spec un r :
  simd_spec (un_type un) (un_rs1 un) (un_rs2 un) = Some r ->
  un_result (AddSub_computation un) =
  match un_type un with
  | S_ADDI8I8S_VV | S_ADDI16I16S_VV | S_SUBI8I8S_VV | S_SUBI16I16S_VV => r
  | _ => 0
  end.
Proof.
  unfold AddSub_computation. unfold simd_spec; intros Hs.
  destruct (un_type un); try discriminate; apply (inj Some) in Hs; subst r; try done;
    cbn [un_result set_result].
  all: first [rewrite lane_loop4 | rewrite lane_loop2]; [|auto with zarith|intros; lia].
  all: f_equal; apply map_ext_seq; intros k.
  all: rewrite ?get8_lane, ?get16_lane, ?wrap_lanes_add, ?wrap_lanes_sub; done.
Qed.

Lemma Mul_spec un r :
  simd_spec (un_type un) (un_rs1 un) (un_rs2 un) = Some r ->
  un_result (Mul_computation un) =
  match un_type un with
  | S_ADDI8I8S_VV | S_ADDI16I16S_VV | S_SUBI8I8S_VV | S_SUBI16I16S_VV => 0
  | _ => r
  end.
Proof.
  unfold Mul_computation. unfold simd_spec; intros Hs.
  destruct (un_type un); try discriminate; apply (inj Some) in Hs; subst r; try done;
    cbn [un_result set_result].
  all: first [rewrite lane_loop4 | rewrite lane_loop2]; [|auto with zarith|intros; lia].
  all: f_equal; apply map_ext_seq; intros k.
  all: rewrite ?low_byte, ?mul16_lane, ?Z.shiftr_div_pow2 by lia; done.
Qed.

Lemma lane_product_s16 k x y : s16 (lane_product k x y) = lane_product k x y.
Proof.
  apply sint_id; [lia|]. unfold lane_product.
  pose proof (sint_range 8 (lane 8 k x)). pose proof (sint_range 8 (lane 8 k y)). nia.
Qed.

Lemma cfu_spec_run `{Framework} c i x y r :
  simd_spec (i_op i) x y = Some r ->
  exists c', outcome (packet_handler (CFUReq i x y)) c = Ok (c', [CFUResp i r]).
Proof.
  intros Hs. unfold packet_handler, get_result. step_monad. unfold outputSel. simpl.
  pose proof (AddSub_spec (UnitState (i_op i) x y (un_result (addSubUnit c))) r Hs) as Ha.
  pose proof (Mul_spec (UnitState (i_op i) x y (un_result (mulUnit c))) r Hs) as Hm.
  unfold setOperands, setInstrType. simpl in *.
  destruct (i_op i); try discriminate; simpl; rewrite ?Ha, ?Hm; eauto.
Qed.

(** * Properties *)

Section Cfu_properties.
Context `{Framework}.

(** C32. For each of the eight SIMD instructions, whatever the units held
    before, a request is answered by exactly one response that carries the
    request's instruction and the lane-by-lane reference result. *)
Theorem cfu_refines_spec (c : CFU) (p : CFUReqPacket) r :
  simd_spec (i_op (cq_i p)) (cq_rs1 p) (cq_rs2 p) = Some r ->
  exists c', outcome (packet_handler p) c = Ok (c', [CFUResp (cq_i p) r]).
Proof.
  destruct p as [i x y]. apply cfu_spec_run.
Qed.

(** Lane by lane: the result of an 8-bit SIMD add is a 32-bit word whose
    [k]-th byte is the wrapped sum of the [k]-th bytes of the operands, and a
    16-bit product instruction keeps the exact product of two signed bytes. *)
Theorem cfu_lanes (c : CFU) i x y k :
  (k < 4)%nat ->
  (i_op i = S_ADDI8I8S_VV ->
   exists c' r, outcome (packet_handler (CFUReq i x y)) c = Ok (c', [CFUResp i r])
     /\ is_u 32 r /\ lane 8 k r = (lane 8 k x + lane 8 k y) mod 256) /\
  (i_op i = S_PMULI8I16S_VV_L -> (k < 2)%nat ->
   exists c' r, outcome (packet_handler (CFUReq i x y)) c = Ok (c', [CFUResp i r])
     /\ is_u 32 r /\ s16 (lane 16 k r) = s8 (lane 8 k x) * s8 (lane 8 k y)).
Proof.
  intros Hk. split; intros Hi.
  - destruct (cfu_spec_run c i x y (pack 8 (map
      (fun k => uint 8 (lane 8 k x + lane 8 k y)) (seq 0 4)))) as [c' Hc];
      [by rewrite Hi|].
    eexists c', _. split; [exact Hc|]. split.
    + by apply (pack_range 8); [|repeat constructor; apply uint_range].
    + apply lane_pack; [done|repeat constructor; by apply uint_range|].
      rewrite list_lookup_fmap, lookup_seq_lt by done. done.
  - intros Hk2. destruct (cfu_spec_run c i x y (pack 16 (map
      (fun k => uint 16 (lane_product k x y)) (seq 0 2)))) as [c' Hc];
      [by rewrite Hi|].
    eexists c', _. split; [exact Hc|]. split.
    + by apply (pack_range 16); [|repeat constructor; apply uint_range].
    + erewrite lane_pack; [|done|repeat constructor; by apply uint_range|
        rewrite list_lookup_fmap, lookup_seq_lt by done; reflexivity].
      rewrite sint_uint. apply lane_product_s16.
Qed.
End Cfu_properties.

(** An opcode the unit does not know logs an error; where the run goes on,
    the request is still answered, with result 0. *)
Theorem cfu_unknown `{Framework} (c : CFU) (p : CFUReqPacket) :
  simd_spec (i_op (cq_i p)) (cq_rs1 p) (cq_rs2 p) = None ->
  match outcome (packet_handler p) c with
  | Ok (_, resps) => error_halts = false /\ resps = [CFUResp (cq_i p) 0]
  | Err f => error_halts = true /\ f = ErrorLogged "(CFU) No such decision"
  end.
Proof.
  destruct p as [i x y]. unfold packet_handler, get_result, log_error. step_monad.
  unfold outputSel. simpl. destruct (i_op i); simpl; try discriminate; intros _;
    by destruct error_halts.
Qed.

(** * Witnesses *)

#[local] Existing Instance printing_framework.

(** An instruction with the given opcode. *)
Definition simd_instr (op : instr_type) : instr :=
  Instr op auto_operand auto_operand auto_operand None 0 false.

Definition idle_cfu : CFU :=
  MkCFU UNIMPL (UnitState UNIMPL 0 0 0) (UnitState UNIMPL 0 0 0).

Lemma cfu_refines_spec_witness :
  exists c', outcome (packet_handler (CFUReq (simd_instr S_SUBI8I8S_VV) 0x01020380 0x01030181))
    idle_cfu = Ok (c', [CFUResp (simd_instr S_SUBI8I8S_VV) 0x00FF02FF]).
Proof. apply (cfu_refines_spec idle_cfu (CFUReq _ _ _)). vm_compute. reflexivity. Defined.

Lemma cfu_lanes_witness :
  exists c' r, outcome (packet_handler (CFUReq (simd_instr S_ADDI8I8S_VV) 0x7F00 0x0100)) idle_cfu
    = Ok (c', [CFUResp (simd_instr S_ADDI8I8S_VV) r])
    /\ is_u 32 r /\ lane 8 1 r = (lane 8 1 0x7F00 + lane 8 1 0x0100) mod 256.
Proof. apply (cfu_lanes idle_cfu (simd_instr S_ADDI8I8S_VV) 0x7F00 0x0100 1); [lia|done]. Defined.

Lemma cfu_unknown_witness :
  match outcome (packet_handler (CFUReq (simd_instr ADD) 1 2)) idle_cfu with
  | Ok (_, resps) => error_halts = false /\ resps = [CFUResp (simd_instr ADD) 0]
  | Err f => error_halts = true /\ f = ErrorLogged "(CFU) No such decision"
  end.
Proof. apply (cfu_unknown idle_cfu (CFUReq _ _ _)). reflexivity. Defined.
