(* ===== verification/Isa.v ===== *)
(** What both processors compute from register values: the arithmetic cases,
    the branch conditions and the register file of [CPU::processInstr]
    ([soc/libs/CPU.cc], repeated in [src/riscv/libs/CPU.cc]), and the RV32
    reference they are compared with. *)
From S2P Require Import Prelude Machine DataStruct.
Local Open Scope Z_scope.

(** * The register file

    [uint32_t rf[32]]; an index outside of it is undefined behaviour. *)

Definition in_rf (r : Z) : bool := (0 <=? r) && (r <? 32).

Definition rf_get (r : Z) (rf : list Z) : result Z :=
  if in_rf r then from_opt (Undefined "rf") (rf !! Z.to_nat r) else Err (Undefined "rf").

Definition rf_set (r v : Z) (rf : list Z) : result (list Z) :=
  if in_rf r then Ok (<[Z.to_nat r := v]> rf) else Err (Undefined "rf").

Definition wf_rf (rf : list Z) : Prop := length rf = 32%nat /\ Forall (is_u 32) rf.

(** * The cases of the switch *)

Definition b2z (b : bool) : Z := if b then 1 else 0.

(** Register-register cases: the value stored for operands [x] and [y]. *)
Definition alu_rr (op : instr_type) (x y : Z) : result Z :=
  match op with
  | ADD => Ok (add32 x y)
  | SUB => Ok (sub32 x y)
  | MUL => Ok (mul32 x y)
  | SLT => Ok (b2z (s32 x <? s32 y))
  | SLTU => Ok (add32 x y)
  | AND => Ok (Z.land x y)
  | OR => Ok (Z.lor x y)
  | XOR => Ok (Z.lxor x y)
  | SLL => shl32 x y
  | SRL => shr32 x y
  | SRA => sar32 x y
  | _ => Ok 0
  end.

(** Register-immediate cases. *)
Definition alu_ri (op : instr_type) (x imm : Z) : result Z :=
  match op with
  | ADDI => Ok (add32 x imm)
  | SLTI => Ok (b2z (s32 x <? s32 imm))
  | SLTIU => Ok (b2z (x <? imm))
  | ANDI => Ok (Z.land x imm)
  | ORI => Ok (Z.lor x imm)
  | XORI => Ok (Z.lxor x imm)
  | SLLI => shl32 x imm
  | SRLI => shr32 x imm
  | SRAI => sar32 x imm
  | _ => Ok 0
  end.

(** Branch conditions. *)
Definition branch_taken (op : instr_type) (x y : Z) : bool :=
  match op with
  | BEQ => x =? y
  | BGE => s32 y <=? s32 x
  | BGEU => y <=? x
  | BLT => s32 x <? s32 y
  | BLTU => x <? y
  | BNE => negb (x =? y)
  | _ => false
  end.

(** * The RV32 reference

    The values the RISC-V specification gives these operations, for operands
    read as 32-bit words; shifts use the low five bits of their count. *)

Definition rv32_rr (op : instr_type) (x y : Z) : option Z :=
  let sh := y mod 32 in
  match op with
  | ADD => Some ((x + y) mod 2 ^ 32)
  | SUB => Some ((x - y) mod 2 ^ 32)
  | MUL => Some ((x * y) mod 2 ^ 32)
  | SLT => Some (if s32 x <? s32 y then 1 else 0)
  | SLTU => Some (if x <? y then 1 else 0)
  | AND => Some (Z.land x y)
  | OR => Some (Z.lor x y)
  | XOR => Some (Z.lxor x y)
  | SLL => Some ((x * 2 ^ sh) mod 2 ^ 32)
  | SRL => Some (x / 2 ^ sh)
  | SRA => Some ((s32 x / 2 ^ sh) mod 2 ^ 32)
  | _ => None
  end.

Definition is_rr (op : instr_type) : bool :=
  match op with
  | ADD | SUB | MUL | SLT | SLTU | AND | OR | XOR | SLL | SRL | SRA => true
  | _ => false
  end.
Definition is_ri (op : instr_type) : bool :=
  match op with
  | ADDI | SLTI | SLTIU | ANDI | ORI | XORI | SLLI | SRLI | SRAI => true
  | _ => false
  end.
Definition is_branch (op : instr_type) : bool :=
  match op with BEQ | BGE | BGEU | BLT | BLTU | BNE => true | _ => false end.
Definition is_shift (op : instr_type) : bool :=
  match op with SLL | SRL | SRA | SLLI | SRLI | SRAI => true | _ => false end.
Definition is_simd (op : instr_type) : bool :=
  match op with
  | S_ADDI8I8S_VV | S_ADDI16I16S_VV | S_SUBI8I8S_VV | S_SUBI16I16S_VV
  | S_PMULI8I16S_VV_L | S_PMULI8I16S_VV_H | S_AMULI8I8S_VV_NQ | S_AMULI8I8S_VV_L => true
  | _ => false
  end.

(** The register-register operation of an immediate instruction. *)
Definition ri_rr (op : instr_type) : instr_type :=
  match op with
  | ADDI => ADD | SLTI => SLT | SLTIU => SLTU | ANDI => AND | ORI => OR
  | XORI => XOR | SLLI => SLL | SRLI => SRL | SRAI => SRA | op => op
  end.

(** * Lemmas *)

Lemma rf_get_ok r rf v : rf_get r rf = Ok v -> in_rf r = true /\ rf !! Z.to_nat r = Some v.
Proof.
  unfold rf_get, from_opt. destruct (in_rf r); [|done].
  destruct (rf !! Z.to_nat r) eqn:E; [|done]. by intros [= <-].
Qed.

Lemma rf_get_total r rf : wf_rf rf -> in_rf r = true -> exists v, rf_get r rf = Ok v.
Proof.
  intros [Hl _] Hr. unfold rf_get. rewrite Hr. unfold in_rf in Hr.
  destruct (lookup_lt_is_Some_2 rf (Z.to_nat r)) as [v Hv]; [lia|].
  exists v. by rewrite Hv.
Qed.

Lemma rf_get_range r rf v : wf_rf rf -> rf_get r rf = Ok v -> is_u 32 v.
Proof. intros [_ Hf] [_ Hv]%rf_get_ok. by eapply Forall_lookup_1. Qed.

Lemma rf_set_wf r v rf rf' : wf_rf rf -> is_u 32 v -> rf_set r v rf = Ok rf' -> wf_rf rf'.
Proof.
  unfold rf_set. intros [Hl Hf] Hv. case_if; [|done]. intros [= <-].
  split; [by rewrite length_insert|by apply Forall_insert].
Qed.

Lemma rf_set_get r v rf rf' r' :
  wf_rf rf -> rf_set r v rf = Ok rf' ->
  rf_get r' rf' = if r' =? r then Ok v else rf_get r' rf.
Proof.
  unfold rf_set, rf_get. intros [Hl _]. destruct (in_rf r) eqn:Hr; [|done].
  intros [= <-]. unfold in_rf in *. destruct (Z.eqb_spec r' r) as [->|Hne].
  - rewrite Hr. rewrite list_lookup_insert_eq by lia. done.
  - case_if; [|done]. rewrite list_lookup_insert_ne by lia. done.
Qed.

Lemma b2z_range b : is_u 32 (b2z b).
Proof. destruct b; unfold is_u; simpl; lia. Qed.

(** The bits of a bitwise operation stay below the width of the operands. *)
Lemma bitwise_range (f : Z -> Z -> Z) (g : bool -> bool -> bool) n x y :
  0 < n -> g false false = false ->
  (forall a b i, 0 <= i -> Z.testbit (f a b) i = g (Z.testbit a i) (Z.testbit b i)) ->
  is_u n x -> is_u n y -> is_u n (f x y).
Proof.
  intros Hn Hg Hf Hx Hy.
  assert (Hm : f x y = (f x y) mod 2 ^ n).
  { apply Z.bits_inj'. intros i Hi. destruct (Z.ltb_spec i n).
    - by rewrite Z.mod_pow2_bits_low by lia.
    - rewrite Z.mod_pow2_bits_high by lia. rewrite Hf by done.
      rewrite <- (Z.mod_small x (2 ^ n)), <- (Z.mod_small y (2 ^ n)) by done.
      by rewrite !Z.mod_pow2_bits_high by lia. }
  rewrite Hm. by apply Z.mod_pos_bound, Z.pow_pos_nonneg; lia.
Qed.

Lemma land_range n x y : 0 < n -> is_u n x -> is_u n y -> is_u n (Z.land x y).
Proof. intros. eapply (bitwise_range Z.land andb); auto. intros. apply Z.land_spec. Qed.
Lemma lor_range n x y : 0 < n -> is_u n x -> is_u n y -> is_u n (Z.lor x y).
Proof. intros. eapply (bitwise_range Z.lor orb); auto. intros. apply Z.lor_spec. Qed.
Lemma lxor_range n x y : 0 < n -> is_u n x -> is_u n y -> is_u n (Z.lxor x y).
Proof. intros. eapply (bitwise_range Z.lxor xorb); auto. intros. apply Z.lxor_spec. Qed.

#[export] Hint Resolve land_range lor_range lxor_range b2z_range rf_get_range : model.

(** Close a range goal of one arithmetic case. *)
Ltac range_case Hx Hy :=
  first
    [ by apply uint_range
    | apply b2z_range
    | by apply land_range
    | by apply lor_range
    | by apply lxor_range
    | let H := fresh in intros H;
      first [ by apply shl32_range in H | by apply sar32_range in H
            | by apply (shr32_range _ _ _ Hx (proj1 Hy)) in H ]
    | unfold is_u; lia ].

Lemma alu_rr_range op x y v :
  is_u 32 x -> is_u 32 y -> alu_rr op x y = Ok v -> is_u 32 v.
Proof. intros Hx Hy. destruct op; simpl; try (intros [= <-]); range_case Hx Hy. Qed.

Lemma alu_ri_range op x y v :
  is_u 32 x -> is_u 32 y -> alu_ri op x y = Ok v -> is_u 32 v.
Proof. intros Hx Hy. destruct op; simpl; try (intros [= <-]); range_case Hx Hy. Qed.

(** The immediate cases compute what the register cases do, but for SLTIU. *)
Lemma alu_ri_rr op x y : is_ri op = true -> op <> SLTIU ->
  alu_ri op x y = alu_rr (ri_rr op) x y.
Proof. by destruct op. Qed.

(** * The RV32 reference of one instruction

    Registers as a list whose index 0 always reads as zero; immediates are
    the decoded ones: branch and jump targets are absolute, as the assembler
    leaves them. *)

Definition xget (rf : list Z) (r : Z) : Z :=
  if r =? 0 then 0 else default 0 (rf !! Z.to_nat r).
Definition xset (r v : Z) (rf : list Z) : list Z :=
  if r =? 0 then rf else <[Z.to_nat r := v]> rf.

Definition rv32_branch (op : instr_type) (x y : Z) : option bool :=
  match op with
  | BEQ => Some (x =? y)
  | BNE => Some (negb (x =? y))
  | BLT => Some (s32 x <? s32 y)
  | BGE => Some (negb (s32 x <? s32 y))
  | BLTU => Some (x <? y)
  | BGEU => Some (negb (x <? y))
  | _ => None
  end.

Definition rv32_step (i : instr) (rf : list Z) (pc : Z) : option (list Z * Z) :=
  let rd := o_reg (i_a1 i) in
  let next := (pc + 4) mod 2 ^ 32 in
  let op := i_op i in
  match op with
  | JAL => Some (xset rd next rf, o_imm (i_a2 i))
  | JALR =>
      Some (xset rd next rf,
            2 * (((xget rf (o_reg (i_a2 i)) + o_imm (i_a3 i)) mod 2 ^ 32) / 2))
  | LUI => Some (xset rd ((o_imm (i_a2 i) * 4096) mod 2 ^ 32) rf, next)
  | AUIPC => Some (xset rd ((pc + o_imm (i_a2 i) * 4096) mod 2 ^ 32) rf, next)
  | _ =>
      if is_rr op then
        v ← rv32_rr op (xget rf (o_reg (i_a2 i))) (xget rf (o_reg (i_a3 i)));
        Some (xset rd v rf, next)
      else if is_ri op then
        v ← rv32_rr (ri_rr op) (xget rf (o_reg (i_a2 i))) (o_imm (i_a3 i));
        Some (xset rd v rf, next)
      else
        option_map (fun t : bool => (rf, if t then o_imm (i_a3 i) else next))
          (rv32_branch op (xget rf (o_reg (i_a1 i))) (xget rf (o_reg (i_a2 i))))
  end.

(** The register fields that an instruction uses name registers, and its
    immediates are words. *)
Definition wf_instr (i : instr) : Prop :=
  in_rf (o_reg (i_a1 i)) = true /\ in_rf (o_reg (i_a2 i)) = true /\
  in_rf (o_reg (i_a3 i)) = true /\
  is_u 32 (o_imm (i_a1 i)) /\ is_u 32 (o_imm (i_a2 i)) /\ is_u 32 (o_imm (i_a3 i)).

Definition is_jump (op : instr_type) : bool :=
  match op with JAL | JALR => true | _ => false end.
Definition is_upper (op : instr_type) : bool :=
  match op with LUI | AUIPC => true | _ => false end.

(** The cases in which the simulators and the reference agree. [SLTU], a
    shift count of 32 or more, a jump to an odd address, a [JALR] whose two
    registers are the same and a write to register 0 are outside. *)
Definition conforming (i : instr) (rf : list Z) : bool :=
  let op := i_op i in
  let x := xget rf (o_reg (i_a2 i)) in
  let count := if is_rr op then xget rf (o_reg (i_a3 i)) else o_imm (i_a3 i) in
  (is_rr op || is_ri op || is_branch op || is_jump op || is_upper op)
  && negb (bool_decide (op = SLTU))
  && (if is_shift op then count <? 32 else true)
  && (if bool_decide (op = JALR)
      then negb (o_reg (i_a1 i) =? o_reg (i_a2 i)) && Z.even (x + o_imm (i_a3 i))
      else true)
  && (is_branch op || negb (o_reg (i_a1 i) =? 0)).

(** Registers 0 to 31 hold words, and register 0 holds zero. *)
Definition x0_zero (rf : list Z) : Prop := rf !! 0%nat = Some 0.

Lemma rf_get_xget rf r :
  wf_rf rf -> x0_zero rf -> in_rf r = true -> rf_get r rf = Ok (xget rf r).
Proof.
  intros Hrf H0 Hr. destruct (rf_get_total r rf Hrf Hr) as [v Hv]. rewrite Hv. f_equal.
  apply rf_get_ok in Hv as [_ Hv]. unfold xget. destruct (Z.eqb_spec r 0) as [->|].
  - unfold x0_zero in H0. change (Z.to_nat 0) with 0%nat in Hv. simpl. congruence.
  - by rewrite Hv.
Qed.

Lemma xget_range rf r : wf_rf rf -> is_u 32 (xget rf r).
Proof.
  intros [_ Hf]. unfold xget. destruct (r =? 0); [unfold is_u; lia|].
  destruct (rf !! Z.to_nat r) eqn:E; simpl; [|unfold is_u; lia].
  by eapply Forall_lookup_1.
Qed.

Lemma rf_set_xset rf r v :
  in_rf r = true -> (r =? 0) = false -> rf_set r v rf = Ok (xset r v rf).
Proof. intros Hr H0. unfold rf_set, xset. by rewrite Hr, H0. Qed.

(** The register-register cases are the reference, but for SLTU. *)
Lemma alu_rr_rv32 op x y v :
  is_u 32 x -> is_u 32 y -> op <> SLTU -> (is_shift op = true -> y < 32) ->
  rv32_rr op x y = Some v -> alu_rr op x y = Ok v.
Proof.
  intros Hx Hy Hop Hsh. unfold rv32_rr.
  destruct op; try done; intros Hv; apply (inj Some) in Hv; subst v; cbn [alu_rr].
  all: try (unfold add32, sub32, mul32, uint; done).
  all: specialize (Hsh eq_refl); unfold shl32, shr32, sar32; unfold is_u in *;
    rewrite (proj2 (Z.ltb_lt _ _)) by done; rewrite (Z.mod_small y 32) by lia.
  all: unfold uint; by rewrite ?Z.shiftl_mul_pow2, ?Z.shiftr_div_pow2 by lia.
Qed.

(** The immediate cases are the reference too, [SLTIU] included. *)
Lemma alu_ri_rv32 op x y v :
  is_u 32 x -> is_u 32 y -> is_ri op = true -> (is_shift op = true -> y < 32) ->
  rv32_rr (ri_rr op) x y = Some v -> alu_ri op x y = Ok v.
Proof.
  intros Hx Hy Hop Hsh Hv. destruct (decide (op = SLTIU)) as [->|Hne].
  - apply (inj Some) in Hv. by subst v.
  - rewrite alu_ri_rr by done. apply alu_rr_rv32; [done|done| | |done];
      by destruct op.
Qed.

Lemma branch_taken_rv32 op x y t : rv32_branch op x y = Some t -> branch_taken op x y = t.
Proof.
  destruct op; try done; simpl; intros Ht; apply (inj Some) in Ht; subst t; try done.
  - by rewrite Z.leb_antisym.
  - by rewrite Z.leb_antisym.
Qed.

Lemma even_target x : Z.even x = true -> 2 * ((x mod 2 ^ 32) / 2) = x mod 2 ^ 32.
Proof.
  intros He. apply Z.even_spec in He as [k ->].
  change (2 ^ 32) with (2 * 2 ^ 31). rewrite Zmult_mod_distr_l.
  rewrite (Z.mul_comm 2 (k mod _)), Z.div_mul by lia. lia.
Qed.

Lemma xset_x0 r v rf : in_rf r = true -> x0_zero rf -> x0_zero (xset r v rf).
Proof.
  unfold x0_zero, xset, in_rf. intros Hr H0. destruct (Z.eqb_spec r 0); [done|].
  rewrite list_lookup_insert_ne by lia. done.
Qed.

(** The reference never changes register 0. *)
Lemma rv32_step_x0 i rf pc rf' pc' :
  in_rf (o_reg (i_a1 i)) = true -> x0_zero rf ->
  rv32_step i rf pc = Some (rf', pc') -> x0_zero rf'.
Proof.
  intros Hr H0. unfold rv32_step.
  destruct (i_op i); simpl;
    repeat (first [ intros [= <- <-]; first [done | by apply xset_x0] | discriminate ]).
Qed.

(** [conforming], taken apart. *)
Lemma conforming_inv i rf : conforming i rf = true ->
  (is_rr (i_op i) || is_ri (i_op i) || is_branch (i_op i) || is_jump (i_op i)
   || is_upper (i_op i)) = true /\
  i_op i <> SLTU /\
  (is_shift (i_op i) = true ->
   (if is_rr (i_op i) then xget rf (o_reg (i_a3 i)) else o_imm (i_a3 i)) < 32) /\
  (i_op i = JALR -> o_reg (i_a1 i) <> o_reg (i_a2 i) /\
     Z.even (xget rf (o_reg (i_a2 i)) + o_imm (i_a3 i)) = true) /\
  (is_branch (i_op i) = false -> (o_reg (i_a1 i) =? 0) = false).
Proof.
  unfold conforming. rewrite !andb_true_iff. intros ((((H1 & H2) & H3) & H4) & H5).
  split_and!; [done| | | |].
  - intros E. rewrite E in H2. done.
  - intros E. rewrite E in H3. by apply Z.ltb_lt.
  - intros E. rewrite bool_decide_eq_true_2 in H4 by done.
    apply andb_true_iff in H4 as [H4 ?]. split; [|done].
    apply negb_true_iff in H4. by apply Z.eqb_neq.
  - intros E. rewrite E in H5. by apply negb_true_iff.
Qed.

(** The reference defines what the simulators agree on. *)
Lemma conforming_defined i rf pc : conforming i rf = true -> exists rf' pc', rv32_step i rf pc = Some (rf', pc').
Proof.
  intros (Hk & _)%conforming_inv. unfold rv32_step. destruct (i_op i); try discriminate; cbn; by do 2 eexists.
Qed.

(** [rv32_step] by kind of instruction. *)
Lemma rv32_step_rr i rf pc rf' pc' : is_rr (i_op i) = true ->
  rv32_step i rf pc = Some (rf', pc') ->
  exists v, rv32_rr (i_op i) (xget rf (o_reg (i_a2 i))) (xget rf (o_reg (i_a3 i))) = Some v
    /\ rf' = xset (o_reg (i_a1 i)) v rf /\ pc' = add32 pc 4.
Proof.
  intros Hk. unfold rv32_step. destruct (i_op i); try discriminate; simpl;
    intros [= <- <-]; eauto.
Qed.

Lemma rv32_step_ri i rf pc rf' pc' : is_ri (i_op i) = true ->
  rv32_step i rf pc = Some (rf', pc') ->
  exists v, rv32_rr (ri_rr (i_op i)) (xget rf (o_reg (i_a2 i))) (o_imm (i_a3 i)) = Some v
    /\ rf' = xset (o_reg (i_a1 i)) v rf /\ pc' = add32 pc 4.
Proof.
  intros Hk. unfold rv32_step. destruct (i_op i); try discriminate; simpl;
    intros [= <- <-]; eauto.
Qed.

Lemma rv32_step_branch i rf pc rf' pc' : is_branch (i_op i) = true ->
  rv32_step i rf pc = Some (rf', pc') ->
  exists t, rv32_branch (i_op i) (xget rf (o_reg (i_a1 i))) (xget rf (o_reg (i_a2 i))) = Some t
    /\ rf' = rf /\ pc' = if t then o_imm (i_a3 i) else add32 pc 4.
Proof.
  intros Hk. unfold rv32_step. destruct (i_op i); try discriminate; simpl;
    intros [= <- <-]; eauto.
Qed.
