(* ===== verification/Reference.v ===== *)
(** The reference machine: the RV32 instructions of [Isa] with their memory
    accesses, the instructions on which it is compared with the processors of
    this repository, and how its registers correspond to theirs, which write
    register 0 like any other. *)
From S2P Require Import Prelude Machine DataStruct Memory Isa.
Local Open Scope Z_scope.

(** * One instruction *)

Definition rv32_mstep (i : instr) (rf : list Z) (pc : Z) (m : mem) : option (list Z * mem * Z) :=
  let addr := (xget rf (o_reg (i_a2 i)) + o_imm (i_a3 i)) mod 2 ^ 32 in
  let next := (pc + 4) mod 2 ^ 32 in
  if is_load (i_op i) then
    match load m (i_op i) addr with
    | Ok v => Some (xset (o_reg (i_a1 i)) v rf, m, next)
    | Err _ => None
    end
  else if is_store (i_op i) then
    match store m (i_op i) addr (xget rf (o_reg (i_a1 i))) with
    | Ok m' => Some (rf, m', next)
    | Err _ => None
    end
  else if bool_decide (i_op i = HCF) then Some (rf, m, next)
  else '(rf', pc') ← rv32_step i rf pc; Some (rf', m, pc').

(** The registers that an instruction reads, and whether it writes one. *)
Definition sources (i : instr) : list Z :=
  let op := i_op i in
  if is_rr op || is_simd op then [o_reg (i_a2 i); o_reg (i_a3 i)]
  else if is_ri op || is_load op || bool_decide (op = JALR) then [o_reg (i_a2 i)]
  else if is_branch op || is_store op then [o_reg (i_a1 i); o_reg (i_a2 i)]
  else [].
Definition writes_rd (op : instr_type) : bool :=
  is_rr op || is_ri op || is_load op || is_jump op || is_upper op || is_simd op.

(** Which immediates an instruction has. *)
Definition uses_imm2 (op : instr_type) : bool := bool_decide (op = JAL) || is_upper op.
Definition uses_imm3 (op : instr_type) : bool :=
  is_ri op || is_load op || is_store op || is_branch op || bool_decide (op = JALR).

(** The register fields that an instruction uses name registers, and the
    immediates that it uses are words; nothing is said of the other fields,
    which are never initialised. *)
Record wf_used (i : instr) : Prop := {
  wu_rd : writes_rd (i_op i) = true -> in_rf (o_reg (i_a1 i)) = true;
  wu_src : forall r, r ∈ sources i -> in_rf r = true;
  wu_imm2 : uses_imm2 (i_op i) = true -> is_u 32 (o_imm (i_a2 i));
  wu_imm3 : uses_imm3 (i_op i) = true -> is_u 32 (o_imm (i_a3 i));
}.

Lemma wf_instr_used i : wf_instr i -> wf_used i.
Proof.
  intros (R1 & R2 & R3 & I1 & I2 & I3). split; try done. intros r. unfold sources.
  repeat case_match; rewrite ?elem_of_cons, ?elem_of_nil; naive_solver.
Qed.

(** [addi x0, x0, 0] *)
Definition is_nop (i : instr) : bool :=
  bool_decide (i_op i = ADDI) && (o_reg (i_a2 i) =? 0) && (o_imm (i_a3 i) =? 0).

(** The processor writes register 0 like any other. [clean] says that no
    instruction so far has, but for the one that stores 0 there. *)
Definition clean_after (clean : bool) (i : instr) : bool :=
  clean && negb (writes_rd (i_op i) && (o_reg (i_a1 i) =? 0) && negb (is_nop i)).

(** The instructions on which processor and reference agree. [SLTU], a shift
    count of 32 or more, a jump to an odd address, a [JALR] whose two
    registers are the same are outside, and so is an instruction that reads
    register 0 after one has written it. *)
Definition conforms (clean : bool) (i : instr) (rf : list Z) : bool :=
  let op := i_op i in
  (writes_rd op || is_branch op || is_store op || bool_decide (op = HCF))
  && negb (bool_decide (op = SLTU))
  && (if is_shift op
      then (if is_rr op then xget rf (o_reg (i_a3 i)) else o_imm (i_a3 i)) <? 32
      else true)
  && (if bool_decide (op = JALR)
      then negb (o_reg (i_a1 i) =? o_reg (i_a2 i))
           && Z.even (xget rf (o_reg (i_a2 i)) + o_imm (i_a3 i))
      else true)
  && (clean || forallb (fun r => negb (r =? 0)) (sources i)).

(** The registers of the processor and of the reference: the same, but for
    register 0 once it was written. *)
Record x0_view (clean : bool) (v rf : list Z) : Prop := {
  vw_wf : wf_rf v;
  vw_length : length rf = 32%nat;
  vw_same : forall k, k <> 0%nat -> v !! k = rf !! k;
  vw_clean : clean = true -> x0_zero v;
}.

Lemma view_get clean v rf r : x0_view clean v rf -> in_rf r = true ->
  clean || negb (r =? 0) = true -> rf_get r v = Ok (xget rf r).
Proof.
  intros [Hw Hl Hs Hc] Hr Hok. destruct (rf_get_total r v Hw Hr) as [x Hx].
  rewrite Hx. apply rf_get_ok in Hx as [_ Hx]. unfold xget. destruct (Z.eqb_spec r 0) as [->|Hne].
  - rewrite orb_false_r in Hok. specialize (Hc Hok). unfold x0_zero in Hc.
    change (Z.to_nat 0) with 0%nat in Hx. by simplify_eq.
  - unfold in_rf in Hr. rewrite <- Hs by lia. by rewrite Hx.
Qed.

Lemma view_set clean v rf r x : x0_view clean v rf -> in_rf r = true -> is_u 32 x ->
  exists v', rf_set r x v = Ok v'
    /\ x0_view (clean && negb ((r =? 0) && negb (x =? 0))) v' (xset r x rf).
Proof.
  intros [Hw Hl Hs Hc] Hr Hx. exists (<[Z.to_nat r := x]> v).
  assert (E : rf_set r x v = Ok (<[Z.to_nat r := x]> v)) by (unfold rf_set; by rewrite Hr).
  split; [done|]. unfold in_rf in Hr. unfold xset. split.
  - by eapply rf_set_wf.
  - case_if; [done|]. by rewrite length_insert.
  - intros k Hk. destruct (Z.eqb_spec r 0) as [->|Hne].
    + rewrite list_lookup_insert_ne by (intros <-; done). by apply Hs.
    + destruct (decide (k = Z.to_nat r)) as [->|Hne'].
      * destruct Hw as [Hlen _]. by rewrite !list_lookup_insert_eq by lia.
      * rewrite !list_lookup_insert_ne by done. by apply Hs.
  - intros [Hcl Hz]%andb_true_iff. unfold x0_zero. destruct (Z.eqb_spec r 0) as [->|Hne].
    + destruct (Z.eqb_spec x 0) as [->|]; [|done]. destruct Hw as [Hlen _].
      change (Z.to_nat 0) with 0%nat. by rewrite list_lookup_insert_eq by lia.
    + rewrite list_lookup_insert_ne by lia. by apply Hc.
Qed.

Lemma view_weaken c c' v rf : x0_view c v rf -> (c' = true -> c = true) -> x0_view c' v rf.
Proof. intros [H1 H2 H3 H4] Hc. split; auto. Qed.

Lemma view_xget clean v rf r : x0_view clean v rf -> in_rf r = true -> is_u 32 (xget rf r).
Proof.
  intros [Hw Hl Hs Hc] Hr. destruct (Z.eqb_spec r 0) as [->|Hne]; [unfold is_u; cbn; lia|].
  unfold in_rf in Hr. pose proof (xget_range v r Hw) as Hx. unfold xget in *.
  rewrite (proj2 (Z.eqb_neq _ _)) in * by done. by rewrite <- Hs by lia.
Qed.

(** The result of an instruction is stored. *)
Lemma view_write clean i v rf x : x0_view clean v rf -> wf_used i -> is_u 32 x ->
  writes_rd (i_op i) = true -> (is_nop i = true -> x = 0) ->
  exists v', rf_set (o_reg (i_a1 i)) x v = Ok v'
    /\ x0_view (clean_after clean i) v' (xset (o_reg (i_a1 i)) x rf).
Proof.
  intros Hv Hwu Hx Hw Hn. destruct (view_set _ _ _ _ x Hv (wu_rd i Hwu Hw) Hx) as (v' & E & Hv').
  exists v'. split; [done|]. eapply view_weaken; [done|]. unfold clean_after. rewrite Hw.
  destruct (o_reg (i_a1 i) =? 0); [|done]. destruct (is_nop i); [|by destruct clean].
  by rewrite (Hn eq_refl).
Qed.

Lemma conforms_inv clean i rf : conforms clean i rf = true ->
  i_op i <> SLTU
  /\ (is_shift (i_op i) = true ->
      (if is_rr (i_op i) then xget rf (o_reg (i_a3 i)) else o_imm (i_a3 i)) < 32)
  /\ (i_op i = JALR -> o_reg (i_a1 i) <> o_reg (i_a2 i)
      /\ Z.even (xget rf (o_reg (i_a2 i)) + o_imm (i_a3 i)) = true)
  /\ (forall r, r ∈ sources i -> clean || negb (r =? 0) = true)
  /\ writes_rd (i_op i) || is_branch (i_op i) || is_store (i_op i) || bool_decide (i_op i = HCF)
     = true.
Proof.
  unfold conforms. rewrite !andb_true_iff. intros ((((H1 & H2) & H3) & H4) & H5).
  split_and!; try done.
  - intros E. by rewrite E in H2.
  - intros E. rewrite E in H3. by apply Z.ltb_lt.
  - intros E. rewrite bool_decide_eq_true_2 in H4 by done.
    apply andb_true_iff in H4 as [H4 ?]. split; [|done]. apply negb_true_iff in H4. by apply Z.eqb_neq.
  - intros r Hr. destruct clean; [done|]. simpl in H5 |- *.
    apply (proj1 (forallb_forall _ _) H5), list_elem_of_In, Hr.
Qed.

(** The value that an arithmetic instruction stores in the place of a nop. *)
Lemma nop_value i rf v : is_nop i = true ->
  rv32_rr (ri_rr (i_op i)) (xget rf (o_reg (i_a2 i))) (o_imm (i_a3 i)) = Some v -> v = 0.
Proof.
  unfold is_nop. rewrite !andb_true_iff. intros [[->%bool_decide_eq_true ->%Z.eqb_eq] ->%Z.eqb_eq].
  cbn. by intros [= <-].
Qed.

(** The sources by kind of instruction. *)
Lemma sources_rr i : is_rr (i_op i) || is_simd (i_op i) = true -> sources i = [o_reg (i_a2 i); o_reg (i_a3 i)].
Proof. unfold sources. by intros ->. Qed.
Lemma sources_one i : is_ri (i_op i) || is_load (i_op i) || bool_decide (i_op i = JALR) = true ->
  sources i = [o_reg (i_a2 i)].
Proof. unfold sources. intros Hk. rewrite Hk. revert Hk. by destruct (i_op i). Qed.
Lemma sources_two i : is_branch (i_op i) || is_store (i_op i) = true ->
  sources i = [o_reg (i_a1 i); o_reg (i_a2 i)].
Proof. unfold sources. intros Hk. rewrite Hk. revert Hk. by destruct (i_op i). Qed.

(** The source registers of a conforming instruction. *)
Lemma view_source clean i v rf r : x0_view clean v rf -> wf_used i -> conforms clean i rf = true ->
  r ∈ sources i -> rf_get r v = Ok (xget rf r) /\ is_u 32 (xget rf r).
Proof.
  intros Hv Hwu (_ & _ & _ & Hsrc & _)%conforms_inv Hr.
  split; [eapply view_get; [done|by apply (wu_src i Hwu)|by apply Hsrc]|].
  eapply view_xget; [done|by apply (wu_src i Hwu)].
Qed.

(** * States *)

Record rv_state : Type := RvState { x_rf : list Z; x_pc : Z; x_mem : mem; x_clean : bool }.

Definition fetch_imem (imem : list instr) (pc : Z) : option instr := imem !! Z.to_nat (pc / 4).
