(* ===== verification/Cpu.v ===== *)
(** The single-cycle processor of the SoC ([soc/include/CPU.hh],
    [soc/libs/CPU.cc]): one instruction is fetched, executed and committed per
    event; loads and SIMD instructions commit when their response arrives;
    a request that the bus refuses waits in a queue for a retry. *)
From S2P Require Import Prelude Machine DataStruct Memory Bus Cfu Isa.
Local Open Scope Z_scope.

(** What a handler hands to the framework: the event of the next instruction
    with its tick and its id, or a packet for the channel to the CFU. *)
Inductive cpu_effect : Type :=
  | ExecOneInstrEvent (tick id : Z)
  | ToCFU (p : CFUReqPacket).

(** What a slave port of the processor can deliver. *)
Inductive port_item : Type :=
  | BusItem (p : packet)
  | CfuItem (p : CFUReqPacket).

Section Cpu.
Context `{Framework} `{PR : PipeRegister}.

(** [c_ctr] is the value of the transaction counter of [XBarPacket.hh]. *)
Record CPU : Type := MkCPU {
  c_rf : list Z;
  c_pc : Z;
  c_inst_cnt : Z;
  c_imem : list instr;
  c_queue : list packet;
  c_reg : preg;
  c_ctr : Z;
}.

Definition set_rf (rf : list Z) (s : CPU) : CPU :=
  MkCPU rf (c_pc s) (c_inst_cnt s) (c_imem s) (c_queue s) (c_reg s) (c_ctr s).
Definition set_pc (pc : Z) (s : CPU) : CPU :=
  MkCPU (c_rf s) pc (c_inst_cnt s) (c_imem s) (c_queue s) (c_reg s) (c_ctr s).
Definition set_cnt (n : Z) (s : CPU) : CPU :=
  MkCPU (c_rf s) (c_pc s) n (c_imem s) (c_queue s) (c_reg s) (c_ctr s).
Definition set_bus (q : list packet) (r : preg) (ctr : Z) (s : CPU) : CPU :=
  MkCPU (c_rf s) (c_pc s) (c_inst_cnt s) (c_imem s) q r ctr.

#[local] Abbreviation C := (M CPU cpu_effect).

(** * Registers, counters, events *)

Definition read_rf (r : Z) : C Z := s ← get; lift (rf_get r (c_rf s)).
Definition write_rf (r v : Z) : C unit :=
  s ← get; rf ← lift (rf_set r v (c_rf s)); put (set_rf rf s).

(** [inst_cnt++] on an [int]. *)
Definition incrementInstCount : C unit :=
  s ← get;
  lift (check (c_inst_cnt s <? 2 ^ 31 - 1) (Undefined "inst_cnt overflow"));;
  put (set_cnt (c_inst_cnt s + 1) s).

Definition commitInstr (now : Z) (i : instr) : C unit :=
  if decide (i_op i = HCF) then mret tt
  else s ← get; emit (ExecOneInstrEvent (now + 1) (c_inst_cnt s)).

(** * Requests *)

Definition BusMemRead (i : instr) (op : instr_type) (addr : Z) (a1 : operand) : C bool :=
  s ← get;
  let '(pkt, ctr) := Construct_MemReadpkt_non_burst (c_ctr s) i op addr a1 "cpu" in
  let '(ok, r) := try_push (c_reg s) (ReadReq pkt) in
  put (set_bus (if ok then c_queue s else c_queue s ++ [ReadReq pkt]) r ctr s);;
  mret false.

Definition BusmemWrite (i : instr) (op : instr_type) (addr data : Z) : C bool :=
  s ← get;
  let '(pkt, ctr) := Construct_MemWritepkt_non_burst (c_ctr s) i op addr data "cpu" in
  let '(ok, r) := try_push (c_reg s) (WriteReq pkt) in
  put (set_bus (if ok then c_queue s else c_queue s ++ [WriteReq pkt]) r ctr s);;
  mret ok.

Definition CFUReq (i : instr) (rs1 rs2 : Z) : C unit := emit (ToCFU (Cfu.CFUReq i rs1 rs2)).

(** * Execution *)

(** The end of [processInstr]: [commitInstr(_i); this->pc = pc_next]. *)
Definition finish (now : Z) (i : instr) (pc_next : Z) : C unit :=
  commitInstr now i;; modify (set_pc pc_next).

Definition processInstr (now : Z) (i : instr) : C unit :=
  incrementInstCount;;
  s ← get;
  let pc := c_pc s in
  let pc_next := add32 pc 4 in
  let rd := o_reg (i_a1 i) in
  match i_op i with
  | ADD | SUB | MUL | SLT | SLTU | AND | OR | XOR | SLL | SRL | SRA =>
      x ← read_rf (o_reg (i_a2 i)); y ← read_rf (o_reg (i_a3 i));
      v ← lift (alu_rr (i_op i) x y); write_rf rd v;;
      finish now i pc_next
  | ADDI | SLTI | SLTIU | ANDI | ORI | XORI | SLLI | SRLI | SRAI =>
      x ← read_rf (o_reg (i_a2 i));
      v ← lift (alu_ri (i_op i) x (o_imm (i_a3 i))); write_rf rd v;;
      finish now i pc_next
  | BEQ | BGE | BGEU | BLT | BLTU | BNE =>
      x ← read_rf (o_reg (i_a1 i)); y ← read_rf (o_reg (i_a2 i));
      finish now i (if branch_taken (i_op i) x y then o_imm (i_a3 i) else pc_next)
  | JAL =>
      write_rf rd (add32 pc 4);; finish now i (o_imm (i_a2 i))
  | JALR =>
      write_rf rd (add32 pc 4);;
      x ← read_rf (o_reg (i_a2 i));
      finish now i (add32 x (o_imm (i_a3 i)))
  | AUIPC =>
      write_rf rd (add32 pc (u32 (Z.shiftl (o_imm (i_a2 i)) 12)));; finish now i pc_next
  | LUI =>
      write_rf rd (u32 (Z.shiftl (o_imm (i_a2 i)) 12));; finish now i pc_next
  | LB | LBU | LH | LHU | LW =>
      x ← read_rf (o_reg (i_a2 i));
      done_ ← BusMemRead i (i_op i) (add32 x (o_imm (i_a3 i))) (i_a1 i);
      if negb done_ then mret tt else finish now i pc_next
  | SB | SH | SW =>
      x ← read_rf (o_reg (i_a2 i)); y ← read_rf (o_reg (i_a1 i));
      done_ ← BusmemWrite i (i_op i) (add32 x (o_imm (i_a3 i))) y;
      if negb done_ then mret tt else finish now i pc_next
  | S_ADDI8I8S_VV | S_ADDI16I16S_VV | S_SUBI8I8S_VV | S_SUBI16I16S_VV
  | S_PMULI8I16S_VV_L | S_PMULI8I16S_VV_H | S_AMULI8I8S_VV_NQ | S_AMULI8I8S_VV_L =>
      x ← read_rf (o_reg (i_a2 i)); y ← read_rf (o_reg (i_a3 i));
      CFUReq i x y
  | HCF | UNIMPL | NOP => finish now i pc_next
  end.

(** [imem[pc / 4]]; an index outside of [imem] is undefined. *)
Definition fetchInstr (pc : Z) (s : CPU) : result instr :=
  from_opt (Undefined "imem") (c_imem s !! Z.to_nat (pc / 4)).

Definition execOneInstr (now : Z) : C unit :=
  s ← get;
  i ← lift (fetchInstr (c_pc s) s);
  processInstr now i.

(** * Responses *)

(** [this->pc += 4] *)
Definition advance_pc : C unit := s ← get; put (set_pc (add32 (c_pc s) 4) s).

Definition CFURespHandler (now : Z) (p : CFURespPacket) : C unit :=
  write_rf (o_reg (i_a1 (cr_i p))) (cr_rd p);;
  commitInstr now (cr_i p);;
  advance_pc.

Definition memReadRespHandler (now : Z) (p : XBarMemReadRespPayload) : C unit :=
  write_rf (o_reg (rr_a1 p)) (rr_data p);;
  commitInstr now (rr_i p);;
  advance_pc.

Definition memWriteRespHandler (now : Z) (p : XBarMemWriteRespPayload) : C unit :=
  commitInstr now (wr_i p);; advance_pc.

Definition memReadXBarRespHandler (now : Z) (p : XBarMemReadRespPacket) : C unit :=
  foreach (pk_payloads p) (memReadRespHandler now).

(** Only recycles the packet and its payloads. *)
Definition memWriteXBarRespHandler (p : XBarMemWriteRespPacket) : C unit := mret tt.

Definition masterPortRetry (now : Z) : C unit :=
  s ← get;
  when (negb (isStalled (c_reg s)))
    (match c_queue s with
     | [] => fail (Undefined "front() of an empty queue")
     | ReadReq p :: q =>
         let '(ok, r) := push (c_reg s) (ReadReq p) in
         put (set_bus (if ok then q else c_queue s) r (c_ctr s) s)
     | WriteReq p :: q =>
         real_req ← lift (from_opt (Undefined "getPayloads()[0]") (head (pk_payloads p)));
         let '(ok, r) := push (c_reg s) (WriteReq p) in
         put (set_bus (c_queue s) r (c_ctr s) s);;
         when ok (advance_pc;; commitInstr now (wq_i real_req))
     | _ => lift (log_error "Unexpected type")
     end).

(** The body of the loop over the ports in [step]: a [CFUReqPacket] that
    visits a processor is refused by [CFUReqPacket::visit]. *)
Definition step_item (now : Z) (it : port_item) : C unit :=
  match it with
  | BusItem (ReadResp p) => memReadXBarRespHandler now p
  | BusItem (WriteResp p) => memWriteXBarRespHandler p
  | CfuItem _ => lift (log_error "Not a valid module")
  | BusItem _ => lift (log_error "Not a valid packet")
  end.

Definition step (now : Z) (popped : list port_item) : C unit :=
  foreach popped (step_item now).

(** * Start and end of the simulation *)

Definition empty_instr : instr :=
  Instr UNIMPL auto_operand auto_operand auto_operand None (-1) false.

(** The constructor and [init]. *)
Definition CPU_new (r : preg) (ctr : Z) : CPU := MkCPU [] 0 0 [] [] r ctr.

Definition init (now data_offset : Z) : C unit :=
  lift (check (0 <=? data_offset) (Undefined "new instr[n] with negative n"));;
  s ← get;
  put (MkCPU (replicate 32 0) (c_pc s) (c_inst_cnt s)
         (replicate (Z.to_nat (data_offset / 4)) empty_instr)
         (c_queue s) (c_reg s) (c_ctr s));;
  emit (ExecOneInstrEvent (now + 1) 1).

(** [for (addr = 0x2000; addr <= 0xEFFF; addr += 8)], eight bytes each. *)
Definition dumpMemory (m : mem) : result (list Z) :=
  foldR (fun out k => data ← readData m (0x2000 + 8 * Z.of_nat k) 8; Ok (out ++ data))
    [] (seq 0 (Z.to_nat ((0xEFFF - 0x2000) / 8 + 1))).

(** The registers that [printRegfile] prints and the bytes that [dumpMemory]
    writes. *)
Definition cleanup (m : mem) (s : CPU) : result (list Z * list Z) :=
  check (bool_decide (c_queue s = [])) (AssertFailed "The request queue should be empty") ≫= fun _ =>
  dumpMemory m ≫= fun bytes => Ok (c_rf s, bytes).
End Cpu.

(** * Lemmas *)

Section Cpu_lemmas.
Context `{Framework} `{PR : PipeRegister}.
Implicit Types s : CPU.

Lemma read_rf_ok r s v : rf_get r (c_rf s) = Ok v -> read_rf r s = Ok (v, s, []).
Proof. intros Hv. unfold read_rf. step_monad. by rewrite Hv. Qed.

Lemma write_rf_ok r v s rf :
  rf_set r v (c_rf s) = Ok rf -> write_rf r v s = Ok (tt, set_rf rf s, []).
Proof. intros Hv. unfold write_rf. step_monad. by rewrite Hv. Qed.

Lemma increment_ok s : c_inst_cnt s < 2 ^ 31 - 1 ->
  incrementInstCount s = Ok (tt, set_cnt (c_inst_cnt s + 1) s, []).
Proof.
  intros Hc. unfold incrementInstCount. step_monad.
  by rewrite (proj2 (Z.ltb_lt _ _)) by exact Hc.
Qed.

Lemma finish_ok now i pc s : i_op i <> HCF ->
  finish now i pc s = Ok (tt, set_pc pc s, [ExecOneInstrEvent (now + 1) (c_inst_cnt s)]).
Proof. intros Hi. unfold finish, commitInstr. by rewrite decide_False by done. Qed.

(** The state an instruction with no memory or CFU access leaves. *)
Definition retire (rf : list Z) (pc : Z) (s : CPU) : CPU :=
  MkCPU rf pc (c_inst_cnt s + 1) (c_imem s) (c_queue s) (c_reg s) (c_ctr s).
End Cpu_lemmas.

(** Run a handler of the processor whose steps are known to succeed. *)
Ltac cpu_run :=
  unfold outcome, when, lift, modify, put, get, emit, mret, M_ret; step_monad;
  repeat
    (first
       [ rewrite increment_ok by assumption
       | erewrite read_rf_ok by (simpl; eassumption)
       | erewrite write_rf_ok by (simpl; eassumption)
       | rewrite finish_ok by congruence ];
     simpl).

Section Cpu_cases.
Context `{Framework} `{PR : PipeRegister}.
Implicit Types s : CPU.

Lemma processInstr_rr now i s x y v rf :
  is_rr (i_op i) = true -> c_inst_cnt s < 2 ^ 31 - 1 ->
  rf_get (o_reg (i_a2 i)) (c_rf s) = Ok x -> rf_get (o_reg (i_a3 i)) (c_rf s) = Ok y ->
  alu_rr (i_op i) x y = Ok v -> rf_set (o_reg (i_a1 i)) v (c_rf s) = Ok rf ->
  outcome (processInstr now i) s =
  Ok (retire rf (add32 (c_pc s) 4) s, [ExecOneInstrEvent (now + 1) (c_inst_cnt s + 1)]).
Proof.
  intros Hop Hc Hx Hy Hv Hrf. unfold processInstr.
  destruct (i_op i) eqn:Ei; try discriminate; simpl in Hv;
    try (injection Hv as Hv; subst v); cpu_run; rewrite ?Hv; cpu_run; done.
Qed.

Lemma processInstr_ri now i s x v rf :
  is_ri (i_op i) = true -> c_inst_cnt s < 2 ^ 31 - 1 ->
  rf_get (o_reg (i_a2 i)) (c_rf s) = Ok x ->
  alu_ri (i_op i) x (o_imm (i_a3 i)) = Ok v ->
  rf_set (o_reg (i_a1 i)) v (c_rf s) = Ok rf ->
  outcome (processInstr now i) s =
  Ok (retire rf (add32 (c_pc s) 4) s, [ExecOneInstrEvent (now + 1) (c_inst_cnt s + 1)]).
Proof.
  intros Hop Hc Hx Hv Hrf. unfold processInstr.
  destruct (i_op i) eqn:Ei; try discriminate; simpl in Hv;
    try (injection Hv as Hv; subst v); cpu_run; rewrite ?Hv; cpu_run; done.
Qed.

Lemma processInstr_branch now i s x y :
  is_branch (i_op i) = true -> c_inst_cnt s < 2 ^ 31 - 1 ->
  rf_get (o_reg (i_a1 i)) (c_rf s) = Ok x -> rf_get (o_reg (i_a2 i)) (c_rf s) = Ok y ->
  outcome (processInstr now i) s =
  Ok (retire (c_rf s)
        (if branch_taken (i_op i) x y then o_imm (i_a3 i) else add32 (c_pc s) 4) s,
      [ExecOneInstrEvent (now + 1) (c_inst_cnt s + 1)]).
Proof.
  intros Hop Hc Hx Hy. unfold processInstr.
  destruct (i_op i) eqn:Ei; try discriminate; cpu_run; done.
Qed.

(** The jumps and the upper-immediate instructions. *)
Lemma processInstr_link now i s rf :
  c_inst_cnt s < 2 ^ 31 - 1 ->
  let pc4 := add32 (c_pc s) 4 in
  let imm := o_imm (i_a2 i) in
  rf_set (o_reg (i_a1 i))
    (match i_op i with
     | JAL | JALR => pc4
     | AUIPC => add32 (c_pc s) (u32 (Z.shiftl imm 12))
     | _ => u32 (Z.shiftl imm 12)
     end) (c_rf s) = Ok rf ->
  match i_op i with
  | JAL =>
      outcome (processInstr now i) s =
      Ok (retire rf imm s, [ExecOneInstrEvent (now + 1) (c_inst_cnt s + 1)])
  | JALR =>
      forall x, rf_get (o_reg (i_a2 i)) rf = Ok x ->
      outcome (processInstr now i) s =
      Ok (retire rf (add32 x (o_imm (i_a3 i))) s,
          [ExecOneInstrEvent (now + 1) (c_inst_cnt s + 1)])
  | AUIPC | LUI =>
      outcome (processInstr now i) s =
      Ok (retire rf pc4 s, [ExecOneInstrEvent (now + 1) (c_inst_cnt s + 1)])
  | _ => True
  end.
Proof.
  intros Hc pc4 imm Hrf. unfold processInstr.
  destruct (i_op i) eqn:Ei; try exact I.
  - cpu_run. done.
  - cpu_run. done.
  - intros x Hx. cpu_run. done.
  - cpu_run. done.
Qed.

(** A load hands over one request and leaves the rest to its response. *)
Lemma processInstr_load now i s x :
  is_load (i_op i) = true -> c_inst_cnt s < 2 ^ 31 - 1 ->
  rf_get (o_reg (i_a2 i)) (c_rf s) = Ok x ->
  outcome (processInstr now i) s =
  (let '(pkt, ctr) := Construct_MemReadpkt_non_burst (c_ctr s) i (i_op i)
     (add32 x (o_imm (i_a3 i))) (i_a1 i) "cpu" in
   let '(ok, r) := try_push (c_reg s) (ReadReq pkt) in
   Ok (set_bus (if ok then c_queue s else c_queue s ++ [ReadReq pkt]) r ctr
         (set_cnt (c_inst_cnt s + 1) s), [])).
Proof.
  intros Hop Hc Hx. unfold processInstr, BusMemRead.
  destruct (i_op i) eqn:Ei; try discriminate; cpu_run; destruct (try_push _ _) as [[] r]; done.
Qed.

(** A store commits at once when the bus takes its request. *)
Lemma processInstr_store now i s x y :
  is_store (i_op i) = true -> c_inst_cnt s < 2 ^ 31 - 1 ->
  rf_get (o_reg (i_a2 i)) (c_rf s) = Ok x -> rf_get (o_reg (i_a1 i)) (c_rf s) = Ok y ->
  outcome (processInstr now i) s =
  (let '(pkt, ctr) := Construct_MemWritepkt_non_burst (c_ctr s) i (i_op i)
     (add32 x (o_imm (i_a3 i))) y "cpu" in
   let '(ok, r) := try_push (c_reg s) (WriteReq pkt) in
   let s1 := set_bus (if ok then c_queue s else c_queue s ++ [WriteReq pkt]) r ctr
     (set_cnt (c_inst_cnt s + 1) s) in
   if ok then Ok (set_pc (add32 (c_pc s) 4) s1,
                  [ExecOneInstrEvent (now + 1) (c_inst_cnt s + 1)])
   else Ok (s1, [])).
Proof.
  intros Hop Hc Hx Hy. unfold processInstr, BusmemWrite.
  destruct (i_op i) eqn:Ei; try discriminate; cpu_run; destruct (try_push _ _) as [[] r];
    simpl; rewrite ?finish_ok by congruence; done.
Qed.

(** A SIMD instruction is handed to the CFU. *)
Lemma processInstr_simd now i s x y :
  is_simd (i_op i) = true -> c_inst_cnt s < 2 ^ 31 - 1 ->
  rf_get (o_reg (i_a2 i)) (c_rf s) = Ok x -> rf_get (o_reg (i_a3 i)) (c_rf s) = Ok y ->
  outcome (processInstr now i) s =
  Ok (set_cnt (c_inst_cnt s + 1) s, [ToCFU (Cfu.CFUReq i x y)]).
Proof.
  intros Hop Hc Hx Hy. unfold processInstr, CFUReq.
  destruct (i_op i) eqn:Ei; try discriminate; cpu_run; done.
Qed.

(** The other opcodes only advance the program counter; HCF schedules nothing. *)
Lemma processInstr_other now i s :
  i_op i = HCF \/ i_op i = NOP \/ i_op i = UNIMPL -> c_inst_cnt s < 2 ^ 31 - 1 ->
  outcome (processInstr now i) s =
  Ok (retire (c_rf s) (add32 (c_pc s) 4) s,
      if decide (i_op i = HCF) then []
      else [ExecOneInstrEvent (now + 1) (c_inst_cnt s + 1)]).
Proof.
  intros Hop Hc. unfold processInstr, finish, commitInstr.
  destruct Hop as [E|[E|E]]; rewrite E; cpu_run; done.
Qed.

(** A response writes its register, commits and advances. *)
Lemma memReadRespHandler_ok now p s rf :
  rf_set (o_reg (rr_a1 p)) (rr_data p) (c_rf s) = Ok rf -> i_op (rr_i p) <> HCF ->
  memReadRespHandler now p s =
  Ok (tt, set_pc (add32 (c_pc s) 4) (set_rf rf s),
      [ExecOneInstrEvent (now + 1) (c_inst_cnt s)]).
Proof.
  intros Hrf Hi. unfold memReadRespHandler, commitInstr, advance_pc. cpu_run.
  rewrite decide_False by done. done.
Qed.

Lemma CFURespHandler_ok now p s rf :
  rf_set (o_reg (i_a1 (cr_i p))) (cr_rd p) (c_rf s) = Ok rf -> i_op (cr_i p) <> HCF ->
  CFURespHandler now p s =
  Ok (tt, set_pc (add32 (c_pc s) 4) (set_rf rf s),
      [ExecOneInstrEvent (now + 1) (c_inst_cnt s)]).
Proof.
  intros Hrf Hi. unfold CFURespHandler, commitInstr, advance_pc. cpu_run.
  rewrite decide_False by done. done.
Qed.
End Cpu_cases.

(** * Properties *)

Section Cpu_properties.
Context `{Framework} `{PR : PipeRegister}.
Implicit Types s : CPU.

(** What a running processor keeps: 32 words as registers, a word as program
    counter, an [int] as instruction count, decoded instructions as memory. *)
Definition wf_cpu (s : CPU) : Prop :=
  wf_rf (c_rf s) /\ is_u 32 (c_pc s) /\ 0 <= c_inst_cnt s < 2 ^ 31 /\
  Forall wf_instr (c_imem s).

(** The conforming instructions. *)
Lemma conforming_refines now i s rf' pc' :
  wf_cpu s -> x0_zero (c_rf s) -> wf_instr i -> c_inst_cnt s < 2 ^ 31 - 1 ->
  conforming i (c_rf s) = true ->
  rv32_step i (c_rf s) (c_pc s) = Some (rf', pc') ->
  outcome (processInstr now i) s =
    Ok (retire rf' pc' s, [ExecOneInstrEvent (now + 1) (c_inst_cnt s + 1)])
  /\ x0_zero rf'.
Proof.
  intros (Hrf & Hpc & _ & _) H0 (R1 & R2 & R3 & I1 & I2 & I3) Hc Hconf Hstep.
  split; [|by eapply rv32_step_x0].
  pose proof (rf_get_xget _ _ Hrf H0 R1) as G1.
  pose proof (rf_get_xget _ _ Hrf H0 R2) as G2.
  pose proof (rf_get_xget _ _ Hrf H0 R3) as G3.
  pose proof (fun r => xget_range _ r Hrf) as Hx.
  apply conforming_inv in Hconf as (Hk & Hsltu & Hsh & Hj & Hrd).
  pose proof (fun v => rf_set_xset (c_rf s) _ v R1) as Hset.
  rewrite !orb_true_iff in Hk. destruct Hk as [[[[Hk|Hk]|Hk]|Hk]|Hk].
  - apply (rv32_step_rr i) in Hstep as (v & Hv & -> & ->); [|done].
    rewrite Hk in Hsh. eapply processInstr_rr; try done; [by apply alu_rr_rv32|].
    apply Hset, Hrd. by destruct (i_op i).
  - apply (rv32_step_ri i) in Hstep as (v & Hv & -> & ->); [|done].
    assert (is_rr (i_op i) = false) as Hnr by (by destruct (i_op i)). rewrite Hnr in Hsh.
    eapply processInstr_ri; try done; [by apply alu_ri_rv32|].
    apply Hset, Hrd. by destruct (i_op i).
  - apply (rv32_step_branch i) in Hstep as (t & Ht & -> & ->); [|done].
    erewrite processInstr_branch by done. by erewrite branch_taken_rv32.
  - pose proof (processInstr_link now i s) as Hl. cbv zeta in Hl.
    unfold rv32_step in Hstep. destruct (i_op i) eqn:Ei; try discriminate;
      injection Hstep as <- <-.
    + apply Hl; [done|]. by apply Hset, Hrd.
    + destruct (Hj eq_refl) as [Hne He]. rewrite even_target by done.
      apply Hl; [done|by apply Hset, Hrd|].
      rewrite (rf_set_get _ _ _ _ _ Hrf (Hset _ (Hrd eq_refl))).
      rewrite (proj2 (Z.eqb_neq _ _)) by done. exact G2.
  - pose proof (processInstr_link now i s) as Hl. cbv zeta in Hl.
    unfold rv32_step in Hstep. destruct (i_op i) eqn:Ei; try discriminate;
      injection Hstep as <- <-; (apply Hl; [done|]); rewrite Z.shiftl_mul_pow2 by lia;
      rewrite Hset by (by apply Hrd); unfold add32; rewrite ?uint_add_r; done.
Qed.

(** ** The other instructions *)

(** What the processor computes for the destination register. *)
Definition destination (i : instr) (rf : list Z) (pc : Z) : result Z :=
  let x := xget rf (o_reg (i_a2 i)) in
  let y := xget rf (o_reg (i_a3 i)) in
  if is_rr (i_op i) then alu_rr (i_op i) x y
  else if is_ri (i_op i) then alu_ri (i_op i) x (o_imm (i_a3 i))
  else if is_jump (i_op i) then Ok (add32 pc 4)
  else Ok (add32 (if bool_decide (i_op i = AUIPC) then pc else 0) (u32 (Z.shiftl (o_imm (i_a2 i)) 12))).

Definition writes_dest (op : instr_type) : bool := is_rr op || is_ri op || is_jump op || is_upper op.

(** The count of a shift. *)
Definition shift_count (i : instr) (rf : list Z) : Z :=
  if is_rr (i_op i) then xget rf (o_reg (i_a3 i)) else o_imm (i_a3 i).

(** Whatever is computed is stored, in register 0 as in any other. *)
Lemma destination_stored now i s v :
  wf_cpu s -> x0_zero (c_rf s) -> wf_instr i -> c_inst_cnt s < 2 ^ 31 - 1 ->
  writes_dest (i_op i) = true -> i_op i <> JALR -> destination i (c_rf s) (c_pc s) = Ok v ->
  outcome (processInstr now i) s =
    Ok (retire (<[Z.to_nat (o_reg (i_a1 i)) := v]> (c_rf s))
          (if bool_decide (i_op i = JAL) then o_imm (i_a2 i) else add32 (c_pc s) 4) s,
        [ExecOneInstrEvent (now + 1) (c_inst_cnt s + 1)]).
Proof.
  intros (Hrf & _) H0 (R1 & R2 & R3 & _) Hc Hk Hj Hv.
  pose proof (rf_get_xget _ _ Hrf H0 R2) as G2. pose proof (rf_get_xget _ _ Hrf H0 R3) as G3.
  assert (Hset : rf_set (o_reg (i_a1 i)) v (c_rf s) = Ok (<[Z.to_nat (o_reg (i_a1 i)) := v]> (c_rf s)))
    by (unfold rf_set; by rewrite R1).
  unfold destination in Hv. destruct (is_rr (i_op i)) eqn:Hrr; [|destruct (is_ri (i_op i)) eqn:Hri].
  - rewrite bool_decide_eq_false_2 by (intros E; by rewrite E in Hrr). by eapply processInstr_rr.
  - rewrite bool_decide_eq_false_2 by (intros E; by rewrite E in Hri). by eapply processInstr_ri.
  - pose proof (processInstr_link now i s) as Hl. cbv zeta in Hl. unfold writes_dest in Hk.
    assert (Hz : forall z, add32 0 (u32 z) = u32 z)
      by (intros z; unfold add32; rewrite Z.add_0_l; apply uint_id, uint_range; lia).
    rewrite Hrr, Hri in Hk. destruct (i_op i); try done; cbn -[add32 uint] in Hv;
      rewrite ?Hz in Hv; injection Hv as <-; by apply Hl.
Qed.

(** A shift count of 32 or more is undefined. *)
Lemma wide_shift_undefined now i s :
  wf_cpu s -> x0_zero (c_rf s) -> wf_instr i -> c_inst_cnt s < 2 ^ 31 - 1 ->
  is_shift (i_op i) = true -> 32 <= shift_count i (c_rf s) ->
  outcome (processInstr now i) s = Err (Undefined "shift count").
Proof.
  intros (Hrf & _) H0 (_ & R2 & R3 & _) Hc Hk Hn%Z.ltb_ge.
  pose proof (rf_get_xget _ _ Hrf H0 R2) as G2. pose proof (rf_get_xget _ _ Hrf H0 R3) as G3.
  unfold processInstr, shift_count in *.
  destruct (i_op i) eqn:Ei; try discriminate; cbn in Hn; cpu_run;
    unfold shl32, shr32, sar32; by rewrite Hn.
Qed.

(** A jump through a register reads it after it has written its destination,
    and keeps the lowest bit of the target. *)
Lemma jalr_target now i s :
  wf_cpu s -> x0_zero (c_rf s) -> wf_instr i -> c_inst_cnt s < 2 ^ 31 - 1 -> i_op i = JALR ->
  let link := add32 (c_pc s) 4 in
  let base := if o_reg (i_a2 i) =? o_reg (i_a1 i) then link else xget (c_rf s) (o_reg (i_a2 i)) in
  outcome (processInstr now i) s =
    Ok (retire (<[Z.to_nat (o_reg (i_a1 i)) := link]> (c_rf s)) (add32 base (o_imm (i_a3 i))) s,
        [ExecOneInstrEvent (now + 1) (c_inst_cnt s + 1)]).
Proof.
  intros (Hrf & _) H0 (R1 & R2 & _) Hc Ei. cbv zeta.
  assert (Hset : rf_set (o_reg (i_a1 i)) (add32 (c_pc s) 4) (c_rf s)
    = Ok (<[Z.to_nat (o_reg (i_a1 i)) := add32 (c_pc s) 4]> (c_rf s))) by (unfold rf_set; by rewrite R1).
  pose proof (processInstr_link now i s) as Hl. cbv zeta in Hl. rewrite Ei in Hl. apply Hl; [done..|].
  rewrite (rf_set_get _ _ _ _ _ Hrf Hset). case_if; [done|]. by apply rf_get_xget.
Qed.

(** C5. From a state in which register 0 holds zero, every conforming
    arithmetic, branch, jump or upper-immediate instruction does the step of
    the RV32 reference, schedules exactly the next execution event and keeps
    register 0 at zero. The instructions that do not conform are listed, with
    what they do instead: [SLTU] stores the sum of its operands; a shift whose
    count is 32 or more is undefined; [JALR] reads its base register after it
    has written its destination and does not clear the lowest bit of the
    target; and an instruction whose destination is register 0 stores its
    result there. *)
Theorem cpu_refines_rv32 now i s :
  wf_cpu s -> x0_zero (c_rf s) -> wf_instr i -> c_inst_cnt s < 2 ^ 31 - 1 ->
  let rf := c_rf s in
  let next := [ExecOneInstrEvent (now + 1) (c_inst_cnt s + 1)] in
  (conforming i rf = true -> exists rf' pc', rv32_step i rf (c_pc s) = Some (rf', pc')
     /\ outcome (processInstr now i) s = Ok (retire rf' pc' s, next) /\ x0_zero rf')
  /\ (i_op i = SLTU ->
       outcome (processInstr now i) s =
         Ok (retire (<[Z.to_nat (o_reg (i_a1 i)) :=
                 add32 (xget rf (o_reg (i_a2 i))) (xget rf (o_reg (i_a3 i)))]> rf)
               (add32 (c_pc s) 4) s, next))
  /\ (is_shift (i_op i) = true -> 32 <= shift_count i rf ->
       outcome (processInstr now i) s = Err (Undefined "shift count"))
  /\ (i_op i = JALR ->
       let link := add32 (c_pc s) 4 in
       let base := if o_reg (i_a2 i) =? o_reg (i_a1 i) then link else xget rf (o_reg (i_a2 i)) in
       outcome (processInstr now i) s =
         Ok (retire (<[Z.to_nat (o_reg (i_a1 i)) := link]> rf) (add32 base (o_imm (i_a3 i))) s, next))
  /\ (forall v, o_reg (i_a1 i) = 0 -> writes_dest (i_op i) = true -> i_op i <> JALR ->
       destination i rf (c_pc s) = Ok v ->
       outcome (processInstr now i) s =
         Ok (retire (<[0%nat := v]> rf)
               (if bool_decide (i_op i = JAL) then o_imm (i_a2 i) else add32 (c_pc s) 4) s, next)).
Proof.
  intros Hs H0 Hi Hc. cbv zeta. split_and!.
  - intros Hconf. destruct (conforming_defined i (c_rf s) (c_pc s) Hconf) as (rf' & pc' & Hstep).
    exists rf', pc'. split; [done|]. by apply conforming_refines.
  - intros Ei. erewrite (destination_stored now i s) by
      (done || (by rewrite Ei) || (unfold destination; rewrite Ei; reflexivity)).
    by rewrite bool_decide_eq_false_2 by (by rewrite Ei).
  - by apply wide_shift_undefined.
  - by apply jalr_target.
  - intros v Hd Hk Hj Hv. rewrite (destination_stored now i s v) by done. by rewrite Hd.
Qed.
End Cpu_properties.

(** * The invariant of a running processor *)

Section Cpu_invariant.
Context `{Framework} `{PR : PipeRegister}.
Implicit Types s : CPU.

(** The calls that the framework makes into a processor. *)
Inductive cpu_call : Type :=
  | CallExec
  | CallStep (popped : list port_item)
  | CallCfuResp (p : CFURespPacket)
  | CallRetry.

Definition cpu_handle (now : Z) (c : cpu_call) : M CPU cpu_effect unit :=
  match c with
  | CallExec => execOneInstr now
  | CallStep popped => step now popped
  | CallCfuResp p => CFURespHandler now p
  | CallRetry => masterPortRetry now
  end.

(** Responses carry words. *)
Definition wf_item (it : port_item) : Prop :=
  match it with
  | BusItem (ReadResp p) => Forall (fun b => is_u 32 (rr_data b)) (pk_payloads p)
  | _ => True
  end.
Definition wf_call (c : cpu_call) : Prop :=
  match c with
  | CallStep popped => Forall wf_item popped
  | CallCfuResp p => is_u 32 (cr_rd p)
  | _ => True
  end.

Lemma wf_set_pc s pc : wf_cpu s -> is_u 32 pc -> wf_cpu (set_pc pc s).
Proof. by intros (? & ? & ? & ?) ?. Qed.
Lemma wf_set_rf s rf : wf_cpu s -> wf_rf rf -> wf_cpu (set_rf rf s).
Proof. by intros (? & ? & ? & ?) ?. Qed.
Lemma wf_set_bus s q r ctr : wf_cpu s -> wf_cpu (set_bus q r ctr s).
Proof. done. Qed.

Lemma wp_read_rf r (Q : Z -> CPU -> list cpu_effect -> Prop) s :
  (forall v, rf_get r (c_rf s) = Ok v -> Q v s []) -> wp (read_rf r) Q s.
Proof. intros HQ. unfold read_rf. wp_steps. by apply HQ. Qed.

Lemma wp_write_rf r v s : wf_cpu s -> is_u 32 v ->
  wp (write_rf r v) (fun _ s' _ => wf_cpu s') s.
Proof.
  intros Hs Hv. unfold write_rf. wp_steps. apply wf_set_rf; [done|].
  eapply rf_set_wf; [apply Hs|exact Hv|done].
Qed.

Lemma wp_commit now i s : wf_cpu s ->
  wp (commitInstr now i) (fun _ s' _ => wf_cpu s') s.
Proof. intros Hs. unfold commitInstr. by wp_steps. Qed.

Lemma wp_finish now i pc s : wf_cpu s -> is_u 32 pc ->
  wp (finish now i pc) (fun _ s' _ => wf_cpu s') s.
Proof.
  intros Hs Hpc. unfold finish. wp_step. eapply wp_mono; [by apply wp_commit|].
  simpl. intros [] s1 w Hs1. wp_step. by apply wf_set_pc.
Qed.

Lemma wp_advance s : wf_cpu s -> wp advance_pc (fun _ s' _ => wf_cpu s') s.
Proof. intros Hs. unfold advance_pc. wp_steps. by apply wf_set_pc; [|apply add32_range]. Qed.

(** The responses share this sequence. *)
Lemma wp_respond now r v i s : wf_cpu s -> is_u 32 v ->
  wp (write_rf r v;; commitInstr now i;; advance_pc) (fun _ s' _ => wf_cpu s') s.
Proof.
  intros Hs Hv. wp_step. eapply wp_mono; [by apply wp_write_rf|]. intros [] s1 w1 Hs1.
  wp_step. eapply wp_mono; [by apply wp_commit|]. intros [] s2 w2 Hs2.
  eapply wp_mono; [by apply wp_advance|]. done.
Qed.

Lemma wp_increment s : wf_cpu s -> wp incrementInstCount (fun _ s' _ => wf_cpu s') s.
Proof.
  intros (Hrf & Hpc & Hcnt & Him). unfold incrementInstCount, check. wp_steps.
  destruct (c_inst_cnt s <? 2 ^ 31 - 1) eqn:E; [|done].
  apply Z.ltb_lt in E. split_and!; simpl; lia || done.
Qed.

(** A register write followed by the end of the instruction. *)
Lemma wp_write_finish now i r v pc s : wf_cpu s -> is_u 32 v -> is_u 32 pc ->
  wp (write_rf r v;; finish now i pc) (fun _ s' _ => wf_cpu s') s.
Proof.
  intros Hs Hv Hpc. wp_step. eapply wp_mono; [by apply wp_write_rf|]. intros [] s1 w1 Hs1.
  by apply wp_finish.
Qed.

Lemma wp_processInstr now i s : wf_cpu s -> wf_instr i ->
  wp (processInstr now i) (fun _ s' _ => wf_cpu s') s.
Proof.
  intros Hs0 (_ & _ & _ & I1 & I2 & I3). unfold processInstr.
  wp_step. eapply wp_mono; [by apply wp_increment|]. intros [] s1 w1 Hs. clear Hs0 s.
  wp_step. wp_step.
  pose proof (fun r v => rf_get_range r _ v (proj1 Hs)) as Hr.
  pose proof (add32_range (c_pc s1) 4) as Hpc4.
  destruct (i_op i); try (by apply wp_write_finish; [..|]); try (by apply wp_finish).
  all: try (apply wp_write_finish; [done| |done]; by apply uint_range).
  all: repeat first [apply wp_bind, wp_read_rf; intros ? ?%Hr].
  all: try (apply wp_finish; [done|]; by case_if).
  all: try (wp_step; wp_step; apply wp_write_finish; [done| |done];
            first [ eapply alu_rr_range; [| |eassumption]; done
                  | eapply alu_ri_range; [| |eassumption]; done ]).
  all: try (unfold CFUReq; by wp_step).
  all: try (unfold BusMemRead, BusmemWrite; wp_steps; try apply wp_finish;
            first [done | by apply wf_set_bus]).
  wp_step. eapply wp_mono; [by apply wp_write_rf|]. intros [] s2 w2 Hs2.
  apply wp_bind, wp_read_rf. intros x _. apply wp_finish; [done|apply add32_range].
Qed.

Lemma wp_retry now s : wf_cpu s -> wp (masterPortRetry now) (fun _ s' _ => wf_cpu s') s.
Proof.
  intros Hs. unfold masterPortRetry. wp_steps; try done.
  eapply wp_mono; [apply wp_advance; by apply wf_set_bus|]. intros [] s1 w1 Hs1.
  by apply wp_commit.
Qed.

Lemma wp_item now it s : wf_cpu s -> wf_item it ->
  wp (step_item now it) (fun _ s' _ => wf_cpu s') s.
Proof.
  intros Hs Hit. unfold step_item, log_error, memWriteXBarRespHandler.
  destruct it as [[p|p|p|p]|p]; try (wp_steps; done).
  apply wp_foreach; [done|]. intros b s1 Hb Hs1. apply wp_respond; [done|].
  simpl in Hit. rewrite Forall_forall in Hit. by apply Hit.
Qed.

Lemma cpu_handle_wf now c s : wf_cpu s -> wf_call c ->
  wp (cpu_handle now c) (fun _ s' _ => wf_cpu s') s.
Proof.
  intros Hs Hc. destruct c as [|popped|p|]; simpl in *.
  - unfold execOneInstr. wp_step. wp_step. wp_step. wp_step.
    apply wp_processInstr; [done|]. destruct Hs as (_ & _ & _ & Him).
    unfold fetchInstr, from_opt in *. destruct (c_imem s !! _) eqn:E; [|done].
    simplify_eq. by eapply Forall_lookup_1.
  - apply wp_foreach; [done|]. intros it s1 Hit Hs1. apply wp_item; [done|].
    rewrite Forall_forall in Hc. by apply Hc.
  - by apply wp_respond.
  - by apply wp_retry.
Qed.

(** C35. Whatever sequence of calls the framework makes (next-instruction
    events, popped bus packets, CFU responses, retries), as long as the
    responses carry 32-bit words, every register stays a 32-bit word, the
    program counter too, and the instruction count never leaves [int]. *)
Theorem cpu_calls_wf (calls : list (Z * cpu_call)) s s' w :
  wf_cpu s -> Forall (fun c => wf_call c.2) calls ->
  run_all (map (fun c => cpu_handle c.1 c.2) calls) s = Ok (s', w) -> wf_cpu s'.
Proof.
  intros Hs Hc. revert s w Hs.
  induction Hc as [|[now c] calls Hc _ IH]; intros s w Hs; simpl; [by intros [= <- _]|].
  destruct (outcome (cpu_handle now c) s) as [[s1 w1]|] eqn:E; [|done].
  destruct (run_all _ s1) as [[s2 w2]|] eqn:E2; [|done]. intros [= <- _].
  eapply IH; [|exact E2]. eapply (wp_outcome _ (fun s _ => wf_cpu s)); [|exact E].
  by apply cpu_handle_wf.
Qed.
End Cpu_invariant.

(** * Where the processor leaves the reference *)

Section Cpu_deviations.
Context `{Framework} `{PR : PipeRegister}.
Implicit Types s : CPU.

End Cpu_deviations.

(** * Witnesses *)

#[local] Existing Instance printing_framework.

Definition reg_operand (r : Z) : operand := Operand OPTYPE_REG "" r 0.
Definition imm_operand (v : Z) : operand := Operand OPTYPE_IMM "" 0 v.
Definition mk_instr (op : instr_type) (a1 a2 a3 : operand) : instr :=
  Instr op a1 a2 a3 None 1 false.

(** x1 = 10, x2 = 0xFFFFFFFF, the other registers zero. *)
Definition w_cpu : @CPU SlotRegister :=
  @MkCPU SlotRegister (0 :: 10 :: 0xFFFFFFFF :: replicate 29 0) 8 3
    (replicate 3 (mk_instr ADD (reg_operand 3) (reg_operand 1) (reg_operand 2)))
    [] empty_slot 7.

Lemma w_cpu_wf : wf_cpu w_cpu.
Proof.
  split_and!; simpl; try lia; [split; [done|]| unfold is_u; lia |].
  - repeat constructor; unfold is_u; simpl; lia.
  - repeat constructor; unfold is_u; simpl; lia.
Qed.

(** A conforming shift, an [SLTU], and an [ADDI] that writes register 0. *)
Lemma cpu_refines_rv32_witness :
  outcome (processInstr 20 (mk_instr SRA (reg_operand 5) (reg_operand 2) (reg_operand 1))) w_cpu =
    Ok (retire (0 :: 10 :: 0xFFFFFFFF :: 0 :: 0 :: 0xFFFFFFFF :: replicate 26 0) 12 w_cpu,
        [ExecOneInstrEvent 21 4])
  /\ outcome (processInstr 20 (mk_instr SLTU (reg_operand 3) (reg_operand 1) (reg_operand 1))) w_cpu =
    Ok (retire (0 :: 10 :: 0xFFFFFFFF :: 20 :: replicate 28 0) 12 w_cpu, [ExecOneInstrEvent 21 4])
  /\ outcome (processInstr 20 (mk_instr ADDI (reg_operand 0) (reg_operand 1) (imm_operand 7))) w_cpu =
    Ok (retire (17 :: 10 :: 0xFFFFFFFF :: replicate 29 0) 12 w_cpu, [ExecOneInstrEvent 21 4]).
Proof.
  split; [|split].
  - destruct (cpu_refines_rv32 20 (mk_instr SRA (reg_operand 5) (reg_operand 2) (reg_operand 1)) w_cpu
      w_cpu_wf eq_refl) as [(rf' & pc' & E & H1 & _) _];
      [by repeat split; simpl; lia|simpl; lia|by vm_compute|].
    vm_compute in E. injection E as <- <-. exact H1.
  - apply (cpu_refines_rv32 20 (mk_instr SLTU (reg_operand 3) (reg_operand 1) (reg_operand 1)) w_cpu);
      [exact w_cpu_wf|reflexivity|repeat split; simpl; lia|simpl; lia|reflexivity].
  - apply (cpu_refines_rv32 20 (mk_instr ADDI (reg_operand 0) (reg_operand 1) (imm_operand 7)) w_cpu);
      [exact w_cpu_wf|reflexivity|repeat split; simpl; lia|simpl; lia|reflexivity|reflexivity|discriminate|reflexivity].
Defined.

Lemma cpu_calls_wf_witness :
  exists s', run_all (map (fun c => cpu_handle c.1 c.2)
      [(9, CallExec); (10, CallCfuResp (CFUResp (mk_instr S_ADDI8I8S_VV (reg_operand 4)
        (reg_operand 1) (reg_operand 2)) 77))]) w_cpu =
    Ok (s', [ExecOneInstrEvent 10 4; ExecOneInstrEvent 11 4]) /\ wf_cpu s'.
Proof.
  eexists. split; [vm_compute; reflexivity|].
  eapply (cpu_calls_wf [(9, CallExec); (10, CallCfuResp (CFUResp (mk_instr S_ADDI8I8S_VV
    (reg_operand 4) (reg_operand 1) (reg_operand 2)) 77))] w_cpu).
  - exact w_cpu_wf.
  - repeat constructor; unfold is_u; simpl; lia.
  - vm_compute. reflexivity.
Defined.

(** A register that takes every packet. *)
Definition open_register : PipeRegister :=
  {| preg := list packet; isStalled := fun _ => false; push := fun r p => (true, r ++ [p]) |}.

Definition w_store : XBarMemWriteReqPacket :=
  XBarPacket 7 0 1
    [WriteReqPayload "cpu" 7 (mk_instr SW (reg_operand 1) (reg_operand 0) (imm_operand 64))
       SW 64 10] 0 0.

