(* ===== verification/CpuRef.v ===== *)
(** The processor of the SoC and the reference machine: one instruction of
    [Cpu] is a step of [Reference], and a load, a store or a SIMD instruction
    hands over what the step needs. *)
From S2P Require Import Prelude Machine DataStruct Memory Bus Cfu Isa Reference Cpu.
Local Open Scope Z_scope.

(** * The reference machine of the SoC *)

(** The instructions of [Reference] and the SIMD instructions of [Cfu]. *)
Definition soc_mstep (i : instr) (rf : list Z) (pc : Z) (m : mem) : option (list Z * mem * Z) :=
  if is_simd (i_op i) then
    v ← simd_spec (i_op i) (xget rf (o_reg (i_a2 i))) (xget rf (o_reg (i_a3 i)));
    Some (xset (o_reg (i_a1 i)) v rf, m, (pc + 4) mod 2 ^ 32)
  else rv32_mstep i rf pc m.

(** The address of an access. *)
Definition access_addr (i : instr) (rf : list Z) : Z :=
  add32 (xget rf (o_reg (i_a2 i))) (o_imm (i_a3 i)).

(** An access goes to the data memory. *)
Definition to_memory (i : instr) (rf : list Z) : bool :=
  if is_load (i_op i) || is_store (i_op i)
  then bool_decide (slaveIndex (access_addr i rf) = getIndex "dm") else true.

(** One instruction: the next state, and what was executed. *)
Definition soc_next (fetch : Z -> option instr) (x : rv_state) : option (rv_state * instr) :=
  i ← fetch (x_pc x);
  if conforms (x_clean x) i (x_rf x) && to_memory i (x_rf x) then
    '(rf, m, pc) ← soc_mstep i (x_rf x) (x_pc x) (x_mem x);
    Some (RvState rf pc m (clean_after (x_clean x) i), i)
  else None.

(** [n] instructions, the last one first. *)
Fixpoint soc_ref_run (n : nat) (fetch : Z -> option instr) (x : rv_state)
    : option (rv_state * list instr) :=
  match n with
  | O => Some (x, [])
  | S n' =>
      '(x1, tr) ← soc_ref_run n' fetch x;
      '(x', i) ← soc_next fetch x1;
      Some (x', i :: tr)
  end.

Lemma soc_next_inv fetch x x' i : soc_next fetch x = Some (x', i) ->
  fetch (x_pc x) = Some i /\ conforms (x_clean x) i (x_rf x) = true /\ to_memory i (x_rf x) = true
  /\ soc_mstep i (x_rf x) (x_pc x) (x_mem x) = Some (x_rf x', x_mem x', x_pc x')
  /\ x_clean x' = clean_after (x_clean x) i.
Proof.
  unfold soc_next. destruct (fetch (x_pc x)) as [j|]; [|done]. cbn.
  destruct (conforms _ _ _) eqn:Hc; [|done]. cbn. destruct (to_memory j _) eqn:Ht; [|done].
  destruct (soc_mstep _ _ _ _) as [[[rf m] pc]|] eqn:Hs; [|done]. cbn. by intros [= <- <-].
Qed.

Lemma soc_ref_run_none n k fetch x : soc_ref_run n fetch x = None -> (n <= k)%nat ->
  soc_ref_run k fetch x = None.
Proof. intros Hn. induction 1 as [|k _ IH]; [done|]. cbn. by rewrite IH. Qed.

(** ** SIMD values *)

Lemma simd_range op x y v : simd_spec op x y = Some v -> is_u 32 v.
Proof.
  assert (H8 : forall f, is_u 32 (pack 8 (map (fun k => uint 8 (f k)) (seq 0 4)))).
  { intros f. apply (pack_range 8); [lia|]. apply Forall_map, Forall_true. intros k. by apply uint_range. }
  assert (H16 : forall f n, is_u 32 (pack 16 (map (fun k => uint 16 (f k)) (seq n 2)))).
  { intros f n. apply (pack_range 16); [lia|]. apply Forall_map, Forall_true. intros k. by apply uint_range. }
  destruct op; try done; cbn [simd_spec]; intros E; apply (inj Some) in E; subst v;
    first [apply H8 | apply H16].
Qed.

Lemma soc_mstep_wf i rf pc m rf' m' pc' : wf_mem m ->
  soc_mstep i rf pc m = Some (rf', m', pc') -> wf_mem m'.
Proof.
  intros Hm. unfold soc_mstep, rv32_mstep.
  destruct (store m _ _ _) eqn:Est; repeat case_match; intros E; simplify_option_eq;
    repeat case_match; simplify_eq; first [done | by eapply store_wf].
Qed.

(** * One instruction of the processor *)

Section Instruction.
Context `{Framework} `{PR : PipeRegister} (now : Z) (i : instr) (s : CPU).
Context (clean : bool) (rf : list Z) (m : mem).
Context (Hv : x0_view clean (c_rf s) rf) (Hwu : wf_used i).
Context (Hc : conforms clean i rf = true) (Hcnt : c_inst_cnt s < 2 ^ 31 - 1).

Lemma src_get r : r ∈ sources i -> rf_get r (c_rf s) = Ok (xget rf r).
Proof. intros Hr. by apply (view_source clean i (c_rf s) rf r Hv Hwu Hc). Qed.
Lemma src_range r : r ∈ sources i -> is_u 32 (xget rf r).
Proof. intros Hr. by apply (view_source clean i (c_rf s) rf r Hv Hwu Hc). Qed.

(** It retires, with registers and program counter as in the reference. *)
Definition retires (rf' : list Z) (pc' : Z) : Prop :=
  exists v, outcome (processInstr now i) s =
      Ok (retire v pc' s,
          if decide (i_op i = HCF) then [] else [ExecOneInstrEvent (now + 1) (c_inst_cnt s + 1)])
    /\ x0_view (clean_after clean i) v rf'.

Lemma rr_retires x : is_rr (i_op i) = true ->
  rv32_rr (i_op i) (xget rf (o_reg (i_a2 i))) (xget rf (o_reg (i_a3 i))) = Some x ->
  retires (xset (o_reg (i_a1 i)) x rf) (add32 (c_pc s) 4).
Proof.
  intros Hk Hval. assert (Es : sources i = [o_reg (i_a2 i); o_reg (i_a3 i)])
    by (apply sources_rr; by rewrite Hk).
  assert (S2 : o_reg (i_a2 i) ∈ sources i) by (rewrite Es; left).
  assert (S3 : o_reg (i_a3 i) ∈ sources i) by (rewrite Es; right; left).
  destruct (conforms_inv _ _ _ Hc) as (Hsltu & Hsh & _). rewrite Hk in Hsh.
  assert (Ha : alu_rr (i_op i) (xget rf (o_reg (i_a2 i))) (xget rf (o_reg (i_a3 i))) = Ok x)
    by (apply alu_rr_rv32; auto using src_range).
  pose proof (alu_rr_range _ _ _ _ (src_range _ S2) (src_range _ S3) Ha) as Hx.
  destruct (view_write clean i (c_rf s) rf x) as (v' & E & Hv'); try done;
    [by unfold writes_rd; rewrite Hk|unfold is_nop; by destruct (i_op i)|].
  exists v'. split; [|done]. rewrite decide_False by (by intros Eo; rewrite Eo in Hk).
  by eapply processInstr_rr; [..|exact E]; auto using src_get.
Qed.

Lemma ri_retires x : is_ri (i_op i) = true ->
  rv32_rr (ri_rr (i_op i)) (xget rf (o_reg (i_a2 i))) (o_imm (i_a3 i)) = Some x ->
  retires (xset (o_reg (i_a1 i)) x rf) (add32 (c_pc s) 4).
Proof.
  intros Hk Hval. assert (Es : sources i = [o_reg (i_a2 i)]) by (apply sources_one; by rewrite Hk).
  assert (S2 : o_reg (i_a2 i) ∈ sources i) by (rewrite Es; left).
  assert (I3 : is_u 32 (o_imm (i_a3 i))) by (apply (wu_imm3 i Hwu); unfold uses_imm3; by rewrite Hk).
  destruct (conforms_inv _ _ _ Hc) as (_ & Hsh & _).
  assert (is_rr (i_op i) = false) as Hnr by (by destruct (i_op i)). rewrite Hnr in Hsh.
  assert (Ha : alu_ri (i_op i) (xget rf (o_reg (i_a2 i))) (o_imm (i_a3 i)) = Ok x)
    by (apply alu_ri_rv32; auto using src_range).
  pose proof (alu_ri_range _ _ _ _ (src_range _ S2) I3 Ha) as Hx.
  destruct (view_write clean i (c_rf s) rf x) as (v' & E & Hv'); try done;
    [by unfold writes_rd; rewrite Hk, orb_true_r|intros Hn; by eapply nop_value|].
  exists v'. split; [|done]. rewrite decide_False by (by intros Eo; rewrite Eo in Hk).
  by eapply processInstr_ri; [..|exact E]; auto using src_get.
Qed.

Lemma branch_retires t : is_branch (i_op i) = true ->
  rv32_branch (i_op i) (xget rf (o_reg (i_a1 i))) (xget rf (o_reg (i_a2 i))) = Some t ->
  retires rf (if t then o_imm (i_a3 i) else add32 (c_pc s) 4).
Proof.
  intros Hk Ht%branch_taken_rv32. exists (c_rf s).
  assert (clean_after clean i = clean) as ->.
  { unfold clean_after. revert Hk. by destruct clean, (i_op i). }
  split; [|done].
  assert (Es : sources i = [o_reg (i_a1 i); o_reg (i_a2 i)]) by (apply sources_two; by rewrite Hk).
  rewrite decide_False by (by intros Eo; rewrite Eo in Hk).
  rewrite (processInstr_branch now i s _ _ Hk Hcnt
    (src_get _ ltac:(rewrite Es; left)) (src_get _ ltac:(rewrite Es; right; left))).
  by rewrite Ht.
Qed.

Lemma link_retires rf' pc' : is_jump (i_op i) || is_upper (i_op i) = true ->
  rv32_step i rf (c_pc s) = Some (rf', pc') -> retires rf' pc'.
Proof.
  intros Hk Hstep. destruct (conforms_inv _ _ _ Hc) as (_ & _ & Hj & _).
  assert (is_nop i = false) as Hnn by (unfold is_nop; revert Hk; by destruct (i_op i)).
  assert (Hw : forall x, is_u 32 x -> exists v, rf_set (o_reg (i_a1 i)) x (c_rf s) = Ok v
    /\ x0_view (clean_after clean i) v (xset (o_reg (i_a1 i)) x rf)).
  { intros x Hx. apply view_write; try done; [|by rewrite Hnn].
    unfold writes_rd. revert Hk. by destruct (i_op i). }
  assert (S2 : i_op i = JALR -> o_reg (i_a2 i) ∈ sources i).
  { intros Ej. rewrite sources_one by (by rewrite Ej). left. }
  pose proof (processInstr_link now i s) as Hl. cbv zeta in Hl. unfold retires.
  unfold rv32_step in Hstep.
  destruct (i_op i) eqn:Ei; try discriminate; injection Hstep as <- <-;
    rewrite decide_False by done.
  - destruct (Hw ((c_pc s + o_imm (i_a2 i) * 4096) mod 2 ^ 32)) as (v & E & Hv'); [by apply uint_range|].
    exists v. split; [|done]. apply Hl; [done|]. rewrite Z.shiftl_mul_pow2 by lia.
    unfold add32. by rewrite uint_add_r.
  - destruct (Hw (add32 (c_pc s) 4)) as (v & E & Hv'); [by apply uint_range|]. exists v. by auto.
  - destruct (Hw (add32 (c_pc s) 4)) as (v & E & Hv'); [by apply uint_range|]. exists v.
    split; [|done]. destruct (Hj eq_refl) as [Hne He]. rewrite even_target by done. apply Hl; [done..|].
    rewrite (rf_set_get _ _ _ _ _ (vw_wf _ _ _ Hv) E), (proj2 (Z.eqb_neq _ _)) by done.
    by apply src_get, S2.
  - destruct (Hw ((o_imm (i_a2 i) * 4096) mod 2 ^ 32)) as (v & E & Hv'); [by apply uint_range|].
    exists v. split; [|done]. apply Hl; [done|]. by rewrite Z.shiftl_mul_pow2 by lia.
Qed.

Lemma hcf_retires : i_op i = HCF -> retires rf (add32 (c_pc s) 4).
Proof.
  intros Hk. exists (c_rf s). split; [by apply processInstr_other; [left|]|].
  unfold clean_after. rewrite Hk. by rewrite andb_true_r.
Qed.

(** An instruction that accesses neither the memory nor the function unit. *)
Lemma process_retires rf' m' pc' :
  is_load (i_op i) = false -> is_store (i_op i) = false -> is_simd (i_op i) = false ->
  soc_mstep i rf (c_pc s) m = Some (rf', m', pc') -> m' = m /\ retires rf' pc'.
Proof.
  unfold soc_mstep, rv32_mstep. intros -> -> ->. case_bool_decide as Eh.
  { intros [= <- <- <-]. split; [done|]. by apply hcf_retires. }
  destruct (rv32_step i rf (c_pc s)) as [[rf1 pc1]|] eqn:E; [|done]. intros [= <- <- <-].
  split; [done|].
  assert (Hkind : is_rr (i_op i) || is_ri (i_op i) || is_branch (i_op i)
    || (is_jump (i_op i) || is_upper (i_op i)) = true).
  { revert E. unfold rv32_step. by destruct (i_op i). }
  rewrite !orb_true_iff in Hkind. destruct Hkind as [[[Hk|Hk]|Hk]|Hk].
  - apply (rv32_step_rr i) in E as (x & Hx & -> & ->); [|done]. by apply rr_retires.
  - apply (rv32_step_ri i) in E as (x & Hx & -> & ->); [|done]. by apply ri_retires.
  - apply (rv32_step_branch i) in E as (t & Ht & -> & ->); [|done]. by apply branch_retires.
  - apply link_retires; [|done]. apply orb_true_iff. tauto.
Qed.
End Instruction.
