(* ===== verification/Soc.v ===== *)
(** The parts of the SoC together: a load and a store followed from the
    processor through the data memory and back.
    The crossbar belongs to the framework: it delivers to a device the packets
    that the pipe register leading to it has accepted. *)
From S2P Require Import Prelude Machine DataStruct Memory Bus DataMemory Cfu Isa Cpu.
Local Open Scope Z_scope.

(** The request that a load or a store of [s] sends for base register [x]. *)
Definition load_request `{PipeRegister} (s : CPU) (i : instr) (x : Z) : XBarMemReadReqPacket :=
  XBarPacket (c_ctr s) 0 1
    [ReadReqPayload "cpu" (c_ctr s) i (i_op i) (add32 x (o_imm (i_a3 i))) (i_a1 i)]
    0 (slaveIndex (add32 x (o_imm (i_a3 i)))).

Definition store_request `{PipeRegister} (s : CPU) (i : instr) (x y : Z) : XBarMemWriteReqPacket :=
  XBarPacket (c_ctr s) 0 1
    [WriteReqPayload "cpu" (c_ctr s) i (i_op i) (add32 x (o_imm (i_a3 i))) y]
    0 (slaveIndex (add32 x (o_imm (i_a3 i)))).

Section Soc.
Context `{Framework} `{PR : PipeRegister} {PL : PipeRegisterLaws PR}.
Implicit Types (s : CPU) (d : DataMemory).

Lemma load_request_eq s i x :
  Construct_MemReadpkt_non_burst (c_ctr s) i (i_op i) (add32 x (o_imm (i_a3 i))) (i_a1 i) "cpu"
  = (load_request s i x, s32 (c_ctr s + 1)).
Proof. done. Qed.
Lemma store_request_eq s i x y :
  Construct_MemWritepkt_non_burst (c_ctr s) i (i_op i) (add32 x (o_imm (i_a3 i))) y "cpu"
  = (store_request s i x y, s32 (c_ctr s + 1)).
Proof. done. Qed.

Lemma load_op_not_hcf op : is_load op = true -> op <> HCF.
Proof. by destruct op. Qed.

(** C8. A load end to end. The processor hands over one read request for the
    data memory, addressed to it by the address map, and waits: no event is
    scheduled, registers and program counter are as before. The memory's
    events answer the request with one response, and when the processor pops
    it the loaded value is in the destination register, the program counter
    has advanced by 4 and exactly one execution event is scheduled. *)
Theorem load_end_to_end s d i x v rf t0 t1 t2 delay r1 r2 :
  is_load (i_op i) = true -> c_inst_cnt s < 2 ^ 31 - 1 ->
  rf_get (o_reg (i_a2 i)) (c_rf s) = Ok x ->
  load (dm_mem d) (i_op i) (add32 x (o_imm (i_a3 i))) = Ok v ->
  rf_set (o_reg (i_a1 i)) v (c_rf s) = Ok rf ->
  try_push (c_reg s) (ReadReq (load_request s i x)) = (true, r1) ->
  dm_respQ d = [] -> dm_pending d !! c_ctr s = None ->
  let resp := XBarPacket (c_ctr s) 0 1
    [ReadRespPayload (c_ctr s) i (i_op i) v (i_a1 i)] 0 0 in
  try_push (dm_reg d) (ReadResp resp) = (true, r2) ->
  exists s1 d1 evs d2 s2,
    outcome (processInstr t0 i) s = Ok (s1, [])
    /\ accepted (c_reg s1) = accepted (c_reg s) ++ [ReadReq (load_request s i x)]
    /\ c_rf s1 = c_rf s /\ c_pc s1 = c_pc s
    /\ outcome (DataMemory.step t1 delay [ReadReq (load_request s i x)]) d = Ok (d1, evs)
    /\ run_all (map (dm_fire ∘ snd) evs) d1 = Ok (d2, [])
    /\ accepted (dm_reg d2) = accepted (dm_reg d) ++ [ReadResp resp]
    /\ dm_mem d2 = dm_mem d
    /\ outcome (Cpu.step t2 [BusItem (ReadResp resp)]) s1 =
       Ok (s2, [ExecOneInstrEvent (t2 + 1) (c_inst_cnt s + 1)])
    /\ c_rf s2 = rf /\ c_pc s2 = add32 (c_pc s) 4 /\ c_queue s2 = c_queue s.
Proof.
  intros Hop Hc Hx Hv Hrf Hp Hq Hn resp Hr.
  destruct (read_served d t1 delay (load_request s i x) "cpu" r2)
    as (d1 & evs & E1 & _ & E2); simpl; try done; try lia.
  - by repeat constructor.
  - repeat constructor. by exists v.
  - unfold read_beat. simpl. by rewrite Hv.
  - eexists _, d1, evs, _, _. split_and!.
    + erewrite processInstr_load by done. rewrite load_request_eq, Hp. reflexivity.
    + simpl. by apply try_push_true in Hp.
    + done.
    + done.
    + exact E1.
    + exact E2.
    + simpl. by apply try_push_true in Hr.
    + done.
    + unfold step, step_item, memReadXBarRespHandler. simpl. step_monad.
      erewrite memReadRespHandler_ok by (simpl; first [exact Hrf | by apply load_op_not_hcf]).
      simpl. reflexivity.
    + done.
    + done.
    + done.
Qed.

(** C9. A store end to end. The processor hands over one write request,
    commits at once and goes on; when the memory's events have run, the memory
    holds what the store writes, and the response changes nothing in the
    processor. *)
Theorem store_end_to_end s d i x y m' t0 t1 t2 delay r1 r2 :
  is_store (i_op i) = true -> c_inst_cnt s < 2 ^ 31 - 1 ->
  rf_get (o_reg (i_a2 i)) (c_rf s) = Ok x -> rf_get (o_reg (i_a1 i)) (c_rf s) = Ok y ->
  store (dm_mem d) (i_op i) (add32 x (o_imm (i_a3 i))) y = Ok m' ->
  try_push (c_reg s) (WriteReq (store_request s i x y)) = (true, r1) ->
  dm_respQ d = [] -> dm_pending d !! c_ctr s = None ->
  let resp := XBarPacket (c_ctr s) 0 1 [WriteRespPayload (c_ctr s) i] 0 0 in
  try_push (dm_reg d) (WriteResp resp) = (true, r2) ->
  exists s1 d1 evs d2,
    outcome (processInstr t0 i) s =
      Ok (s1, [ExecOneInstrEvent (t0 + 1) (c_inst_cnt s + 1)])
    /\ accepted (c_reg s1) = accepted (c_reg s) ++ [WriteReq (store_request s i x y)]
    /\ c_rf s1 = c_rf s /\ c_pc s1 = add32 (c_pc s) 4
    /\ outcome (DataMemory.step t1 delay [WriteReq (store_request s i x y)]) d = Ok (d1, evs)
    /\ run_all (map (dm_fire ∘ snd) evs) d1 = Ok (d2, [])
    /\ dm_mem d2 = m'
    /\ accepted (dm_reg d2) = accepted (dm_reg d) ++ [WriteResp resp]
    /\ outcome (Cpu.step t2 [BusItem (WriteResp resp)]) s1 = Ok (s1, []).
Proof.
  intros Hop Hc Hx Hy Hm Hp Hq Hn resp Hr.
  destruct (write_served d t1 delay (store_request s i x y) "cpu" m' r2)
    as (d1 & evs & E1 & _ & E2); simpl; try done; try lia.
  - by repeat constructor.
  - by rewrite Hm.
  - eexists _, d1, evs, _. split_and!.
    + erewrite processInstr_store by done. rewrite store_request_eq, Hp. reflexivity.
    + simpl. by apply try_push_true in Hp.
    + done.
    + done.
    + exact E1.
    + exact E2.
    + done.
    + simpl. by apply try_push_true in Hr.
    + done.
Qed.

End Soc.

(** * Witnesses *)

#[local] Existing Instance printing_framework.

Definition soc_dm (m : mem) : @DataMemory SlotRegister := @DMem SlotRegister m ∅ [] empty_slot.
Definition soc_load : instr :=
  mk_instr LH (reg_operand 4) (reg_operand 1) (imm_operand 0xFFFFFFF8).
Definition soc_store : instr :=
  mk_instr SH (reg_operand 2) (reg_operand 1) (imm_operand 0xFFFFFFF8).

Lemma load_end_to_end_witness :
  exists s1 d1 evs d2 s2,
    outcome (processInstr 3 soc_load) w_cpu = Ok (s1, [])
    /\ outcome (DataMemory.step 5 5 [ReadReq (load_request w_cpu soc_load 10)])
         (soc_dm [0; 1; 0x34; 0x92]) = Ok (d1, evs)
    /\ run_all (map (dm_fire ∘ snd) evs) d1 = Ok (d2, [])
    /\ c_rf s2 = 0 :: 10 :: 0xFFFFFFFF :: 0 :: 0xFFFF9234 :: replicate 27 0.
Proof.
  destruct (load_end_to_end w_cpu (soc_dm [0; 1; 0x34; 0x92]) soc_load 10 0xFFFF9234
    (0 :: 10 :: 0xFFFFFFFF :: 0 :: 0xFFFF9234 :: replicate 27 0) 3 5 14 5
    (slot_push empty_slot (ReadReq (load_request w_cpu soc_load 10))).2
    (slot_push empty_slot (ReadResp (XBarPacket 7 0 1
       [ReadRespPayload 7 soc_load LH 0xFFFF9234 (i_a1 soc_load)] 0 0))).2)
    as (s1 & d1 & evs & d2 & s2 & E1 & _ & _ & _ & E2 & E3 & _ & _ & _ & E4 & _);
    try reflexivity.
  exists s1, d1, evs, d2, s2. split_and!; [exact E1|exact E2|exact E3|exact E4].
Defined.

Lemma store_end_to_end_witness :
  exists s1 d1 evs d2,
    outcome (processInstr 3 soc_store) w_cpu = Ok (s1, [ExecOneInstrEvent 4 4])
    /\ outcome (DataMemory.step 5 5 [WriteReq (store_request w_cpu soc_store 10 0xFFFFFFFF)])
         (soc_dm [0; 1; 0x34; 0x92]) = Ok (d1, evs)
    /\ run_all (map (dm_fire ∘ snd) evs) d1 = Ok (d2, [])
    /\ dm_mem d2 = [0; 1; 0xFF; 0xFF].
Proof.
  destruct (store_end_to_end w_cpu (soc_dm [0; 1; 0x34; 0x92]) soc_store 10 0xFFFFFFFF
    [0; 1; 0xFF; 0xFF] 3 5 14 5
    (slot_push empty_slot (WriteReq (store_request w_cpu soc_store 10 0xFFFFFFFF))).2
    (slot_push empty_slot (WriteResp (XBarPacket 7 0 1 [WriteRespPayload 7 soc_store] 0 0))).2)
    as (s1 & d1 & evs & d2 & E1 & _ & _ & _ & E2 & E3 & E4 & _); try reflexivity.
  exists s1, d1, evs, d2. split_and!; [exact E1|exact E2|exact E3|exact E4].
Defined.
