(* ===== verification/Dma.v ===== *)
(** The DMA controller ([soc/include/DMA.hh], [soc/libs/DMA.cc]): it is
    programmed through memory-mapped registers, reads a tile of words into a
    buffer of 256 in bursts of 1, 2 or 4, writes the buffer out in bursts,
    and repeats until the tile is copied. *)
From S2P Require Import Prelude Machine DataStruct Memory Bus DataMemory.
Local Open Scope Z_scope.

(** * State *)

Inductive DmaState : Type := IDLE | READING | WRITING.

(** The registers that the bus can reach. *)
Record dma_regs : Type := DmaRegs {
  enabled : bool;
  done : bool;
  srcAddr : Z;
  dstAddr : Z;
  dmaSizeCfg : Z;
}.

Record dma_geometry : Type := DmaGeometry {
  true_width : Z;
  true_height : Z;
  Source_stride : Z;
  Dest_stride : Z;
  totalElements : Z;
}.

Record dma_tracking : Type := DmaTracking {
  wordsToBuffer : Z;
  wordsTransferred : Z;
  totalWords : Z;
  bufferIndex : Z;
  pendingBusReadResponses : Z;
  pendingBusWriteResponses : Z;
  bufferMemory : list Z;
  currentState : DmaState;
}.

(** The lambda events of the controller. *)
Inductive dma_event : Type :=
  | EvScheduleReads
  | EvScheduleWrites
  | EvReadMMIO (p : XBarMemReadReqPayload)
  | EvTrySendPacket.

Definition BUFFER_CAPACITY : Z := 256.
(** [max_burst_len] keeps its initial value: bursts of [2 ^ 2] words. *)
Definition max_burst_words : Z := 4.

Definition set_enabled (b : bool) (r : dma_regs) : dma_regs :=
  DmaRegs b (done r) (srcAddr r) (dstAddr r) (dmaSizeCfg r).
Definition set_done (b : bool) (r : dma_regs) : dma_regs :=
  DmaRegs (enabled r) b (srcAddr r) (dstAddr r) (dmaSizeCfg r).
Definition set_srcAddr (v : Z) (r : dma_regs) : dma_regs :=
  DmaRegs (enabled r) (done r) v (dstAddr r) (dmaSizeCfg r).
Definition set_dstAddr (v : Z) (r : dma_regs) : dma_regs :=
  DmaRegs (enabled r) (done r) (srcAddr r) v (dmaSizeCfg r).
Definition set_sizeCfg (v : Z) (r : dma_regs) : dma_regs :=
  DmaRegs (enabled r) (done r) (srcAddr r) (dstAddr r) v.

Definition set_words (toBuffer transferred total index : Z) (k : dma_tracking) : dma_tracking :=
  DmaTracking toBuffer transferred total index (pendingBusReadResponses k)
    (pendingBusWriteResponses k) (bufferMemory k) (currentState k).
Definition set_state (st : DmaState) (k : dma_tracking) : dma_tracking :=
  DmaTracking (wordsToBuffer k) (wordsTransferred k) (totalWords k) (bufferIndex k)
    (pendingBusReadResponses k) (pendingBusWriteResponses k) (bufferMemory k) st.
Definition set_pendingR (n : Z) (k : dma_tracking) : dma_tracking :=
  DmaTracking (wordsToBuffer k) (wordsTransferred k) (totalWords k) (bufferIndex k)
    n (pendingBusWriteResponses k) (bufferMemory k) (currentState k).
Definition set_pendingW (n : Z) (k : dma_tracking) : dma_tracking :=
  DmaTracking (wordsToBuffer k) (wordsTransferred k) (totalWords k) (bufferIndex k)
    (pendingBusReadResponses k) n (bufferMemory k) (currentState k).
Definition set_buffer (b : list Z) (k : dma_tracking) : dma_tracking :=
  DmaTracking (wordsToBuffer k) (wordsTransferred k) (totalWords k) (bufferIndex k)
    (pendingBusReadResponses k) (pendingBusWriteResponses k) b (currentState k).

(** Words in a row: [(true_width + 3) / 4] on [int]. *)
Definition words_per_row (g : dma_geometry) : Z := Z.quot (true_width g + 3) 4.

(** The division by the number of words in a row, for a word index. *)
Definition row_col (g : dma_geometry) (index : Z) : result (Z * Z) :=
  if words_per_row g =? 0 then Err (Undefined "division by zero")
  else Ok (index / words_per_row g, index mod words_per_row g).

(** [srcAddr + row * Source_stride + col * 4], converted to [uint32_t]. *)
Definition word_address (base stride row col : Z) : Z := u32 (base + row * stride + col * 4).

(** [col == (true_width + 3) / 4 && true_width % 4 != 0] *)
Definition partial_word (g : dma_geometry) (col : Z) : bool :=
  (col =? words_per_row g) && negb (Z.rem (true_width g) 4 =? 0).

(** * Burst sizing *)

(** The body of the loop of [writeChunkCalculation]; [None] is its [break]. *)
Definition chunk_step (g : dma_geometry) (transferred word_offset i : Z)
    (acc : Z * Z) : result (option (Z * Z)) :=
  let '(subpacketCount, maxValidWords) := acc in
  '(row, col) ← row_col g (transferred + word_offset + i);
  let thisWordSubpackets :=
    if partial_word g col then (if Z.rem (true_width g) 4 =? 3 then 2 else 1) else 1 in
  let subpacketCount := subpacketCount + thisWordSubpackets in
  Ok (if max_burst_words <? subpacketCount then None
      else Some (subpacketCount,
                 if (subpacketCount =? 1) || (subpacketCount =? 2) || (subpacketCount =? 4)
                 then i + 1 else maxValidWords)).

Fixpoint chunk_loop (g : dma_geometry) (transferred word_offset : Z) (ns : list nat)
    (acc : Z * Z) : result Z :=
  match ns with
  | [] => Ok acc.2
  | i :: ns' =>
      r ← chunk_step g transferred word_offset (Z.of_nat i) acc;
      match r with
      | None => Ok acc.2
      | Some acc' => chunk_loop g transferred word_offset ns' acc'
      end
  end.

Definition writeChunkCalculation (g : dma_geometry) (transferred word_offset original : Z)
    : result Z :=
  maxValidWords ← chunk_loop g transferred word_offset (seq 0 (Z.to_nat original)) (0, 0);
  Ok (if maxValidWords =? 0 then 1 else maxValidWords).

(** * Write requests *)

Section Requests.
Context `{Framework}.

(** [renew] sets neither the transaction id nor the caller of a payload: the
    packet constructors do. *)
Definition write_req (op : instr_type) (address data : Z) : XBarMemWriteReqPayload :=
  WriteReqPayload "" (-1) auto_instr op address data.

Definition makeFullWritePacket (address data : Z) : list XBarMemWriteReqPayload :=
  [write_req SW address data].

Definition makePartialWritePackets (address data byteCount : Z)
    : result (list XBarMemWriteReqPayload) :=
  if byteCount =? 3 then
    Ok [write_req SH address (Z.land data 0xFFFF);
        write_req SB (add32 address 2) (Z.land (Z.shiftr data 16) 0xFF)]
  else if byteCount =? 2 then Ok [write_req SH address (Z.land data 0xFFFF)]
  else if byteCount =? 1 then Ok [write_req SB address (Z.land data 0xFF)]
  else log_error "Invalid byteCount in makePartialWritePackets!" ≫= fun _ => Ok [].

Definition createWriteRequestsForChunk (g : dma_geometry) (dst transferred : Z)
    (buffer : list Z) (offset finalChunkSize : Z) : result (list XBarMemWriteReqPayload) :=
  foldR (fun outReqs i =>
      '(row, col) ← row_col g (transferred + offset + Z.of_nat i);
      let baseAddr := word_address dst (Dest_stride g) row col in
      data ← from_opt (Undefined "bufferMemory") (buffer !! Z.to_nat (offset + Z.of_nat i));
      reqs ← (if partial_word g col
              then makePartialWritePackets baseAddr data (Z.rem (true_width g) 4)
              else Ok (makeFullWritePacket baseAddr data));
      Ok (outReqs ++ reqs))
    [] (seq 0 (Z.to_nat finalChunkSize)).
End Requests.

(** * The controller *)

Section Dma.
Context `{Framework} `{PR : PipeRegister}.

Record DMAController : Type := MkDMA {
  d_regs : dma_regs;
  d_geo : dma_geometry;
  d_track : dma_tracking;
  req_Q : list packet;
  resp_Q : list packet;
  m_req : preg;
  m_resp : preg;
  d_ctr : Z;
}.

Definition set_regs (f : dma_regs -> dma_regs) (d : DMAController) : DMAController :=
  MkDMA (f (d_regs d)) (d_geo d) (d_track d) (req_Q d) (resp_Q d) (m_req d) (m_resp d) (d_ctr d).
Definition set_geo (g : dma_geometry) (d : DMAController) : DMAController :=
  MkDMA (d_regs d) g (d_track d) (req_Q d) (resp_Q d) (m_req d) (m_resp d) (d_ctr d).
Definition set_track (f : dma_tracking -> dma_tracking) (d : DMAController) : DMAController :=
  MkDMA (d_regs d) (d_geo d) (f (d_track d)) (req_Q d) (resp_Q d) (m_req d) (m_resp d) (d_ctr d).
Definition set_req (q : list packet) (r : preg) (ctr : Z) (d : DMAController) : DMAController :=
  MkDMA (d_regs d) (d_geo d) (d_track d) q (resp_Q d) r (m_resp d) ctr.
Definition set_resp (q : list packet) (r : preg) (d : DMAController) : DMAController :=
  MkDMA (d_regs d) (d_geo d) (d_track d) (req_Q d) q (m_req d) r (d_ctr d).

#[local] Abbreviation D := (M DMAController (Z * dma_event) unit).

Definition schedule (tick : Z) (e : dma_event) : D := emit (tick, e).

Definition transaction_complete : D :=
  modify (set_track (set_state IDLE));;
  modify (set_regs (set_done true));;
  modify (set_regs (set_enabled false)).

(** [!m_req->isStalled() && m_req->push(p)], else [req_Q.push(p)]: whether
    the packet was taken at once. *)
Definition send_req (p : packet) (ctr : Z) : M DMAController (Z * dma_event) bool :=
  d ← get;
  let '(ok, r) := try_push (m_req d) p in
  put (set_req (if ok then req_Q d else req_Q d ++ [p]) r ctr d);;
  mret ok.

(** ** Reading *)

(** One read request of the burst that starts at buffer index [startIndex]. *)
Definition read_request (d : DMAController) (startIndex i : Z) : result XBarMemReadReqPayload :=
  '(row, col) ← row_col (d_geo d)
    (wordsTransferred (d_track d) + bufferIndex (d_track d) + i);
  Ok (ReadReqPayload "" (-1) auto_instr LW
        (word_address (srcAddr (d_regs d)) (Source_stride (d_geo d)) row col)
        (set_imm (u32 (startIndex + i)) auto_operand)).

(** The number of words of the next read burst. *)
Definition read_chunk (wordsToRead : Z) : Z :=
  let chunk := Z.min max_burst_words wordsToRead in if chunk =? 3 then 2 else chunk.

(** [scheduleReadsForBuffer]; [writes] is the call to
    [scheduleWritesFromBuffer]. Differences of [int] become [size_t]. *)
Definition reads_body (writes : D) : D :=
  d ← get;
  let k := d_track d in
  let bufferSpace := uint 64 (BUFFER_CAPACITY - bufferIndex k) in
  let wordsLeft := uint 64 (totalWords k - wordsToBuffer k) in
  let wordsToRead := Z.min bufferSpace wordsLeft in
  if wordsToRead =? 0 then
    if totalWords k <=? wordsToBuffer k then transaction_complete
    else modify (set_track (set_state WRITING));; writes
  else
    let chunk := read_chunk wordsToRead in
    readRequests ← lift (foldR (fun out i =>
        p ← read_request d (bufferIndex k) (Z.of_nat i); Ok (out ++ [p]))
      [] (seq 0 (Z.to_nat chunk)));
    when (negb ((chunk =? 4) || (chunk =? 2) || (chunk =? 1)))
      (lift (log_error "Bus support the size of 1,2,4 words read only!"));;
    '(pkt, ctr) ← lift (Construct_MemReadpkt_burst (d_ctr d) "dma" readRequests);
    ok ← send_req (ReadReq (setTID (pk_tid pkt) pkt)) ctr;
    modify (set_track (set_pendingR 1)).

(** ** Writing *)

(** The loop of [scheduleWritesFromBuffer] from [offset] on. *)
Fixpoint writes_loop (fuel : nat) (wordsToWrite offset : Z) : D :=
  if offset <? wordsToWrite then
    match fuel with
    | O => fail (Undefined "loop")
    | S fuel' =>
        d ← get;
        let k := d_track d in
        chunk ← lift (writeChunkCalculation (d_geo d) (wordsTransferred k) offset
                        (wordsToWrite - offset));
        writeRequests ← lift (createWriteRequestsForChunk (d_geo d) (dstAddr (d_regs d))
                                (wordsTransferred k) (bufferMemory k) offset chunk);
        '(pkt, ctr) ← lift (Construct_MemWritepkt_burst (d_ctr d) "dma" writeRequests);
        ok ← send_req (WriteReq (setTID (pk_tid pkt) pkt)) ctr;
        when (negb ok)
          (modify (set_track (fun k => set_pendingW (pendingBusWriteResponses k + 1) k)));;
        writes_loop fuel' wordsToWrite (offset + chunk)
    end
  else mret tt.

(** [scheduleWritesFromBuffer]; [reads] is the call to
    [scheduleReadsForBuffer]. *)
Definition writes_body (reads : D) : D :=
  d ← get;
  let k := d_track d in
  if bufferIndex k =? 0 then
    if totalWords k <=? wordsTransferred k then transaction_complete
    else modify (set_track (set_state READING));; reads
  else
    let wordsToWrite := uint 64 (bufferIndex k) in
    modify (set_track (set_pendingW 0));;
    writes_loop (Z.to_nat wordsToWrite) wordsToWrite 0;;
    modify (set_track (fun k =>
      set_words (wordsToBuffer k) (s32 (wordsTransferred k + wordsToWrite)) (totalWords k)
        (bufferIndex k) k)).

(** The two routines call each other; [fuel] bounds the depth of the calls. *)
Fixpoint schedule_phase (fuel : nat) (ph : DmaState) : D :=
  match fuel with
  | O => fail (Undefined "call depth")
  | S fuel' =>
      match ph with
      | WRITING => writes_body (schedule_phase fuel' READING)
      | _ => reads_body (schedule_phase fuel' WRITING)
      end
  end.

Definition call_depth : nat := 3.
Definition scheduleReadsForBuffer : D := schedule_phase call_depth READING.
Definition scheduleWritesFromBuffer : D := schedule_phase call_depth WRITING.

(** ** Starting *)

Definition startTransfer : D :=
  d ← get;
  if negb (enabled (d_regs d)) then mret tt
  else if done (d_regs d) then mret tt
  else modify (set_track (set_state READING));; scheduleReadsForBuffer.

(** The geometry that [dmaSizeCfg] encodes. *)
Definition decode_geometry (cfg : Z) : dma_geometry :=
  let TW := u8 (Z.land (Z.shiftr cfg 8) 0xFF) in
  let TH := u8 (Z.land cfg 0xFF) in
  let sourceStride := u8 (Z.land (Z.shiftr cfg 24) 0xFF) in
  let destStride := u8 (Z.land (Z.shiftr cfg 16) 0xFF) in
  DmaGeometry (TW + 1) (TH + 1) sourceStride destStride ((TW + 1) * (TH + 1)).

Definition geometry_words (g : dma_geometry) : Z :=
  (Z.quot (true_width g) 4 + (if Z.rem (true_width g) 4 =? 0 then 0 else 1)) * true_height g.

Definition initialized_transaction : D :=
  modify (set_regs (set_done false));;
  modify (set_track (set_state IDLE));;
  d ← get;
  let g := decode_geometry (dmaSizeCfg (d_regs d)) in
  modify (set_geo g);;
  modify (set_track (set_words 0 0 (geometry_words g) 0));;
  startTransfer.

(** ** Memory-mapped registers *)

Definition programmed_by (caller : string) : bool :=
  bool_decide (caller = "cpu"%string) || bool_decide (caller = "sa"%string).

Definition readMMIO (p : XBarMemReadReqPayload) : D :=
  d ← get;
  let r := d_regs d in
  let addr := Z.land (rq_addr p) 0x3F in
  data ←
    (if addr =? 0x0 then mret (if enabled r then 1 else 0)
     else if addr =? 0x4 then mret (srcAddr r)
     else if addr =? 0x8 then mret (dstAddr r)
     else if addr =? 0xC then mret (dmaSizeCfg r)
     else if addr =? 0x14 then mret (if done r then 1 else 0)
     else lift (log_error "Invalid MMIO read address!");; mret 0);
  let respPkt := ReadRespPayload (rq_tid p) (rq_i p) (rq_op p) data (rq_a1 p) in
  respPtr ← lift (Construct_MemReadRespPkt [respPkt] "dma" (rq_caller p));
  when (negb (programmed_by (rq_caller p))) (lift (log_error "DMA receive request"));;
  lift (check (programmed_by (rq_caller p))
    (AssertFailed "Should only be programmed by Systolic array or CPU"));;
  modify (fun d => set_resp (resp_Q d ++ [ReadResp respPtr]) (m_resp d) d).

Definition writeMMIO (p : XBarMemWriteReqPayload) : D :=
  let addr := Z.land (wq_addr p) 0x3F in
  let data := wq_data p in
  (if addr =? 0x0 then
     when (Z.odd data)
       (modify (set_regs (set_enabled true));; modify (set_regs (set_done false));;
        initialized_transaction)
   else if addr =? 0x4 then modify (set_regs (set_srcAddr data))
   else if addr =? 0x8 then modify (set_regs (set_dstAddr data))
   else if addr =? 0xC then modify (set_regs (set_sizeCfg data))
   else if addr =? 0x14 then modify (set_regs (set_done false))
   else lift (log_error "Invalid MMIO write address!"));;
  let respPkt := WriteRespPayload (wq_tid p) (wq_i p) in
  respPtr ← lift (Construct_MemWriteRespPkt [respPkt] "dma" (wq_caller p));
  lift (check (programmed_by (wq_caller p))
    (AssertFailed "Should only be programmed by Systolic array or CPU"));;
  modify (fun d => set_resp (resp_Q d ++ [WriteResp respPtr]) (m_resp d) d).

(** ** Responses *)

(** The loop that copies the payloads of a response to the buffer. *)
Definition store_beats (ps : list XBarMemReadRespPayload) (buffer : list Z) : result (list Z) :=
  foldR (fun b p =>
      if o_imm (rr_a1 p) <? BUFFER_CAPACITY
      then Ok (<[Z.to_nat (o_imm (rr_a1 p)) := rr_data p]> b)
      else log_error "Invalid local index in handleReadResponse!" ≫= fun _ => Ok b)
    buffer ps.

Definition handleReadResponse (now : Z) (pkt : XBarMemReadRespPacket) : D :=
  d ← get;
  buffer ← lift (store_beats (pk_payloads pkt) (bufferMemory (d_track d)));
  modify (set_track (set_buffer buffer));;
  modify (set_track (fun k => set_pendingR (pendingBusReadResponses k - 1) k));;
  let chunk := Z.of_nat (length (pk_payloads pkt)) in
  modify (set_track (fun k =>
    set_words (s32 (wordsToBuffer k + chunk)) (wordsTransferred k) (totalWords k)
      (s32 (bufferIndex k + chunk)) k));;
  d ← get;
  let k := d_track d in
  let bufferSpace := uint 64 (BUFFER_CAPACITY - bufferIndex k) in
  let wordsLeft := uint 64 (totalWords k - wordsToBuffer k) in
  if (0 <? bufferSpace) && (0 <? wordsLeft) then schedule (now + 1) EvScheduleReads
  else
    modify (set_track (set_state WRITING));;
    schedule (now + 1) EvScheduleWrites.

(** [bufferMemory[i] = 0] for [i < bufferIndex], a [size_t] comparison. *)
Definition clear_buffer (n : Z) (buffer : list Z) : result (list Z) :=
  if uint 64 n <=? BUFFER_CAPACITY
  then Ok (splice 0 (replicate (Z.to_nat n) 0) buffer)
  else Err (Undefined "bufferMemory").

Definition handleWriteCompletion : D :=
  modify (set_track (fun k => set_pendingW (pendingBusWriteResponses k - 1) k));;
  d ← get;
  let k := d_track d in
  if pendingBusWriteResponses k =? 0 then
    buffer ← lift (clear_buffer (bufferIndex k) (bufferMemory k));
    modify (set_track (set_buffer buffer));;
    modify (set_track (fun k =>
      set_words (wordsToBuffer k) (wordsTransferred k) (totalWords k) 0 k));;
    if totalWords k <=? wordsTransferred k then transaction_complete
    else modify (set_track (set_state READING));; scheduleReadsForBuffer
  else mret tt.

(** ** Ports *)

Definition trySendPacket : D :=
  d ← get;
  (match req_Q d with
   | [] => mret tt
   | p :: q =>
       let '(ok, r) := try_push (m_req d) p in
       put (set_req (if ok then q else p :: q) r (d_ctr d) d)
   end);;
  d ← get;
  match resp_Q d with
  | [] => mret tt
  | p :: q =>
      let '(ok, r) := try_push (m_resp d) p in
      put (set_resp (if ok then q else p :: q) r d)
  end.

Definition masterPortRetry : D := trySendPacket.

Definition dma_fire (now : Z) (e : dma_event) : D :=
  match e with
  | EvScheduleReads => scheduleReadsForBuffer
  | EvScheduleWrites => scheduleWritesFromBuffer
  | EvReadMMIO p => readMMIO p
  | EvTrySendPacket => trySendPacket
  end.

(** A register access carries one payload, and says so. *)
Definition single_beat {P} (p : XBarMemPacket P) : bool :=
  (Z.of_nat (length (pk_payloads p)) =? pk_burstSize p) && (pk_burstSize p =? 1).

Definition step_packet (now delay : Z) (pkt : packet) : D :=
  match pkt with
  | ReadReq p =>
      lift (check (single_beat p) (AssertFailed "burst size"));;
      p0 ← lift (from_opt (Undefined "payload[0]") (head (pk_payloads p)));
      schedule (now + delay) (EvReadMMIO p0);;
      schedule (now + 1 + delay) EvTrySendPacket
  | WriteReq p =>
      lift (check (single_beat p) (AssertFailed "burst size"));;
      p0 ← lift (from_opt (Undefined "payload[0]") (head (pk_payloads p)));
      writeMMIO p0;;
      schedule (now + 1 + delay) EvTrySendPacket
  | ReadResp p => handleReadResponse now p
  | WriteResp p => handleWriteCompletion
  end.

Definition step (now delay : Z) (popped : list packet) : D :=
  d ← get;
  when (negb (bool_decide (req_Q d = [])) || negb (bool_decide (resp_Q d = []))) trySendPacket;;
  foreach popped (step_packet now delay).
End Dma.

(** * Lemmas: words and bursts *)

Section Dma_words.
Context `{Framework}.
Implicit Types (g : dma_geometry).

(** A geometry that a size register can encode. *)
Definition wf_geometry (g : dma_geometry) : Prop :=
  1 <= true_width g <= 256 /\ 1 <= true_height g <= 256 /\
  0 <= Source_stride g < 256 /\ 0 <= Dest_stride g < 256.

(** The row and the column of the [j]-th word of a tile, and its address. *)
Definition word_at (base stride : Z) (g : dma_geometry) (j : Z) : Z :=
  word_address base stride (j / words_per_row g) (j mod words_per_row g).

Lemma words_per_row_pos g : wf_geometry g -> 1 <= words_per_row g <= 64.
Proof.
  intros ([H1 H2] & _). unfold words_per_row. rewrite Z.quot_div_nonneg by lia.
  split; [apply Z.div_le_lower_bound; lia|].
  apply Z.lt_succ_r, Z.div_lt_upper_bound; lia.
Qed.

Lemma row_col_ok g j : wf_geometry g ->
  row_col g j = Ok (j / words_per_row g, j mod words_per_row g).
Proof.
  intros Hg%words_per_row_pos. unfold row_col. by rewrite (proj2 (Z.eqb_neq _ _)) by lia.
Qed.

(** A column is below the number of words in a row, so no word is partial. *)
Lemma never_partial g j : wf_geometry g -> partial_word g (j mod words_per_row g) = false.
Proof.
  intros Hg%words_per_row_pos. unfold partial_word.
  pose proof (Z.mod_pos_bound j (words_per_row g)).
  by rewrite (proj2 (Z.eqb_neq _ _)) by lia.
Qed.

(** The number of words of a tile: the rows, each rounded up to words. *)
Lemma geometry_words_eq g : wf_geometry g ->
  geometry_words g = words_per_row g * true_height g.
Proof.
  intros ([H1 H2] & _). unfold geometry_words, words_per_row. f_equal.
  rewrite Z.quot_div_nonneg, Z.rem_mod_nonneg, Z.quot_div_nonneg by lia.
  pose proof (Z.div_mod (true_width g) 4). pose proof (Z.mod_pos_bound (true_width g) 4).
  pose proof (Z.div_mod (true_width g + 3) 4).
  pose proof (Z.mod_pos_bound (true_width g + 3) 4). case_if; lia.
Qed.

Lemma geometry_words_range g : wf_geometry g -> 1 <= geometry_words g <= 16384.
Proof.
  intros Hg. rewrite geometry_words_eq by done. pose proof (words_per_row_pos g Hg).
  destruct Hg as (_ & Hh & _). nia.
Qed.

Lemma decode_geometry_wf cfg : wf_geometry (decode_geometry cfg).
Proof.
  unfold decode_geometry, wf_geometry. simpl.
  pose proof (fun z => uint_range 8 z ltac:(lia)) as Hu. unfold is_u in Hu.
  pose proof (Hu (Z.land (Z.shiftr cfg 8) 255)). pose proof (Hu (Z.land cfg 255)).
  pose proof (Hu (Z.land (Z.shiftr cfg 24) 255)). pose proof (Hu (Z.land (Z.shiftr cfg 16) 255)).
  lia.
Qed.

Lemma read_chunk_valid n : 1 <= n ->
  (read_chunk n = 1 \/ read_chunk n = 2 \/ read_chunk n = 4) /\ 1 <= read_chunk n <= n.
Proof.
  intros Hn. unfold read_chunk, max_burst_words.
  assert (Hc : n = 1 \/ n = 2 \/ n = 3 \/ 4 <= n) by lia.
  destruct Hc as [->|[->|[->|Hc]]]; simpl; [lia..|].
  rewrite Z.min_l by done. simpl. lia.
Qed.

Lemma chunk_step_ok g t w i c mx : wf_geometry g ->
  chunk_step g t w i (c, mx) =
  Ok (if 4 <? c + 1 then None
      else Some (c + 1, if (c + 1 =? 1) || (c + 1 =? 2) || (c + 1 =? 4) then i + 1 else mx)).
Proof.
  intros Hg. unfold chunk_step. rewrite row_col_ok by done. simpl.
  by rewrite never_partial by done.
Qed.

#[local] Arguments chunk_step : simpl never.

(** The word-by-word search finds the largest burst that fits. *)
Lemma writeChunkCalculation_ok g t w n : wf_geometry g -> 1 <= n ->
  writeChunkCalculation g t w n = Ok (read_chunk n).
Proof.
  intros Hg Hn. unfold writeChunkCalculation, read_chunk, max_burst_words.
  assert (Hc : n = 1 \/ n = 2 \/ n = 3 \/ n = 4 \/ 5 <= n) by lia.
  destruct Hc as [->|[->|[->|[->|Hc]]]].
  1-4: simpl; repeat (rewrite chunk_step_ok by done; simpl); done.
  replace (Z.to_nat n) with (5 + Z.to_nat (n - 5))%nat by lia.
  rewrite Z.min_l by lia. simpl. by repeat (rewrite chunk_step_ok by done; simpl).
Qed.

(** The write request of word [j] with value [v]. *)
Definition word_write (g : dma_geometry) (dst j v : Z) : XBarMemWriteReqPayload :=
  write_req SW (word_at dst (Dest_stride g) g j) v.

(** [foldR] that appends one element per index. *)
Lemma foldR_snoc {A B} (f : A -> result B) (h : A -> B) xs acc :
  (forall x, x ∈ xs -> f x = Ok (h x)) ->
  foldR (fun out x => y ← f x; Ok (out ++ [y])) acc xs = Ok (acc ++ map h xs).
Proof.
  revert acc. induction xs as [|x xs IH]; intros acc Hf; simpl; [by rewrite app_nil_r|].
  rewrite Hf by apply list_elem_of_here. simpl. rewrite IH.
  - by rewrite <- app_assoc.
  - intros y Hy. apply Hf. by apply list_elem_of_further.
Qed.

(** The write requests of a chunk: one [SW] per word, in order. *)
Lemma createWriteRequestsForChunk_ok g dst t buffer off n :
  wf_geometry g -> 0 <= off -> 0 <= n -> off + n <= Z.of_nat (length buffer) ->
  createWriteRequestsForChunk g dst t buffer off n =
  Ok (imap (fun i v => word_write g dst (t + off + Z.of_nat i) v)
        (slice (Z.to_nat off) (Z.to_nat n) buffer)).
Proof.
  intros Hg Ho Hn Hl. unfold createWriteRequestsForChunk.
  erewrite (foldR_pure _ (fun out i => out ++ [word_write g dst (t + off + Z.of_nat i)
    (buffer !!! (Z.to_nat off + i)%nat)])).
  - f_equal. unfold slice.
    assert (Hs : forall acc, foldl (fun out i => out ++ [word_write g dst (t + off + Z.of_nat i)
        (buffer !!! (Z.to_nat off + i)%nat)]) acc (seq 0 (Z.to_nat n)) =
      acc ++ map (fun i => word_write g dst (t + off + Z.of_nat i)
        (buffer !!! (Z.to_nat off + i)%nat)) (seq 0 (Z.to_nat n))).
    { generalize (seq 0 (Z.to_nat n)). intros l. induction l as [|x l IH]; intros acc; simpl;
        [by rewrite app_nil_r|]. by rewrite IH, <- app_assoc. }
    rewrite Hs. simpl. apply list_eq. intros i. rewrite list_lookup_imap.
    rewrite list_lookup_fmap. destruct (decide (i < Z.to_nat n)%nat) as [Hi|Hi].
    + rewrite lookup_seq_lt, lookup_take_lt, lookup_drop by done. simpl.
      destruct (lookup_lt_is_Some_2 buffer (Z.to_nat off + i)) as [v Hv]; [lia|].
      rewrite Hv. simpl. do 2 f_equal. by apply list_lookup_total_correct.
    + rewrite lookup_seq_ge, lookup_take_ge by lia. done.
  - intros out i Hi%elem_of_seq. rewrite row_col_ok by done. simpl.
    rewrite never_partial by done.
    destruct (lookup_lt_is_Some_2 buffer (Z.to_nat off + i)) as [v Hv]; [lia|].
    replace (Z.to_nat (off + Z.of_nat i)) with (Z.to_nat off + i)%nat by lia.
    rewrite Hv. simpl. unfold word_write, word_at, makeFullWritePacket.
    by rewrite (list_lookup_total_correct _ _ _ Hv).
Qed.
End Dma_words.

(** * Lemmas: the read phase *)

Lemma splice_cons_insert {A} (i : nat) (v : A) vs l :
  (i + S (length vs) <= length l)%nat ->
  splice (S i) vs (<[i := v]> l) = splice i (v :: vs) l.
Proof.
  intros Hl. apply list_eq. intros j.
  rewrite !lookup_splice by (simpl; rewrite ?length_insert; lia). simpl length.
  destruct (decide (i = j)) as [->|Hij].
  - rewrite decide_False, decide_True by lia. rewrite Nat.sub_diag. simpl.
    apply list_lookup_insert_eq. lia.
  - rewrite list_lookup_insert_ne by done.
    destruct (decide (S i <= j < S i + length vs)%nat) as [Hj|Hj].
    + rewrite decide_True by lia. replace (j - i)%nat with (S (j - S i)) by lia. done.
    + by rewrite decide_False by lia.
Qed.

Lemma store_beats_ok `{Framework} ps b buffer :
  0 <= b -> b + Z.of_nat (length ps) <= BUFFER_CAPACITY ->
  Z.of_nat (length buffer) = BUFFER_CAPACITY ->
  (forall i p, ps !! i = Some p -> o_imm (rr_a1 p) = b + Z.of_nat i) ->
  store_beats ps buffer = Ok (splice (Z.to_nat b) (map rr_data ps) buffer).
Proof.
  unfold BUFFER_CAPACITY. revert b buffer.
  induction ps as [|p ps IH]; intros b buffer Hb Hn Hl Hi.
  - simpl. unfold splice. rewrite Nat.add_0_r. simpl. by rewrite take_drop.
  - unfold store_beats. simpl foldR. rewrite (Hi 0%nat p eq_refl). simpl length in Hn.
    rewrite (proj2 (Z.ltb_lt _ _)) by (unfold BUFFER_CAPACITY; lia). simpl.
    change (store_beats ps (<[Z.to_nat (b + 0) := rr_data p]> buffer) =
      Ok (splice (Z.to_nat b) (map rr_data (p :: ps)) buffer)).
    rewrite Z.add_0_r. rewrite (IH (b + 1)).
    + replace (Z.to_nat (b + 1)) with (S (Z.to_nat b)) by lia.
      rewrite splice_cons_insert by (rewrite length_map; lia). done.
    + lia.
    + lia.
    + by rewrite length_insert.
    + intros i q Hq. rewrite (Hi (S i) q Hq). lia.
Qed.

Section Dma_read_phase.
Context `{Framework} `{PR : PipeRegister}.
Implicit Types d : DMAController.

(** The controller while a tile is copied. *)
Record active (d : DMAController) : Prop := {
  act_geo : wf_geometry (d_geo d);
  act_total : totalWords (d_track d) = geometry_words (d_geo d);
  act_buffer : length (bufferMemory (d_track d)) = 256%nat;
  act_index : 0 <= bufferIndex (d_track d) <= BUFFER_CAPACITY;
  act_transferred : 0 <= wordsTransferred (d_track d);
}.

(** It is filling the buffer with the words from [wordsTransferred] on. *)
Record reading (d : DMAController) : Prop := {
  rd_active : active d;
  rd_count : wordsToBuffer (d_track d) = wordsTransferred (d_track d) + bufferIndex (d_track d);
  rd_words : wordsToBuffer (d_track d) <= totalWords (d_track d);
}.

(** What other calls may change meanwhile: queues and pipe registers. *)
Definition same_core (d d' : DMAController) : Prop :=
  d_regs d' = d_regs d /\ d_geo d' = d_geo d /\ d_track d' = d_track d.

(** The source address of the [j]-th word of the tile. *)
Definition src_word (d : DMAController) (j : Z) : Z :=
  word_at (srcAddr (d_regs d)) (Source_stride (d_geo d)) (d_geo d) j.
Definition dst_word (d : DMAController) (j : Z) : Z :=
  word_at (dstAddr (d_regs d)) (Dest_stride (d_geo d)) (d_geo d) j.

(** A packet leaves for the bus: taken by the register or queued. *)
Definition sends (d d' : DMAController) (p : packet) : Prop :=
  (try_push (m_req d) p = (true, m_req d') /\ req_Q d' = req_Q d) \/
  (try_push (m_req d) p = (false, m_req d') /\ req_Q d' = req_Q d ++ [p]).

(** Room and words for the next burst. *)
Definition room (d : DMAController) : Z :=
  Z.min (BUFFER_CAPACITY - bufferIndex (d_track d))
        (totalWords (d_track d) - wordsToBuffer (d_track d)).

Definition nth_request (d : DMAController) (i : nat) : XBarMemReadReqPayload :=
  ReadReqPayload "" (-1) auto_instr LW
    (src_word d (wordsTransferred (d_track d) + bufferIndex (d_track d) + Z.of_nat i))
    (set_imm (u32 (bufferIndex (d_track d) + Z.of_nat i)) auto_operand).

(** The packet of the next read burst. *)
Definition next_burst (d : DMAController) : XBarMemReadReqPacket :=
  read_packet (d_ctr d) "dma" (map (nth_request d) (seq 0 (Z.to_nat (read_chunk (room d)))))
    (src_word d (wordsTransferred (d_track d) + bufferIndex (d_track d))).

Lemma uint64_small z : 0 <= z <= 65536 -> uint 64 z = z.
Proof. intros. apply uint_id. unfold is_u. lia. Qed.

Lemma reading_bounds d : reading d ->
  0 <= wordsTransferred (d_track d) <= 16384 /\ 0 <= bufferIndex (d_track d) <= 256 /\
  0 <= wordsToBuffer (d_track d) <= totalWords (d_track d) /\
  totalWords (d_track d) <= 16384.
Proof.
  intros [[Hg Ht _ Hi Hw] Hc Hl]. pose proof (geometry_words_range _ Hg).
  unfold BUFFER_CAPACITY in *. lia.
Qed.

Lemma send_req_ok d p ctr :
  exists ok d1, send_req p ctr d = Ok (ok, d1, []) /\ sends d d1 p /\ same_core d d1
    /\ d_ctr d1 = ctr /\ resp_Q d1 = resp_Q d /\ m_resp d1 = m_resp d
    /\ ok = (try_push (m_req d) p).1.
Proof.
  unfold send_req, sends. step_monad. destruct (try_push (m_req d) p) as [ok r] eqn:E.
  eexists ok, _. split; [done|]. destruct ok; simpl; split_and!; try done; first [by left | by right].
Qed.

(** With room in the buffer and words left, one read burst is sent. *)
Lemma schedule_reads_ok f d : reading d -> 1 <= room d ->
  exists d1, outcome (schedule_phase (S f) READING) d = Ok (d1, [])
    /\ sends d d1 (ReadReq (next_burst d))
    /\ d_regs d1 = d_regs d /\ d_geo d1 = d_geo d
    /\ d_track d1 = set_pendingR 1 (d_track d) /\ d_ctr d1 = s32 (d_ctr d + 1)
    /\ resp_Q d1 = resp_Q d /\ m_resp d1 = m_resp d.
Proof.
  intros Hr Hroom. pose proof (reading_bounds d Hr) as Hb.
  destruct (read_chunk_valid (room d) Hroom) as [Hv Hc].
  unfold schedule_phase, reads_body. fold (@schedule_phase _ PR).
  unfold outcome. erewrite M_bind_silent by reflexivity. cbv beta zeta.
  rewrite !uint64_small by (unfold BUFFER_CAPACITY; lia). fold (room d).
  rewrite (proj2 (Z.eqb_neq _ _)) by lia.
  erewrite (foldR_snoc _ (nth_request d)).
  2: { intros i _. unfold read_request. rewrite row_col_ok by apply Hr. done. }
  simpl app.
  assert (Hchunk : negb ((read_chunk (room d) =? 4) || (read_chunk (room d) =? 2)
                         || (read_chunk (room d) =? 1)) = false)
    by (destruct Hv as [E|[E|E]]; rewrite E; reflexivity).
  rewrite Hchunk. erewrite M_bind_silent by reflexivity. cbn [when].
  erewrite M_bind_silent by reflexivity.
  erewrite (Construct_MemReadpkt_burst_ok _ _ (nth_request d 0)).
  2: { replace (Z.to_nat (read_chunk (room d))) with (S (Z.to_nat (read_chunk (room d) - 1)))
         by lia. done. }
  erewrite M_bind_silent by reflexivity. cbv beta iota.
  assert (Hset : forall p : XBarMemReadReqPacket, setTID (pk_tid p) p = p) by (by intros []).
  rewrite Hset. simpl rq_addr. rewrite Z.add_0_r. fold (next_burst d).
  destruct (send_req_ok d (ReadReq (next_burst d)) (s32 (d_ctr d + 1)))
    as (ok & d1 & E & Hs & (C1 & C2 & C3) & C4 & C5 & C6 & _).
  erewrite M_bind_silent by exact E. eexists. split; [reflexivity|].
  simpl. rewrite C3. done.
Qed.

(** The word of memory [m] at [a]. *)
Definition word_of (m : mem) (a : Z) : Z :=
  match load m LW a with Ok v => v | Err _ => 0 end.

(** What the memory [m] answers to a read burst. *)
Definition read_answer (m : mem) (p : XBarMemReadReqPacket) : XBarMemReadRespPacket :=
  let beats := map (read_beat m) (pk_payloads p) in
  let mode := Z.log2_up (Z.of_nat (length beats)) in
  XBarPacket (pk_tid p) mode (burst_size mode) beats (getIndex "dm") (getIndex "dma").

(** The buffer holds the words of [m] that the tile has at its front. *)
Definition holds (m : mem) (d : DMAController) : Prop :=
  forall j, 0 <= j < bufferIndex (d_track d) ->
  bufferMemory (d_track d) !! Z.to_nat j =
  Some (word_of m (src_word d (wordsTransferred (d_track d) + j))).

Lemma length_next_burst d : 1 <= room d ->
  length (pk_payloads (next_burst d)) = Z.to_nat (read_chunk (room d)).
Proof. intros _. simpl. by rewrite !length_map, length_seq. Qed.

Lemma next_burst_lookup d i p :
  reading d -> pk_payloads (next_burst d) !! i = Some p ->
  rq_op p = LW /\
  rq_addr p = src_word d (wordsTransferred (d_track d) + bufferIndex (d_track d) + Z.of_nat i) /\
  o_imm (rq_a1 p) = u32 (bufferIndex (d_track d) + Z.of_nat i) /\
  (i < Z.to_nat (read_chunk (room d)))%nat.
Proof.
  intros Hr. simpl. rewrite map_map.
  change (map ?f ?l) with (f <$> l). rewrite list_lookup_fmap.
  destruct (seq _ _ !! i) as [x|] eqn:E; [|done]. apply lookup_seq in E as [-> Hi].
  simpl. intros Hp. injection Hp as <-. done.
Qed.

Lemma answer_data m d j v : 1 <= room d -> reading d ->
  map rr_data (pk_payloads (read_answer m (next_burst d))) !! j = Some v ->
  v = word_of m (src_word d (wordsTransferred (d_track d) + bufferIndex (d_track d) + Z.of_nat j)).
Proof.
  intros Hroom Hr Hv.
  change ((rr_data <$> (read_beat m <$> pk_payloads (next_burst d))) !! j = Some v) in Hv.
  apply list_lookup_fmap_Some in Hv as (b & -> & Hb).
  apply list_lookup_fmap_Some in Hb as (p & -> & Hp).
  apply next_burst_lookup in Hp as (Eo & Ea & _); [|done].
  simpl. by rewrite Eo, Ea.
Qed.

Lemma room_le d : room d <= 256 - bufferIndex (d_track d)
  /\ room d <= totalWords (d_track d) - wordsToBuffer (d_track d).
Proof. unfold room, BUFFER_CAPACITY. lia. Qed.

(** The buffer after the answer to a burst. *)
Definition filled (m : mem) (d : DMAController) : list Z :=
  splice (Z.to_nat (bufferIndex (d_track d)))
    (map rr_data (pk_payloads (read_answer m (next_burst d)))) (bufferMemory (d_track d)).

Lemma length_answer m d : 1 <= room d ->
  Z.of_nat (length (pk_payloads (read_answer m (next_burst d)))) = read_chunk (room d).
Proof.
  intros Hroom. unfold read_answer. cbn [pk_payloads].
  rewrite length_map, length_next_burst by done.
  pose proof (read_chunk_valid (room d) Hroom). lia.
Qed.

Lemma answer_stored m d : reading d -> 1 <= room d ->
  store_beats (pk_payloads (read_answer m (next_burst d))) (bufferMemory (d_track d)) =
  Ok (filled m d).
Proof.
  intros Hr Hroom. pose proof (reading_bounds d Hr) as Hb.
  pose proof (read_chunk_valid (room d) Hroom) as Hc.
  pose proof (room_le d) as Hrm.
  apply store_beats_ok; [lia| | |].
  - rewrite length_answer by done. unfold BUFFER_CAPACITY. lia.
  - by rewrite (act_buffer d (rd_active d Hr)).
  - intros i p Hp.
    change ((read_beat m <$> pk_payloads (next_burst d)) !! i = Some p) in Hp.
    apply list_lookup_fmap_Some in Hp as (q & -> & Hq).
    apply next_burst_lookup in Hq as (_ & _ & Ei & Hi); [|done].
    simpl. rewrite Ei. apply uint_id. unfold is_u, BUFFER_CAPACITY in *. lia.
Qed.

Lemma filled_holds m d j : reading d -> 1 <= room d -> holds m d ->
  0 <= j < bufferIndex (d_track d) + read_chunk (room d) ->
  filled m d !! Z.to_nat j = Some (word_of m (src_word d (wordsTransferred (d_track d) + j))).
Proof.
  intros Hr Hroom Hh Hj. pose proof (reading_bounds d Hr) as Hb.
  pose proof (read_chunk_valid (room d) Hroom) as Hc.
  pose proof (length_answer m d Hroom) as Hl.
  pose proof (room_le d) as Hrm.
  unfold filled. rewrite lookup_splice.
  2: { rewrite length_map, (act_buffer d (rd_active d Hr)). unfold BUFFER_CAPACITY in *. lia. }
  rewrite length_map. case_decide as Hd.
  - destruct (map rr_data _ !! _) as [v|] eqn:E.
    + apply answer_data in E as ->; [|done..]. do 3 f_equal. lia.
    + apply lookup_ge_None in E. rewrite length_map in E. lia.
  - apply Hh. lia.
Qed.

Lemma after_burst m d d2 : reading d -> 1 <= room d -> holds m d ->
  d_regs d2 = d_regs d -> d_geo d2 = d_geo d ->
  bufferMemory (d_track d2) = filled m d ->
  bufferIndex (d_track d2) = bufferIndex (d_track d) + read_chunk (room d) ->
  wordsToBuffer (d_track d2) = wordsToBuffer (d_track d) + read_chunk (room d) ->
  wordsTransferred (d_track d2) = wordsTransferred (d_track d) ->
  totalWords (d_track d2) = totalWords (d_track d) ->
  reading d2 /\ holds m d2.
Proof.
  intros Hr Hroom Hh E1 E2 E3 E4 E5 E6 E7. pose proof (reading_bounds d Hr) as Hb.
  pose proof (read_chunk_valid (room d) Hroom) as Hc. pose proof (room_le d) as Hrm.
  pose proof (filled_holds m d) as Hf. pose proof (length_answer m d Hroom) as Hl.
  assert (Hlen : length (filled m d) = 256%nat).
  { unfold filled. rewrite length_splice; [by apply Hr|].
    rewrite length_map, (act_buffer d (rd_active d Hr)). unfold BUFFER_CAPACITY in *. lia. }
  split.
  - destruct Hr as [[Hg Ht Hbuf Hi Hw] Hcnt Hle].
    split; [split|..]; rewrite ?E2, ?E3, ?E4, ?E5, ?E6, ?E7; try done;
      unfold BUFFER_CAPACITY in *; lia.
  - intros j Hj. unfold src_word. rewrite E1, E2, E3, E6. apply Hf; [done..|lia].
Qed.

(** The response to a burst fills the next part of the buffer and schedules
    the next phase. *)
Lemma read_response_ok m now d d1 :
  reading d -> 1 <= room d -> holds m d ->
  d_regs d1 = d_regs d -> d_geo d1 = d_geo d ->
  d_track d1 = set_pendingR 1 (d_track d) ->
  exists d2 ev,
    outcome (handleReadResponse now (read_answer m (next_burst d))) d1 = Ok (d2, [(now + 1, ev)])
    /\ reading d2 /\ holds m d2
    /\ d_regs d2 = d_regs d /\ d_geo d2 = d_geo d
    /\ wordsTransferred (d_track d2) = wordsTransferred (d_track d)
    /\ bufferIndex (d_track d2) = bufferIndex (d_track d) + read_chunk (room d)
    /\ m_req d2 = m_req d1 /\ req_Q d2 = req_Q d1
    /\ ev = (if 1 <=? room d2 then EvScheduleReads else EvScheduleWrites).
Proof.
  intros Hr Hroom Hh E1 E2 E3. pose proof (reading_bounds d Hr) as Hb.
  pose proof (read_chunk_valid (room d) Hroom) as Hc.
  pose proof (room_le d) as Hrm.
  pose proof (fun d2 => after_burst m d d2 Hr Hroom Hh) as Hafter.
  pose proof (answer_stored m d Hr Hroom) as Hst.
  pose proof (length_answer m d Hroom) as Hl.
  generalize dependent (read_answer m (next_burst d)). intros resp Hst Hl.
  unfold handleReadResponse, schedule. step_monad. rewrite E3. simpl. rewrite Hst. simpl.
  rewrite Hl, !E3. simpl. unfold BUFFER_CAPACITY in *.
  rewrite !(sint_id 32), !uint64_small by (unfold BUFFER_CAPACITY; lia).
  destruct (_ && _) eqn:Ec; (eexists _, _; split; [reflexivity|]).
  all: match goal with |- reading ?d2 /\ _ => destruct (Hafter d2) as [Hr2 Hh2] end;
    try (by (simpl; rewrite ?E3; simpl; rewrite ?(sint_id 32) by lia)).
  all: split_and!; try done; simpl; rewrite ?E3; simpl; rewrite ?(sint_id 32) by lia; try done.
  all: unfold room at 1; simpl; rewrite E3; simpl; rewrite !(sint_id 32) by lia.
  - by rewrite (proj2 (Z.leb_le _ _)) by (unfold BUFFER_CAPACITY; lia).
  - by rewrite (proj2 (Z.leb_gt _ _)) by (unfold BUFFER_CAPACITY; lia).
Qed.
End Dma_read_phase.

Section Dma_phases.
Context `{Framework} `{PR : PipeRegister} {PL : PipeRegisterLaws PR}.
Implicit Types d : DMAController.

(** A read phase against memory [m]: bursts are scheduled and answered until
    the controller schedules its writes. Between the steps the queues and the
    pipe registers may change as they like. *)
Inductive read_phase (m : mem) : DMAController -> DMAController -> Prop :=
  | read_last d d1 d1' d2 pkt now :
      outcome scheduleReadsForBuffer d = Ok (d1, []) ->
      sends d d1 (ReadReq pkt) -> same_core d1 d1' ->
      outcome (handleReadResponse now (read_answer m pkt)) d1' =
        Ok (d2, [(now + 1, EvScheduleWrites)]) ->
      read_phase m d d2
  | read_more d d1 d1' d2 d2' d3 pkt now :
      outcome scheduleReadsForBuffer d = Ok (d1, []) ->
      sends d d1 (ReadReq pkt) -> same_core d1 d1' ->
      outcome (handleReadResponse now (read_answer m pkt)) d1' =
        Ok (d2, [(now + 1, EvScheduleReads)]) ->
      same_core d2 d2' -> read_phase m d2' d3 ->
      read_phase m d d3.

(** The packet that left is determined by what the ports hold. *)
Lemma sends_inj d d1 p q : sends d d1 p -> sends d d1 q -> p = q.
Proof.
  intros [[Hp Eq]|[Hp Eq]] [[Hq Eq']|[Hq Eq']].
  - apply try_push_true in Hp, Hq. rewrite Hp in Hq. by apply app_inj_2 in Hq as [_ [= ->]].
  - rewrite Eq in Eq'. apply (f_equal length) in Eq'. rewrite length_app in Eq'. simpl in Eq'. lia.
  - rewrite Eq in Eq'. apply (f_equal length) in Eq'. rewrite length_app in Eq'. simpl in Eq'. lia.
  - rewrite Eq in Eq'. by apply app_inj_2 in Eq' as [_ [= ->]].
Qed.

Lemma reading_same_core d d' : same_core d d' -> reading d -> reading d'.
Proof.
  intros (E1 & E2 & E3) [[? ? ? ? ?] ? ?]. split; [split|..]; rewrite ?E2, ?E3; done.
Qed.

Lemma holds_same_core m d d' : same_core d d' -> holds m d -> holds m d'.
Proof.
  intros (E1 & E2 & E3) Hh j. unfold src_word. rewrite E1, E2, E3. apply Hh.
Qed.

Lemma room_same_core d d' : same_core d d' -> room d' = room d.
Proof. intros (E1 & E2 & E3). unfold room. by rewrite E3. Qed.

(** What a read phase that starts from [d] ends with. *)
Definition read_phase_post (m : mem) (d d' : DMAController) : Prop :=
  reading d' /\ holds m d' /\ room d' <= 0 /\ d_regs d' = d_regs d /\ d_geo d' = d_geo d
  /\ wordsTransferred (d_track d') = wordsTransferred (d_track d).

(** One round, whatever happens to the ports in between. *)
Lemma read_round m d d1 d1' pkt now :
  reading d -> 1 <= room d -> holds m d ->
  outcome scheduleReadsForBuffer d = Ok (d1, []) -> sends d d1 (ReadReq pkt) ->
  same_core d1 d1' ->
  exists d2,
    outcome (handleReadResponse now (read_answer m pkt)) d1' =
      Ok (d2, [(now + 1, if 1 <=? room d2 then EvScheduleReads else EvScheduleWrites)])
    /\ reading d2 /\ holds m d2 /\ d_regs d2 = d_regs d /\ d_geo d2 = d_geo d
    /\ wordsTransferred (d_track d2) = wordsTransferred (d_track d)
    /\ room d2 < room d.
Proof.
  intros Hr Hroom Hh E1 Hs (C1 & C2 & C3).
  destruct (schedule_reads_ok 2 d Hr Hroom) as (d1x & E1x & Hsx & R1 & R2 & R3 & _).
  unfold scheduleReadsForBuffer, call_depth in E1. rewrite E1 in E1x.
  injection E1x as <-. assert (ReadReq pkt = ReadReq (next_burst d)) as [= ->]
    by (by eapply sends_inj).
  destruct (read_response_ok m now d d1') as (d2 & ev & E2 & Hr2 & Hh2 & Q1 & Q2 & Q3 & Q4 & _ & _ & ->);
    [done..|congruence|congruence|congruence|].
  exists d2. split_and!; try done.
  pose proof (rd_count d Hr). pose proof (rd_count d2 Hr2).
  pose proof (act_total d (rd_active d Hr)). pose proof (act_total d2 (rd_active d2 Hr2)).
  pose proof (read_chunk_valid (room d) Hroom) as [_ Hc].
  assert (totalWords (d_track d2) = totalWords (d_track d)) by congruence.
  unfold room. lia.
Qed.

Lemma read_phase_correct m d d' :
  reading d -> 1 <= room d -> holds m d -> read_phase m d d' -> read_phase_post m d d'.
Proof.
  intros Hr Hroom Hh Hp. induction Hp as [d d1 d1' d2 pkt now E1 Hs Hc E2
    |d d1 d1' d2 d2' d3 pkt now E1 Hs Hc E2 Hc2 Hp IH];
    destruct (read_round m d d1 d1' pkt now Hr Hroom Hh E1 Hs Hc)
      as (dx & Ex & Hr2 & Hh2 & Q1 & Q2 & Q3 & _); rewrite E2 in Ex; injection Ex as <- Hev.
  - split_and!; try done. destruct (1 <=? room d2) eqn:E; [done|lia].
  - destruct (1 <=? room d2) eqn:E; [|done]. apply Z.leb_le in E.
    destruct IH as (P1 & P2 & P3 & P4 & P5 & P6).
    + by apply (reading_same_core d2).
    + by rewrite (room_same_core d2).
    + by apply (holds_same_core m d2).
    + destruct Hc2 as (C1 & C2 & C3). split_and!; try done; congruence.
Qed.

(** A read phase always comes to its end. *)
Lemma read_phase_ends m d : reading d -> 1 <= room d -> holds m d ->
  exists d', read_phase m d d'.
Proof.
  intros Hr Hroom Hh. remember (Z.to_nat (room d)) as n eqn:En.
  revert d Hr Hroom Hh En. induction n as [n IH] using lt_wf_ind. intros d Hr Hroom Hh En.
  destruct (schedule_reads_ok 2 d Hr Hroom) as (d1 & E1 & Hs & _).
  destruct (read_round m d d1 d1 (next_burst d) 0 Hr Hroom Hh E1 Hs)
    as (d2 & E2 & Hr2 & Hh2 & _ & _ & _ & Hlt); [done|].
  destruct (1 <=? room d2) eqn:E.
  - apply Z.leb_le in E. destruct (IH (Z.to_nat (room d2)) ltac:(lia) d2) as [d3 H3]; [done..|].
    exists d3. by eapply (read_more m d d1 d1 d2 d2 d3).
  - exists d2. by eapply (read_last m d d1 d1 d2).
Qed.
End Dma_phases.

(** * Lemmas: the write phase *)

(** Packets handed one after the other to a pipe register, the refused ones
    queued: the final queue and register, and how many were queued. *)
Fixpoint push_all `{PipeRegister} (ps : list packet) (q : list packet) (r : preg)
    : list packet * preg * Z :=
  match ps with
  | [] => (q, r, 0)
  | p :: ps' =>
      let '(ok, r1) := try_push r p in
      let '(q2, r2, n) := push_all ps' (if ok then q else q ++ [p]) r1 in
      (q2, r2, if ok then n else n + 1)
  end.

Section Dma_write_phase.
Context `{Framework} `{PR : PipeRegister} {PL : PipeRegisterLaws PR}.
Implicit Types d : DMAController.

(** Nothing is lost: every packet was taken or is queued. *)
Lemma push_all_conserves ps q r q' r' n :
  push_all ps q r = (q', r', n) ->
  exists taken queued, accepted r' = accepted r ++ taken /\ q' = q ++ queued
    /\ taken ++ queued ≡ₚ ps /\ n = Z.of_nat (length queued).
Proof.
  revert q r q' r' n. induction ps as [|p ps IH]; intros q r q' r' n; simpl.
  - intros [= <- <- <-]. exists [], []. by rewrite !app_nil_r.
  - destruct (try_push r p) as [ok r1] eqn:Ep.
    destruct (push_all ps _ r1) as [[q2 r2] n2] eqn:E. intros [= <- <- <-].
    apply IH in E as (taken & queued & Ha & Hq & Hp & Hn). destruct ok.
    + apply try_push_true in Ep. exists (p :: taken), queued.
      rewrite Ha, Ep, <- app_assoc. split_and!; try done. simpl. by rewrite Hp.
    + apply try_push_false in Ep. subst r1. exists taken, (p :: queued).
      rewrite Hq, <- app_assoc. split_and!; try done; [|simpl; lia].
      by rewrite <- Permutation_middle, Hp.
Qed.

(** The words of the buffer from [o] on, as write requests. *)
Definition buffer_writes (d : DMAController) (o n : Z) : list XBarMemWriteReqPayload :=
  imap (fun i v => word_write (d_geo d) (dstAddr (d_regs d))
          (wordsTransferred (d_track d) + o + Z.of_nat i) v)
    (slice (Z.to_nat o) (Z.to_nat n) (bufferMemory (d_track d))).

(** The burst at offset [o] of a phase that writes [n] words. *)
Definition write_burst (d : DMAController) (ctr n o : Z) : XBarMemWriteReqPacket :=
  write_packet ctr "dma" (buffer_writes d o (read_chunk (n - o)))
    (dst_word d (wordsTransferred (d_track d) + o)).

Fixpoint write_bursts (fuel : nat) (d : DMAController) (ctr n o : Z)
    : list XBarMemWriteReqPacket :=
  match fuel with
  | O => []
  | S fuel' =>
      if o <? n then
        write_burst d ctr n o :: write_bursts fuel' d (s32 (ctr + 1)) n (o + read_chunk (n - o))
      else []
  end.

Lemma length_buffer_writes d o n : active d -> 0 <= o -> 0 <= n -> o + n <= 256 ->
  length (buffer_writes d o n) = Z.to_nat n.
Proof.
  intros Ha Ho Hn Hl. unfold buffer_writes. rewrite length_imap, length_slice; [done|].
  rewrite (act_buffer d Ha). lia.
Qed.

(** The state after a prefix of the writes: what the ports and the tracker
    hold. *)
Definition after_writes (d : DMAController) (q : list packet) (r : preg) (ctr queued : Z)
    : DMAController :=
  set_track (fun k => set_pendingW (pendingBusWriteResponses k + queued) k)
    (set_req q r ctr d).

Lemma head_buffer_writes d o n : active d -> 0 <= o -> 1 <= n -> o + n <= 256 ->
  exists v, head (buffer_writes d o n) =
    Some (word_write (d_geo d) (dstAddr (d_regs d)) (wordsTransferred (d_track d) + o) v).
Proof.
  intros Ha Ho Hn Hl. unfold buffer_writes, slice.
  destruct (lookup_lt_is_Some_2 (bufferMemory (d_track d)) (Z.to_nat o)) as [v Hv];
    [rewrite (act_buffer d Ha); lia|].
  rewrite (drop_S _ v) by done. replace (Z.to_nat n) with (S (Z.to_nat (n - 1))) by lia.
  exists v. simpl. by rewrite Z.add_0_r.
Qed.

(** The counter after [n] packets. *)
Definition ctr_after (n : nat) (ctr : Z) : Z := Nat.iter n (fun c => s32 (c + 1)) ctr.

Lemma ctr_after_S n ctr : ctr_after (S n) ctr = ctr_after n (s32 (ctr + 1)).
Proof. unfold ctr_after. by rewrite Nat.iter_succ_r. Qed.

(** The bursts depend on nothing that sending them changes. *)
Lemma write_bursts_ext fuel d d' ctr n o :
  d_regs d' = d_regs d -> d_geo d' = d_geo d ->
  wordsTransferred (d_track d') = wordsTransferred (d_track d) ->
  bufferMemory (d_track d') = bufferMemory (d_track d) ->
  write_bursts fuel d' ctr n o = write_bursts fuel d ctr n o.
Proof.
  intros E1 E2 E3 E4. revert ctr o. induction fuel as [|fuel IH]; intros ctr o; simpl; [done|].
  rewrite IH. unfold write_burst, buffer_writes, dst_word. by rewrite E1, E2, E3, E4.
Qed.

Lemma after_writes_nil d : after_writes d (req_Q d) (m_req d) (d_ctr d) 0 = d.
Proof.
  destruct d as [? ? [] ? ? ? ? ?]. unfold after_writes, set_track, set_pendingW. simpl.
  by rewrite Z.add_0_r.
Qed.

Lemma active_after_writes d q r ctr k : active d -> active (after_writes d q r ctr k).
Proof. intros [? ? ? ? ?]. by split. Qed.

Lemma after_writes_twice d q1 r1 c1 k1 q r ctr k :
  after_writes (after_writes d q1 r1 c1 k1) q r ctr k = after_writes d q r ctr (k1 + k).
Proof.
  unfold after_writes, set_track, set_req, set_pendingW. simpl. by rewrite Z.add_assoc.
Qed.

(** One packet sent, and counted when it is queued. *)
Lemma send_counted d p ctr :
  exists q r k, outcome (ok ← send_req p ctr;
      when (negb ok) (modify (set_track (fun k => set_pendingW (pendingBusWriteResponses k + 1) k)))) d
    = Ok (after_writes d q r ctr k, [])
    /\ (let '(ok, r1) := try_push (m_req d) p in
        q = (if ok then req_Q d else req_Q d ++ [p]) /\ r = r1 /\ k = if ok then 0 else 1).
Proof.
  unfold send_req. step_monad. destruct (try_push (m_req d) p) as [[] r1]; simpl.
  - eexists _, _, _. split; [|by split_and!]. unfold after_writes, set_track, set_pendingW.
    simpl. rewrite Z.add_0_r. by destruct d as [? ? [] ? ? ? ? ?].
  - eexists _, _, _. split; [|by split_and!]. done.
Qed.

Lemma writes_loop_ok fuel d n o : active d ->
  0 <= o <= n -> n <= 256 -> (Z.to_nat (n - o) <= fuel)%nat ->
  exists q r queued ctr,
    push_all (map WriteReq (write_bursts fuel d (d_ctr d) n o)) (req_Q d) (m_req d) =
      (q, r, queued)
    /\ outcome (writes_loop fuel n o) d = Ok (after_writes d q r ctr queued, [])
    /\ ctr = ctr_after (length (write_bursts fuel d (d_ctr d) n o)) (d_ctr d).
Proof.
  revert d o. induction fuel as [|fuel IH]; intros d o Ha Ho Hn Hf.
  - exists (req_Q d), (m_req d), 0, (d_ctr d). split; [done|]. split; [|done]. simpl.
    rewrite (proj2 (Z.ltb_ge _ _)) by lia. by rewrite after_writes_nil.
  - simpl. destruct (Z.ltb_spec o n) as [Hlt|Hge].
    2: { exists (req_Q d), (m_req d), 0, (d_ctr d). by rewrite after_writes_nil. }
    pose proof (read_chunk_valid (n - o) ltac:(lia)) as [Hv Hc].
    unfold outcome. erewrite M_bind_silent by reflexivity. cbv beta zeta.
    rewrite writeChunkCalculation_ok by (apply Ha || lia).
    erewrite M_bind_silent by reflexivity.
    rewrite createWriteRequestsForChunk_ok
      by (try apply Ha; rewrite ?(act_buffer d Ha); lia).
    erewrite M_bind_silent by reflexivity.
    fold (buffer_writes d o (read_chunk (n - o))).
    destruct (head_buffer_writes d o (read_chunk (n - o))) as [v0 Hv0]; [done|lia..|].
    rewrite (Construct_MemWritepkt_burst_ok _ _ _ _ Hv0).
    erewrite M_bind_silent by reflexivity. cbv beta iota.
    assert (Hset : forall p : XBarMemWriteReqPacket, setTID (pk_tid p) p = p) by (by intros []).
    rewrite Hset. simpl wq_addr.
    change (write_packet (d_ctr d) "dma" _ _) with (write_burst d (d_ctr d) n o).
    destruct (send_counted d (WriteReq (write_burst d (d_ctr d) n o)) (s32 (d_ctr d + 1)))
      as (q1 & r1 & k1 & E1 & Ek). simpl map. cbn [push_all].
    destruct (try_push (m_req d) _) as [ok rr]. destruct Ek as (Eq & Er & Ekk).
    destruct (IH (after_writes d q1 r1 (s32 (d_ctr d + 1)) k1) (o + read_chunk (n - o)))
      as (q & r & queued & ctr & Ep & El & Ec); [by apply active_after_writes|lia..|].
    rewrite (write_bursts_ext fuel d) in Ep by done. rewrite (write_bursts_ext fuel d) in Ec by done.
    simpl in Ep. rewrite Eq, Er in Ep.
    rewrite Ep. eexists q, r, _, ctr. split; [reflexivity|].
    split; [|cbn [length]; by rewrite ctr_after_S, Ec].
    rewrite M_bind_assoc, (outcome_bind _ _ _ _ _ E1). unfold outcome in El.
    destruct (writes_loop _ _ _ _) as [[[[] d3] w3]|]; [|done]. injection El as -> ->.
    rewrite after_writes_twice. do 3 f_equal. rewrite Ekk. destruct ok; lia.
Qed.
End Dma_write_phase.
