(* ===== verification/DmaCopy.v ===== *)
(** What a DMA transfer does to memory: the write phase puts the buffer at the
    destination, word by word and in order, and a round of a read phase and a
    write phase copies its part of the tile. *)
From S2P Require Import Prelude Machine DataStruct Memory Bus DataMemory Dma.
Local Open Scope Z_scope.

(** * The bursts of a write phase *)

(** A burst that the memory accepts: 1, 2 or 4 beats, as many as it
    announces, all with the packet's id and from the controller. *)
Definition good_burst (p : XBarMemWriteReqPacket) : Prop :=
  valid_burst (length (pk_payloads p)) = true
  /\ pk_burstSize p = Z.of_nat (length (pk_payloads p))
  /\ Forall (fun b => wq_tid b = pk_tid p /\ wq_caller b = "dma"%string) (pk_payloads p).

Section Dma_copy.
Context `{Framework} `{PR : PipeRegister} {PL : PipeRegisterLaws PR}.
Implicit Types d : DMAController.

Lemma slice_split {A} (l : list A) o n c : (c <= n)%nat ->
  slice o n l = slice o c l ++ slice (o + c) (n - c) l.
Proof.
  intros Hc. unfold slice. rewrite <- (take_drop c (take n (drop o l))).
  rewrite take_take, Nat.min_l by done. f_equal.
  rewrite skipn_firstn_comm, drop_drop. done.
Qed.

Lemma buffer_writes_split d o n c : active d -> 0 <= o -> 0 <= c <= n -> o + n <= 256 ->
  buffer_writes d o n = buffer_writes d o c ++ buffer_writes d (o + c) (n - c).
Proof.
  intros Ha Ho Hc Hn. unfold buffer_writes.
  rewrite (slice_split _ _ (Z.to_nat n) (Z.to_nat c)) by lia. rewrite imap_app.
  rewrite length_slice by (rewrite (act_buffer d Ha); lia). f_equal.
  replace (Z.to_nat o + Z.to_nat c)%nat with (Z.to_nat (o + c)) by lia.
  replace (Z.to_nat n - Z.to_nat c)%nat with (Z.to_nat (n - c)) by lia.
  apply imap_ext. intros i x _. simpl. f_equal. lia.
Qed.

(** Together the bursts carry the words of the buffer, in order. *)
Lemma write_bursts_beats fuel d ctr n o : active d -> 0 <= o <= n -> n <= 256 ->
  (Z.to_nat (n - o) <= fuel)%nat ->
  map beat_of (concat (map pk_payloads (write_bursts fuel d ctr n o))) =
  map beat_of (buffer_writes d o (n - o)).
Proof.
  intros Ha. revert ctr o. induction fuel as [|fuel IH]; intros ctr o Ho Hn Hf.
  - replace (n - o) with 0 by lia. done.
  - simpl. destruct (Z.ltb_spec o n) as [Hlt|Hge].
    2: { replace (n - o) with 0 by lia. done. }
    pose proof (read_chunk_valid (n - o) ltac:(lia)) as [_ Hc].
    rewrite (buffer_writes_split d o (n - o) (read_chunk (n - o))) by (done || lia).
    simpl. rewrite !map_app, IH by lia. f_equal.
    + rewrite map_map. by apply map_ext.
    + do 2 f_equal. lia.
Qed.

Lemma write_bursts_good fuel d ctr n o : active d -> 0 <= o <= n -> n <= 256 ->
  Forall good_burst (write_bursts fuel d ctr n o).
Proof.
  intros Ha. revert ctr o. induction fuel as [|fuel IH]; intros ctr o Ho Hn; simpl; [done|].
  destruct (Z.ltb_spec o n) as [Hlt|Hge]; [|done].
  pose proof (read_chunk_valid (n - o) ltac:(lia)) as [Hv Hc].
  constructor; [|apply IH; lia].
  assert (Hl : length (buffer_writes d o (read_chunk (n - o))) = Z.to_nat (read_chunk (n - o)))
    by (apply length_buffer_writes; done || lia).
  assert (Hb : valid_burst (Z.to_nat (read_chunk (n - o))) = true)
    by (destruct Hv as [E|[E|E]]; by rewrite E).
  unfold good_burst, write_burst, write_packet. simpl. rewrite length_map, Hl.
  split_and!; [done|by apply burst_size_of|].
  apply Forall_map, Forall_true. done.
Qed.

(** * The write phase as a whole *)

Lemma schedule_writes_ok f d : active d -> 1 <= bufferIndex (d_track d) ->
  let n := bufferIndex (d_track d) in
  let bursts := write_bursts (Z.to_nat n) d (d_ctr d) n 0 in
  wordsTransferred (d_track d) <= 16384 ->
  exists d', outcome (schedule_phase (S f) WRITING) d = Ok (d', [])
    /\ push_all (map WriteReq bursts) (req_Q d) (m_req d) =
       (req_Q d', m_req d', pendingBusWriteResponses (d_track d'))
    /\ d_regs d' = d_regs d /\ d_geo d' = d_geo d /\ active d'
    /\ bufferMemory (d_track d') = bufferMemory (d_track d)
    /\ bufferIndex (d_track d') = n /\ totalWords (d_track d') = totalWords (d_track d)
    /\ wordsToBuffer (d_track d') = wordsToBuffer (d_track d)
    /\ wordsTransferred (d_track d') = wordsTransferred (d_track d) + n
    /\ currentState (d_track d') = currentState (d_track d)
    /\ d_ctr d' = ctr_after (length bursts) (d_ctr d)
    /\ resp_Q d' = resp_Q d /\ m_resp d' = m_resp d.
Proof.
  intros Ha Hn1 n bursts Hw. destruct (act_index d Ha) as [_ Hn].
  assert (Hw0 := act_transferred d Ha). unfold BUFFER_CAPACITY in Hn.
  set (d0 := set_track (set_pendingW 0) d).
  assert (Ha0 : active d0) by (destruct Ha; by split).
  destruct (writes_loop_ok (Z.to_nat n) d0 n 0 Ha0) as (q & r & queued & ctr & Ep & El & Ec);
    [lia..|].
  rewrite (write_bursts_ext _ d) in Ep by done. rewrite (write_bursts_ext _ d) in Ec by done.
  eexists. split.
  - simpl. unfold writes_body, outcome. erewrite M_bind_silent by reflexivity. cbv beta zeta.
    rewrite (proj2 (Z.eqb_neq _ _)) by lia. rewrite uint64_small by lia.
    erewrite M_bind_silent by reflexivity. fold d0 n.
    rewrite (outcome_bind _ _ _ _ _ El). reflexivity.
  - simpl. split_and!; try done.
    + destruct Ha. split; simpl; try done. rewrite (sint_id 32); fold n; lia.
    + rewrite (sint_id 32) by (simpl; fold n; lia). done.
Qed.
End Dma_copy.

(** * Tiles in memory *)

(** The rows of a tile, each rounded up to words, lie in a memory of [size]
    bytes; and no two rows share a byte. *)
Definition fits (base stride : Z) (g : dma_geometry) (size : Z) : Prop :=
  0 <= base /\ base + (true_height g - 1) * stride + 4 * words_per_row g <= size.
Definition rows_apart (stride : Z) (g : dma_geometry) : Prop :=
  true_height g = 1 \/ 4 * words_per_row g <= stride.

Lemma word_coordinates g j : wf_geometry g -> 0 <= j < geometry_words g ->
  0 <= j / words_per_row g < true_height g /\ 0 <= j mod words_per_row g < words_per_row g
  /\ j = words_per_row g * (j / words_per_row g) + j mod words_per_row g.
Proof.
  intros Hg Hj. rewrite geometry_words_eq in Hj by done.
  pose proof (words_per_row_pos g Hg). split_and!.
  - apply Z.div_pos; lia.
  - apply Z.div_lt_upper_bound; lia.
  - apply Z.mod_pos_bound. lia.
  - apply Z.mod_pos_bound. lia.
  - apply Z.div_mod. lia.
Qed.

Lemma word_at_eq g base stride size j :
  wf_geometry g -> 0 <= stride -> fits base stride g size -> size <= 2 ^ 32 ->
  0 <= j < geometry_words g ->
  word_at base stride g j = base + (j / words_per_row g) * stride + (j mod words_per_row g) * 4
  /\ 0 <= word_at base stride g j /\ word_at base stride g j + 4 <= size.
Proof.
  intros Hg Hs [Hb Hf] Hsz Hj. pose proof (word_coordinates g j Hg Hj) as (Hr & Hc & _).
  unfold word_at, word_address.
  assert ((j / words_per_row g) * stride <= (true_height g - 1) * stride)
    by (apply Z.mul_le_mono_nonneg_r; lia).
  assert (0 <= (j / words_per_row g) * stride) by (apply Z.mul_nonneg_nonneg; lia).
  rewrite uint_id by (unfold is_u; lia). lia.
Qed.

Lemma words_disjoint g base stride size i j :
  wf_geometry g -> 0 <= stride -> fits base stride g size -> size <= 2 ^ 32 ->
  rows_apart stride g -> 0 <= i < geometry_words g -> 0 <= j < geometry_words g -> i <> j ->
  disjoint_words (word_at base stride g i) (word_at base stride g j).
Proof.
  intros Hg Hs Hf Hsz Ha Hi Hj Hij.
  destruct (word_at_eq g base stride size i) as [-> _]; [done..|].
  destruct (word_at_eq g base stride size j) as [-> _]; [done..|].
  pose proof (word_coordinates g i Hg Hi) as (Ri & Ci & Ei).
  pose proof (word_coordinates g j Hg Hj) as (Rj & Cj & Ej).
  unfold disjoint_words, rows_apart in *.
  generalize dependent (i / words_per_row g). generalize dependent (i mod words_per_row g).
  generalize dependent (j / words_per_row g). generalize dependent (j mod words_per_row g).
  intros cj Cj rj Rj Ej ci Ci ri Ri Ei.
  destruct (Z.lt_trichotomy ri rj) as [Hlt|[->|Hgt]].
  - left. assert ((ri + 1) * stride <= rj * stride) by (apply Z.mul_le_mono_nonneg_r; lia). lia.
  - lia.
  - right. assert ((rj + 1) * stride <= ri * stride) by (apply Z.mul_le_mono_nonneg_r; lia). lia.
Qed.

(** * One round of reading and writing *)

Section Dma_round.
Context `{Framework} `{PR : PipeRegister} {PL : PipeRegisterLaws PR}.
Implicit Types d : DMAController.

(** The tile that the registers describe lies in memory at both ends. *)
Definition tile_ok (d : DMAController) (m : mem) : Prop :=
  wf_mem m /\ getSize m <= 2 ^ 32 /\
  fits (srcAddr (d_regs d)) (Source_stride (d_geo d)) (d_geo d) (getSize m) /\
  fits (dstAddr (d_regs d)) (Dest_stride (d_geo d)) (d_geo d) (getSize m) /\
  rows_apart (Dest_stride (d_geo d)) (d_geo d).

Lemma tile_ok_same d d' m :
  d_regs d' = d_regs d -> d_geo d' = d_geo d -> tile_ok d m -> tile_ok d' m.
Proof. unfold tile_ok. intros -> ->. done. Qed.

Lemma word_of_load m a : 0 <= a -> a + 4 <= getSize m -> load m LW a = Ok (word_of m a).
Proof.
  intros Ha Hs. unfold word_of. rewrite load_unfold by done. unfold in_range. cbn [load_bytes].
  by rewrite (proj2 (Z.leb_le _ _)) by done.
Qed.

Lemma word_of_range m a : wf_mem m -> is_u 32 (word_of m a).
Proof.
  intros Hm. unfold word_of. destruct (load m LW a) eqn:E; [by eapply load_range|].
  unfold is_u. lia.
Qed.

(** The words of the buffer, by index. *)
Lemma buffer_writes_lookup d n i p : active d -> 0 <= n <= 256 ->
  buffer_writes d 0 n !! i = Some p ->
  Z.of_nat i < n /\
  exists v, bufferMemory (d_track d) !! i = Some v
    /\ p = write_req SW (dst_word d (wordsTransferred (d_track d) + Z.of_nat i)) v.
Proof.
  intros Ha Hn. unfold buffer_writes. rewrite list_lookup_imap. unfold slice.
  destruct (decide (i < Z.to_nat n)%nat) as [Hi|Hi].
  - rewrite lookup_take_lt, lookup_drop by done.
    change (Z.to_nat 0 + i)%nat with i. destruct (_ !! i) as [v|]; simpl; [|done].
    intros Hp. injection Hp as <-. split; [lia|]. exists v. split; [done|].
    unfold word_write. by rewrite Z.add_0_r.
  - by rewrite lookup_take_ge by lia.
Qed.

(** Storing the bursts of a write phase, when the buffer holds the words that
    memory [m0] has at the source. *)
Lemma bursts_stored d m m0 n bursts :
  active d -> holds m0 d -> wf_mem m0 -> tile_ok d m -> 0 <= n <= bufferIndex (d_track d) ->
  wordsTransferred (d_track d) + n <= totalWords (d_track d) ->
  map beat_of (concat (map pk_payloads bursts)) = map beat_of (buffer_writes d 0 n) ->
  exists m', store_all (concat (map pk_payloads bursts)) m = Ok m'
    /\ getSize m' = getSize m
    /\ (forall j, wordsTransferred (d_track d) <= j < wordsTransferred (d_track d) + n ->
        load m' LW (dst_word d j) = Ok (word_of m0 (src_word d j)))
    /\ (forall a, 0 <= a ->
        (forall j, wordsTransferred (d_track d) <= j < wordsTransferred (d_track d) + n ->
         disjoint_words a (dst_word d j)) ->
        load m' LW a = load m LW a).
Proof.
  intros Ha Hh Hm0 (Hwf & Hsz & _ & Hd & Hra) Hn Ht Hb.
  pose proof (act_geo d Ha) as Hg. pose proof (act_total d Ha) as Htot.
  pose proof (act_transferred d Ha) as Hw. pose proof (act_index d Ha) as Hi.
  unfold BUFFER_CAPACITY in Hi.
  assert (Hs : 0 <= Dest_stride (d_geo d)) by apply Hg.
  rewrite (store_all_ext _ _ m Hb).
  destruct (store_all_words (buffer_writes d 0 n) m) as (m' & E & Hsize & Hin & Hout).
  - apply Forall_lookup_2. intros i p Hp.
    apply buffer_writes_lookup in Hp as (Hlt & v & _ & ->); [|done|lia]. simpl.
    split; [done|]. eapply word_at_eq; [done|exact Hs|exact Hd|done|lia].
  - intros i j p q Hp Hq Hij.
    apply buffer_writes_lookup in Hp as (Hlt & v & _ & ->); [|done|lia].
    apply buffer_writes_lookup in Hq as (Hlt' & v' & _ & ->); [|done|lia]. simpl.
    eapply words_disjoint; [done|exact Hs|exact Hd|done|done|lia..].
  - exists m'. split_and!; [done|done| |].
    + intros j Hj. set (i := Z.to_nat (j - wordsTransferred (d_track d))).
      assert (Hv := Hh (j - wordsTransferred (d_track d)) ltac:(lia)).
      replace (wordsTransferred (d_track d) + (j - wordsTransferred (d_track d))) with j in Hv by lia.
      assert (Hp : buffer_writes d 0 n !! i = Some (write_req SW (dst_word d j) (word_of m0 (src_word d j)))).
      { unfold buffer_writes. rewrite list_lookup_imap. unfold slice.
        rewrite lookup_take_lt, lookup_drop by lia. change (Z.to_nat 0 + i)%nat with i.
        fold i in Hv. rewrite Hv. simpl. unfold word_write, dst_word. do 3 f_equal. lia. }
      apply list_elem_of_lookup_2 in Hp. apply Hin in Hp. simpl in Hp. rewrite Hp. f_equal.
      apply uint_id. by apply word_of_range.
    + intros a Ha0 Hda. apply Hout; [done|]. intros p Hp.
      apply list_elem_of_lookup in Hp as [i Hp].
      apply buffer_writes_lookup in Hp as (Hlt & v & _ & ->); [|done|lia]. simpl.
      apply Hda. lia.
Qed.
End Dma_round.

(** * Whole transfers *)

Section Dma_transfer.
Context `{Framework} `{PR : PipeRegister} {PL : PipeRegisterLaws PR}.
Implicit Types d : DMAController.

(** The controller about to fill an empty buffer, with words left to copy. *)
Record round_start (d : DMAController) : Prop := {
  rs_reading : reading d;
  rs_empty : bufferIndex (d_track d) = 0;
  rs_words : wordsTransferred (d_track d) < totalWords (d_track d);
}.

(** The words of a round. *)
Definition round_size (d : DMAController) : Z :=
  Z.min 256 (totalWords (d_track d) - wordsTransferred (d_track d)).

(** A write phase: its bursts are taken by the pipe register or queued, and
    the memory goes from [m] to [m'] when all of them have been served. *)
Inductive write_phase (m m' : mem) : DMAController -> DMAController -> Prop :=
  | write_phase_intro d d' bursts :
      outcome scheduleWritesFromBuffer d = Ok (d', []) ->
      push_all (map WriteReq bursts) (req_Q d) (m_req d) =
        (req_Q d', m_req d', pendingBusWriteResponses (d_track d')) ->
      Forall good_burst bursts ->
      concat (map pk_payloads bursts) <> [] ->
      map beat_of (concat (map pk_payloads bursts)) =
        map beat_of (buffer_writes d 0 (bufferIndex (d_track d))) ->
      store_all (concat (map pk_payloads bursts)) m = Ok m' ->
      write_phase m m' d d'.

(** What [handleWriteCompletion] does to the state when the last response it
    waits for arrives and words are left. *)
Definition drain (d : DMAController) : DMAController :=
  let k := d_track d in
  set_track (fun _ => DmaTracking (wordsToBuffer k) (wordsTransferred k) (totalWords k) 0
    (pendingBusReadResponses k) 0
    (splice 0 (replicate (Z.to_nat (bufferIndex k)) 0) (bufferMemory k)) READING) d.

Lemma last_completion d : active d -> pendingBusWriteResponses (d_track d) = 1 ->
  outcome handleWriteCompletion d =
  if totalWords (d_track d) <=? wordsTransferred (d_track d)
  then outcome transaction_complete (set_track (set_state (currentState (d_track d))) (drain d))
  else outcome scheduleReadsForBuffer (drain d).
Proof.
  intros Ha Hp. pose proof (act_index d Ha) as Hi. unfold BUFFER_CAPACITY in Hi.
  unfold handleWriteCompletion, outcome. erewrite M_bind_silent by reflexivity.
  erewrite M_bind_silent by reflexivity. cbv zeta.
  cbn [d_track set_track set_pendingW pendingBusWriteResponses]. rewrite Hp.
  rewrite (proj2 (Z.eqb_eq _ _)) by done. cbn [bufferIndex bufferMemory set_pendingW totalWords wordsTransferred].
  unfold clear_buffer. rewrite uint64_small by lia.
  rewrite (proj2 (Z.leb_le (bufferIndex (d_track d)) BUFFER_CAPACITY)) by (unfold BUFFER_CAPACITY; lia).
  erewrite M_bind_silent by reflexivity. erewrite M_bind_silent by reflexivity.
  erewrite M_bind_silent by reflexivity. cbn [totalWords wordsTransferred].
  destruct (totalWords (d_track d) <=? wordsTransferred (d_track d)).
  - clear Ha Hi. destruct d as [? ? [] ? ? ? ? ?]. simpl in Hp. by subst.
  - erewrite M_bind_silent by reflexivity. clear Ha Hi.
    destruct d as [? ? [] ? ? ? ? ?]. simpl in Hp. by subst.
Qed.

Lemma length_cleared n (l : list Z) : length l = 256%nat -> (n <= 256)%nat ->
  length (splice 0 (replicate n 0) l) = 256%nat.
Proof. intros Hl Hn. rewrite length_splice; rewrite ?length_replicate; lia. Qed.

(** A transfer against memory: rounds until every word is written. *)
Inductive transfer : DMAController -> mem -> DMAController -> mem -> Prop :=
  | transfer_last d m d1 d1' d2 m' :
      read_phase m d d1 -> same_core d1 d1' -> write_phase m m' d1' d2 ->
      totalWords (d_track d2) <= wordsTransferred (d_track d2) ->
      transfer d m d2 m'
  | transfer_more d m d1 d1' d2 m' d2' d3 m3 :
      read_phase m d d1 -> same_core d1 d1' -> write_phase m m' d1' d2 ->
      wordsTransferred (d_track d2) < totalWords (d_track d2) ->
      same_core (drain d2) d2' -> transfer d2' m' d3 m3 ->
      transfer d m d3 m3.

Lemma round_room d : round_start d -> room d = round_size d /\ 1 <= room d /\
  forall m, holds m d.
Proof.
  intros [Hr He Hw]. pose proof (rd_count d Hr) as Hc. unfold room, round_size, BUFFER_CAPACITY.
  rewrite He in *. split_and!; [f_equal; lia|lia|]. intros m j. rewrite He. lia.
Qed.

(** The end of the read phase of a round. *)
Lemma round_read m d d1 : round_start d -> read_phase m d d1 ->
  read_phase_post m d d1 /\ bufferIndex (d_track d1) = round_size d
  /\ totalWords (d_track d1) = totalWords (d_track d).
Proof.
  intros Hs Hp. destruct (round_room d Hs) as (Er & Hroom & Hh).
  pose proof (read_phase_correct m d d1 (rs_reading d Hs) Hroom (Hh m) Hp) as Hpost.
  split; [done|]. destruct Hpost as (Hr1 & _ & Hroom1 & _ & Eg & Ew).
  pose proof (act_total d1 (rd_active d1 Hr1)) as Ht1.
  pose proof (act_total d (rd_active d (rs_reading d Hs))) as Ht. rewrite Eg in Ht1.
  assert (Et : totalWords (d_track d1) = totalWords (d_track d)) by congruence.
  split; [|done]. pose proof (rd_count d1 Hr1). pose proof (rd_words d1 Hr1).
  pose proof (act_index d1 (rd_active d1 Hr1)). unfold room, BUFFER_CAPACITY in *.
  unfold round_size. lia.
Qed.

(** The state and the memory after a round. *)
Record round_done (d d2 : DMAController) (m0 m m' : mem) : Prop := {
  rn_regs : d_regs d2 = d_regs d;
  rn_geo : d_geo d2 = d_geo d;
  rn_active : active d2;
  rn_words : wordsTransferred (d_track d2) = wordsTransferred (d_track d) + round_size d;
  rn_total : totalWords (d_track d2) = totalWords (d_track d);
  rn_read : wordsToBuffer (d_track d2) = wordsTransferred (d_track d2);
  rn_size : getSize m' = getSize m;
  rn_wf : wf_mem m -> wf_mem m';
  rn_copied : forall j,
    wordsTransferred (d_track d) <= j < wordsTransferred (d_track d) + round_size d ->
    load m' LW (dst_word d j) = Ok (word_of m0 (src_word d j));
  rn_kept : forall a, 0 <= a ->
    (forall j, wordsTransferred (d_track d) <= j < wordsTransferred (d_track d) + round_size d ->
     disjoint_words a (dst_word d j)) -> load m' LW a = load m LW a;
}.

Lemma active_same_core d d' : same_core d d' -> active d -> active d'.
Proof. intros (E1 & E2 & E3) [? ? ? ? ?]. split; rewrite ?E2, ?E3; done. Qed.

Lemma round_write m m' d d1 d1' d2 :
  round_start d -> tile_ok d m -> read_phase m d d1 -> same_core d1 d1' ->
  write_phase m m' d1' d2 -> round_done d d2 m m m'.
Proof.
  intros Hs Ht Hp Hc Hw. destruct (round_read m d d1 Hs Hp) as (Hpost & Ei & Et).
  destruct Hpost as (Hr1 & Hh1 & _ & Eregs & Egeo & Ewt).
  pose proof (reading_bounds d1 Hr1) as Hb.
  destruct (round_room d Hs) as (Eroom & Hroom & _).
  pose proof (active_same_core _ _ Hc (rd_active d1 Hr1)) as Ha.
  pose proof (holds_same_core m _ _ Hc Hh1) as Hh. destruct Hc as (C1 & C2 & C3).
  destruct Hw as [d1' d2 bursts Es Epush Hgood _ Hbeats Hst].
  assert (Ei' : bufferIndex (d_track d1') = round_size d) by congruence.
  destruct (schedule_writes_ok 2 d1' Ha) as
    (dx & Ex & _ & R1 & R2 & R3 & _ & R5 & R6 & R7 & R8 & _); [lia|rewrite C3; lia|].
  unfold scheduleWritesFromBuffer, call_depth in Es. rewrite Es in Ex. injection Ex as <-.
  destruct (bursts_stored d1' m m (round_size d) bursts) as (mx & Emx & Esz & Hin & Hout);
    [done|done|apply Ht| |lia| | |].
  - apply (tile_ok_same d); [congruence..|done].
  - rewrite C3, Ewt, Et. unfold round_size. lia.
  - by rewrite Ei' in Hbeats.
  - rewrite Hst in Emx. injection Emx as <-.
    assert (Edst : forall j, dst_word d1' j = dst_word d j)
      by (intros j; unfold dst_word; by rewrite C1, C2, Eregs, Egeo).
    assert (Esrc : forall j, src_word d1' j = src_word d j)
      by (intros j; unfold src_word; by rewrite C1, C2, Eregs, Egeo).
    pose proof (rd_count d1 Hr1) as Hcnt. rewrite C3, Ewt in *. split; try congruence.
    + intros Hm. by apply (store_all_wf (concat (map pk_payloads bursts)) m).
    + intros j Hj. rewrite <- Edst, <- Esrc. by apply Hin.
    + intros a Ha0 Hda. apply Hout; [done|]. intros j Hj. rewrite Edst. by apply Hda.
Qed.
End Dma_transfer.

Section Dma_transfer_correct.
Context `{Framework} `{PR : PipeRegister} {PL : PipeRegisterLaws PR}.
Implicit Types d : DMAController.

(** No word is both read and written by the transfer. *)
Definition separate (d : DMAController) : Prop :=
  forall i j, 0 <= i < totalWords (d_track d) -> 0 <= j < totalWords (d_track d) ->
  disjoint_words (src_word d i) (dst_word d j).

(** What a transfer from [d] leaves in memory. *)
Definition copied (d : DMAController) (m m' : mem) : Prop :=
  (forall j, wordsTransferred (d_track d) <= j < totalWords (d_track d) ->
   load m' LW (dst_word d j) = load m LW (src_word d j)) /\
  (forall a, 0 <= a ->
   (forall j, wordsTransferred (d_track d) <= j < totalWords (d_track d) ->
    disjoint_words a (dst_word d j)) -> load m' LW a = load m LW a).

Lemma src_word_ok d m j : reading d -> tile_ok d m -> 0 <= j < totalWords (d_track d) ->
  0 <= src_word d j /\ src_word d j + 4 <= getSize m.
Proof.
  intros Hr (_ & Hsz & Hf & _) Hj. pose proof (act_geo d (rd_active d Hr)) as Hg.
  rewrite (act_total d (rd_active d Hr)) in Hj.
  eapply word_at_eq; [done|apply Hg|exact Hf|done|done].
Qed.

Lemma dst_word_ok d m j : reading d -> tile_ok d m -> 0 <= j < totalWords (d_track d) ->
  0 <= dst_word d j /\ dst_word d j + 4 <= getSize m.
Proof.
  intros Hr (_ & Hsz & _ & Hf & _) Hj. pose proof (act_geo d (rd_active d Hr)) as Hg.
  rewrite (act_total d (rd_active d Hr)) in Hj.
  eapply word_at_eq; [done|apply Hg|exact Hf|done|done].
Qed.

Lemma dst_words_disjoint d m i j : reading d -> tile_ok d m ->
  0 <= i < totalWords (d_track d) -> 0 <= j < totalWords (d_track d) -> i <> j ->
  disjoint_words (dst_word d i) (dst_word d j).
Proof.
  intros Hr (_ & Hsz & _ & Hf & Hra) Hi Hj Hij. pose proof (act_geo d (rd_active d Hr)) as Hg.
  rewrite (act_total d (rd_active d Hr)) in Hi, Hj.
  eapply words_disjoint; [done|apply Hg|exact Hf|done..].
Qed.

(** The next round starts where this one stopped. *)
Lemma next_round d d2 d2' m m' : round_start d -> round_done d d2 m m m' ->
  wordsTransferred (d_track d2) < totalWords (d_track d2) -> same_core (drain d2) d2' ->
  round_start d2' /\ d_regs d2' = d_regs d /\ d_geo d2' = d_geo d
  /\ wordsTransferred (d_track d2') = wordsTransferred (d_track d) + round_size d
  /\ totalWords (d_track d2') = totalWords (d_track d).
Proof.
  intros Hs [E1 E2 Ha E3 E4 E5 _ _ _ _] Hlt (C1 & C2 & C3).
  pose proof (act_index d2 Ha) as Hi. unfold BUFFER_CAPACITY in Hi.
  rewrite C1, C2, C3. simpl. split_and!; try done.
  destruct Ha as [Hg Ht Hb _ Hw].
  split; [split; [split|..]|..]; rewrite ?C2, ?C3; simpl; try done; try lia.
  - apply length_cleared; [done|lia].
Qed.

Lemma transfer_copies d m d' m' :
  transfer d m d' m' -> round_start d -> tile_ok d m -> separate d ->
  copied d m m' /\ wordsTransferred (d_track d') = totalWords (d_track d)
  /\ totalWords (d_track d') = totalWords (d_track d) /\ active d'.
Proof.
  intros Ht. induction Ht as [d m d1 d1' d2 m' Hp Hc Hw Hend
    |d m d1 d1' d2 m1 d2' d3 m3 Hp Hc Hw Hlt Hc2 Ht IH]; intros Hs Hok Hsep;
    pose proof (round_write _ _ _ _ _ _ Hs Hok Hp Hc Hw) as Hrd;
    pose proof (rs_reading d Hs) as Hr; pose proof (reading_bounds d Hr) as Hb;
    pose proof (rs_words d Hs) as Hw0.
  - destruct Hrd as [E1 E2 Ha E3 E4 E5 E6 E6' Hin Hout].
    assert (Er : round_size d = totalWords (d_track d) - wordsTransferred (d_track d))
      by (unfold round_size in *; lia).
    split_and!; [|lia|done|done]. rewrite Er in *. split.
    + intros j Hj. rewrite Hin by lia. symmetry.
      apply word_of_load; apply (src_word_ok d m); done || lia.
    + intros a Ha0 Hda. apply Hout; [done|]. intros j Hj. apply Hda. lia.
  - destruct (next_round d d2 d2' m m1 Hs Hrd Hlt Hc2) as (Hs2 & R1 & R2 & R3 & R4).
    destruct Hrd as [E1 E2 Ha E3 E4 E5 E6 E6' Hin Hout].
    destruct IH as ((Hcp & Hkp) & F1 & F2 & F3); [done| | |].
    { unfold tile_ok. rewrite R1, R2, E6. destruct Hok as (? & ?). by split; [apply E6'|]. }
    { intros i j. unfold src_word, dst_word. rewrite R1, R2, R4. apply Hsep. }
    assert (Edst : forall j, dst_word d2' j = dst_word d j)
      by (intros j; unfold dst_word; by rewrite R1, R2).
    assert (Esrc : forall j, src_word d2' j = src_word d j)
      by (intros j; unfold src_word; by rewrite R1, R2).
    rewrite R3, R4 in *. split_and!; [|congruence|congruence|done]. split.
    + intros j Hj.
      destruct (Z.lt_ge_cases j (wordsTransferred (d_track d) + round_size d)) as [Hj1|Hj1].
      * rewrite Hkp; [|by apply (dst_word_ok d m); [| |lia]|].
        -- rewrite Hin by lia. symmetry. apply word_of_load; apply (src_word_ok d m); done || lia.
        -- intros k Hk. rewrite Edst. apply (dst_words_disjoint d m); done || lia.
      * rewrite <- Edst, Hcp by lia. rewrite Esrc. apply Hout.
        -- apply (src_word_ok d m); done || lia.
        -- intros k Hk. apply Hsep; lia.
    + intros a Ha0 Hda. rewrite Hkp; [|done|].
      * apply Hout; [done|]. intros k Hk. apply Hda. lia.
      * intros k Hk. rewrite Edst. apply Hda. pose proof (rs_words d2' Hs2).
        unfold round_size in *. lia.
Qed.
End Dma_transfer_correct.

Section Dma_transfer_ends.
Context `{Framework} `{PR : PipeRegister} {PL : PipeRegisterLaws PR}.
Implicit Types d : DMAController.

(** A full buffer can be written to memory. *)
Lemma write_phase_exists d m m0 :
  active d -> holds m0 d -> wf_mem m0 -> tile_ok d m -> 1 <= bufferIndex (d_track d) ->
  wordsTransferred (d_track d) + bufferIndex (d_track d) <= totalWords (d_track d) ->
  exists d' m', write_phase m m' d d'.
Proof.
  intros Ha Hh Hm0 Hok Hi Ht.
  pose proof (geometry_words_range _ (act_geo d Ha)) as Hg. rewrite <- (act_total d Ha) in Hg.
  pose proof (act_index d Ha) as Hi2. unfold BUFFER_CAPACITY in Hi2.
  pose proof (act_transferred d Ha) as Hw.
  set (n := bufferIndex (d_track d)) in *.
  set (bursts := write_bursts (Z.to_nat n) d (d_ctr d) n 0).
  assert (Hbeats : map beat_of (concat (map pk_payloads bursts)) =
                   map beat_of (buffer_writes d 0 n)).
  { unfold bursts. rewrite write_bursts_beats by (done || lia). do 2 f_equal. lia. }
  destruct (schedule_writes_ok 2 d Ha) as (d' & E & Ep & _); [fold n; lia|lia|].
  destruct (bursts_stored d m m0 n bursts) as (m' & Em & _); [done..|lia|lia|done|].
  exists d', m'. apply (write_phase_intro m m' d d' bursts); try done.
  - by apply write_bursts_good; [|lia..].
  - intros E0. rewrite E0 in Hbeats. apply (f_equal length) in Hbeats.
    rewrite !length_map, length_buffer_writes in Hbeats by (done || lia). simpl in Hbeats. lia.
Qed.

Lemma transfer_ends d m : round_start d -> tile_ok d m ->
  exists d' m', transfer d m d' m'.
Proof.
  remember (Z.to_nat (totalWords (d_track d) - wordsTransferred (d_track d))) as n eqn:En.
  revert d m En. induction n as [n IH] using lt_wf_ind. intros d m En Hs Hok.
  destruct (round_room d Hs) as (Er & Hroom & Hh).
  destruct (read_phase_ends m d (rs_reading d Hs) Hroom (Hh m)) as [d1 Hp].
  destruct (round_read m d d1 Hs Hp) as ((Hr1 & Hh1 & _ & E1 & E2 & E3) & Ei & Et).
  pose proof (rs_words d Hs) as Hw.
  assert (Hok1 : tile_ok d1 m) by (by apply (tile_ok_same d)).
  destruct (write_phase_exists d1 m m) as (d2 & m' & Hwp);
    [apply Hr1|done|apply Hok|done|lia|rewrite E3, Ei, Et; unfold round_size; lia|].
  assert (Hc : same_core d1 d1) by done.
  pose proof (round_write m m' d d1 d1 d2 Hs Hok Hp Hc Hwp) as Hrd.
  destruct (Z.le_gt_cases (totalWords (d_track d2)) (wordsTransferred (d_track d2))) as [Hle|Hgt].
  - exists d2, m'. by eapply transfer_last.
  - destruct (next_round d d2 (drain d2) m m' Hs Hrd) as (Hs2 & R1 & R2 & R3 & R4); [lia|done|].
    destruct (IH (Z.to_nat (totalWords (d_track (drain d2)) - wordsTransferred (d_track (drain d2)))))
      with (d := drain d2) (m := m') as (d3 & m3 & Ht); [|done|done| |].
    + rewrite R3, R4. unfold round_size in *. lia.
    + unfold tile_ok. rewrite R1, R2, (rn_size _ _ _ _ _ Hrd).
      destruct Hok as (Hwf & ?). split; [by apply (rn_wf _ _ _ _ _ Hrd)|done].
    + exists d3, m3. by apply (transfer_more d m d1 d1 d2 m' (drain d2)); [..|lia|done|].
Qed.

(** The state in which a write of 1 to ENABLE starts the first round. *)
Lemma enable_starts d : length (bufferMemory (d_track d)) = 256%nat ->
  let g := decode_geometry (dmaSizeCfg (d_regs d)) in
  exists d0, round_start d0
    /\ d_regs d0 = set_done false (set_enabled true (d_regs d)) /\ d_geo d0 = g
    /\ wordsTransferred (d_track d0) = 0 /\ totalWords (d_track d0) = geometry_words g
    /\ outcome (modify (set_regs (set_enabled true));; modify (set_regs (set_done false));;
                initialized_transaction) d = outcome scheduleReadsForBuffer d0
    /\ m_req d0 = m_req d /\ req_Q d0 = req_Q d /\ m_resp d0 = m_resp d /\ resp_Q d0 = resp_Q d
    /\ d_ctr d0 = d_ctr d
    /\ pendingBusWriteResponses (d_track d0) = pendingBusWriteResponses (d_track d).
Proof.
  intros Hb g. pose proof (decode_geometry_wf (dmaSizeCfg (d_regs d))) as Hg. fold g in Hg.
  pose proof (geometry_words_range g Hg) as Hw.
  exists (set_track (set_state READING) (set_track (set_words 0 0 (geometry_words g) 0)
    (set_geo g (set_track (set_state IDLE) (set_regs (set_done false)
      (set_regs (set_done false) (set_regs (set_enabled true) d))))))).
  split_and!; try done.
  - split; simpl; [|done|lia]. split; simpl; [split|..]; simpl; unfold BUFFER_CAPACITY; done || lia.
  - unfold initialized_transaction, outcome.
    unfold startTransfer. do 8 (erewrite M_bind_silent by reflexivity).
    cbn [negb enabled done d_regs set_regs set_track set_geo set_enabled set_done].
    by erewrite M_bind_silent by reflexivity.
Qed.
End Dma_transfer_ends.

(** The word of a row and a column. *)
Lemma word_index g row col : wf_geometry g ->
  0 <= row < true_height g -> 0 <= col < words_per_row g ->
  let j := row * words_per_row g + col in
  0 <= j < geometry_words g /\ j / words_per_row g = row /\ j mod words_per_row g = col.
Proof.
  intros Hg Hr Hc j. rewrite geometry_words_eq by done. pose proof (words_per_row_pos g Hg).
  unfold j. split_and!; [nia|nia| |].
  - rewrite Z.add_comm, Z.div_add by lia. rewrite Z.div_small by lia. done.
  - rewrite Z.add_comm, Z.mod_add by lia. by rewrite Z.mod_small by lia.
Qed.

(** * Completion *)

Section Dma_completion.
Context `{Framework} `{PR : PipeRegister} {PL : PipeRegisterLaws PR}.
Implicit Types d : DMAController.

Lemma completion_waits d : pendingBusWriteResponses (d_track d) <> 1 ->
  outcome handleWriteCompletion d =
  Ok (set_track (fun k => set_pendingW (pendingBusWriteResponses k - 1) k) d, []).
Proof.
  intros Hp. unfold handleWriteCompletion. step_monad.
  by rewrite (proj2 (Z.eqb_neq _ _)) by lia.
Qed.

Lemma completions_wait n d :
  (pendingBusWriteResponses (d_track d) <= 0 \/
   Z.of_nat n < pendingBusWriteResponses (d_track d)) ->
  run_all (replicate n handleWriteCompletion) d =
  Ok (set_track (fun k => set_pendingW (pendingBusWriteResponses k - Z.of_nat n) k) d, []).
Proof.
  revert d. induction n as [|n IH]; intros d Hp.
  - simpl. do 2 f_equal. destruct d as [? ? [] ? ? ? ? ?].
    unfold set_track, set_pendingW. simpl. by rewrite Z.sub_0_r.
  - simpl replicate. rewrite run_all_cons, completion_waits by lia.
    rewrite IH by (simpl; lia). unfold set_track, set_pendingW. cbn [d_track d_regs d_geo
      req_Q resp_Q m_req m_resp d_ctr pendingBusWriteResponses].
    replace (pendingBusWriteResponses (d_track d) - 1 - Z.of_nat n)
      with (pendingBusWriteResponses (d_track d) - Z.of_nat (S n)) by lia.
    by destruct d as [? ? [] ? ? ? ? ?].
Qed.
End Dma_completion.

(** * Properties *)

Section Dma_properties.
Context `{Framework} `{PR : PipeRegister} {PL : PipeRegisterLaws PR}.
Implicit Types d : DMAController.

(** Starting the controller on a tile whose source and destination lie in
    memory, do not overlap, and whose destination rows do not overlap each
    other: whatever happens at the ports in between, the transfer's rounds of
    read bursts and write bursts come to an end, and then every word of every
    row (rows are rounded up to words) is at its destination and all other
    words of memory are as they were. Tiles of any size are covered, up to
    the 16384 words a size register can encode. *)
Theorem dma_transfer_copies d m : length (bufferMemory (d_track d)) = 256%nat ->
  enabled (d_regs d) = true -> done (d_regs d) = false ->
  let g := decode_geometry (dmaSizeCfg (d_regs d)) in
  let src row col := srcAddr (d_regs d) + row * Source_stride g + 4 * col in
  let dst row col := dstAddr (d_regs d) + row * Dest_stride g + 4 * col in
  let in_tile row col := 0 <= row < true_height g /\ 0 <= col < words_per_row g in
  wf_mem m -> getSize m <= 2 ^ 32 ->
  fits (srcAddr (d_regs d)) (Source_stride g) g (getSize m) ->
  fits (dstAddr (d_regs d)) (Dest_stride g) g (getSize m) ->
  rows_apart (Dest_stride g) g ->
  (forall r c r' c', in_tile r c -> in_tile r' c' -> disjoint_words (src r c) (dst r' c')) ->
  exists d0, outcome initialized_transaction d = outcome scheduleReadsForBuffer d0
    /\ (exists d' m', transfer d0 m d' m')
    /\ forall d' m', transfer d0 m d' m' ->
       (forall row col, in_tile row col -> load m' LW (dst row col) = load m LW (src row col))
       /\ (forall a, 0 <= a -> (forall row col, in_tile row col -> disjoint_words a (dst row col)) ->
           load m' LW a = load m LW a).
Proof.
  intros Hb Hen Hdone g src dst in_tile Hwf Hsz Hfs Hfd Hra Hsep.
  destruct (enable_starts d Hb) as (d0 & Hs & Er & Eg & Ew & Et & Estart & _).
  assert (Hen_start : outcome initialized_transaction d = outcome scheduleReadsForBuffer d0).
  { rewrite <- Estart. unfold outcome. do 2 (erewrite M_bind_silent by reflexivity).
    destruct d as [[] ? ? ? ? ? ? ?]. simpl in Hen, Hdone. by subst. }
  assert (Eregs : d_regs d0 = d_regs d).
  { rewrite Er. destruct (d_regs d). simpl in *. by subst. }
  fold g in Eg, Et. pose proof (act_geo d0 (rd_active d0 (rs_reading d0 Hs))) as Hg.
  rewrite Eg in Hg.
  assert (Hok : tile_ok d0 m) by (unfold tile_ok; rewrite Eregs, Eg; done).
  assert (Hsrc : forall j, 0 <= j < geometry_words g ->
    src_word d0 j = src (j / words_per_row g) (j mod words_per_row g)).
  { intros j Hj. unfold src_word, src. rewrite Eregs, Eg.
    destruct (word_at_eq g (srcAddr (d_regs d)) (Source_stride g) (getSize m) j)
      as [-> _]; try done; [apply Hg|lia]. }
  assert (Hdst : forall j, 0 <= j < geometry_words g ->
    dst_word d0 j = dst (j / words_per_row g) (j mod words_per_row g)).
  { intros j Hj. unfold dst_word, dst. rewrite Eregs, Eg.
    destruct (word_at_eq g (dstAddr (d_regs d)) (Dest_stride g) (getSize m) j)
      as [-> _]; try done; [apply Hg|lia]. }
  assert (Hin : forall j, 0 <= j < geometry_words g ->
    in_tile (j / words_per_row g) (j mod words_per_row g))
    by (intros j Hj; pose proof (word_coordinates g j Hg Hj); unfold in_tile; tauto).
  exists d0. split; [|split].
  - rewrite <- Hen_start. done.
  - by apply transfer_ends.
  - intros d' m' Ht. destruct (transfer_copies d0 m d' m' Ht Hs Hok) as ((Hcp & Hkp) & _).
    { intros i j Hi Hj. rewrite Et in Hi, Hj. rewrite Hsrc, Hdst by done. apply Hsep; by apply Hin. }
    rewrite Ew, Et in *. split.
    + intros row col [Hr Hc]. destruct (word_index g row col Hg Hr Hc) as (Hj & Ej & Ec).
      specialize (Hcp _ Hj). rewrite Hsrc, Hdst, Ej, Ec in Hcp by done. exact Hcp.
    + intros a Ha Hda. apply Hkp; [done|]. intros j Hj. rewrite Hdst by done. apply Hda. by apply Hin.
Qed.

(** The read phase of a round always ends, and it ends with the buffer
    holding, in order, the next words of the source tile: as many as the
    buffer has room for or the tile has left. *)
Theorem dma_read_phase_fills d m : round_start d -> tile_ok d m ->
  (exists d', read_phase m d d') /\
  forall d', read_phase m d d' ->
    bufferIndex (d_track d') = round_size d /\
    forall j, 0 <= j < round_size d ->
    exists v, bufferMemory (d_track d') !! Z.to_nat j = Some v
      /\ load m LW (src_word d (wordsTransferred (d_track d) + j)) = Ok v.
Proof.
  intros Hs Hok. destruct (round_room d Hs) as (_ & Hroom & Hh). split.
  - by apply read_phase_ends; [apply Hs|..].
  - intros d' Hp. destruct (round_read m d d' Hs Hp) as (Hpost & Ei & Et).
    destruct Hpost as (Hr' & Hh' & _ & Er & Eg & Ew). split; [done|]. intros j Hj.
    eexists. split; [apply Hh'; lia|]. unfold src_word in *. rewrite Er, Eg, Ew.
    pose proof (reading_bounds d (rs_reading d Hs)). pose proof (rs_words d Hs).
    apply word_of_load; apply (src_word_ok d m); try done; try apply Hs;
      unfold round_size in *; lia.
Qed.

(** C30. Scheduling the writes of a buffer hands over bursts of 1, 2 or 4 word
    stores, each announcing its length; every one is taken by the pipe
    register or waits in the queue, and together they store the words of the
    buffer at consecutive places of the destination tile, in order. *)
Theorem dma_write_bursts d : active d -> 1 <= bufferIndex (d_track d) ->
  wordsTransferred (d_track d) <= 16384 ->
  exists d' bursts taken queued,
    outcome scheduleWritesFromBuffer d = Ok (d', [])
    /\ accepted (m_req d') = accepted (m_req d) ++ taken
    /\ req_Q d' = req_Q d ++ queued
    /\ taken ++ queued ≡ₚ map WriteReq bursts
    /\ pendingBusWriteResponses (d_track d') = Z.of_nat (length queued)
    /\ Forall good_burst bursts
    /\ map beat_of (concat (map pk_payloads bursts)) =
       imap (fun j v => (SW, dst_word d (wordsTransferred (d_track d) + Z.of_nat j), v))
         (take (Z.to_nat (bufferIndex (d_track d))) (bufferMemory (d_track d)))
    /\ wordsTransferred (d_track d') =
       wordsTransferred (d_track d) + bufferIndex (d_track d).
Proof.
  intros Ha Hi Hw. pose proof (act_index d Ha) as Hi2. unfold BUFFER_CAPACITY in Hi2.
  destruct (schedule_writes_ok 2 d Ha Hi Hw) as (d' & E & Ep & _ & _ & _ & _ & _ & _ & _ & Ewt & _).
  destruct (push_all_conserves _ _ _ _ _ _ Ep) as (taken & queued & Ea & Eq & Eperm & En).
  exists d'. eexists. exists taken, queued. split_and!; try done.
  - apply write_bursts_good; done || lia.
  - rewrite write_bursts_beats by (done || lia). rewrite Z.sub_0_r.
    unfold buffer_writes, slice. rewrite drop_0.
    change (map beat_of) with (fmap beat_of : list _ -> list _). rewrite fmap_imap.
    apply imap_ext. intros i v _. simpl. unfold word_write, dst_word. simpl.
    by rewrite Z.add_0_r.
Qed.

(** C31. The controller counts the bursts it queued, not the ones it sent. With
    [q] of them queued, [q] responses end the transfer and set DONE, even
    when more bursts are outstanding because the first was taken at once;
    and with none queued no number of responses ever sets DONE. *)
Theorem dma_done_counts_queued d n : active d ->
  totalWords (d_track d) <= wordsTransferred (d_track d) -> done (d_regs d) = false ->
  let q := pendingBusWriteResponses (d_track d) in
  (1 <= q -> Z.of_nat n = q ->
   exists d', run_all (replicate n handleWriteCompletion) d = Ok (d', [])
     /\ done (d_regs d') = true /\ enabled (d_regs d') = false
     /\ currentState (d_track d') = IDLE) /\
  (q <= 0 \/ Z.of_nat n < q ->
   exists d', run_all (replicate n handleWriteCompletion) d = Ok (d', [])
     /\ done (d_regs d') = false /\ enabled (d_regs d') = enabled (d_regs d)).
Proof.
  intros Ha Ht Hd q. split.
  - intros Hq Hn. destruct n as [|n]; [lia|].
    replace (S n) with (n + 1)%nat by lia. rewrite replicate_add, run_all_app.
    rewrite completions_wait by (fold q; lia). simpl replicate. rewrite run_all_cons.
    rewrite last_completion.
    + cbn [d_track set_track totalWords wordsTransferred set_pendingW].
      rewrite (proj2 (Z.leb_le _ _)) by done. eexists. split; [reflexivity|]. done.
    + destruct Ha. by split.
    + simpl. fold q. lia.
  - intros Hq. rewrite completions_wait by done. eexists. split; [reflexivity|]. done.
Qed.

(** C39. The register interface: writing one of the address and size registers
    and then reading it returns the value written, leaves the other
    registers and the transfer alone, and both accesses are answered, each
    with the id of its request in the payload. *)
Theorem dma_mmio_roundtrip d (w : XBarMemWriteReqPayload) (r : XBarMemReadReqPayload) :
  (Z.land (wq_addr w) 0x3F = 0x4 \/ Z.land (wq_addr w) 0x3F = 0x8 \/
   Z.land (wq_addr w) 0x3F = 0xC) ->
  Z.land (rq_addr r) 0x3F = Z.land (wq_addr w) 0x3F ->
  programmed_by (wq_caller w) = true -> programmed_by (rq_caller r) = true ->
  exists d' k1 k2, run_all [writeMMIO w; readMMIO r] d = Ok (d', [])
    /\ resp_Q d' = resp_Q d ++ [WriteResp k1; ReadResp k2]
    /\ pk_payloads k1 = [WriteRespPayload (wq_tid w) (wq_i w)]
    /\ pk_payloads k2 = [ReadRespPayload (rq_tid r) (rq_i r) (rq_op r) (wq_data w) (rq_a1 r)]
    /\ pk_dst k2 = getIndex (rq_caller r)
    /\ d_track d' = d_track d /\ d_geo d' = d_geo d
    /\ enabled (d_regs d') = enabled (d_regs d) /\ done (d_regs d') = done (d_regs d)
    /\ m_req d' = m_req d /\ req_Q d' = req_Q d.
Proof.
  intros Ha Er Hw Hr. unfold run_all, writeMMIO, readMMIO. rewrite Er.
  destruct Ha as [Ha|[Ha|Ha]]; rewrite Ha; step_monad; rewrite Hw; simpl; rewrite Hr; simpl;
    (eexists _, _, _; split; [reflexivity|]);
    (split; [simpl; rewrite <- app_assoc; reflexivity|]); done.
Qed.

(** Only the processor and the systolic array may program the controller:
    an access from any other caller ends with the assertion, whatever the
    register. *)
Theorem dma_mmio_callers d (w : XBarMemWriteReqPayload) :
  Z.land (wq_addr w) 0x3F <> 0 -> programmed_by (wq_caller w) = false ->
  exists f, outcome (writeMMIO w) d = Err f /\
    (f = AssertFailed "Should only be programmed by Systolic array or CPU" \/
     f = ErrorLogged "Invalid MMIO write address!").
Proof.
  intros Ha Hw. unfold writeMMIO, log_error. rewrite (proj2 (Z.eqb_neq _ _)) by done.
  repeat case_if; step_monad; rewrite ?Hw; simpl; try (eexists; split; [done|]; by left).
  destruct error_halts; simpl; rewrite ?Hw; simpl; eexists; (split; [done|]); auto.
Qed.
End Dma_properties.

(** * Witnesses *)

#[local] Existing Instance printing_framework.

(** Two rows of 7 bytes, source stride 8, destination stride 12. *)
Definition w_cfg : Z := 0x080C0601.
Definition w_geo : dma_geometry := decode_geometry w_cfg.
Definition w_bytes : mem := map Z.of_nat (seq 0 40).
Definition w_idle : @DMAController SlotRegister :=
  @MkDMA SlotRegister (DmaRegs true false 0 16 w_cfg) (DmaGeometry 0 0 0 0 0)
    (DmaTracking 0 0 0 0 0 0 (replicate 256 0) IDLE) [] [] empty_slot empty_slot 3.
(** The same, about to read its first round. *)
Definition w_round : @DMAController SlotRegister :=
  @MkDMA SlotRegister (DmaRegs true false 0 16 w_cfg) w_geo
    (DmaTracking 0 0 4 0 0 0 (replicate 256 0) READING) [] [] empty_slot empty_slot 3.
(** The same, with its four words in the buffer. *)
Definition w_full : @DMAController SlotRegister :=
  @MkDMA SlotRegister (DmaRegs true false 0 16 w_cfg) w_geo
    (DmaTracking 4 0 4 4 0 0 (11 :: 22 :: 33 :: 44 :: replicate 252 0) WRITING) [] []
    empty_slot empty_slot 3.
(** The same, after its writes: one burst is queued. *)
Definition w_written : @DMAController SlotRegister :=
  @MkDMA SlotRegister (DmaRegs true false 0 16 w_cfg) w_geo
    (DmaTracking 4 4 4 4 0 1 (11 :: 22 :: 33 :: 44 :: replicate 252 0) WRITING) [] []
    empty_slot empty_slot 4.

Lemma w_geo_wf : wf_geometry w_geo.
Proof. apply decode_geometry_wf. Qed.

Lemma w_bytes_wf : wf_mem w_bytes.
Proof.
  unfold wf_mem, w_bytes. apply Forall_map, Forall_forall. intros x Hx%elem_of_seq.
  unfold is_u. simpl. lia.
Qed.

Lemma w_round_start : round_start w_round.
Proof.
  split; [|done|done]. split; [|done|done].
  split; [apply w_geo_wf|done|done|simpl; unfold BUFFER_CAPACITY; lia|done].
Qed.

Lemma w_round_tile : tile_ok w_round w_bytes.
Proof.
  unfold tile_ok, fits, rows_apart. split; [apply w_bytes_wf|].
  vm_compute. intuition (discriminate || auto).
Qed.

Lemma dma_transfer_copies_witness :
  exists (d0 d' : @DMAController SlotRegister) m',
    outcome initialized_transaction w_idle = outcome scheduleReadsForBuffer d0
    /\ transfer d0 w_bytes d' m' /\ load m' LW 32 = Ok 0x0F0E0D0C.
Proof.
  destruct (dma_transfer_copies w_idle w_bytes) as (d0 & E & (d' & m' & Ht) & Hall).
  - reflexivity.
  - reflexivity.
  - reflexivity.
  - apply w_bytes_wf.
  - vm_compute. discriminate.
  - vm_compute. intuition discriminate.
  - vm_compute. intuition discriminate.
  - right. vm_compute. discriminate.
  - change (decode_geometry (dmaSizeCfg (d_regs w_idle))) with (DmaGeometry 7 2 8 12 14).
    change (words_per_row (DmaGeometry 7 2 8 12 14)) with 2. unfold disjoint_words.
    simpl. lia.
  - exists d0, d', m'. split; [exact E|]. split; [exact Ht|].
    exact (proj1 (Hall d' m' Ht) 1 1 ltac:(vm_compute; intuition discriminate)).
Defined.

Lemma dma_read_phase_fills_witness :
  exists d', read_phase w_bytes w_round d' /\ bufferIndex (d_track d') = 4
    /\ exists v, bufferMemory (d_track d') !! 3%nat = Some v /\ load w_bytes LW 12 = Ok v.
Proof.
  destruct (dma_read_phase_fills w_round w_bytes w_round_start w_round_tile) as [[d' Hp] Hall].
  exists d'. destruct (Hall d' Hp) as [Hi Hj]. split; [exact Hp|]. split; [exact Hi|].
  exact (Hj 3 ltac:(vm_compute; intuition discriminate)).
Defined.

Lemma w_full_active : active w_full.
Proof. split; [apply w_geo_wf|done|done|simpl; unfold BUFFER_CAPACITY; lia|done]. Qed.

Lemma w_written_active : active w_written.
Proof. split; [apply w_geo_wf|done|done|simpl; unfold BUFFER_CAPACITY; lia|done]. Qed.

Lemma dma_write_bursts_witness :
  exists d' bursts, outcome scheduleWritesFromBuffer w_full = Ok (d', [])
    /\ Forall good_burst bursts
    /\ map beat_of (concat (map pk_payloads bursts)) =
       [(SW, 16, 11); (SW, 20, 22); (SW, 28, 33); (SW, 32, 44)].
Proof.
  destruct (dma_write_bursts w_full w_full_active) as
    (d' & bursts & taken & queued & E & _ & _ & _ & _ & Hg & Hb & _);
    [vm_compute; discriminate|vm_compute; discriminate|].
  exists d', bursts. split; [exact E|]. split; [exact Hg|]. rewrite Hb. vm_compute. reflexivity.
Defined.

Lemma dma_done_counts_queued_witness :
  exists d', run_all (replicate 1 handleWriteCompletion) w_written = Ok (d', [])
    /\ done (d_regs d') = true.
Proof.
  destruct (dma_done_counts_queued w_written 1 w_written_active) as [Hdone _];
    [vm_compute; discriminate|reflexivity|].
  destruct Hdone as (d' & E & Hd & _); [vm_compute; discriminate|reflexivity|].
  exists d'. split; [exact E|exact Hd].
Defined.

Definition mmio_write (addr data : Z) (caller : string) : XBarMemWriteReqPayload :=
  WriteReqPayload caller 9 auto_instr SW addr data.
Definition mmio_read (addr : Z) (caller : string) : XBarMemReadReqPayload :=
  ReadReqPayload caller 10 auto_instr LW addr auto_operand.

Lemma dma_mmio_roundtrip_witness :
  exists d' k1 k2,
    run_all [writeMMIO (mmio_write 0xF008 77 "cpu"); readMMIO (mmio_read 0xF008 "sa")] w_idle
      = Ok (d', [])
    /\ resp_Q d' = [WriteResp k1; ReadResp k2] /\ map rr_data (pk_payloads k2) = [77].
Proof.
  destruct (dma_mmio_roundtrip w_idle (mmio_write 0xF008 77 "cpu") (mmio_read 0xF008 "sa"))
    as (d' & k1 & k2 & E & Eq & _ & Ep & _); [by right; left|done..|].
  exists d', k1, k2. split; [exact E|]. split; [exact Eq|]. by rewrite Ep.
Defined.

Lemma dma_mmio_callers_witness :
  exists f, outcome (writeMMIO (mmio_write 0xF008 77 "dm")) w_idle = Err f.
Proof.
  destruct (dma_mmio_callers w_idle (mmio_write 0xF008 77 "dm")) as (f & E & _);
    [vm_compute; discriminate|reflexivity|].
  exists f. exact E.
Defined.
