(* ===== verification/Grid.v ===== *)
(** Two-dimensional C++ arrays with checked indices, the nested loops over
    them, and what a loop that updates a block of cells leaves. *)
From S2P Require Import Prelude Machine.
Local Open Scope Z_scope.

(** Two-dimensional arrays; an index outside of one is undefined. *)
Abbreviation grid A := (list (list A)).

Definition gget {A} (i j : nat) (g : grid A) : result A :=
  from_opt (Undefined "array index") (row ← g !! i; row !! j).
Definition gset {A} (i j : nat) (v : A) (g : grid A) : result (grid A) :=
  match g !! i with
  | Some row =>
      if (j <? length row)%nat then Ok (<[i := <[j := v]> row]> g)
      else Err (Undefined "array index")
  | None => Err (Undefined "array index")
  end.
Definition galter {A} (i j : nat) (f : A -> A) (g : grid A) : result (grid A) :=
  v ← gget i j g; gset i j (f v) g.

(** [for i in is, for j in js] *)
Definition for_ij {S} (ns ms : list nat) (body : S -> nat -> nat -> result S) (s : S) : result S :=
  foldR (fun s i => foldR (fun s j => body s i j) s ms) s ns.

Definition upto (n : nat) : list nat := seq 0 n.
Definition downto (n : nat) : list nat := rev (seq 0 n).

(** Cell [(i, j)], for statements about a grid of numbers. *)
Definition entry (T : grid Z) (i j : nat) : Z := nth j (nth i T []) 0.

(** * Lemmas *)

Definition shape {A} (n m : nat) (g : grid A) : Prop :=
  length g = n /\ Forall (fun row => length row = m) g.

Definition gupd {A} (i j : nat) (f : A -> A) (g : list (list A)) : list (list A) :=
  alter (alter f j) i g.

Lemma gupd_shape {A} n m i j (f : A -> A) g : shape n m g -> shape n m (gupd i j f g).
Proof.
  intros [Hn Hm]. unfold gupd. split; [by rewrite length_alter|].
  apply Forall_alter; [done|]. intros row _ Hr. simpl. by rewrite length_alter.
Qed.

Lemma shape_row {A} n m (g : grid A) i : shape n m g -> (i < n)%nat ->
  exists row, g !! i = Some row /\ length row = m.
Proof.
  intros [Hn Hm] Hi. destruct (lookup_lt_is_Some_2 g i) as [row Hr]; [lia|].
  exists row. split; [done|]. by apply (Forall_lookup_1 _ _ _ _ Hm Hr).
Qed.

Lemma shape_replicate {A} n m (x : A) : shape n m (replicate n (replicate m x)).
Proof.
  split; [apply length_replicate|]. apply Forall_replicate, length_replicate.
Qed.

Lemma gget_ok n m (g : grid Z) i j : shape n m g -> (i < n)%nat -> (j < m)%nat ->
  gget i j g = Ok (entry g i j).
Proof.
  intros Hs Hi Hj. destruct (shape_row n m g i Hs Hi) as (row & Hr & Hl).
  destruct (lookup_lt_is_Some_2 row j) as [v Hv]; [lia|].
  unfold gget, entry. rewrite Hr. simpl. rewrite Hv. simpl.
  rewrite (nth_lookup_Some g i [] row Hr), (nth_lookup_Some row j 0 v Hv). done.
Qed.

Lemma galter_ok {A} n m (g : grid A) i j f : shape n m g -> (i < n)%nat -> (j < m)%nat ->
  galter i j f g = Ok (gupd i j f g).
Proof.
  intros Hs Hi Hj. destruct (shape_row n m g i Hs Hi) as (row & Hr & Hl).
  destruct (lookup_lt_is_Some_2 row j) as [v Hv]; [lia|].
  unfold galter, gget, gset, gupd. rewrite Hr. simpl. rewrite Hv. simpl.
  rewrite (proj2 (Nat.ltb_lt _ _)) by lia. f_equal. apply list_eq. intros k.
  destruct (decide (k = i)) as [->|Hne].
  - rewrite list_lookup_insert_eq by (apply lookup_lt_Some in Hr; lia).
    rewrite list_lookup_alter_eq, Hr. simpl. f_equal.
    symmetry. apply list_eq. intros k'. destruct (decide (k' = j)) as [->|Hne'].
    + rewrite list_lookup_alter_eq, list_lookup_insert_eq by lia. by rewrite Hv.
    + by rewrite list_lookup_alter_ne, list_lookup_insert_ne.
  - by rewrite list_lookup_alter_ne, list_lookup_insert_ne.
Qed.

Lemma gset_ok {A} n m (g : grid A) i j v : shape n m g -> (i < n)%nat -> (j < m)%nat ->
  gset i j v g = Ok (gupd i j (fun _ => v) g).
Proof.
  intros Hs Hi Hj. rewrite <- (galter_ok n m) by done. unfold galter.
  destruct (shape_row n m g i Hs Hi) as (row & Hr & Hl).
  destruct (lookup_lt_is_Some_2 row j) as [w Hw]; [lia|].
  unfold gget. rewrite Hr. simpl. by rewrite Hw.
Qed.

Lemma entry_gupd n m g i j f i' j' : shape n m g -> (i < n)%nat -> (j < m)%nat ->
  entry (gupd i j f g) i' j' =
  if decide (i' = i /\ j' = j) then f (entry g i' j') else entry g i' j'.
Proof.
  intros Hs Hi Hj. destruct (shape_row n m g i Hs Hi) as (row & Hr & Hl).
  destruct (lookup_lt_is_Some_2 row j) as [v Hv]; [lia|].
  unfold entry, gupd. destruct (decide (i' = i)) as [->|Hne].
  - rewrite (nth_lookup_Some _ i [] (alter f j row))
      by (by rewrite list_lookup_alter_eq, Hr).
    rewrite (nth_lookup_Some g i [] row Hr).
    destruct (decide (j' = j)) as [->|Hne'].
    + rewrite decide_True by done.
      rewrite (nth_lookup_Some _ j 0 (f v)) by (by rewrite list_lookup_alter_eq, Hv).
      by rewrite (nth_lookup_Some row j 0 v Hv).
    + rewrite decide_False by naive_solver.
      by rewrite !nth_lookup, list_lookup_alter_ne.
  - rewrite decide_False by naive_solver.
    by rewrite !(nth_lookup _ i'), list_lookup_alter_ne.
Qed.

(** A loop over the columns [b], [b + 1], ... of row [i]. *)
Lemma for_row n m (F : nat -> Z -> Z) (body : grid Z -> nat -> result (grid Z)) i c b l g :
  shape n m g -> (i < n)%nat -> (c + b + l <= m)%nat ->
  (forall g j, shape n m g -> (b <= j < b + l)%nat ->
     body g j = Ok (gupd i (c + j) (F j) g)) ->
  exists g', foldR body g (seq b l) = Ok g' /\ shape n m g'
    /\ forall i' j', entry g' i' j' =
         if decide (i' = i /\ c + b <= j' < c + b + l)%nat
         then F (j' - c)%nat (entry g i' j') else entry g i' j'.
Proof.
  revert b g. induction l as [|l IH]; intros b g Hs Hi Hl Hb.
  - exists g. split_and!; [done..|]. intros i' j'. by rewrite decide_False by lia.
  - simpl. rewrite Hb by (done || lia). simpl.
    destruct (IH (S b) (gupd i (c + b) (F b) g)) as (g' & E & Hs' & He);
      [by apply gupd_shape|done|lia|intros; apply Hb; done || lia|].
    exists g'. split_and!; [done..|]. intros i' j'. rewrite He.
    rewrite (entry_gupd n m) by (done || lia).
    destruct (decide (i' = i /\ j' = c + b)%nat) as [[-> ->]|Hne].
    + rewrite (decide_False (P := i = i /\ c + S b <= _ < _)%nat) by lia.
      rewrite decide_True by lia. f_equal. lia.
    + destruct (decide (i' = i /\ c + S b <= j' < c + S b + l)%nat).
      * by rewrite decide_True by lia.
      * by rewrite decide_False by lia.
Qed.

(** The nested loops over a block: cell [(r + i, c + j)] is updated by
    [F i j]. *)
Lemma for_block n m (F : nat -> nat -> Z -> Z)
    (body : grid Z -> nat -> nat -> result (grid Z)) r c a k b l g :
  shape n m g -> (r + a + k <= n)%nat -> (c + b + l <= m)%nat ->
  (forall g i j, shape n m g -> (a <= i < a + k)%nat -> (b <= j < b + l)%nat ->
     body g i j = Ok (gupd (r + i) (c + j) (F i j) g)) ->
  exists g', for_ij (seq a k) (seq b l) body g = Ok g' /\ shape n m g'
    /\ forall i' j', entry g' i' j' =
         if decide (r + a <= i' < r + a + k /\ c + b <= j' < c + b + l)%nat
         then F (i' - r)%nat (j' - c)%nat (entry g i' j') else entry g i' j'.
Proof.
  unfold for_ij. revert a g. induction k as [|k IH]; intros a g Hs Hk Hl Hb.
  - exists g. split_and!; [done..|]. intros i' j'. by rewrite decide_False by lia.
  - simpl. destruct (for_row n m (F a) (fun s j => body s a j) (r + a) c b l g)
      as (g1 & E1 & Hs1 & He1); [done|lia|lia|intros; apply Hb; done || lia|].
    rewrite E1. simpl.
    destruct (IH (S a) g1) as (g' & E & Hs' & He); [done|lia|lia|intros; apply Hb; done || lia|].
    exists g'. split_and!; [done..|]. intros i' j'. rewrite He, He1.
    destruct (decide (i' = r + a /\ c + b <= j' < c + b + l)%nat) as [[-> Hj]|Hne].
    + rewrite decide_False by lia. rewrite decide_True by lia. f_equal. lia.
    + destruct (decide (r + S a <= i' < r + S a + k /\ c + b <= j' < c + b + l)%nat).
      * by rewrite decide_True by lia.
      * by rewrite decide_False by lia.
Qed.
