(* ===== verification/SystolicPE.v ===== *)
(** The grid of processing elements of the systolic array
    ([soc/include/SystolicArray.hh], [soc/libs/SystolicArray.cc]): weights are
    shifted in from the top, the rows of the A tile enter skewed from the
    left, partial sums flow down, and results leave at the bottom. *)
From S2P Require Import Prelude Machine Grid.
Local Open Scope Z_scope.

(** * Data *)

Definition SASIZE : nat := 2.

Record Valid8 : Type := V8 { v8_valid : bool; v8_data : Z }.
Record Valid16 : Type := V16 { v16_valid : bool; v16_sum : Z }.

Record PE : Type := MkPE {
  weightReg : Valid8;
  inReg : Valid8;
  fwdIn : Valid8;
  psumReg : Valid16;
  fwdPsum : Valid16;
}.

Definition set_weight (v : Valid8) (p : PE) : PE :=
  MkPE v (inReg p) (fwdIn p) (psumReg p) (fwdPsum p).
Definition set_inReg (v : Valid8) (p : PE) : PE :=
  MkPE (weightReg p) v (fwdIn p) (psumReg p) (fwdPsum p).
Definition set_psum (v : Valid16) (p : PE) : PE :=
  MkPE (weightReg p) (inReg p) (fwdIn p) v (fwdPsum p).
Definition forward (p : PE) : PE :=
  MkPE (weightReg p) (inReg p) (inReg p) (psumReg p) (psumReg p).
(** The bubble that an emitted result leaves. *)
Definition bubble (p : PE) : PE :=
  MkPE (weightReg p) (inReg p) (fwdIn p) (V16 false (v16_sum (psumReg p)))
    (V16 false (v16_sum (fwdPsum p))).

(** What the lambda events of a tile share. *)
Record tile_job : Type := TileJob {
  j_pe : grid PE;
  j_result : grid Z;
  j_emitRow : list nat;
}.

Definition new_PE : PE :=
  MkPE (V8 false 0) (V8 false 0) (V8 false 0) (V16 false 0) (V16 false 0).

Definition Construct_PE (n : nat) : grid PE := replicate n (replicate n new_PE).

(** * One cycle *)

Definition Preload_Weight (B_Tile : grid Z) (cycle_cnt : nat) (pe : grid PE)
    : result (grid PE) :=
  pe ← for_ij (rev (seq 1 (SASIZE - 1))) (upto SASIZE) (fun pe i j =>
    above ← gget (i - 1) j pe;
    galter i j (set_weight (weightReg above)) pe) pe;
  foldR (fun pe j =>
    b ← gget (SASIZE - 1 - cycle_cnt) j B_Tile;
    galter 0 j (set_weight (V8 true b)) pe) pe (upto SASIZE).

(** Step 1 of [PropagateA_And_MAC]: shift right, or inject a value of A. *)
Definition inject (A_Tile : grid Z) (cycle : nat) (pe : grid PE) : result (grid PE) :=
  for_ij (upto SASIZE) (downto SASIZE) (fun pe i j =>
    match j with
    | O =>
        let valid := (i <=? cycle)%nat && (cycle - i <? SASIZE)%nat in
        data ← (if valid then gget (cycle - i) i A_Tile else Ok 0);
        galter i 0 (set_inReg (V8 valid data)) pe
    | S j' =>
        left ← gget i j' pe; galter i j (set_inReg (fwdIn left)) pe
    end) pe.

(** Step 1 of [FlushAndEmit]. Column 0 reads [pe[i][-1]], outside of the
    vector: [junk] is what the read yields. *)
Definition shift (junk : nat -> Valid8) (pe : grid PE) : result (grid PE) :=
  for_ij (upto SASIZE) (downto SASIZE) (fun pe i j =>
    match j with
    | O => galter i 0 (set_inReg (junk i)) pe
    | S j' => left ← gget i j' pe; galter i j (set_inReg (fwdIn left)) pe
    end) pe.

(** The multiply-accumulate of one element; [prev] is the sum from above. *)
Definition mac_pe (prev : Z) (p : PE) : PE :=
  if v8_valid (weightReg p) && v8_valid (inReg p) then
    let prod := u16 (v8_data (inReg p) * v8_data (weightReg p)) in
    set_psum (V16 true (u16 (prev + prod))) p
  else set_psum (V16 false (v16_sum (psumReg p))) p.

Definition mac (pe : grid PE) : result (grid PE) :=
  for_ij (downto SASIZE) (upto SASIZE) (fun pe i j =>
    prev ← match i with
           | O => Ok 0
           | S i' =>
               above ← gget i' j pe;
               Ok (if v16_valid (fwdPsum above) then v16_sum (fwdPsum above) else 0)
           end;
    galter i j (mac_pe prev) pe) pe.

Definition forward_all (pe : grid PE) : result (grid PE) :=
  for_ij (downto SASIZE) (upto SASIZE) (fun pe i j => galter i j forward pe) pe.

(** The bottom row hands its valid sums to the result, column by column. *)
Definition emit_row (job : tile_job) : result tile_job :=
  foldR (fun job j =>
    bot ← gget (SASIZE - 1) j (j_pe job);
    row ← from_opt (Undefined "emitRow") (j_emitRow job !! j);
    if v16_valid (psumReg bot) && (row <? SASIZE)%nat then
      res ← gset row j (v16_sum (psumReg bot)) (j_result job);
      pe ← galter (SASIZE - 1) j bubble (j_pe job);
      Ok (TileJob pe res (<[j := S row]> (j_emitRow job)))
    else Ok job) job (upto SASIZE).

Definition mac_forward_emit (job : tile_job) : result tile_job :=
  pe ← mac (j_pe job);
  pe ← forward_all pe;
  emit_row (TileJob pe (j_result job) (j_emitRow job)).

Definition PropagateA_And_MAC (A_Tile : grid Z) (cycle : nat) (job : tile_job)
    : result tile_job :=
  pe ← inject A_Tile cycle (j_pe job);
  mac_forward_emit (TileJob pe (j_result job) (j_emitRow job)).

(** All of [FlushAndEmit] but its last statement, which copies the result to
    the tile in the last cycle. *)
Definition FlushAndEmit (junk : nat -> Valid8) (job : tile_job) : result tile_job :=
  pe ← shift junk (j_pe job);
  mac_forward_emit (TileJob pe (j_result job) (j_emitRow job)).

(** * A tile *)

Definition new_job : tile_job :=
  TileJob (Construct_PE SASIZE) (replicate SASIZE (replicate SASIZE 0)) (replicate SASIZE 0%nat).

(** The cycles that [ComputeTile] schedules, in the order of their ticks. *)
Inductive tile_cycle : Type :=
  | CyPreload (c : nat)
  | CyPropagate (c : nat)
  | CyFlush (c : nat).

Definition tile_cycles : list tile_cycle :=
  map CyPreload (upto SASIZE) ++ map CyPropagate (upto (2 * SASIZE - 1))
  ++ map CyFlush (upto SASIZE).

Definition run_cycle (junk : nat -> nat -> Valid8) (A_Tile B_Tile : grid Z)
    (job : tile_job) (c : tile_cycle) : result tile_job :=
  match c with
  | CyPreload c =>
      pe ← Preload_Weight B_Tile c (j_pe job);
      Ok (TileJob pe (j_result job) (j_emitRow job))
  | CyPropagate c => PropagateA_And_MAC A_Tile c job
  | CyFlush c => FlushAndEmit (junk c) job
  end.

Definition run_tile (junk : nat -> nat -> Valid8) (A_Tile B_Tile : grid Z) : result (grid Z) :=
  job ← foldR (run_cycle junk A_Tile B_Tile) new_job tile_cycles;
  Ok (j_result job).

(** * The product of two tiles *)

(** A tile has the array's size. *)
Definition is_tile (T : grid Z) : Prop := shape SASIZE SASIZE T.

(** Entry [(i, j)] of the product, on 16 bits. *)
Definition tile_dot (A B : grid Z) (i j : nat) : Z :=
  u16 (foldl Z.add 0 (map (fun k => entry A i k * entry B k j) (upto SASIZE))).

Definition tile_product (A B : grid Z) : grid Z :=
  map (fun i => map (fun j => tile_dot A B i j) (upto SASIZE)) (upto SASIZE).

Lemma tile_dot2 A B i j :
  tile_dot A B i j = u16 (u16 (0 + u16 (entry A i 0 * entry B 0 j)) + u16 (entry A i 1 * entry B 1 j)).
Proof.
  unfold tile_dot. cbn [upto SASIZE seq map foldl].
  by rewrite !Z.add_0_l, uint_uint, uint_add_l, uint_add_r.
Qed.

Lemma run_tile_ok (junk : nat -> nat -> Valid8) A B :
  is_tile A -> is_tile B -> run_tile junk A B = Ok (tile_product A B).
Proof.
  intros [HA FA] [HB FB].
  destruct A as [|ra0 [|ra1 [|]]]; try discriminate HA.
  destruct B as [|rb0 [|rb1 [|]]]; try discriminate HB.
  apply Forall_cons in FA as [LA0 FA]. apply Forall_cons in FA as [LA1 _].
  apply Forall_cons in FB as [LB0 FB]. apply Forall_cons in FB as [LB1 _].
  destruct ra0 as [|a00 [|a01 [|]]]; try discriminate LA0.
  destruct ra1 as [|a10 [|a11 [|]]]; try discriminate LA1.
  destruct rb0 as [|b00 [|b01 [|]]]; try discriminate LB0.
  destruct rb1 as [|b10 [|b11 [|]]]; try discriminate LB1.
  unfold tile_product. cbn [upto SASIZE seq map]. rewrite !tile_dot2. cbn [entry nth].
  destruct (junk 0%nat 0%nat) as [v00 d00] eqn:E00. destruct (junk 0%nat 1%nat) as [v01 d01] eqn:E01.
  destruct (junk 1%nat 0%nat) as [v10 d10] eqn:E10. destruct (junk 1%nat 1%nat) as [v11 d11] eqn:E11.
  lazy -[uint Z.add Z.mul]. rewrite ?E00, ?E01, ?E10, ?E11.
  destruct v00, v01, v10, v11; lazy -[uint Z.add Z.mul]; reflexivity.
Qed.

(** C18. The schedule of a tile computes the product of the two tiles modulo
    2^16, whatever the flush cycles read outside of the grid. *)
Theorem run_tile_product (junk : nat -> nat -> Valid8) A B :
  is_tile A -> is_tile B -> run_tile junk A B = Ok (tile_product A B).
Proof. apply run_tile_ok. Qed.

Lemma run_tile_product_witness :
  run_tile (fun c i => V8 true (Z.of_nat (c + i + 9))) [[200; 3]; [7; 255]] [[255; 1]; [2; 254]]
  = Ok (tile_product [[200; 3]; [7; 255]] [[255; 1]; [2; 254]]).
Proof.
  apply (run_tile_product (fun c i => V8 true (Z.of_nat (c + i + 9))));
    repeat constructor.
Defined.
