(* ===== verification/Systolic.v ===== *)
(** The systolic array ([soc/include/SystolicArray.hh],
    [soc/libs/SystolicArray.cc]): memory-mapped registers, an on-chip SRAM
    that serves bursts, the programming of the DMA controller that loads the
    operands, and the tiled matrix product. *)
From S2P Require Import Prelude Machine DataStruct Memory Bus DataMemory Grid SystolicPE.
Local Open Scope Z_scope.

(** * State *)

Definition SA_SRAM_SIZE : Z := 8000.
(** The SRAM in bytes: [SA_SRAM_SIZE * sizeof(uint32_t)]. *)
Definition memSize : Z := 32000.
(** The immediate that marks the answers to a poll. *)
Definition poll_mark : Z := 114154.

Inductive Phase : Type := READ_MAT_A | READ_MAT_B | COMPUTE.

Record sa_regs : Type := SaRegs {
  enabled_ : bool; done_ : bool;
  M_ : Z; K_ : Z; N_ : Z;
  A_addr_ : Z; B_addr_ : Z; C_addr_ : Z;
  A_addr_dm_ : Z; B_addr_dm_ : Z; C_addr_dm_ : Z;
  strideA_ : Z; strideB_ : Z; strideC_ : Z;
}.

Record TileTask : Type := MkTask {
  rowBlk : nat; colBlk : nat; tileRows : nat; tileCols : nat; kBlk : nat; kCols : nat;
}.

Record sa_compute : Type := SaCompute {
  A_matrix : grid Z; B_matrix : grid Z; C_matrix : grid Z;
  tileQ : list TileTask;
  Tile_Result : grid Z; A_Tile : grid Z; B_Tile : grid Z;
  TileFinish : bool;
  current_tile : TileTask;
}.

(** The expected and the read sizes of the matrices. *)
Record sa_sizes : Type := SaSizes {
  expected_MatA_size : Z; expected_MatB_size : Z; read_MatA_size : Z; read_MatB_size : Z;
}.

(** The lambda events of the device; the ones of a tile share the job they
    were created with. *)
Inductive sa_event : Type :=
  | EvSramRead (p : XBarMemReadReqPayload)
  | EvSramWrite (p : XBarMemWriteReqPayload)
  | EvReadMMIO (p : XBarMemReadReqPayload)
  | EvWriteMMIO (p : XBarMemWriteReqPayload)
  | EvPoll
  | EvCycle (job : nat) (c : tile_cycle)
  | EvTileDone.

(** * Matrices *)

(** [sram_[idx]] for an array of 8000 words. *)
Definition sram_word (sram : mem) (idx : Z) : result Z :=
  if (0 <=? idx) && (idx <? SA_SRAM_SIZE)
  then Ok (le_value (slice (Z.to_nat (4 * idx)) 4 sram))
  else Err (Undefined "sram_").

(** The loops that unpack a matrix from the SRAM, four elements a word. *)
Definition load_matrix (sram : mem) (addr stride : Z) (m : grid Z) : result (grid Z) :=
  let ns := seq 0 (Z.to_nat stride) in
  for_ij ns ns (fun m i j =>
    let word_idx := u32 (addr / 4 + Z.of_nat i * ((stride + 3) / 4) + Z.of_nat j / 4) in
    word ← sram_word sram word_idx;
    let value := Z.land (Z.shiftr word ((Z.of_nat j mod 4) * 8)) 0xFF in
    gset i j value m) m.

(** A block of a matrix copied to a tile, zero-padded. *)
Definition load_tile (src : grid Z) (row0 col0 rows cols : nat) (tile : grid Z)
    : result (grid Z) :=
  tile ← for_ij (seq 0 rows) (seq 0 cols) (fun t i j =>
    v ← gget (row0 + i) (col0 + j) src; gset i j v t) tile;
  tile ← for_ij (seq 0 rows) (seq cols (SASIZE - cols)) (fun t i j => gset i j 0 t) tile;
  for_ij (seq rows (SASIZE - rows)) (seq 0 SASIZE) (fun t i j => gset i j 0 t) tile.

Definition LoadATile (k : sa_compute) (row kblk rows kcols : nat) : result (grid Z) :=
  load_tile (A_matrix k) row kblk rows kcols (A_Tile k).
Definition LoadBTile (k : sa_compute) (kblk col kcols cols : nat) : result (grid Z) :=
  load_tile (B_matrix k) kblk col kcols cols (B_Tile k).

(** [for (x = 0; x < n; x += SASIZE)] *)
Definition block_starts (n : Z) : list nat :=
  map (fun b => (SASIZE * b)%nat) (seq 0 ((Z.to_nat n + SASIZE - 1) / SASIZE)).

(** The tasks that [ComputeMatrix] queues. *)
Definition matrix_tasks (strideA strideB : Z) : list TileTask :=
  flat_map (fun r => flat_map (fun c => map (fun k =>
      MkTask r c (Nat.min SASIZE (Z.to_nat strideA - r)) (Nat.min SASIZE (Z.to_nat strideB - c))
        k (Nat.min SASIZE (Z.to_nat strideB - k)))
    (block_starts strideB)) (block_starts strideB)) (block_starts strideA).

(** [C_matrix[row + i][col + j] += Tile_Result[i][j]] *)
Definition deposit (t : TileTask) (res c : grid Z) : result (grid Z) :=
  for_ij (seq 0 (tileRows t)) (seq 0 (tileCols t)) (fun c i j =>
    v ← gget i j res; galter (rowBlk t + i) (colBlk t + j) (fun x => u16 (x + v)) c) c.

Definition zero_matrix : grid Z := replicate 64 (replicate 64 0).
Definition zero_tile : grid Z := replicate SASIZE (replicate SASIZE 0).

(** The [size_cfg] word of the DMA for matrix A. The code is C++20, in which
    [stride << 24] on an [int] is defined, and wraps. *)
Definition size_cfg_A (r : sa_regs) : Z :=
  let TW := u8 (Z.land (sub32 (K_ r) 1) 0xFF) in
  let TH := u8 (Z.land (sub32 (M_ r) 1) 0xFF) in
  let stride := u8 (Z.land (strideA_ r) 0xFF) in
  Z.lor (Z.lor (Z.lor (u32 (Z.shiftl stride 24)) (Z.shiftl stride 16)) (Z.shiftl TW 8)) TH.

(** For matrix B: neither masked nor with the height of B. *)
Definition size_cfg_B (r : sa_regs) : Z :=
  let TW := sub32 (K_ r) 1 in
  let TH := sub32 (M_ r) 1 in
  let stride := u8 (Z.land (strideB_ r) 0xFF) in
  Z.lor (Z.lor (Z.lor (u32 (Z.shiftl stride 24)) (Z.shiftl stride 16)) (u32 (Z.shiftl TW 8))) TH.

Definition DMA_ENABLE : Z := 0xF000.
Definition DMA_SRC : Z := 0xF004.
Definition DMA_DST : Z := 0xF008.
Definition DMA_SIZE_CFG : Z := 0xF00C.
Definition DMA_DONE : Z := 0xF014.

Definition set_flags (e d : bool) (r : sa_regs) : sa_regs :=
  SaRegs e d (M_ r) (K_ r) (N_ r) (A_addr_ r) (B_addr_ r) (C_addr_ r) (A_addr_dm_ r)
    (B_addr_dm_ r) (C_addr_dm_ r) (strideA_ r) (strideB_ r) (strideC_ r).
Definition set_dims (m k n : Z) (r : sa_regs) : sa_regs :=
  SaRegs (enabled_ r) (done_ r) m k n (A_addr_ r) (B_addr_ r) (C_addr_ r) (A_addr_dm_ r)
    (B_addr_dm_ r) (C_addr_dm_ r) (strideA_ r) (strideB_ r) (strideC_ r).
Definition set_addrs (a b c : Z) (r : sa_regs) : sa_regs :=
  SaRegs (enabled_ r) (done_ r) (M_ r) (K_ r) (N_ r) a b c (A_addr_dm_ r)
    (B_addr_dm_ r) (C_addr_dm_ r) (strideA_ r) (strideB_ r) (strideC_ r).
Definition set_addrs_dm (a b c : Z) (r : sa_regs) : sa_regs :=
  SaRegs (enabled_ r) (done_ r) (M_ r) (K_ r) (N_ r) (A_addr_ r) (B_addr_ r) (C_addr_ r)
    a b c (strideA_ r) (strideB_ r) (strideC_ r).
Definition set_strides (a b c : Z) (r : sa_regs) : sa_regs :=
  SaRegs (enabled_ r) (done_ r) (M_ r) (K_ r) (N_ r) (A_addr_ r) (B_addr_ r) (C_addr_ r)
    (A_addr_dm_ r) (B_addr_dm_ r) (C_addr_dm_ r) a b c.

(** The register that an address reads; [None] is the [default] of the
    switch. *)
Definition reg_read (r : sa_regs) (addr : Z) : option Z :=
  if addr =? 0x0 then Some (if enabled_ r then 1 else 0)
  else if addr =? 0x4 then Some (if done_ r then 1 else 0)
  else if addr =? 0x8 then Some (Z.lor (u32 (Z.shiftl (M_ r) 16)) (K_ r))
  else if addr =? 0xC then Some (Z.lor (u32 (Z.shiftl (K_ r) 16)) (N_ r))
  else if addr =? 0x10 then Some (Z.lor (u32 (Z.shiftl (M_ r) 16)) (N_ r))
  else if addr =? 0x14 then Some (A_addr_ r)
  else if addr =? 0x18 then Some (B_addr_ r)
  else if addr =? 0x1C then Some (C_addr_ r)
  else if addr =? 0x20 then
    Some (Z.lor (Z.lor (Z.land (strideA_ r) 0xFF) (Z.shiftl (Z.land (strideB_ r) 0xFF) 8))
            (Z.shiftl (Z.land (strideC_ r) 0xFF) 16))
  else None.

(** What a write to one of the configuration registers leaves; address 0
    starts a transaction instead. *)
Definition reg_write (addr data : Z) (r : sa_regs) : option sa_regs :=
  let hi := Z.land (Z.shiftr data 16) 0xFFF + 1 in
  let lo := Z.land data 0xFFF + 1 in
  if addr =? 0x4 then Some (set_flags (enabled_ r) false r)
  else if addr =? 0x8 then Some (set_dims hi lo (N_ r) r)
  else if addr =? 0xC then Some (set_dims (M_ r) hi lo r)
  else if addr =? 0x10 then Some (set_dims hi (K_ r) lo r)
  else if addr =? 0x14 then Some (set_addrs data (B_addr_ r) (C_addr_ r) r)
  else if addr =? 0x18 then Some (set_addrs (A_addr_ r) data (C_addr_ r) r)
  else if addr =? 0x1C then Some (set_addrs (A_addr_ r) (B_addr_ r) data r)
  else if addr =? 0x20 then
    Some (set_strides (Z.land data 0xFF) (Z.land (Z.shiftr data 8) 0xFF)
            (Z.land (Z.shiftr data 16) 0xFF) r)
  else if addr =? 0x24 then Some (set_addrs_dm data (B_addr_dm_ r) (C_addr_dm_ r) r)
  else if addr =? 0x28 then Some (set_addrs_dm (A_addr_dm_ r) data (C_addr_dm_ r) r)
  else if addr =? 0x2C then Some (set_addrs_dm (A_addr_dm_ r) (B_addr_dm_ r) data r)
  else None.

Definition set_mats (a b c : grid Z) (k : sa_compute) : sa_compute :=
  SaCompute a b c (tileQ k) (Tile_Result k) (A_Tile k) (B_Tile k) (TileFinish k)
    (current_tile k).
Definition set_tileQ (q : list TileTask) (k : sa_compute) : sa_compute :=
  SaCompute (A_matrix k) (B_matrix k) (C_matrix k) q (Tile_Result k) (A_Tile k) (B_Tile k)
    (TileFinish k) (current_tile k).
Definition set_result (res : grid Z) (fin : bool) (k : sa_compute) : sa_compute :=
  SaCompute (A_matrix k) (B_matrix k) (C_matrix k) (tileQ k) res (A_Tile k) (B_Tile k)
    fin (current_tile k).
Definition set_tile (t : TileTask) (a b : grid Z) (k : sa_compute) : sa_compute :=
  SaCompute (A_matrix k) (B_matrix k) (C_matrix k) (tileQ k) (Tile_Result k) a b
    (TileFinish k) t.

(** The opcodes that the SRAM serves. *)
Definition sram_load_op (op : instr_type) : bool :=
  match op with LB | LBU | LH | LHU | LW => true | _ => false end.
Definition sram_store_op (op : instr_type) : bool :=
  match op with SB | SH | SW => true | _ => false end.

(** The ticks of the events of a tile created at tick [now]. *)
Definition tile_schedule (now : Z) (job : nat) : list (Z * sa_event) :=
  imap (fun k c => (now + 1 + Z.of_nat k, EvCycle job c)) tile_cycles
  ++ [(now + Z.of_nat (length tile_cycles) + 2, EvTileDone)].

(** * The device *)

Section Systolic_array.
Context `{Framework} `{PR : PipeRegister}.

(** What the flush cycles read outside of the grid, by job, cycle and row. *)
Context (junk : nat -> nat -> nat -> Valid8).

Record SystolicArray : Type := MkSA {
  sa_r : sa_regs;
  sa_k : sa_compute;
  sa_sz : sa_sizes;
  phase_ : Phase;
  sram_ : mem;
  pending_ : gmap Z BurstTracker;
  jobs : list tile_job;
  m_req_ : preg;
  m_resp_ : preg;
  req_Q_ : list packet;
  resp_Q_ : list packet;
  sa_ctr : Z;
}.

Definition set_r (f : sa_regs -> sa_regs) (d : SystolicArray) : SystolicArray :=
  MkSA (f (sa_r d)) (sa_k d) (sa_sz d) (phase_ d) (sram_ d) (pending_ d) (jobs d)
    (m_req_ d) (m_resp_ d) (req_Q_ d) (resp_Q_ d) (sa_ctr d).
Definition set_k (f : sa_compute -> sa_compute) (d : SystolicArray) : SystolicArray :=
  MkSA (sa_r d) (f (sa_k d)) (sa_sz d) (phase_ d) (sram_ d) (pending_ d) (jobs d)
    (m_req_ d) (m_resp_ d) (req_Q_ d) (resp_Q_ d) (sa_ctr d).
Definition set_sz (s : sa_sizes) (d : SystolicArray) : SystolicArray :=
  MkSA (sa_r d) (sa_k d) s (phase_ d) (sram_ d) (pending_ d) (jobs d)
    (m_req_ d) (m_resp_ d) (req_Q_ d) (resp_Q_ d) (sa_ctr d).
Definition set_phase (p : Phase) (d : SystolicArray) : SystolicArray :=
  MkSA (sa_r d) (sa_k d) (sa_sz d) p (sram_ d) (pending_ d) (jobs d)
    (m_req_ d) (m_resp_ d) (req_Q_ d) (resp_Q_ d) (sa_ctr d).
Definition set_sram (m : mem) (d : SystolicArray) : SystolicArray :=
  MkSA (sa_r d) (sa_k d) (sa_sz d) (phase_ d) m (pending_ d) (jobs d)
    (m_req_ d) (m_resp_ d) (req_Q_ d) (resp_Q_ d) (sa_ctr d).
Definition set_sapending (f : gmap Z BurstTracker -> gmap Z BurstTracker) (d : SystolicArray)
    : SystolicArray :=
  MkSA (sa_r d) (sa_k d) (sa_sz d) (phase_ d) (sram_ d) (f (pending_ d)) (jobs d)
    (m_req_ d) (m_resp_ d) (req_Q_ d) (resp_Q_ d) (sa_ctr d).
Definition set_jobs (js : list tile_job) (d : SystolicArray) : SystolicArray :=
  MkSA (sa_r d) (sa_k d) (sa_sz d) (phase_ d) (sram_ d) (pending_ d) js
    (m_req_ d) (m_resp_ d) (req_Q_ d) (resp_Q_ d) (sa_ctr d).
Definition set_out (r : preg) (q : list packet) (d : SystolicArray) : SystolicArray :=
  MkSA (sa_r d) (sa_k d) (sa_sz d) (phase_ d) (sram_ d) (pending_ d) (jobs d)
    r (m_resp_ d) q (resp_Q_ d) (sa_ctr d).
Definition set_answers (r : preg) (q : list packet) (d : SystolicArray) : SystolicArray :=
  MkSA (sa_r d) (sa_k d) (sa_sz d) (phase_ d) (sram_ d) (pending_ d) (jobs d)
    (m_req_ d) r (req_Q_ d) q (sa_ctr d).
Definition set_ctr (c : Z) (d : SystolicArray) : SystolicArray :=
  MkSA (sa_r d) (sa_k d) (sa_sz d) (phase_ d) (sram_ d) (pending_ d) (jobs d)
    (m_req_ d) (m_resp_ d) (req_Q_ d) (resp_Q_ d) c.

Definition push_req (p : packet) (d : SystolicArray) : SystolicArray :=
  set_out (m_req_ d) (req_Q_ d ++ [p]) d.
Definition push_resp (p : packet) (d : SystolicArray) : SystolicArray :=
  set_answers (m_resp_ d) (resp_Q_ d ++ [p]) d.

#[local] Abbreviation D := (M SystolicArray (Z * sa_event) unit).

Definition schedule (tick : Z) (e : sa_event) : D := emit (tick, e).

(** ** Ports *)

(** The result of [push] is not looked at. *)
Definition trySendPacket : D :=
  d ← get;
  (match req_Q_ d with
   | p :: q => when (negb (isStalled (m_req_ d))) (put (set_out (push (m_req_ d) p).2 q d))
   | [] => mret tt
   end);;
  d ← get;
  match resp_Q_ d with
  | p :: q => when (negb (isStalled (m_resp_ d))) (put (set_answers (push (m_resp_ d) p).2 q d))
  | [] => mret tt
  end.

Definition masterPortRetry : D := trySendPacket.

(** ** Programming the DMA controller *)

(** [req_Q_.push(Construct_MemWritepkt_non_burst(dummy, SW, addr, data, "sa"))] *)
Definition ask_write (addr data : Z) : D :=
  d ← get;
  let '(pkt, ctr) := Construct_MemWritepkt_non_burst (sa_ctr d) auto_instr SW addr data "sa" in
  put (set_ctr ctr (push_req (WriteReq pkt) d)).

Definition PokeDMAReady (now delay : Z) : D := schedule (now + delay) EvPoll.

(** The lambda of the poll. *)
Definition poll : D :=
  d ← get;
  let '(pkt, ctr) := Construct_MemReadpkt_non_burst (sa_ctr d) auto_instr LW DMA_DONE
                       (set_imm poll_mark auto_operand) "sa" in
  put (set_ctr ctr (push_req (ReadReq pkt) d)).

Definition AskDMAtoWrite_matA (now delay : Z) : D :=
  d ← get;
  ask_write DMA_SRC (A_addr_dm_ (sa_r d));;
  ask_write DMA_DST (add32 (A_addr_ (sa_r d)) SA_MEMORY_BASE);;
  ask_write DMA_SIZE_CFG (size_cfg_A (sa_r d));;
  ask_write DMA_ENABLE 1;;
  PokeDMAReady now delay.

Definition AskDMAtoWrite_matB (now delay : Z) : D :=
  d ← get;
  ask_write DMA_SRC (B_addr_dm_ (sa_r d));;
  ask_write DMA_DST (add32 (B_addr_ (sa_r d)) SA_MEMORY_BASE);;
  ask_write DMA_SIZE_CFG (size_cfg_B (sa_r d));;
  ask_write DMA_ENABLE 1;;
  PokeDMAReady now delay.

(** ** Starting *)

Definition initialized_transaction (now delay : Z) : D :=
  modify (set_r (set_flags true false));;
  d ← get;
  let r := sa_r d in
  lift (check ((A_addr_ r mod 4 =? 0) && (B_addr_ r mod 4 =? 0) && (C_addr_ r mod 4 =? 0))
    (AssertFailed "Current support the address be multiple of 4"));;
  let sizeA := s32 (mul32 (M_ r) (K_ r)) in
  let sizeB := s32 (mul32 (K_ r) (N_ r)) in
  modify (set_phase READ_MAT_A);;
  modify (set_sz (SaSizes sizeA sizeB 0 0));;
  lift (check ((sizeA <=? 2048) && (sizeB <=? 2048))
    (AssertFailed "We assumes that matrix size to be less than 2048"));;
  modify (set_k (set_mats zero_matrix zero_matrix zero_matrix));;
  AskDMAtoWrite_matA now delay.

(** ** Computing *)

(** Only prints; a cell outside of the matrix is undefined. *)
Definition writeOutputs : D :=
  d ← get;
  let ns := seq 0 (Z.to_nat (strideC_ (sa_r d))) in
  lift (for_ij ns ns (fun _ i j => gget i j (C_matrix (sa_k d)) ≫= fun _ => Ok tt) tt).

Definition ComputeTile (now : Z) : D :=
  d ← get;
  put (set_jobs (jobs d ++ [new_job])
        (set_k (set_result (Tile_Result (sa_k d)) false) d));;
  foreach (tile_schedule now (length (jobs d))) (fun te => schedule te.1 te.2).

Definition launchNextTile (now : Z) : D :=
  d ← get;
  match tileQ (sa_k d) with
  | [] => modify (set_r (set_flags (enabled_ (sa_r d)) true));; writeOutputs
  | t :: q =>
      a ← lift (LoadATile (sa_k d) (rowBlk t) (kBlk t) (tileRows t) (kCols t));
      b ← lift (LoadBTile (sa_k d) (kBlk t) (colBlk t) (kCols t) (tileCols t));
      modify (set_k (set_result zero_tile (TileFinish (sa_k d))));;
      modify (set_k (set_tileQ q));;
      modify (set_k (set_tile t a b));;
      ComputeTile now
  end.

Definition ComputeMatrix (now : Z) : D :=
  d ← get;
  let r := sa_r d in
  modify (set_k (set_tileQ (tileQ (sa_k d) ++ matrix_tasks (strideA_ r) (strideB_ r))));;
  launchNextTile now.

(** The lambda of one cycle of a tile. The last flush cycle also copies the
    result. *)
Definition tile_event (j : nat) (c : tile_cycle) : D :=
  d ← get;
  job ← lift (from_opt (Undefined "job") (jobs d !! j));
  job' ← lift (run_cycle (junk j) (A_Tile (sa_k d)) (B_Tile (sa_k d)) job c);
  put (set_jobs (<[j := job']> (jobs d)) d);;
  match c with
  | CyFlush cycle =>
      when (cycle =? SASIZE - 1)%nat (modify (set_k (set_result (j_result job') true)))
  | _ => mret tt
  end.

(** The lambda at the end of a tile. *)
Definition tile_done (now : Z) : D :=
  d ← get;
  let k := sa_k d in
  c ← lift (deposit (current_tile k) (Tile_Result k) (C_matrix k));
  modify (set_k (set_mats (A_matrix k) (B_matrix k) c));;
  launchNextTile now.

(** ** Responses *)

Definition load_operands (d : SystolicArray) : result (grid Z * grid Z) :=
  a ← load_matrix (sram_ d) (A_addr_ (sa_r d)) (strideA_ (sa_r d)) (A_matrix (sa_k d));
  b ← load_matrix (sram_ d) (B_addr_ (sa_r d)) (strideB_ (sa_r d)) (B_matrix (sa_k d));
  Ok (a, b).

Definition handleReadResponse (now delay : Z) (pkt : XBarMemReadRespPacket) : D :=
  lift (check (pk_src pkt =? 1)%nat (AssertFailed "Should from DMA"));;
  match pk_payloads pkt with
  | [p] =>
      if o_imm (rr_a1 p) =? poll_mark then
        if rr_data p =? 1 then
          d ← get;
          match phase_ d with
          | READ_MAT_A => modify (set_phase READ_MAT_B);; AskDMAtoWrite_matB now delay
          | READ_MAT_B =>
              '(a, b) ← lift (load_operands d);
              modify (set_k (set_mats a b (C_matrix (sa_k d))));;
              modify (set_phase COMPUTE);;
              ComputeMatrix now
          | COMPUTE => mret tt
          end
        else PokeDMAReady now delay
      else lift (log_error "Shouln't receive the read respond other than the poke ready?")
  | _ => lift (log_error "Shouln't receive the read respond other than the poke ready?")
  end.

(** [handleWriteCompletion] only recycles. *)
Definition handleWriteCompletion (pkt : XBarMemWriteRespPacket) : D := mret tt.

(** ** Memory-mapped registers *)

Definition readMMIO (p : XBarMemReadReqPayload) : D :=
  d ← get;
  data ←
    (match reg_read (sa_r d) (Z.land (rq_addr p) 0x3F) with
     | Some v => mret v
     | None => lift (log_error "Invalid read addr");; mret 0
     end);
  let resp := ReadRespPayload (rq_tid p) (rq_i p) (rq_op p) data (rq_a1 p) in
  pkt ← lift (Construct_MemReadRespPkt [resp] "sa" (rq_caller p));
  modify (push_resp (ReadResp pkt)).

Definition writeMMIO (now delay : Z) (p : XBarMemWriteReqPayload) : D :=
  let addr := Z.land (wq_addr p) 0x3F in
  let data := wq_data p in
  (if addr =? 0x0 then when (Z.odd data) (initialized_transaction now delay)
   else
     d ← get;
     match reg_write addr data (sa_r d) with
     | Some r => modify (set_r (fun _ => r))
     | None => lift (log_error "Invalid write addr")
     end);;
  let resp := WriteRespPayload (wq_tid p) (wq_i p) in
  pkt ← lift (Construct_MemWriteRespPkt [resp] "sa" (wq_caller p));
  modify (push_resp (WriteResp pkt)).

(** ** The SRAM *)

Definition sa_tracker (tid : Z) (d : SystolicArray) : BurstTracker :=
  default no_tracker (pending_ d !! tid).

(** An access that is refused logs an error and is never answered. *)
Definition SRAMReadReqHandler (p : XBarMemReadReqPayload) : D :=
  d ← get;
  let addr := rq_addr p in
  let offset := addr - SA_MEMORY_BASE in
  let size := load_bytes (rq_op p) in
  if (addr <? SA_MEMORY_BASE) || (SA_MEMORY_BASE + memSize <=? addr) then
    lift (log_error "SRAM read out of range")
  else if negb (sram_load_op (rq_op p)) then lift (log_error "Unsupported load OP")
  else if memSize <=? offset + (size - 1) then lift (log_error "SRAM read out of bounds")
  else
    let ret := load_value (rq_op p) (slice (Z.to_nat offset) (Z.to_nat size) (sram_ d)) in
    let rsp := ReadRespPayload (rq_tid p) (rq_i p) (rq_op p) ret (rq_a1 p) in
    let tk := sa_tracker (rq_tid p) d in
    let beats := rbeats tk ++ [rsp] in
    if Z.of_nat (length beats) =? expected tk then
      modify (set_sapending (delete (rq_tid p)));;
      pkt ← lift (Construct_MemReadRespPkt beats "sa" (rq_caller p));
      modify (push_resp (ReadResp (setTID (rq_tid p) pkt)))
    else
      modify (set_sapending (insert (rq_tid p) (Tracker (expected tk) beats (wbeats tk)))).

Definition SRAMWriteReqHandler (p : XBarMemWriteReqPayload) : D :=
  d ← get;
  let addr := wq_addr p in
  let offset := addr - SA_MEMORY_BASE in
  let size := store_bytes (wq_op p) in
  lift (check (SA_MEMORY_BASE <=? addr) (AssertFailed "addr >= SA_MEMORY_BASE"));;
  if (addr <? SA_MEMORY_BASE) || (SA_MEMORY_BASE + memSize <=? addr) then
    lift (log_error "SRAM write out of range")
  else if negb (sram_store_op (wq_op p)) then lift (log_error "Unsupported store OP")
  else if (offset <? 0) || (memSize <? offset + size) then
    lift (log_error "SRAM write out of range")
  else
    let dat := le_bytes (Z.to_nat size) (wq_data p) in
    modify (fun d => set_sram (splice (Z.to_nat offset) dat (sram_ d)) d);;
    let rsp := WriteRespPayload (wq_tid p) (wq_i p) in
    let tk := sa_tracker (wq_tid p) d in
    let beats := wbeats tk ++ [rsp] in
    if Z.of_nat (length beats) =? expected tk then
      modify (set_sapending (delete (wq_tid p)));;
      pkt ← lift (Construct_MemWriteRespPkt beats "sa" (wq_caller p));
      modify (push_resp (WriteResp (setTID (wq_tid p) pkt)))
    else
      modify (set_sapending (insert (wq_tid p) (Tracker (expected tk) (rbeats tk) beats))).

(** ** Events and steps *)

Definition sa_fire (now delay : Z) (e : sa_event) : D :=
  match e with
  | EvSramRead p => SRAMReadReqHandler p
  | EvSramWrite p => SRAMWriteReqHandler p
  | EvReadMMIO p => readMMIO p
  | EvWriteMMIO p => writeMMIO now delay p
  | EvPoll => poll
  | EvCycle j c => tile_event j c
  | EvTileDone => tile_done now
  end.

(** [addr0 >= SA_MEMORY_BASE && addr0 < SA_MEMORY_BASE + SA_SRAM_SIZE] *)
Definition toSram (addr0 : Z) : bool :=
  (SA_MEMORY_BASE <=? addr0) && (addr0 <? SA_MEMORY_BASE + SA_SRAM_SIZE).

Definition set_expected (tid n : Z) (d : SystolicArray) : SystolicArray :=
  let tk := sa_tracker tid d in
  set_sapending (insert tid (Tracker n (rbeats tk) (wbeats tk))) d.

(** One event per beat for the SRAM, a single one for a register. *)
Definition schedule_access (now delay : Z) (sram : bool) (beats : list sa_event)
    (mmio : sa_event) : D :=
  if sram then
    foreach (imap (fun i e => (now + Z.of_nat i + delay, e)) beats)
      (fun te => schedule te.1 te.2)
  else
    lift (check (length beats =? 1)%nat (AssertFailed "payload.size() == 1"));;
    schedule (now + delay) mmio.

Definition step_packet (now delay : Z) (pkt : packet) : D :=
  match pkt with
  | ReadReq p =>
      let size := Z.of_nat (length (pk_payloads p)) in
      lift (check (size =? pk_burstSize p) (AssertFailed "burst size"));;
      p0 ← lift (from_opt (Undefined "payload[0]") (head (pk_payloads p)));
      modify (set_expected (pk_tid p) size);;
      schedule_access now delay (toSram (rq_addr p0)) (map EvSramRead (pk_payloads p))
        (EvReadMMIO p0)
  | WriteReq p =>
      let size := Z.of_nat (length (pk_payloads p)) in
      lift (check (size =? pk_burstSize p) (AssertFailed "burst size"));;
      p0 ← lift (from_opt (Undefined "payload[0]") (head (pk_payloads p)));
      modify (set_expected (pk_tid p) size);;
      schedule_access now delay (toSram (wq_addr p0)) (map EvSramWrite (pk_payloads p))
        (EvWriteMMIO p0)
  | ReadResp p => handleReadResponse now delay p
  | WriteResp p => handleWriteCompletion p
  end.

Definition step (now delay : Z) (popped : list packet) : D :=
  d ← get;
  when (negb (bool_decide (req_Q_ d = [])) || negb (bool_decide (resp_Q_ d = []))) trySendPacket;;
  foreach popped (step_packet now delay).

(** * The events of the device, in the order of their ticks *)

(** An event is put behind the ones of its tick. *)
Fixpoint enqueue (te : Z * sa_event) (q : list (Z * sa_event)) : list (Z * sa_event) :=
  match q with
  | [] => [te]
  | te' :: q' => if te.1 <? te'.1 then te :: q else te' :: enqueue te q'
  end.

Definition enqueue_all (es q : list (Z * sa_event)) : list (Z * sa_event) :=
  foldl (fun q te => enqueue te q) q es.

(** Fire the pending events, and the ones that they schedule, until none is
    left or the fuel is. *)
Fixpoint fire_all (fuel : nat) (delay : Z) (q : list (Z * sa_event)) (d : SystolicArray)
    : result (SystolicArray * list (Z * sa_event)) :=
  match fuel, q with
  | O, _ | _, [] => Ok (d, q)
  | S fuel', te :: q' =>
      match outcome (sa_fire te.1 delay te.2) d with
      | Ok (d1, es) => fire_all fuel' delay (enqueue_all es q') d1
      | Err f => Err f
      end
  end.
End Systolic_array.
