(* ===== verification/SystolicMatmul.v ===== *)
(** The systolic array multiplies matrices: the tiles that [ComputeMatrix]
    queues cover the product, the events of each tile add its partial product
    to the result, and the operands are what the SRAM holds. *)
From S2P Require Import Prelude Machine DataStruct Memory Bus DataMemory Grid SystolicPE Systolic.
Local Open Scope Z_scope.

(** * Sums *)

Definition zsum (l : list Z) : Z := foldr Z.add 0 l.

Lemma zsum_app l1 l2 : zsum (l1 ++ l2) = zsum l1 + zsum l2.
Proof. induction l1 as [|x l1 IH]; simpl; [done|]. rewrite IH. lia. Qed.

Lemma zsum_flat_map {A B} (f : B -> Z) (g : A -> list B) l :
  zsum (map f (flat_map g l)) = zsum (map (fun x => zsum (map f (g x))) l).
Proof.
  induction l as [|x l IH]; simpl; [done|]. by rewrite map_app, zsum_app, IH.
Qed.

Lemma zsum_ext {A} (f g : A -> Z) l :
  (forall x, x ∈ l -> f x = g x) -> zsum (map f l) = zsum (map g l).
Proof.
  induction l as [|x l IH]; intros H; simpl; [done|].
  rewrite H by apply list_elem_of_here. rewrite IH; [done|].
  intros y Hy. apply H. by apply list_elem_of_further.
Qed.

Lemma zsum_zero {A} (f : A -> Z) l : (forall x, x ∈ l -> f x = 0) -> zsum (map f l) = 0.
Proof.
  intros H. rewrite (zsum_ext f (fun _ => 0)) by done. induction l; simpl; [done|].
  apply IHl. intros x Hx. apply H. by apply list_elem_of_further.
Qed.

Lemma map_seq_add {A} (f : nat -> A) a b n :
  map f (seq (a + b) n) = map (fun x => f (a + x)%nat) (seq b n).
Proof.
  revert b. induction n as [|n IH]; intros b; simpl; [done|].
  by rewrite <- IH, Nat.add_succ_r.
Qed.

(** The length of block [b] of [n] elements in blocks of [s]. *)
Definition block_len (s n b : nat) : nat := Nat.min s (n - s * b).

Lemma zsum_blocks (F : nat -> Z) s n p :
  zsum (map (fun b => zsum (map (fun x => F (s * b + x)%nat) (seq 0 (block_len s n b)))) (seq 0 p))
  = zsum (map F (seq 0 (Nat.min n (s * p)))).
Proof.
  induction p as [|p IH]; [by rewrite Nat.mul_0_r, Nat.min_0_r|].
  rewrite seq_S, map_app, zsum_app, IH. simpl. rewrite Z.add_0_r.
  replace (Nat.min n (s * S p)) with (Nat.min n (s * p) + block_len s n p)%nat
    by (unfold block_len; lia).
  rewrite seq_app, map_app, zsum_app. f_equal. simpl.
  destruct (decide (n <= s * p)%nat) as [Hle|Hgt].
  - replace (block_len s n p) with 0%nat by (unfold block_len; lia). done.
  - replace (Nat.min n (s * p)) with (s * p)%nat by lia. clear IH Hgt.
    pose proof (map_seq_add F (s * p) 0 (block_len s n p)) as Hq.
    rewrite Nat.add_0_r in Hq. by rewrite Hq.
Qed.

(** Only the block of [i] contributes a value tied to [i]. *)
Lemma zsum_one_block (v : nat -> Z) s n i p : (0 < s)%nat ->
  zsum (map (fun b => if decide (s * b <= i < s * b + block_len s n b)%nat then v b else 0) (seq 0 p))
  = if decide (i < n /\ i < s * p)%nat then v (i / s)%nat else 0.
Proof.
  intros Hs. induction p as [|p IH]; [simpl; by rewrite decide_False by lia|].
  rewrite seq_S, map_app, zsum_app, IH. cbn [map zsum foldr Nat.add]. rewrite Z.add_0_r. unfold block_len.
  destruct (decide (s * p <= i < s * p + Nat.min s (n - s * p))%nat) as [Hin|Hout].
  - rewrite decide_False by lia. rewrite decide_True by lia. rewrite Z.add_0_l. f_equal.
    apply (Nat.div_unique i s p (i - s * p)); lia.
  - rewrite Z.add_0_r. destruct (decide (i < n /\ i < s * p)%nat).
    + by rewrite decide_True by lia.
    + by rewrite decide_False by lia.
Qed.

(** * The tasks cover the product *)

Definition in_task (t : TileTask) (i j : nat) : bool :=
  bool_decide ((rowBlk t <= i < rowBlk t + tileRows t)%nat
               /\ (colBlk t <= j < colBlk t + tileCols t)%nat).

(** What a task adds to cell [(i, j)]. *)
Definition task_term (A B : grid Z) (t : TileTask) (i j : nat) : Z :=
  if in_task t i j then
    zsum (map (fun x => entry A i (kBlk t + x) * entry B (kBlk t + x) j) (seq 0 (kCols t)))
  else 0.

(** Cell [(i, j)] of the product of [A] and [B], over [n] inner indices. *)
Definition product_cell (A B : grid Z) (n i j : nat) : Z :=
  zsum (map (fun k => entry A i k * entry B k j) (seq 0 n)).

Definition blocks (n : Z) : nat := ((Z.to_nat n + SASIZE - 1) / SASIZE)%nat.

Lemma blocks_cover n : (Z.to_nat n <= SASIZE * blocks n)%nat.
Proof.
  unfold blocks, SASIZE. pose proof (Nat.div_mod (Z.to_nat n + 2 - 1) 2 ltac:(lia)).
  pose proof (Nat.mod_upper_bound (Z.to_nat n + 2 - 1) 2 ltac:(lia)). lia.
Qed.

Lemma blocks_start n b : (b < blocks n)%nat -> (SASIZE * b < Z.to_nat n)%nat.
Proof.
  unfold blocks, SASIZE. intros Hb.
  pose proof (Nat.div_mod (Z.to_nat n + 2 - 1) 2 ltac:(lia)).
  pose proof (Nat.mod_upper_bound (Z.to_nat n + 2 - 1) 2 ltac:(lia)). lia.
Qed.

Lemma zsum_block_starts (f : nat -> Z) n :
  zsum (map f (block_starts n)) = zsum (map (fun b => f (SASIZE * b)%nat) (seq 0 (blocks n))).
Proof. unfold block_starts. by rewrite map_map. Qed.

Lemma matrix_tasks_sum A B sa sb i j :
  zsum (map (fun t => task_term A B t i j) (matrix_tasks sa sb)) =
  if decide (i < Z.to_nat sa /\ j < Z.to_nat sb)%nat
  then product_cell A B (Z.to_nat sb) i j else 0.
Proof.
  unfold matrix_tasks. rewrite zsum_flat_map, zsum_block_starts.
  set (P := product_cell A B (Z.to_nat sb) i j).
  rewrite (zsum_ext _ (fun b => if decide (SASIZE * b <= i < SASIZE * b + block_len SASIZE (Z.to_nat sa) b)%nat
    then (if decide (j < Z.to_nat sb)%nat then P else 0) else 0)).
  { rewrite (zsum_one_block (fun _ => if decide (j < Z.to_nat sb)%nat then P else 0))
      by (unfold SASIZE; lia).
    pose proof (blocks_cover sa). repeat case_decide; try done; lia. }
  intros r _. rewrite zsum_flat_map, zsum_block_starts.
  rewrite (zsum_ext _ (fun b => if decide (SASIZE * b <= j < SASIZE * b + block_len SASIZE (Z.to_nat sb) b)%nat
    then (if decide (SASIZE * r <= i < SASIZE * r + block_len SASIZE (Z.to_nat sa) r)%nat then P else 0) else 0)).
  { rewrite (zsum_one_block (fun _ => if decide (SASIZE * r <= i < SASIZE * r + block_len SASIZE (Z.to_nat sa) r)%nat then P else 0))
      by (unfold SASIZE; lia).
    pose proof (blocks_cover sb). repeat case_decide; try done; lia. }
  intros c _. rewrite map_map, zsum_block_starts. unfold task_term, in_task. cbn [rowBlk colBlk tileRows tileCols kBlk kCols].
  fold (block_len SASIZE (Z.to_nat sa) r). fold (block_len SASIZE (Z.to_nat sb) c).
  destruct (decide (SASIZE * r <= i < SASIZE * r + block_len SASIZE (Z.to_nat sa) r)%nat) as [Hi|Hi].
  2: { rewrite bool_decide_false by tauto. case_decide; by apply zsum_zero. }
  destruct (decide (SASIZE * c <= j < SASIZE * c + block_len SASIZE (Z.to_nat sb) c)%nat) as [Hj|Hj].
  2: { rewrite bool_decide_false by tauto. by apply zsum_zero. }
  rewrite bool_decide_true by tauto. unfold P, product_cell.
  pose proof (zsum_blocks (fun k => entry A i k * entry B k j) SASIZE (Z.to_nat sb) (blocks sb)) as Hz.
  rewrite Nat.min_l in Hz by apply blocks_cover. exact Hz.
Qed.

(** Every task lies inside of the matrices. *)
Definition task_ok (t : TileTask) : Prop :=
  (tileRows t <= SASIZE /\ tileCols t <= SASIZE /\ kCols t <= SASIZE
   /\ rowBlk t + tileRows t <= 64 /\ colBlk t + tileCols t <= 64 /\ kBlk t + kCols t <= 64)%nat.

Lemma matrix_tasks_ok sa sb : sa <= 64 -> sb <= 64 -> Forall task_ok (matrix_tasks sa sb).
Proof.
  intros Ha Hb. apply Forall_forall. unfold matrix_tasks, block_starts. intros t Ht.
  apply list_elem_of_In, in_flat_map in Ht as (r & Hr & Ht).
  apply in_flat_map in Ht as (c & Hc & Ht). apply in_map_iff in Ht as (k & <- & Hk).
  apply in_map_iff in Hr as (br & <- & Hr%in_seq).
  apply in_map_iff in Hc as (bc & <- & Hc%in_seq).
  apply in_map_iff in Hk as (bk & <- & Hk%in_seq).
  pose proof (blocks_start sa br). pose proof (blocks_start sb bc).
  pose proof (blocks_start sb bk). unfold blocks in *.
  unfold task_ok. cbn [rowBlk colBlk tileRows tileCols kBlk kCols]. lia.
Qed.

(** * Tiles *)

Lemma load_tile_ok src row0 col0 rows cols tile :
  shape 64 64 src -> is_tile tile -> (rows <= SASIZE)%nat -> (cols <= SASIZE)%nat ->
  (row0 + rows <= 64)%nat -> (col0 + cols <= 64)%nat ->
  exists t, load_tile src row0 col0 rows cols tile = Ok t /\ is_tile t
    /\ forall i j, (i < SASIZE)%nat -> (j < SASIZE)%nat -> entry t i j =
         if decide (i < rows /\ j < cols)%nat then entry src (row0 + i) (col0 + j) else 0.
Proof.
  intros Hsrc Ht Hr Hc Hr0 Hc0. unfold load_tile, is_tile in *.
  destruct (for_block SASIZE SASIZE (fun i j _ => entry src (row0 + i) (col0 + j))
    (fun t i j => v ← gget (row0 + i) (col0 + j) src; gset i j v t) 0 0 0 rows 0 cols tile)
    as (t1 & E1 & H1 & G1); [done|lia|lia| |].
  { intros g i j Hg Hi Hj. rewrite (gget_ok 64 64) by (done || lia). simpl.
    apply (gset_ok SASIZE SASIZE); done || lia. }
  rewrite E1. simpl.
  destruct (for_block SASIZE SASIZE (fun i j _ => 0) (fun t i j => gset i j 0 t)
    0 0 0 rows cols (SASIZE - cols) t1) as (t2 & E2 & H2 & G2);
    [done|lia|lia|intros; apply (gset_ok SASIZE SASIZE); done || lia|].
  rewrite E2. simpl.
  destruct (for_block SASIZE SASIZE (fun i j _ => 0) (fun t i j => gset i j 0 t)
    0 0 rows (SASIZE - rows) 0 SASIZE t2) as (t3 & E3 & H3 & G3);
    [done|lia|lia|intros; apply (gset_ok SASIZE SASIZE); done || lia|].
  exists t3. split_and!; [done..|]. intros i j Hi Hj. rewrite G3, G2, G1.
  rewrite !Nat.add_0_l, !Nat.sub_0_r. repeat case_decide; done || lia.
Qed.

Lemma tile_entry ta tb i j : (i < SASIZE)%nat -> (j < SASIZE)%nat ->
  entry (tile_product ta tb) i j = tile_dot ta tb i j.
Proof.
  unfold SASIZE. intros Hi Hj.
  destruct i as [|[|i]]; [..|lia]; (destruct j as [|[|j]]; [done..|lia]).
Qed.

Lemma tile_product_tile ta tb : is_tile (tile_product ta tb).
Proof. split; [done|]. by repeat constructor. Qed.

(** The product of the two padded tiles of a task is the task's term. *)
Lemma tile_dot_term A B ta tb t i j : task_ok t ->
  (forall i j, (i < SASIZE)%nat -> (j < SASIZE)%nat -> entry ta i j =
     if decide (i < tileRows t /\ j < kCols t)%nat
     then entry A (rowBlk t + i) (kBlk t + j) else 0) ->
  (forall i j, (i < SASIZE)%nat -> (j < SASIZE)%nat -> entry tb i j =
     if decide (i < kCols t /\ j < tileCols t)%nat
     then entry B (kBlk t + i) (colBlk t + j) else 0) ->
  (i < tileRows t)%nat -> (j < tileCols t)%nat ->
  tile_dot ta tb i j = u16 (task_term A B t (rowBlk t + i) (colBlk t + j)).
Proof.
  intros (Hr & Hc & Hk & _) Ha Hb Hi Hj. unfold task_term, in_task.
  rewrite bool_decide_true by lia. unfold tile_dot, SASIZE in *.
  cbn [upto seq map foldl]. rewrite !Ha, !Hb by lia.
  destruct (kCols t) as [|[|[|k]]]; [..|lia];
    repeat (first [rewrite decide_True by lia | rewrite decide_False by lia]);
    simpl; f_equal; lia.
Qed.

Lemma deposit_ok t res c : task_ok t -> is_tile res -> shape 64 64 c ->
  exists c', deposit t res c = Ok c' /\ shape 64 64 c'
    /\ forall i j, entry c' i j =
         if in_task t i j
         then u16 (entry c i j + entry res (i - rowBlk t) (j - colBlk t)) else entry c i j.
Proof.
  intros (Hr & Hc & _ & Hr0 & Hc0 & _) Hres Hs. unfold deposit.
  destruct (for_block 64 64 (fun i j x => u16 (x + entry res i j))
    (fun c i j => v ← gget i j res; galter (rowBlk t + i) (colBlk t + j) (fun x => u16 (x + v)) c)
    (rowBlk t) (colBlk t) 0 (tileRows t) 0 (tileCols t) c) as (c' & E & H' & G);
    [done|lia|lia| |].
  { intros g i j Hg Hi Hj. rewrite (gget_ok SASIZE SASIZE) by (done || lia). simpl.
    apply (galter_ok 64 64); done || lia. }
  exists c'. split_and!; [done..|]. intros i j. rewrite G, !Nat.add_0_r.
  unfold in_task. by case_decide; case_bool_decide.
Qed.

(** * The events of a tile *)

Section Runs.
Context `{Framework} `{PR : PipeRegister}.
Context (junk : nat -> nat -> nat -> Valid8).
Implicit Types d : SystolicArray.

Abbreviation fire := (fire_all junk).

Lemma fire_step fuel delay tick e q d d1 :
  outcome (sa_fire junk tick delay e) d = Ok (d1, []) ->
  fire (S fuel) delay ((tick, e) :: q) d = fire fuel delay q d1.
Proof. intros E. simpl. by rewrite E. Qed.

Definition last_flush (c : tile_cycle) : bool :=
  match c with CyFlush n => (n =? SASIZE - 1)%nat | _ => false end.

Lemma tile_event_ok j c d job job' : jobs d !! j = Some job ->
  run_cycle (junk j) (A_Tile (sa_k d)) (B_Tile (sa_k d)) job c = Ok job' ->
  outcome (tile_event junk j c) d =
  Ok (let d1 := set_jobs (<[j := job']> (jobs d)) d in
      if last_flush c then set_k (set_result (j_result job') true) d1 else d1, []).
Proof.
  intros Hj Hc. unfold tile_event. step_monad. rewrite Hj. simpl. rewrite Hc. simpl.
  destruct c as [n|n|n]; simpl; try done. by destruct (n =? 1)%nat.
Qed.

(** The cycles before the last only change the job. *)
Lemma fire_cycles fuel delay tick cs q d j job job' :
  Forall (fun c => last_flush c = false) cs -> jobs d !! j = Some job ->
  foldR (run_cycle (junk j) (A_Tile (sa_k d)) (B_Tile (sa_k d))) job cs = Ok job' ->
  exists js, js !! j = Some job' /\ length js = length (jobs d)
    /\ fire (length cs + fuel) delay
         (imap (fun k c => (tick + Z.of_nat k, EvCycle j c)) cs ++ q) d
       = fire fuel delay q (set_jobs js d).
Proof.
  intros Hcs. revert d job tick. induction Hcs as [|c cs Hc _ IH]; intros d job tick Hj Hr.
  - injection Hr as <-. exists (jobs d). split_and!; [done..|]. simpl. by destruct d.
  - apply bind_ok in Hr as (job1 & H1 & Hr).
    pose proof (tile_event_ok j c d job job1 Hj H1) as E. rewrite Hc in E.
    destruct (IH (set_jobs (<[j := job1]> (jobs d)) d) job1 (tick + 1)) as (js & G1 & G2 & G3).
    + apply list_lookup_insert_eq. by apply lookup_lt_Some in Hj.
    + done.
    + exists js. split_and!; [done|by rewrite G2; simpl; rewrite length_insert|].
      cbn [imap length Nat.add app]. erewrite fire_step by exact E.
      rewrite <- (G3) at 1. f_equal. f_equal. apply imap_ext. intros k x _. simpl. f_equal. lia.
Qed.

(** All the cycles of a tile leave the product in [Tile_Result]. *)
Lemma fire_tile fuel delay tick q d j ta tb :
  A_Tile (sa_k d) = ta -> B_Tile (sa_k d) = tb -> is_tile ta -> is_tile tb ->
  jobs d !! j = Some new_job ->
  exists js, length js = length (jobs d)
    /\ fire (length tile_cycles + fuel) delay
         (imap (fun k c => (tick + Z.of_nat k, EvCycle j c)) tile_cycles ++ q) d
       = fire fuel delay q
           (set_k (set_result (tile_product ta tb) true) (set_jobs js d)).
Proof.
  intros Ea Eb Ha Hb Hj. pose proof (run_tile_ok (junk j) ta tb Ha Hb) as Hr.
  apply bind_ok in Hr as (job' & Hr & [= Hres]).
  pose (cs := map CyPreload (upto SASIZE) ++ map CyPropagate (upto (2 * SASIZE - 1))
              ++ [CyFlush 0]).
  assert (Ecs : tile_cycles = cs ++ [CyFlush 1]) by done.
  rewrite Ecs in Hr. rewrite foldR_app in Hr. apply bind_ok in Hr as (job1 & Hr1 & Hr).
  apply bind_ok in Hr as (job2 & Hr2 & [= ->]). rewrite <- Ea, <- Eb in *.
  destruct (fire_cycles (S fuel) delay tick cs
    (((tick + 6), EvCycle j (CyFlush 1)) :: q) d j new_job job1) as (js & G1 & G2 & G3);
    [by repeat constructor|done|done|].
  exists (<[j := job']> js). split; [by rewrite length_insert|].
  rewrite Ecs. rewrite imap_app, length_app. rewrite <- app_assoc.
  replace (length cs + length [CyFlush 1] + fuel)%nat with (length cs + S fuel)%nat by (simpl; lia).
  change (imap _ [CyFlush 1] ++ q) with (((tick + 6), EvCycle j (CyFlush 1)) :: q).
  pose proof (tile_event_ok j (CyFlush 1) (set_jobs js d) job1 job' G1 Hr2) as E.
  rewrite G3, <- Hres. apply (fire_step fuel delay (tick + 6) (EvCycle j (CyFlush 1)) q (set_jobs js d)), E.
Qed.

(** * From tile to tile *)

Record computing (r : sa_regs) (k : sa_compute) : Prop := {
  co_A : shape 64 64 (A_matrix k);
  co_B : shape 64 64 (B_matrix k);
  co_C : shape 64 64 (C_matrix k);
  co_u16 : forall i j, is_u 16 (entry (C_matrix k) i j);
  co_ta : is_tile (A_Tile k);
  co_tb : is_tile (B_Tile k);
  co_stride : strideC_ r <= 64;
}.

(** [d] with other working data. *)
Definition with_work (k : sa_compute) (js : list tile_job) (d : SystolicArray) : SystolicArray :=
  set_jobs js (set_k (fun _ => k) d).

Lemma writeOutputs_ok d : computing (sa_r d) (sa_k d) -> writeOutputs d = Ok (tt, d, []).
Proof.
  intros Hc. unfold writeOutputs. erewrite M_bind_silent by reflexivity. cbv zeta.
  unfold lift. unfold for_ij. rewrite (foldR_pure _ (fun u _ => u)); [by destruct (foldl _ _ _)|].
  intros [] i Hi%list_elem_of_In%in_seq. rewrite (foldR_pure _ (fun u _ => u)); [by destruct (foldl _ _ _)|].
  intros [] j Hj%list_elem_of_In%in_seq. pose proof (co_stride _ _ Hc).
  by rewrite (gget_ok 64 64) by (apply Hc || lia).
Qed.

(** A task is taken from the queue and its operands are loaded. *)
Lemma launch_task d now t q : computing (sa_r d) (sa_k d) -> tileQ (sa_k d) = t :: q ->
  task_ok t ->
  exists k1, outcome (launchNextTile now) d =
      Ok (with_work k1 (jobs d ++ [new_job]) d, tile_schedule now (length (jobs d)))
    /\ is_tile (A_Tile k1) /\ is_tile (B_Tile k1)
    /\ A_matrix k1 = A_matrix (sa_k d) /\ B_matrix k1 = B_matrix (sa_k d)
    /\ C_matrix k1 = C_matrix (sa_k d) /\ tileQ k1 = q /\ current_tile k1 = t
    /\ forall i j, (i < tileRows t)%nat -> (j < tileCols t)%nat ->
         tile_dot (A_Tile k1) (B_Tile k1) i j =
         u16 (task_term (A_matrix (sa_k d)) (B_matrix (sa_k d)) t (rowBlk t + i) (colBlk t + j)).
Proof.
  intros Hc Hq Ht. pose proof Ht as (Hr & Hcl & Hk & Hr0 & Hc0 & Hk0).
  destruct (load_tile_ok (A_matrix (sa_k d)) (rowBlk t) (kBlk t) (tileRows t) (kCols t)
    (A_Tile (sa_k d))) as (ta & Ea & Ta & Ga); [apply Hc|apply Hc|done..|].
  destruct (load_tile_ok (B_matrix (sa_k d)) (kBlk t) (colBlk t) (kCols t) (tileCols t)
    (B_Tile (sa_k d))) as (tb & Eb & Tb & Gb); [apply Hc|apply Hc|done..|].
  unfold launchNextTile, outcome. erewrite M_bind_silent by reflexivity. rewrite Hq.
  unfold LoadATile, LoadBTile. rewrite Ea, Eb.
  do 5 (erewrite M_bind_silent by reflexivity).
  unfold ComputeTile. do 2 (erewrite M_bind_silent by reflexivity). simpl.
  eexists. split; [reflexivity|]. split_and!; try done.
  intros i j Hi Hj. by apply tile_dot_term.
Qed.

Lemma enqueue_schedule now j :
  enqueue_all (tile_schedule now j) [] = tile_schedule now j.
Proof.
  unfold enqueue_all. simpl.
  repeat (rewrite (proj2 (Z.ltb_ge _ _)) by lia; simpl). done.
Qed.

(** The cycles of a tile and the deposit of its result. *)
Lemma fire_task fuel delay now t d c :
  computing (sa_r d) (sa_k d) -> jobs d !! c = Some new_job -> current_tile (sa_k d) = t ->
  task_ok t ->
  let tick := now + 1 + Z.of_nat (length tile_cycles) + 1 in
  exists k1 js, fire (8 + fuel) delay (tile_schedule now c) d =
      match outcome (launchNextTile tick) (with_work k1 js d) with
      | Ok (d1, es) => fire fuel delay (enqueue_all es []) d1
      | Err f => Err f
      end
    /\ computing (sa_r d) k1 /\ tileQ k1 = tileQ (sa_k d)
    /\ A_matrix k1 = A_matrix (sa_k d) /\ B_matrix k1 = B_matrix (sa_k d)
    /\ forall i j, entry (C_matrix k1) i j =
         if in_task t i j
         then u16 (entry (C_matrix (sa_k d)) i j
                   + tile_dot (A_Tile (sa_k d)) (B_Tile (sa_k d)) (i - rowBlk t) (j - colBlk t))
         else entry (C_matrix (sa_k d)) i j.
Proof.
  intros Hc Hj Hct Ht tick.
  destruct (fire_tile (S fuel) delay (now + 1) [(tick, EvTileDone)] d c _ _ eq_refl eq_refl
    (co_ta _ _ Hc) (co_tb _ _ Hc) Hj) as (js & _ & E).
  destruct (deposit_ok t (tile_product (A_Tile (sa_k d)) (B_Tile (sa_k d))) (C_matrix (sa_k d)) Ht
    (tile_product_tile _ _) (co_C _ _ Hc)) as (c' & Ed & Hs & He).
  exists (set_mats (A_matrix (sa_k d)) (B_matrix (sa_k d)) c'
    (set_result (tile_product (A_Tile (sa_k d)) (B_Tile (sa_k d))) true (sa_k d))), js.
  assert (Hcell : forall i j, entry c' i j =
         if in_task t i j
         then u16 (entry (C_matrix (sa_k d)) i j
                   + tile_dot (A_Tile (sa_k d)) (B_Tile (sa_k d)) (i - rowBlk t) (j - colBlk t))
         else entry (C_matrix (sa_k d)) i j).
  { intros i j. rewrite He. destruct (in_task t i j) eqn:Hin; [|done].
    apply bool_decide_eq_true in Hin. destruct Ht as (? & ? & _).
    by rewrite tile_entry by lia. }
  split_and!; [|split; simpl; try apply Hc; try done|done..|exact Hcell].
  - unfold tile_schedule. replace (now + Z.of_nat (length tile_cycles) + 2) with tick by (unfold tick; lia).
    change (8 + fuel)%nat with (length tile_cycles + S fuel)%nat. rewrite E.
    cbn [fire_all fst snd sa_fire]. unfold tile_done, outcome.
    erewrite M_bind_silent by reflexivity. cbv zeta. simpl sa_k. simpl current_tile.
    simpl Tile_Result. simpl C_matrix. rewrite Hct, Ed.
    do 2 (erewrite M_bind_silent by reflexivity). done.
  - intros i j. rewrite Hcell. destruct (in_task t i j); [by apply uint_range|apply Hc].
Qed.

(** The device at the end of a multiplication. *)
Definition finished (k : sa_compute) (js : list tile_job) (d : SystolicArray) : SystolicArray :=
  set_r (set_flags (enabled_ (sa_r d)) true) (with_work k js d).

Lemma finished_with k k1 js js1 d : finished k js (with_work k1 js1 d) = finished k js d.
Proof. done. Qed.

(** Every queued task adds its term; [done_] is set after the last. *)
Lemma tasks_run delay tasks d now : tileQ (sa_k d) = tasks -> Forall task_ok tasks ->
  computing (sa_r d) (sa_k d) ->
  exists d1 es k' js, outcome (launchNextTile now) d = Ok (d1, es)
    /\ fire (8 * length tasks) delay (enqueue_all es []) d1 = Ok (finished k' js d, [])
    /\ shape 64 64 (C_matrix k')
    /\ forall i j, entry (C_matrix k') i j =
         u16 (entry (C_matrix (sa_k d)) i j
              + zsum (map (fun t => task_term (A_matrix (sa_k d)) (B_matrix (sa_k d)) t i j) tasks)).
Proof.
  intros Hq Hts. revert d now Hq. induction Hts as [|t tasks Ht _ IH]; intros d now Hq Hc.
  - exists (finished (sa_k d) (jobs d) d), [], (sa_k d), (jobs d). split_and!.
    + unfold launchNextTile, outcome. erewrite M_bind_silent by reflexivity. rewrite Hq.
      erewrite M_bind_silent by reflexivity. rewrite writeOutputs_ok by (by destruct Hc).
      by destruct d.
    + done.
    + apply Hc.
    + intros i j. simpl. rewrite Z.add_0_r. symmetry. apply uint_id, (co_u16 _ _ Hc).
  - destruct (launch_task d now t tasks Hc Hq Ht)
      as (k1 & E1 & Ta & Tb & EA & EB & EC & Eq & Ect & Edot).
    set (d1 := with_work k1 (jobs d ++ [new_job]) d) in *.
    assert (Hc1 : computing (sa_r d1) (sa_k d1)).
    { destruct Hc. split; simpl; rewrite ?EA, ?EB, ?EC; done. }
    destruct (fire_task (8 * length tasks) delay now t d1 (length (jobs d)) Hc1)
      as (k2 & js2 & E2 & Hc2 & Eq2 & EA2 & EB2 & EC2); [|done..|].
    { simpl. by rewrite list_lookup_middle. }
    destruct (IH (with_work k2 js2 d1) (now + 1 + Z.of_nat (length tile_cycles) + 1))
      as (d3 & es3 & k' & js & E3 & F3 & S3 & C3); [by simpl; rewrite Eq2|done|].
    exists d1, (tile_schedule now (length (jobs d))), k', js. split_and!; [done| |done|].
    + rewrite enqueue_schedule.
      replace (8 * length (t :: tasks))%nat with (8 + 8 * length tasks)%nat by (simpl; lia).
      rewrite E2, E3. rewrite F3. by rewrite !finished_with.
    + intros i j. rewrite C3. simpl in EC2, EA2, EB2 |- *. rewrite EA2, EB2, EC2, EA, EB, EC.
      destruct (in_task t i j) eqn:Hin.
      * pose proof Hin as [Hi Hj]%bool_decide_eq_true.
        rewrite Edot by lia. rewrite uint_add_l, <- Z.add_assoc, (Z.add_comm (u16 _)), Z.add_assoc.
        rewrite uint_add_r. f_equal.
        replace (rowBlk t + (i - rowBlk t))%nat with i by lia.
        replace (colBlk t + (j - colBlk t))%nat with j by lia. lia.
      * unfold task_term at 2. rewrite Hin. done.
Qed.

(** The whole multiplication, from the call of [ComputeMatrix]. *)
Lemma compute_matrix_ok delay d now : tileQ (sa_k d) = [] -> computing (sa_r d) (sa_k d) ->
  strideA_ (sa_r d) <= 64 -> strideB_ (sa_r d) <= 64 ->
  let sa := strideA_ (sa_r d) in
  let sb := strideB_ (sa_r d) in
  exists d1 es k' js, outcome (ComputeMatrix now) d = Ok (d1, es)
    /\ fire (8 * length (matrix_tasks sa sb)) delay (enqueue_all es []) d1
       = Ok (finished k' js d, [])
    /\ shape 64 64 (C_matrix k')
    /\ forall i j, entry (C_matrix k') i j =
         u16 (entry (C_matrix (sa_k d)) i j
              + if decide (i < Z.to_nat sa /\ j < Z.to_nat sb)%nat
                then product_cell (A_matrix (sa_k d)) (B_matrix (sa_k d)) (Z.to_nat sb) i j
                else 0).
Proof.
  intros Hq Hc Ha Hb sa sb. unfold ComputeMatrix, outcome.
  destruct (tasks_run delay (matrix_tasks sa sb) (set_k (set_tileQ (matrix_tasks sa sb)) d) now)
    as (d1 & es & k' & js & E & F & S & C); [done|by apply matrix_tasks_ok|by destruct Hc|].
  exists d1, es, k', js. erewrite M_bind_silent by reflexivity. cbv zeta.
  erewrite M_bind_silent by reflexivity. rewrite Hq. cbn [app].
  split_and!; [exact E|exact F|done|]. intros i j. rewrite C, matrix_tasks_sum. done.
Qed.
End Runs.

(** * Loading the operands *)

(** Byte [i] of a memory. *)
Definition byte_at (m : mem) (i : Z) : Z := nth (Z.to_nat i) m 0.

(** A row of a matrix takes whole words. *)
Definition row_pitch (stride : Z) : Z := 4 * ((stride + 3) / 4).

(** Element [(i, j)] of the matrix stored at [addr]. *)
Definition stored (m : mem) (addr stride : Z) (i j : nat) : Z :=
  byte_at m (4 * (addr / 4) + Z.of_nat i * row_pitch stride + Z.of_nat j).

(** The matrix lies inside of the SRAM. *)
Definition fits (addr stride : Z) : Prop :=
  0 <= addr /\ 0 <= stride <= 64 /\ 4 * (addr / 4) + stride * row_pitch stride <= memSize.

Lemma sram_word_byte m idx k : wf_mem m -> Z.of_nat (length m) = memSize ->
  0 <= idx < SA_SRAM_SIZE -> 0 <= k < 4 ->
  exists w, sram_word m idx = Ok w /\ Z.land (Z.shiftr w (k * 8)) 0xFF = byte_at m (4 * idx + k).
Proof.
  intros Hm Hl Hi Hk. unfold sram_word. rewrite (proj2 (Z.leb_le 0 idx)) by lia.
  rewrite (proj2 (Z.ltb_lt idx _)) by lia. eexists. split; [reflexivity|].
  unfold memSize, SA_SRAM_SIZE in *.
  destruct (lookup_lt_is_Some_2 m (Z.to_nat (4 * idx + k))) as [b Hb]; [lia|].
  unfold byte_at. rewrite (nth_lookup_Some _ _ _ _ Hb).
  replace (k * 8) with (8 * Z.of_nat (Z.to_nat k)) by lia. apply le_value_byte.
  - by apply Forall_take, Forall_drop.
  - unfold slice. rewrite lookup_take_lt by lia. rewrite lookup_drop, <- Hb. f_equal. lia.
Qed.

Lemma load_matrix_ok m addr stride g : wf_mem m -> Z.of_nat (length m) = memSize ->
  fits addr stride -> shape 64 64 g ->
  exists g', load_matrix m addr stride g = Ok g' /\ shape 64 64 g'
    /\ forall i j, entry g' i j =
         if decide (i < Z.to_nat stride /\ j < Z.to_nat stride)%nat
         then stored m addr stride i j else entry g i j.
Proof.
  intros Hm Hl (Ha & Hst & Hf) Hg. unfold load_matrix.
  destruct (for_block 64 64 (fun i j _ => stored m addr stride i j)
    (fun g i j =>
       word ← sram_word m (u32 (addr / 4 + Z.of_nat i * ((stride + 3) / 4) + Z.of_nat j / 4));
       gset i j (Z.land (Z.shiftr word ((Z.of_nat j mod 4) * 8)) 0xFF) g)
    0 0 0 (Z.to_nat stride) 0 (Z.to_nat stride) g) as (g' & E & S & G); [done|lia|lia| |].
  - intros s i j Hs Hi Hj. unfold row_pitch, memSize in *.
    pose proof (Z.div_mod (Z.of_nat j) 4 ltac:(lia)).
    pose proof (Z.mod_pos_bound (Z.of_nat j) 4 ltac:(lia)).
    pose proof (Z.div_mod (stride + 3) 4 ltac:(lia)).
    pose proof (Z.mod_pos_bound (stride + 3) 4 ltac:(lia)).
    assert (0 <= addr / 4) by (apply Z.div_pos; lia).
    assert (Z.of_nat i * ((stride + 3) / 4) + (stride + 3) / 4 <= stride * ((stride + 3) / 4)) by nia.
    assert (0 <= Z.of_nat i * ((stride + 3) / 4)) by nia.
    set (idx := addr / 4 + Z.of_nat i * ((stride + 3) / 4) + Z.of_nat j / 4).
    assert (0 <= idx < SA_SRAM_SIZE) by (unfold idx, SA_SRAM_SIZE; lia).
    rewrite (uint_id 32) by (unfold is_u, SA_SRAM_SIZE in *; lia).
    destruct (sram_word_byte m idx (Z.of_nat j mod 4)) as (w & Ew & Hw); [done|done|done|lia|].
    rewrite Ew. simpl. rewrite (gset_ok 64 64) by (done || lia).
    rewrite Hw. unfold stored, row_pitch.
    replace (4 * idx + Z.of_nat j mod 4)
      with (4 * (addr / 4) + Z.of_nat i * (4 * ((stride + 3) / 4)) + Z.of_nat j)
      by (unfold idx; lia). done.
  - exists g'. split; [exact E|]. split; [done|]. intros i j. rewrite G, !Nat.sub_0_r.
    repeat case_decide; done || lia.
Qed.

(** * Properties *)

(** Element [(i, j)] of the operand at [addr], 0 outside of it. *)
Definition operand_cell (m : mem) (addr stride : Z) (i j : nat) : Z :=
  if decide (i < Z.to_nat stride /\ j < Z.to_nat stride)%nat then stored m addr stride i j else 0.

(** A device that waits for the second operand, its buffers cleared. *)
Record awaiting_B `{PipeRegister} (d : SystolicArray) : Prop := {
  aw_phase : phase_ d = READ_MAT_B;
  aw_tileQ : tileQ (sa_k d) = [];
  aw_A : A_matrix (sa_k d) = zero_matrix;
  aw_B : B_matrix (sa_k d) = zero_matrix;
  aw_C : C_matrix (sa_k d) = zero_matrix;
  aw_ta : is_tile (A_Tile (sa_k d));
  aw_tb : is_tile (B_Tile (sa_k d));
  aw_sram : wf_mem (sram_ d);
  aw_size : Z.of_nat (length (sram_ d)) = memSize;
  aw_fitsA : fits (A_addr_ (sa_r d)) (strideA_ (sa_r d));
  aw_fitsB : fits (B_addr_ (sa_r d)) (strideB_ (sa_r d));
  aw_strideC : strideC_ (sa_r d) <= 64;
}.

(** The packet that reports that the DMA controller is done. *)
Definition dma_ready (pkt : XBarMemReadRespPacket) : Prop :=
  pk_src pkt = 1%nat
  /\ exists p, pk_payloads pkt = [p] /\ o_imm (rr_a1 p) = poll_mark /\ rr_data p = 1.

Lemma entry_zero i j : entry zero_matrix i j = 0.
Proof.
  unfold entry, zero_matrix.
  destruct (decide (i < 64)%nat).
  - rewrite (nth_lookup_Some _ _ _ (replicate 64 0)) by (by apply lookup_replicate_2).
    destruct (decide (j < 64)%nat).
    + by rewrite (nth_lookup_Some _ _ _ 0) by (by apply lookup_replicate_2).
    + by rewrite nth_overflow by (rewrite length_replicate; lia).
  - rewrite (nth_overflow (replicate 64 _)) by (rewrite length_replicate; lia). by destruct j.
Qed.

(** C12. When the DMA controller reports the second operand, the device
    multiplies the matrices that its SRAM holds: the events it schedules come
    to an end, with [done_] set and every cell of the result the product
    modulo 2^16, the SRAM unchanged. *)
Theorem sa_multiplies `{Framework} `{PR : PipeRegister} junk (d : SystolicArray) pkt now delay :
  awaiting_B d -> dma_ready pkt ->
  exists d1 es fuel d', outcome (handleReadResponse now delay pkt) d = Ok (d1, es)
    /\ fire_all junk fuel delay (enqueue_all es []) d1 = Ok (d', [])
    /\ done_ (sa_r d') = true /\ sram_ d' = sram_ d
    /\ forall i j, entry (C_matrix (sa_k d')) i j =
         u16 (zsum (map (fun k =>
           operand_cell (sram_ d) (A_addr_ (sa_r d)) (strideA_ (sa_r d)) i k
           * operand_cell (sram_ d) (B_addr_ (sa_r d)) (strideB_ (sa_r d)) k j)
           (seq 0 (Z.to_nat (strideB_ (sa_r d)))))).
Proof.
  intros Hd (Hsrc & p & Hp & Himm & Hdata). pose proof (shape_replicate 64 64 0 : shape 64 64 zero_matrix) as Hz.
  destruct (load_matrix_ok _ _ _ _ (aw_sram d Hd) (aw_size d Hd) (aw_fitsA d Hd) Hz)
    as (a & Ea & Sa & Ca).
  destruct (load_matrix_ok _ _ _ _ (aw_sram d Hd) (aw_size d Hd) (aw_fitsB d Hd) Hz)
    as (b & Eb & Sb & Cb).
  assert (El : load_operands d = Ok (a, b)).
  { unfold load_operands. rewrite (aw_A d Hd), (aw_B d Hd), Ea. simpl. by rewrite Eb. }
  set (d0 := set_phase COMPUTE (set_k (set_mats a b (C_matrix (sa_k d))) d)).
  destruct (compute_matrix_ok junk delay d0 now) as (d1 & es & k' & js & E & F & _ & C);
    [apply Hd| |apply (aw_fitsA d Hd)|apply (aw_fitsB d Hd)|].
  { split; simpl; rewrite ?(aw_C d Hd); try done; try apply Hd.
    intros i j. rewrite entry_zero. unfold is_u. lia. }
  exists d1, es, (8 * length (matrix_tasks (strideA_ (sa_r d)) (strideB_ (sa_r d))))%nat,
    (finished k' js d0).
  split_and!; [|exact F|done|done|].
  - unfold handleReadResponse, outcome, dma_ready in *. rewrite Hsrc. simpl check.
    erewrite M_bind_silent by reflexivity. rewrite Hp, Himm, Hdata, !Z.eqb_refl.
    erewrite M_bind_silent by reflexivity. rewrite (aw_phase d Hd), El.
    erewrite M_bind_silent by reflexivity. cbv beta iota.
    do 2 (erewrite M_bind_silent by reflexivity). exact E.
  - intros i j. simpl. rewrite C. simpl. rewrite (aw_C d Hd), entry_zero, Z.add_0_l.
    f_equal. unfold product_cell. case_decide.
    + apply zsum_ext. intros k _. rewrite Ca, Cb. unfold operand_cell. by rewrite !entry_zero.
    + symmetry. apply zsum_zero. intros k _. unfold operand_cell.
      repeat case_decide; lia.
Qed.

(** ** A concrete multiplication *)

#[local] Existing Instance printing_framework.
#[local] Existing Instance SlotRegister.

(** [A = [[1, 2, 3], ...]] at word 0 and [B] at word 4, 3 by 3. *)
Definition w_sram : mem :=
  [1; 2; 3; 0; 4; 5; 6; 0; 7; 8; 9; 0; 0; 0; 0; 0;
   9; 8; 7; 0; 6; 5; 4; 0; 255; 2; 1; 0] ++ replicate (Z.to_nat memSize - 28) 0.

Definition w_task : TileTask := MkTask 0 0 0 0 0 0.

Definition w_device : @SystolicArray SlotRegister :=
  MkSA (SaRegs true false 3 3 3 0 16 0 0 0 0 3 3 3)
    (SaCompute zero_matrix zero_matrix zero_matrix [] zero_tile zero_tile zero_tile false w_task)
    (SaSizes 9 9 0 0) READ_MAT_B w_sram ∅ [] (SlotReg false false []) (SlotReg false false [])
    [] [] 7.

Definition w_answer (data : Z) : XBarMemReadRespPacket :=
  XBarPacket 4 0 1 [ReadRespPayload 4 auto_instr LW data (set_imm poll_mark auto_operand)] 1 2.

Lemma w_sram_wf : wf_mem w_sram.
Proof.
  apply Forall_app. split; [|apply Forall_replicate]; repeat constructor; unfold is_u; lia.
Qed.

Lemma w_device_awaiting : awaiting_B w_device.
Proof.
  split; try done; try (apply (shape_replicate SASIZE SASIZE)). apply w_sram_wf.
Qed.

Lemma sa_multiplies_witness :
  awaiting_B w_device /\
  exists d1 es fuel d', outcome (handleReadResponse 100 3 (w_answer 1)) w_device = Ok (d1, es)
    /\ fire_all (fun _ _ _ => V8 true 77) fuel 3 (enqueue_all es []) d1 = Ok (d', [])
    /\ done_ (sa_r d') = true
    /\ entry (C_matrix (sa_k d')) 0 0 = 786 /\ entry (C_matrix (sa_k d')) 3 0 = 0.
Proof.
  split; [exact w_device_awaiting|].
  destruct (sa_multiplies (fun _ _ _ => V8 true 77) w_device (w_answer 1) 100 3)
    as (d1 & es & fuel & d' & E & F & Hd & _ & C); [exact w_device_awaiting| |].
  { split; [reflexivity|]. eexists. split; [reflexivity|]. split; reflexivity. }
  exists d1, es, fuel, d'. split; [exact E|]. split; [exact F|]. split; [exact Hd|].
  split; rewrite C; vm_compute; reflexivity.
Defined.
