(* ===== verification/SystolicPorts.v ===== *)
(** The systolic array on the bus: its SRAM is a memory at an offset, its
    registers, how it programs the DMA controller and polls it, and what its
    ports do with a refused packet. *)
From S2P Require Import Prelude Machine DataStruct Memory Bus DataMemory Grid SystolicPE.
From S2P Require Dma.
From S2P Require Import Systolic.
Local Open Scope Z_scope.

(** * Sizes for the DMA controller *)

Lemma u8_mask x : u8 (Z.land x 0xFF) = u8 x.
Proof. change 0xFF with (Z.ones 8). rewrite Z.land_ones by lia. apply uint_uint. Qed.

Lemma u8_minus1 x : 1 <= x <= 256 -> u8 (sub32 x 1) = x - 1.
Proof.
  intros Hx. unfold sub32. rewrite (uint_id 32) by (unfold is_u; lia).
  apply uint_id. unfold is_u. lia.
Qed.

(** The word that packs a stride, twice, and two sizes. *)
Definition size_word (stride w h : Z) : Z := le_value [h - 1; w - 1; stride; stride].

Lemma size_word_ok stride w h : is_u 8 stride -> 1 <= w <= 256 -> 1 <= h <= 256 ->
  Z.lor (Z.lor (Z.lor (u32 (Z.shiftl stride 24)) (Z.shiftl stride 16)) (Z.shiftl (w - 1) 8)) (h - 1)
  = size_word stride w h.
Proof.
  unfold is_u. intros Hs Hw Hh. rewrite (uint_id 32).
  - apply pack_bytes; unfold is_u; lia.
  - rewrite Z.shiftl_mul_pow2 by lia. unfold is_u. lia.
Qed.

Lemma size_cfg_A_ok r : 1 <= K_ r <= 256 -> 1 <= M_ r <= 256 -> is_u 8 (strideA_ r) ->
  size_cfg_A r = size_word (strideA_ r) (K_ r) (M_ r).
Proof.
  intros Hk Hm Hs. unfold size_cfg_A. rewrite !u8_mask, !u8_minus1 by done.
  rewrite (uint_id 8 (strideA_ r)) by done. by apply size_word_ok.
Qed.

Lemma size_cfg_B_ok r : 1 <= K_ r <= 256 -> 1 <= M_ r <= 256 -> is_u 8 (strideB_ r) ->
  size_cfg_B r = size_word (strideB_ r) (K_ r) (M_ r).
Proof.
  intros Hk Hm Hs. unfold size_cfg_B. rewrite !u8_mask. unfold sub32.
  rewrite !(uint_id 32 (_ - 1)) by (unfold is_u; lia).
  rewrite (uint_id 8 (strideB_ r)) by done.
  rewrite (uint_id 32 (Z.shiftl (K_ r - 1) 8)).
  - by apply size_word_ok.
  - rewrite Z.shiftl_mul_pow2 by lia. unfold is_u. lia.
Qed.

Lemma decode_size_word s w h : is_u 8 s -> 1 <= w <= 256 -> 1 <= h <= 256 ->
  Dma.decode_geometry (size_word s w h) = Dma.DmaGeometry w h s s (w * h).
Proof.
  intros Hs Hw Hh. unfold Dma.decode_geometry.
  assert (Hb : Forall (is_u 8) [h - 1; w - 1; s; s])
    by (unfold is_u in *; repeat constructor; lia).
  pose proof (le_value_byte _ 0 _ Hb eq_refl) as E0. pose proof (le_value_byte _ 1 _ Hb eq_refl) as E1.
  pose proof (le_value_byte _ 2 _ Hb eq_refl) as E2. pose proof (le_value_byte _ 3 _ Hb eq_refl) as E3.
  change (8 * Z.of_nat 0) with 0 in E0. change (8 * Z.of_nat 1) with 8 in E1.
  change (8 * Z.of_nat 2) with 16 in E2. change (8 * Z.of_nat 3) with 24 in E3.
  unfold size_word. rewrite Z.shiftr_0_r in E0. rewrite E0, E1, E2, E3.
  rewrite !(uint_id 8) by (unfold is_u in *; lia). f_equal; lia.
Qed.

(** * Requests and answers *)

Section Systolic_ports.
Context `{Framework} `{PR : PipeRegister}.
Implicit Types d : SystolicArray.

(** The four writes that program the controller, from counter [ctr] on. *)
Definition sa_write (ctr addr data : Z) : XBarMemWriteReqPayload :=
  WriteReqPayload "sa" ctr auto_instr SW addr data.
Definition program (ctr src dst cfg : Z) : list XBarMemWriteReqPayload :=
  [sa_write ctr DMA_SRC src; sa_write (s32 (ctr + 1)) DMA_DST dst;
   sa_write (s32 (s32 (ctr + 1) + 1)) DMA_SIZE_CFG cfg;
   sa_write (s32 (s32 (s32 (ctr + 1) + 1) + 1)) DMA_ENABLE 1].

(** The packet of one payload, from the device to the controller. *)
Definition to_dma (p : XBarMemWriteReqPayload) : packet :=
  WriteReq (XBarPacket (wq_tid p) 0 1 [p] 2 1).

Lemma ask_write_ok addr data d : slaveIndex addr = 1%nat ->
  ask_write addr data d =
  Ok (tt, set_ctr (s32 (sa_ctr d + 1)) (push_req (to_dma (sa_write (sa_ctr d) addr data)) d), []).
Proof.
  intros Hi. unfold ask_write. erewrite M_bind_silent by reflexivity. simpl. by rewrite Hi.
Qed.

(** The controller takes the first three writes into its registers; the
    fourth one starts it. *)
Lemma dma_takes_program ctr src dst cfg (c : Dma.DMAController) :
  exists c', run_all (map Dma.writeMMIO (take 3 (program ctr src dst cfg))) c = Ok (c', [])
    /\ Dma.srcAddr (Dma.d_regs c') = src /\ Dma.dstAddr (Dma.d_regs c') = dst
    /\ Dma.dmaSizeCfg (Dma.d_regs c') = cfg /\ Dma.d_track c' = Dma.d_track c.
Proof.
  eexists. split; [unfold Dma.writeMMIO; simpl; by step_monad|]. done.
Qed.

Definition asked (src dst cfg : Z) (d d' : SystolicArray) : Prop :=
  req_Q_ d' = req_Q_ d ++ map to_dma (program (sa_ctr d) src dst cfg).

Lemma ask_A_ok now delay d :
  exists d', AskDMAtoWrite_matA now delay d = Ok (tt, d', [(now + delay, EvPoll)])
    /\ asked (A_addr_dm_ (sa_r d)) (add32 (A_addr_ (sa_r d)) SA_MEMORY_BASE)
         (size_cfg_A (sa_r d)) d d'
    /\ sa_r d' = sa_r d /\ sa_k d' = sa_k d /\ phase_ d' = phase_ d /\ resp_Q_ d' = resp_Q_ d.
Proof.
  unfold AskDMAtoWrite_matA. eexists. split.
  - erewrite M_bind_silent by reflexivity.
    do 4 (erewrite M_bind_silent by (by apply ask_write_ok)). reflexivity.
  - split; [|done]. unfold asked. simpl. by rewrite <- !app_assoc.
Qed.

Lemma ask_B_ok now delay d :
  exists d', AskDMAtoWrite_matB now delay d = Ok (tt, d', [(now + delay, EvPoll)])
    /\ asked (B_addr_dm_ (sa_r d)) (add32 (B_addr_ (sa_r d)) SA_MEMORY_BASE)
         (size_cfg_B (sa_r d)) d d'
    /\ sa_r d' = sa_r d /\ sa_k d' = sa_k d /\ phase_ d' = phase_ d /\ resp_Q_ d' = resp_Q_ d.
Proof.
  unfold AskDMAtoWrite_matB. eexists. split.
  - erewrite M_bind_silent by reflexivity.
    do 4 (erewrite M_bind_silent by (by apply ask_write_ok)). reflexivity.
  - split; [|done]. unfold asked. simpl. by rewrite <- !app_assoc.
Qed.
(** ** The SRAM *)

Definition is_read_answer (t : Z) (caller : string) (beats : list XBarMemReadRespPayload) : packet :=
  let mode := Z.log2_up (Z.of_nat (length beats)) in
  ReadResp (XBarPacket t mode (burst_size mode) beats 2 (getIndex caller)).
Definition is_write_answer (t : Z) (caller : string) (beats : list XBarMemWriteRespPayload) : packet :=
  let mode := Z.log2_up (Z.of_nat (length beats)) in
  WriteResp (XBarPacket t mode (burst_size mode) beats 2 (getIndex caller)).

(** The value [v] read for a beat: kept, or sent with the others when the
    burst is complete. *)
Definition answer_read (p : XBarMemReadReqPayload) (v : Z) (d : SystolicArray) : SystolicArray :=
  let tk := sa_tracker (rq_tid p) d in
  let beats := rbeats tk ++ [ReadRespPayload (rq_tid p) (rq_i p) (rq_op p) v (rq_a1 p)] in
  if Z.of_nat (length beats) =? expected tk
  then push_resp (is_read_answer (rq_tid p) (rq_caller p) beats)
         (set_sapending (delete (rq_tid p)) d)
  else set_sapending (insert (rq_tid p) (Tracker (expected tk) beats (wbeats tk))) d.

Definition answer_write (p : XBarMemWriteReqPayload) (m : mem) (d : SystolicArray) : SystolicArray :=
  let tk := sa_tracker (wq_tid p) d in
  let beats := wbeats tk ++ [WriteRespPayload (wq_tid p) (wq_i p)] in
  set_sram m
    (if Z.of_nat (length beats) =? expected tk
     then push_resp (is_write_answer (wq_tid p) (wq_caller p) beats)
            (set_sapending (delete (wq_tid p)) d)
     else set_sapending (insert (wq_tid p) (Tracker (expected tk) (rbeats tk) beats)) d).

(** A refused access: an error, and no answer. *)
Definition refused (r : result (SystolicArray * list (Z * sa_event))) (d : SystolicArray) : Prop :=
  if error_halts then exists msg, r = Err (ErrorLogged msg) else r = Ok (d, []).

Lemma sram_read_ok p d v : Z.of_nat (length (sram_ d)) = memSize -> is_load (rq_op p) = true ->
  SA_MEMORY_BASE <= rq_addr p ->
  load (sram_ d) (rq_op p) (rq_addr p - SA_MEMORY_BASE) = Ok v ->
  outcome (SRAMReadReqHandler p) d = Ok (answer_read p v d, []).
Proof.
  intros Hl Hop Ha Hv. rewrite load_unfold in Hv by (done || lia).
  unfold in_range, getSize in Hv. rewrite Hl in Hv.
  destruct (Z.leb_spec (rq_addr p - SA_MEMORY_BASE + load_bytes (rq_op p)) memSize) as [Hr|]; [|done].
  assert (1 <= load_bytes (rq_op p)) by (revert Hop; by destruct (rq_op p)).
  unfold SRAMReadReqHandler, outcome. erewrite M_bind_silent by reflexivity. cbv zeta.
  rewrite (proj2 (Z.ltb_ge (rq_addr p) _)), (proj2 (Z.leb_gt (_ + memSize) _)) by lia.
  change sram_load_op with is_load. rewrite Hop. cbn [orb negb].
  rewrite (proj2 (Z.leb_gt memSize _)) by lia. injection Hv as ->.
  unfold answer_read. case_if; [|done].
  erewrite M_bind_silent by reflexivity.
  rewrite Construct_MemReadRespPkt_ok by (by destruct (rbeats _)).
  by erewrite M_bind_silent by reflexivity.
Qed.

Lemma sram_read_refused p d f : Z.of_nat (length (sram_ d)) = memSize ->
  (SA_MEMORY_BASE <= rq_addr p -> is_load (rq_op p) = true ->
   load (sram_ d) (rq_op p) (rq_addr p - SA_MEMORY_BASE) = Err f) ->
  refused (outcome (SRAMReadReqHandler p) d) d.
Proof.
  intros Hl Hv. unfold refused, SRAMReadReqHandler, outcome.
  erewrite M_bind_silent by reflexivity. cbv zeta. unfold log_error.
  destruct (_ || _) eqn:Ho; [destruct error_halts; eauto|].
  destruct (negb _) eqn:Hop; [destruct error_halts; eauto|].
  apply negb_false_iff in Hop. apply orb_false_iff in Ho as [Ho1%Z.ltb_ge Ho2%Z.leb_gt].
  specialize (Hv Ho1 Hop). rewrite load_unfold in Hv by (done || lia).
  unfold in_range, getSize in Hv. rewrite Hl in Hv.
  destruct (Z.leb_spec (rq_addr p - SA_MEMORY_BASE + load_bytes (rq_op p)) memSize); [done|].
  rewrite (proj2 (Z.leb_le memSize _)) by lia. destruct error_halts; eauto.
Qed.

Lemma sram_write_ok p d m : Z.of_nat (length (sram_ d)) = memSize -> is_store (wq_op p) = true ->
  SA_MEMORY_BASE <= wq_addr p ->
  store (sram_ d) (wq_op p) (wq_addr p - SA_MEMORY_BASE) (wq_data p) = Ok m ->
  outcome (SRAMWriteReqHandler p) d = Ok (answer_write p m d, []).
Proof.
  intros Hl Hop Ha Hv. rewrite store_unfold in Hv by done.
  unfold in_range, getSize in Hv. rewrite Hl in Hv.
  destruct (Z.leb_spec (wq_addr p - SA_MEMORY_BASE + store_bytes (wq_op p)) memSize) as [Hr|]; [|done].
  assert (1 <= store_bytes (wq_op p)) by (revert Hop; by destruct (wq_op p)).
  unfold SRAMWriteReqHandler, outcome. erewrite M_bind_silent by reflexivity. cbv zeta.
  rewrite (proj2 (Z.leb_le SA_MEMORY_BASE _)) by lia. erewrite M_bind_silent by reflexivity.
  rewrite (proj2 (Z.ltb_ge (wq_addr p) _)), (proj2 (Z.leb_gt (_ + memSize) _)) by lia.
  change sram_store_op with is_store. rewrite Hop. cbn [orb negb].
  rewrite (proj2 (Z.ltb_ge _ 0)), (proj2 (Z.ltb_ge memSize _)) by lia. cbn [orb].
  injection Hv as <-. erewrite M_bind_silent by reflexivity. unfold answer_write.
  case_if; [|done]. erewrite M_bind_silent by reflexivity.
  rewrite Construct_MemWriteRespPkt_ok by (by destruct (wbeats _)).
  by erewrite M_bind_silent by reflexivity.
Qed.
End Systolic_ports.

(** * Properties *)

Section Systolic_port_properties.
Context `{Framework} `{PR : PipeRegister}.
Implicit Types d : SystolicArray.

(** C21. The SRAM of the device is a memory at an offset: a load or a store at
    an address of its range is answered with what [load] and [store] give on
    the byte array; every other access is refused with an error and never
    answered. *)
Theorem sa_sram_is_memory p w d : Z.of_nat (length (sram_ d)) = memSize ->
  is_store (wq_op w) = true -> SA_MEMORY_BASE <= wq_addr w ->
  (if (SA_MEMORY_BASE <=? rq_addr p) && is_load (rq_op p) then
     match load (sram_ d) (rq_op p) (rq_addr p - SA_MEMORY_BASE) with
     | Ok v => outcome (SRAMReadReqHandler p) d = Ok (answer_read p v d, [])
     | Err _ => refused (outcome (SRAMReadReqHandler p) d) d
     end
   else refused (outcome (SRAMReadReqHandler p) d) d)
  /\ match store (sram_ d) (wq_op w) (wq_addr w - SA_MEMORY_BASE) (wq_data w) with
     | Ok m => outcome (SRAMWriteReqHandler w) d = Ok (answer_write w m d, [])
     | Err _ => refused (outcome (SRAMWriteReqHandler w) d) d
     end.
Proof.
  intros Hl Hw Hwa. split.
  - destruct ((_ <=? _) && _) eqn:Hc.
    + apply andb_true_iff in Hc as [Ha%Z.leb_le Hop]. destruct (load _ _ _) as [v|f] eqn:Hv.
      * by apply sram_read_ok.
      * by eapply sram_read_refused.
    + apply (sram_read_refused p d out_of_range Hl). intros Ha%Z.leb_le Hop.
      by rewrite Ha, Hop in Hc.
  - destruct (store _ _ _ _) as [m|f] eqn:Hs; [by apply sram_write_ok|].
    rewrite store_unfold in Hs by done. unfold in_range, getSize in Hs. rewrite Hl in Hs.
    destruct (Z.leb_spec (wq_addr w - SA_MEMORY_BASE + store_bytes (wq_op w)) memSize); [done|].
    unfold refused, SRAMWriteReqHandler, outcome, log_error.
    erewrite M_bind_silent by reflexivity. cbv zeta.
    rewrite (proj2 (Z.leb_le SA_MEMORY_BASE _)) by lia. erewrite M_bind_silent by reflexivity.
    destruct (_ || _); [destruct error_halts; eauto|].
    change sram_store_op with is_store. rewrite Hw. cbn [negb].
    rewrite (proj2 (Z.ltb_lt memSize _)) by lia. rewrite orb_true_r.
    destruct error_halts; eauto.
Qed.

(** A configuration that [initialized_transaction] accepts. *)
Definition startable (r : sa_regs) : Prop :=
  A_addr_ r mod 4 = 0 /\ B_addr_ r mod 4 = 0 /\ C_addr_ r mod 4 = 0
  /\ s32 (mul32 (M_ r) (K_ r)) <= 2048 /\ s32 (mul32 (K_ r) (N_ r)) <= 2048.

(** C19. Writing an odd value to ENABLE clears the matrices, acknowledges the
    write, and queues four writes that leave the DMA controller programmed
    to copy the K wide and M high operand from [A_addr_dm_] to the SRAM; the
    first poll is scheduled. *)
Theorem sa_enable_programs_dma p now delay d (c : Dma.DMAController) :
  Z.land (wq_addr p) 0x3F = 0 -> Z.odd (wq_data p) = true -> startable (sa_r d) ->
  1 <= K_ (sa_r d) <= 256 -> 1 <= M_ (sa_r d) <= 256 -> is_u 8 (strideA_ (sa_r d)) ->
  exists d' ack prog c', outcome (writeMMIO now delay p) d = Ok (d', [(now + delay, EvPoll)])
    /\ phase_ d' = READ_MAT_A /\ done_ (sa_r d') = false /\ enabled_ (sa_r d') = true
    /\ A_matrix (sa_k d') = zero_matrix /\ B_matrix (sa_k d') = zero_matrix
    /\ C_matrix (sa_k d') = zero_matrix
    /\ resp_Q_ d' = resp_Q_ d ++ [WriteResp ack] /\ pk_payloads ack = [WriteRespPayload (wq_tid p) (wq_i p)]
    /\ req_Q_ d' = req_Q_ d ++ map to_dma prog /\ length prog = 4%nat
    /\ run_all (map Dma.writeMMIO (take 3 prog)) c = Ok (c', [])
    /\ Dma.srcAddr (Dma.d_regs c') = A_addr_dm_ (sa_r d)
    /\ Dma.dstAddr (Dma.d_regs c') = add32 (A_addr_ (sa_r d)) SA_MEMORY_BASE
    /\ Dma.decode_geometry (Dma.dmaSizeCfg (Dma.d_regs c')) =
       Dma.DmaGeometry (K_ (sa_r d)) (M_ (sa_r d)) (strideA_ (sa_r d)) (strideA_ (sa_r d))
         (K_ (sa_r d) * M_ (sa_r d)).
Proof.
  intros Ha Hodd (A1 & A2 & A3 & S1 & S2) HK HM Hst.
  set (r0 := set_flags true false (sa_r d)).
  set (d1 := set_k (set_mats zero_matrix zero_matrix zero_matrix)
    (set_sz (SaSizes (s32 (mul32 (M_ r0) (K_ r0))) (s32 (mul32 (K_ r0) (N_ r0))) 0 0)
      (set_phase READ_MAT_A (set_r (set_flags true false) d)))).
  destruct (ask_A_ok now delay d1) as (d2 & E2 & Eq & Er & Ek & Ep & Ers).
  destruct (dma_takes_program (sa_ctr d1) (A_addr_dm_ (sa_r d1))
    (add32 (A_addr_ (sa_r d1)) SA_MEMORY_BASE) (size_cfg_A (sa_r d1)) c)
    as (c' & Ec & Hsrc & Hdst & Hcfg & _).
  eexists _, _, _, c'. split.
  { unfold writeMMIO, outcome. rewrite Ha, Hodd. cbn [Z.eqb]. unfold when.
    assert (Ei : initialized_transaction now delay d = Ok (tt, d2, [(now + delay, EvPoll)])).
    { unfold initialized_transaction. do 2 (erewrite M_bind_silent by reflexivity). cbv zeta.
      cbn [sa_r set_r set_flags A_addr_ B_addr_ C_addr_].
      rewrite (proj2 (Z.eqb_eq _ _) A1), (proj2 (Z.eqb_eq _ _) A2),
        (proj2 (Z.eqb_eq _ _) A3) by done. cbn [andb check].
      do 3 (erewrite M_bind_silent by reflexivity). cbn [M_ K_ N_ set_flags].
      rewrite (proj2 (Z.leb_le _ _) S1), (proj2 (Z.leb_le _ _) S2). cbn [andb check].
      do 2 (erewrite M_bind_silent by reflexivity). exact E2. }
    erewrite M_bind_eval by exact Ei. cbv zeta. rewrite Construct_MemWriteRespPkt_ok by done.
    erewrite M_bind_silent by reflexivity. reflexivity. }
  split_and!; simpl; rewrite ?Ep, ?Er, ?Ek, ?Ers; try done.
  rewrite Hcfg. simpl. rewrite size_cfg_A_ok by done. by apply decode_size_word.
Qed.

(** An answer to a poll. *)
Definition poll_answer (data : Z) (pkt : XBarMemReadRespPacket) : Prop :=
  pk_src pkt = 1%nat
  /\ exists p, pk_payloads pkt = [p] /\ o_imm (rr_a1 p) = poll_mark /\ rr_data p = data.

(** C20. A poll that finds the DMA controller busy is repeated and changes
    nothing; the first one that finds it done has the second operand
    requested, with the sizes of the first operand: its K columns by M rows,
    not the K rows by N columns of the second. *)
Theorem sa_poll_protocol junk pkt now delay d v : poll_answer v pkt -> phase_ d = READ_MAT_A ->
  1 <= K_ (sa_r d) <= 256 -> 1 <= M_ (sa_r d) <= 256 -> is_u 8 (strideB_ (sa_r d)) ->
  if v =? 1 then
    exists d' cfg, outcome (handleReadResponse now delay pkt) d = Ok (d', [(now + delay, EvPoll)])
      /\ phase_ d' = READ_MAT_B
      /\ req_Q_ d' = req_Q_ d ++ map to_dma (program (sa_ctr d) (B_addr_dm_ (sa_r d))
                                    (add32 (B_addr_ (sa_r d)) SA_MEMORY_BASE) cfg)
      /\ Dma.decode_geometry cfg =
         Dma.DmaGeometry (K_ (sa_r d)) (M_ (sa_r d)) (strideB_ (sa_r d)) (strideB_ (sa_r d))
           (K_ (sa_r d) * M_ (sa_r d))
  else outcome (handleReadResponse now delay pkt) d = Ok (d, [(now + delay, EvPoll)])
       /\ exists q, outcome (sa_fire junk (now + delay) delay EvPoll) d
            = Ok (set_ctr (s32 (sa_ctr d + 1)) (push_req (ReadReq q) d), [])
            /\ map rq_addr (pk_payloads q) = [DMA_DONE] /\ pk_dst q = 1%nat.
Proof.
  intros (Hsrc & p & Hp & Himm & <-) Hph HK HM Hst.
  assert (E : handleReadResponse now delay pkt d =
    (if rr_data p =? 1 then
       modify (set_phase READ_MAT_B);; AskDMAtoWrite_matB now delay
     else PokeDMAReady now delay) d).
  { unfold handleReadResponse. rewrite Hsrc. erewrite M_bind_silent by reflexivity.
    rewrite Hp, Himm, Z.eqb_refl. case_if; [|done].
    erewrite M_bind_silent by reflexivity. by rewrite Hph. }
  unfold outcome. rewrite E. case_if.
  - destruct (ask_B_ok now delay (set_phase READ_MAT_B d)) as (d' & E2 & Hq & _ & _ & Hp' & _).
    exists d', (size_cfg_B (sa_r d)). erewrite M_bind_silent by reflexivity. rewrite E2.
    split_and!; [done..|]. rewrite size_cfg_B_ok by done. by apply decode_size_word.
  - split; [done|]. eexists. split; [reflexivity|]. done.
Qed.

(** C40. The device takes a request off its queue whenever the register is not
    stalled, also when the register then refuses it: that request is lost. *)
Theorem sa_refused_request_lost {PL : PipeRegisterLaws PR} p q r d :
  req_Q_ d = p :: q -> resp_Q_ d = [] -> isStalled (m_req_ d) = false ->
  push (m_req_ d) p = (false, r) ->
  exists d', outcome masterPortRetry d = Ok (d', [])
    /\ req_Q_ d' = q /\ accepted (m_req_ d') = accepted (m_req_ d).
Proof.
  intros Hq Hr Hs Hp. unfold masterPortRetry, trySendPacket, outcome.
  erewrite M_bind_silent by reflexivity. rewrite Hq, Hs. cbn [negb when].
  erewrite M_bind_silent by reflexivity. erewrite M_bind_silent by reflexivity.
  cbn [resp_Q_ set_out]. rewrite Hr. eexists. split; [reflexivity|]. split; [done|].
  simpl. rewrite Hp. apply push_false in Hp. by rewrite Hp.
Qed.

(** Only the first quarter of the SRAM is reachable: an access above it is
    taken for a register access, which refuses a burst, and decodes a single
    beat by the low six bits of its address. *)
Theorem sa_window_truncated now delay tid mode (p : XBarMemReadReqPayload) ps d :
  SA_MEMORY_BASE + SA_SRAM_SIZE <= rq_addr p ->
  outcome (step_packet now delay
    (ReadReq (XBarPacket tid mode (Z.of_nat (length (p :: ps))) (p :: ps) 1 2))) d =
  match ps with
  | [] => Ok (set_expected tid 1 d, [(now + delay, EvReadMMIO p)])
  | _ => Err (AssertFailed "payload.size() == 1")
  end.
Proof.
  intros Ha. unfold step_packet, outcome. cbn [pk_payloads pk_burstSize pk_tid].
  rewrite Z.eqb_refl. do 3 (erewrite M_bind_silent by reflexivity).
  unfold schedule_access, toSram. rewrite (proj2 (Z.ltb_ge (rq_addr p) _)) by lia.
  rewrite andb_false_r. by destruct ps.
Qed.

(** The size registers do not read back what was written: a write stores
    each size field plus one, and a read returns the sizes themselves. *)
Theorem sa_size_readback (r : sa_regs) data r' : reg_write 0x8 data r = Some r' ->
  reg_read r' 0x8 =
  Some (Z.lor (u32 (Z.shiftl (Z.land (Z.shiftr data 16) 0xFFF + 1) 16)) (Z.land data 0xFFF + 1)).
Proof. by intros [= <-]. Qed.
End Systolic_port_properties.

(** * Witnesses *)

#[local] Existing Instance printing_framework.
#[local] Existing Instance SlotRegister.

Definition wp_task : TileTask := MkTask 0 0 0 0 0 0.
Definition wp_device (req : list packet) (reg : @preg SlotRegister) : @SystolicArray SlotRegister :=
  MkSA (SaRegs false true 3 4 5 0 64 128 0x1000 0x2000 0x3000 8 8 8)
    (SaCompute zero_matrix zero_matrix zero_matrix [] zero_tile zero_tile zero_tile false wp_task)
    (SaSizes 0 0 0 0) READ_MAT_A (replicate (Z.to_nat memSize) 0)
    (<[5 := Tracker 1 [] []]> ∅) [] reg empty_slot req [] 7.
Definition wp_read (op : instr_type) (addr : Z) : XBarMemReadReqPayload :=
  ReadReqPayload "dma" 5 auto_instr op addr auto_operand.
Definition wp_write (op : instr_type) (addr data : Z) : XBarMemWriteReqPayload :=
  WriteReqPayload "dma" 5 auto_instr op addr data.
Definition wp_dma : @Dma.DMAController SlotRegister :=
  Dma.MkDMA (Dma.DmaRegs false false 0 0 0) (Dma.DmaGeometry 1 1 0 0 1)
    (Dma.DmaTracking 0 0 0 0 0 0 (replicate 256 0) Dma.IDLE) [] [] empty_slot empty_slot 0.

Lemma sa_sram_is_memory_witness :
  let d := wp_device [] empty_slot in
  outcome (SRAMReadReqHandler (wp_read LW 0x20004)) d = Ok (answer_read (wp_read LW 0x20004) 0 d, []).
Proof.
  destruct (sa_sram_is_memory (wp_read LW 0x20004) (wp_write SW 0x20000 7)
    (wp_device [] empty_slot)) as [Hr _];
    [vm_compute; reflexivity|done|vm_compute; done|]. exact Hr.
Defined.

Lemma sa_enable_programs_dma_witness :
  let p := wp_write SW 0x12000 1 in
  let d := wp_device [] empty_slot in
  exists d' c', outcome (writeMMIO 10 2 p) d = Ok (d', [(12, EvPoll)])
    /\ Dma.srcAddr (Dma.d_regs c') = 0x1000 /\ Dma.dstAddr (Dma.d_regs c') = 0x20000
    /\ Dma.decode_geometry (Dma.dmaSizeCfg (Dma.d_regs (c' : @Dma.DMAController SlotRegister)))
       = Dma.DmaGeometry 4 3 8 8 12.
Proof.
  destruct (sa_enable_programs_dma (wp_write SW 0x12000 1) 10 2 (wp_device [] empty_slot) wp_dma)
    as (d' & ack & prog & c' & E & _ & _ & _ & _ & _ & _ & _ & _ & _ & _ & _ & Hs & Hd & Hg);
    [reflexivity|reflexivity|vm_compute; repeat split; congruence|simpl; lia|simpl; lia
    |vm_compute; repeat split; congruence|].
  exists d', c'. split; [exact E|]. split; [exact Hs|]. split; [exact Hd|]. exact Hg.
Defined.

Definition wp_answer (data : Z) : XBarMemReadRespPacket :=
  XBarPacket 4 0 1 [ReadRespPayload 4 auto_instr LW data (set_imm poll_mark auto_operand)] 1 2.

Lemma sa_poll_protocol_witness :
  let d := wp_device [] empty_slot in
  (exists d', outcome (handleReadResponse 10 2 (wp_answer 1)) d = Ok (d', [(12, EvPoll)])
     /\ phase_ d' = READ_MAT_B)
  /\ outcome (handleReadResponse 10 2 (wp_answer 0)) d = Ok (d, [(12, EvPoll)]).
Proof.
  assert (Ha : forall v, poll_answer v (wp_answer v)).
  { intros v. split; [reflexivity|]. eexists. split; [reflexivity|]. split; reflexivity. }
  split.
  - destruct (sa_poll_protocol (fun _ _ _ => V8 false 0) (wp_answer 1) 10 2
      (wp_device [] empty_slot) 1) as (d' & cfg & E & Hp & _);
      [apply Ha|reflexivity|simpl; lia|simpl; lia|vm_compute; repeat split; congruence|].
    exists d'. split; [exact E|exact Hp].
  - apply (sa_poll_protocol (fun _ _ _ => V8 false 0) (wp_answer 0) 10 2
      (wp_device [] empty_slot) 0);
      [apply Ha|reflexivity|simpl; lia|simpl; lia|vm_compute; repeat split; congruence].
Defined.

(** A register that is full but not stalled. *)
Lemma sa_refused_request_lost_witness :
  let p := to_dma (wp_write SW DMA_ENABLE 1) in
  let d := wp_device [p] (SlotReg true false []) in
  exists d', outcome masterPortRetry d = Ok (d', []) /\ req_Q_ d' = []
    /\ sr_taken (m_req_ d') = [].
Proof.
  apply (sa_refused_request_lost (PL := SlotRegisterLaws) (to_dma (wp_write SW DMA_ENABLE 1)) []
    (SlotReg true false [] : @preg SlotRegister)
    (wp_device [to_dma (wp_write SW DMA_ENABLE 1)] (SlotReg true false []))); reflexivity.
Defined.

Lemma sa_window_truncated_witness :
  let p := wp_read LW 0x22000 in
  outcome (step_packet 10 2 (ReadReq (XBarPacket 5 1 2 [p; p] 1 2))) (wp_device [] empty_slot)
  = Err (AssertFailed "payload.size() == 1").
Proof.
  apply (sa_window_truncated 10 2 5 1 (wp_read LW 0x22000) [wp_read LW 0x22000]).
  vm_compute. congruence.
Defined.

Lemma sa_size_readback_witness :
  let r := sa_r (wp_device [] empty_slot) in
  reg_read (set_dims 2 2 (N_ r) r) 0x8 = Some 0x20002.
Proof.
  apply (sa_size_readback (sa_r (wp_device [] empty_slot)) 0x10001). reflexivity.
Defined.
