(* ===== verification/MemPacket.v ===== *)
(** The memory packets of [src/riscv/] ([src/riscv/include/MemPacket.hh],
    [src/riscv/libs/MemPacket.cc]), the data memory that serves them at once
    ([src/riscv/libs/DataMemory.cc]) and the event that delivers one
    ([src/riscv/libs/event/MemReqEvent.cc]). *)
From S2P Require Import Prelude Machine DataStruct Memory.
Local Open Scope Z_scope.

(** * Packets *)

Record MemReadRespPacket : Type := MkMemReadResp {
  rr_i : instr; rr_op : instr_type; rr_data : Z; rr_a1 : operand;
}.

Record MemWriteRespPacket : Type := MkMemWriteResp { wr_i : instr }.

(** A [std::function] that takes a response; [None] is a null one. *)
Definition callback (R : Type) : Type := option (R -> result unit).

Record MemReadReqPacket : Type := MkMemReadReq {
  rq_i : instr; rq_op : instr_type; rq_addr : Z; rq_a1 : operand;
  rq_callback : callback MemReadRespPacket;
}.

Record MemWriteReqPacket : Type := MkMemWriteReq {
  wq_i : instr; wq_op : instr_type; wq_addr : Z; wq_data : Z;
  wq_callback : callback MemWriteRespPacket;
}.

(** [renew] overwrites every member of the object that the recycle container
    yields. *)
Definition MemReadReqPacket_renew (cb : callback MemReadRespPacket) (i : instr)
    (op : instr_type) (addr : Z) (a1 : operand) : MemReadReqPacket :=
  MkMemReadReq i op addr a1 cb.
Definition MemWriteReqPacket_renew (cb : callback MemWriteRespPacket) (i : instr)
    (op : instr_type) (addr data : Z) : MemWriteReqPacket :=
  MkMemWriteReq i op addr data cb.
Definition MemReadRespPacket_renew (i : instr) (op : instr_type) (data : Z) (a1 : operand)
    : MemReadRespPacket := MkMemReadResp i op data a1.
Definition MemWriteRespPacket_renew (i : instr) : MemWriteRespPacket := MkMemWriteResp i.

(** * The data memory *)

(** [memReadReqHandler] returns the value that is read. *)
Definition rv_memReadReqHandler (m : mem) (p : MemReadReqPacket) : result Z :=
  data ← readData m (rq_addr p) (load_bytes (rq_op p));
  Ok (load_value (rq_op p) data).

Definition rv_memWriteReqHandler (m : mem) (p : MemWriteReqPacket) : result mem :=
  let data := wq_data p in
  match wq_op p with
  | SB => writeData (le_bytes 1 (u8 data)) (wq_addr p) 1 m
  | SH => writeData (le_bytes 2 (u16 data)) (wq_addr p) 2 m
  | SW => writeData (le_bytes 4 (u32 data)) (wq_addr p) 4 m
  | _ => Ok m
  end.

Lemma rv_memRead_load m cb i op addr a1 :
  rv_memReadReqHandler m (MemReadReqPacket_renew cb i op addr a1) = load m op addr.
Proof. done. Qed.

Lemma rv_memWrite_store m cb i op addr v :
  rv_memWriteReqHandler m (MemWriteReqPacket_renew cb i op addr v) = store m op addr v.
Proof. done. Qed.

(** * Visits

    [accept] of a module calls the [visit] of the packet with the module,
    which tries a dynamic cast. A module is the data memory or another one. *)

Inductive SimModule : Type := ModDataMemory (m : mem) | ModOther.

Section Visits.
Context `{Framework}.

Definition MemReadReqPacket_visit (p : MemReadReqPacket) (module : SimModule)
    : result SimModule :=
  match module with
  | ModDataMemory m => rv_memReadReqHandler m p;; Ok module
  | ModOther => log_error "Invalid module type!";; Ok module
  end.

Definition MemWriteReqPacket_visit (p : MemWriteReqPacket) (module : SimModule)
    : result SimModule :=
  match module with
  | ModDataMemory m => m' ← rv_memWriteReqHandler m p; Ok (ModDataMemory m')
  | ModOther => log_error "Invalid module type!";; Ok module
  end.

(** The responses are sent by no one: every visit of one is an error, and so
    is a visit of a simulator by any memory packet. *)
Definition MemReadRespPacket_visit (p : MemReadRespPacket) (module : SimModule)
    : result SimModule :=
  log_error "void MemReadRespPacket::visit (SimModule& module) is not implemented yet!";;
  Ok module.
Definition MemWriteRespPacket_visit (p : MemWriteRespPacket) (module : SimModule)
    : result SimModule :=
  log_error "void MemWriteRespPacket::visit (SimModule& module) is not implemented yet!";;
  Ok module.

(** The packets an event can carry. *)
Inductive MemPacket : Type :=
  | PktReadReq (p : MemReadReqPacket)
  | PktWriteReq (p : MemWriteReqPacket)
  | PktReadResp (p : MemReadRespPacket)
  | PktWriteResp (p : MemWriteRespPacket).

Definition accept (module : SimModule) (p : MemPacket) : result SimModule :=
  match p with
  | PktReadReq p => MemReadReqPacket_visit p module
  | PktWriteReq p => MemWriteReqPacket_visit p module
  | PktReadResp p => MemReadRespPacket_visit p module
  | PktWriteResp p => MemWriteRespPacket_visit p module
  end.

(** No memory packet can visit a simulator. *)
Definition MemPacket_visit_SimBase (p : MemPacket) : result unit :=
  match p with
  | PktReadReq _ => log_error "void MemReadReqPacket::visit (SimBase& simulator) is not implemented yet!"
  | PktWriteReq _ => log_error "void MemWriteReqPacket::visit (SimBase& simulator) is not implemented yet!"
  | PktReadResp _ => log_error "void MemReadRespPacket::visit (SimBase& simulator) is not implemented yet!"
  | PktWriteResp _ => log_error "void MemWriteRespPacket::visit (SimBase& simulator) is not implemented yet!"
  end.

(** [MemReqEvent]: a request on its way to the data memory. *)
Record MemReqEvent : Type := MkMemReqEvent { me_callee : mem; me_memReqPkt : MemPacket }.

Definition MemReqEvent_process (e : MemReqEvent) : result SimModule :=
  accept (ModDataMemory (me_callee e)) (me_memReqPkt e).
End Visits.
