(* ===== verification/RvCpu.v ===== *)
(** The processor of the pipelined simulator ([src/riscv/libs/CPU.cc],
    [src/riscv/include/CPU.hh], [src/riscv/libs/SOC.cc]): it executes one
    instruction per event, memory accesses included, and hands a packet that
    describes the instruction to the timing model of the pipeline; while the
    first stage refuses a packet, no instruction is executed. *)
From S2P Require Import Prelude Machine DataStruct Memory Isa Reference MemPacket.
Local Open Scope Z_scope.

(** * Instruction packets

    Packets are objects that the processor and the stages share: a reference
    names one, and the heap holds their contents. *)

Record InstPacket : Type := MkInstPacket {
  ip_inst : instr;
  ip_pc : Z;
  ip_taken : bool;
}.

Abbreviation ref := nat (only parsing).
Abbreviation heap := (gmap nat InstPacket) (only parsing).

(** The recycle container of the framework: it yields an object that is not
    in use. *)
Class RecycleContainer : Type := {
  pool : Type;
  acquire : pool -> nat * pool;
  recycle : nat -> pool -> pool;
}.

Class RecycleContainerLaws `(RC : RecycleContainer) : Type := {
  in_use : pool -> gset nat;
  acquire_fresh : forall p r p', acquire p = (r, p') ->
    r ∉ in_use p /\ in_use p' = {[r]} ∪ in_use p;
  recycle_frees : forall r p, in_use (recycle r p) = in_use p ∖ {[r]};
}.

(** The port to the first stage. *)
Class MasterPort : Type := {
  mport : Type;
  mp_push : mport -> nat -> bool * mport;
}.

Class MasterPortLaws `(MP : MasterPort) : Type := {
  mp_taken : mport -> list nat;
  mp_push_true : forall p r p', mp_push p r = (true, p') -> mp_taken p' = mp_taken p ++ [r];
  mp_push_false : forall p r p', mp_push p r = (false, p') -> mp_taken p' = mp_taken p;
}.

(** The other end can take what the port holds; then it accepts. *)
Class MasterPortLive `(MP : MasterPort) {ML : MasterPortLaws MP} : Prop := {
  mp_drains : forall p, exists q, mp_taken q = mp_taken p /\ forall r, exists q', mp_push q r = (true, q');
}.

(** The event of the next instruction: its tick and its id. *)
Inductive rv_effect : Type := RvExecOneInstr (tick id : Z).

(** * The processor *)

Section Rv_cpu.
Context `{Framework} `{RC : RecycleContainer} `{MP : MasterPort}.

Record RvCPU : Type := MkRv {
  v_rf : list Z;
  v_pc : Z;
  v_inst_cnt : Z;
  v_imem : list instr;
  v_dmem : mem;
  v_heap : heap;
  v_pool : pool;
  v_port : mport;
  v_pending : option nat;
}.

Definition v_set_arch (rf : list Z) (m : mem) (s : RvCPU) : RvCPU :=
  MkRv rf (v_pc s) (v_inst_cnt s) (v_imem s) m (v_heap s) (v_pool s) (v_port s) (v_pending s).
Definition v_set_pc (pc : Z) (s : RvCPU) : RvCPU :=
  MkRv (v_rf s) pc (v_inst_cnt s) (v_imem s) (v_dmem s) (v_heap s) (v_pool s) (v_port s)
    (v_pending s).
Definition v_set_cnt (n : Z) (s : RvCPU) : RvCPU :=
  MkRv (v_rf s) (v_pc s) n (v_imem s) (v_dmem s) (v_heap s) (v_pool s) (v_port s) (v_pending s).
Definition v_set_heap (h : heap) (p : pool) (s : RvCPU) : RvCPU :=
  MkRv (v_rf s) (v_pc s) (v_inst_cnt s) (v_imem s) (v_dmem s) h p (v_port s) (v_pending s).
Definition v_set_port (p : mport) (pend : option nat) (s : RvCPU) : RvCPU :=
  MkRv (v_rf s) (v_pc s) (v_inst_cnt s) (v_imem s) (v_dmem s) (v_heap s) (v_pool s) p pend.

#[local] Abbreviation C := (M RvCPU rv_effect).

(** [memRead] calls the handler of the data memory ([MemPacket]) and gets the
    value back; [memWrite] has the memory accept the packet. *)
Definition memRead (rf : list Z) (m : mem) (i : instr) : result (list Z * mem) :=
  x ← rf_get (o_reg (i_a2 i)) rf;
  let pkt := MemReadReqPacket_renew None i (i_op i) (add32 x (o_imm (i_a3 i))) (i_a1 i) in
  data ← rv_memReadReqHandler m pkt;
  rf' ← rf_set (o_reg (i_a1 i)) data rf;
  Ok (rf', m).

Definition memWrite (rf : list Z) (m : mem) (i : instr) : result (list Z * mem) :=
  x ← rf_get (o_reg (i_a2 i)) rf;
  y ← rf_get (o_reg (i_a1 i)) rf;
  let pkt := MemWriteReqPacket_renew None i (i_op i) (add32 x (o_imm (i_a3 i))) y in
  dmem ← accept (ModDataMemory m) (PktWriteReq pkt);
  Ok (rf, match dmem with ModDataMemory m' => m' | ModOther => m end).

(** The switch of [processInstr]: registers, memory and [pc_next]. *)
Definition exec_switch (i : instr) (rf : list Z) (pc : Z) (m : mem)
    : result (list Z * mem * Z) :=
  let pc_next := add32 pc 4 in
  let rd := o_reg (i_a1 i) in
  match i_op i with
  | ADD | SUB | SLT | SLTU | AND | OR | XOR | SLL | SRL | SRA =>
      x ← rf_get (o_reg (i_a2 i)) rf; y ← rf_get (o_reg (i_a3 i)) rf;
      v ← alu_rr (i_op i) x y; rf' ← rf_set rd v rf;
      Ok (rf', m, pc_next)
  | ADDI | SLTI | SLTIU | ANDI | ORI | XORI | SLLI | SRLI | SRAI =>
      x ← rf_get (o_reg (i_a2 i)) rf;
      v ← alu_ri (i_op i) x (o_imm (i_a3 i)); rf' ← rf_set rd v rf;
      Ok (rf', m, pc_next)
  | BEQ | BGE | BGEU | BLT | BLTU | BNE =>
      x ← rf_get (o_reg (i_a1 i)) rf; y ← rf_get (o_reg (i_a2 i)) rf;
      Ok (rf, m, if branch_taken (i_op i) x y then o_imm (i_a3 i) else pc_next)
  | JAL =>
      rf' ← rf_set rd (add32 pc 4) rf; Ok (rf', m, o_imm (i_a2 i))
  | JALR =>
      rf' ← rf_set rd (add32 pc 4) rf;
      x ← rf_get (o_reg (i_a2 i)) rf';
      Ok (rf', m, add32 x (o_imm (i_a3 i)))
  | AUIPC =>
      rf' ← rf_set rd (add32 pc (u32 (Z.shiftl (o_imm (i_a2 i)) 12))) rf; Ok (rf', m, pc_next)
  | LUI =>
      rf' ← rf_set rd (u32 (Z.shiftl (o_imm (i_a2 i)) 12)) rf; Ok (rf', m, pc_next)
  | LB | LBU | LH | LHU | LW => '(rf', m') ← memRead rf m i; Ok (rf', m', pc_next)
  | SB | SH | SW => '(rf', m') ← memWrite rf m i; Ok (rf', m', pc_next)
  | _ => Ok (rf, m, pc_next)
  end.

(** [inst_cnt++] on an [int]. *)
Definition v_incrementInstCount : C unit :=
  s ← get;
  lift (check (v_inst_cnt s <? 2 ^ 31 - 1) (Undefined "inst_cnt overflow"));;
  put (v_set_cnt (v_inst_cnt s + 1) s).

Definition v_commitInstr (now : Z) (i : instr) (r : ref) : C unit :=
  s ← get;
  let '(ok, p) := mp_push (v_port s) r in
  put (v_set_port p (if ok then v_pending s else Some r) s);;
  when (ok && negb (bool_decide (i_op i = HCF)))
    (emit (RvExecOneInstr (now + 1) (v_inst_cnt s))).

(** [instPacket->isTakenBranch = true] *)
Definition mark_taken (r : ref) : C unit :=
  modify (fun s => v_set_heap
    (alter (fun k => MkInstPacket (ip_inst k) (ip_pc k) true) r (v_heap s)) (v_pool s) s).

Definition v_processInstr (now : Z) (i : instr) (r : ref) : C unit :=
  v_incrementInstCount;;
  s ← get;
  '(rf, m, pc_next) ← lift (exec_switch i (v_rf s) (v_pc s) (v_dmem s));
  modify (v_set_arch rf m);;
  v_commitInstr now i r;;
  when (negb (pc_next =? add32 (v_pc s) 4)) (mark_taken r);;
  modify (v_set_pc pc_next).

Definition v_fetchInstr (pc : Z) (s : RvCPU) : result instr :=
  from_opt (Undefined "imem") (v_imem s !! Z.to_nat (pc / 4)).

(** An acquired packet is renewed with the instruction and given the [pc]. *)
Definition v_execOneInstr (now : Z) : C unit :=
  s ← get;
  i ← lift (v_fetchInstr (v_pc s) s);
  let '(r, p) := acquire (v_pool s) in
  put (v_set_heap (<[r := MkInstPacket i (v_pc s) false]> (v_heap s)) p s);;
  v_processInstr now i r.

Definition retrySendInstPacket (now : Z) : C unit :=
  s ← get;
  match v_pending s with
  | None => mret tt
  | Some r =>
      let '(ok, p) := mp_push (v_port s) r in
      if ok then
        k ← lift (from_opt (Undefined "packet") (v_heap s !! r));
        put (v_set_port p None s);;
        when (negb (bool_decide (i_op (ip_inst k) = HCF)))
          (emit (RvExecOneInstr (now + 1) (v_inst_cnt s)))
      else
        put (v_set_port p (Some r) s);;
        lift (log_error "CPU::retrySendInstPacket() failed!")
  end.

(** [SOC::masterPortRetry]. *)
Definition soc_masterPortRetry (now : Z) (port_name : string) : C unit :=
  if decide (port_name = "sIF-m"%string) then retrySendInstPacket now else mret tt.

(** The constructor, with the instruction memory cleared, and the first event
    of [SOC::simInit]; the assembler has filled the memories in between. *)
Definition RvCPU_new (imem : list instr) (dmem : mem) (p : pool) (q : mport) : RvCPU :=
  MkRv (replicate 32 0) 0 0 imem dmem ∅ p q None.
Definition first_event (now : Z) : rv_effect := RvExecOneInstr (now + 1) 1.
End Rv_cpu.

(** Both accesses are those of [Memory]. *)
Lemma memRead_eq rf m i : memRead rf m i =
  (x ← rf_get (o_reg (i_a2 i)) rf; data ← load m (i_op i) (add32 x (o_imm (i_a3 i)));
   rf' ← rf_set (o_reg (i_a1 i)) data rf; Ok (rf', m)).
Proof. done. Qed.

Lemma memWrite_eq `{Framework} rf m i : memWrite rf m i =
  (x ← rf_get (o_reg (i_a2 i)) rf; y ← rf_get (o_reg (i_a1 i)) rf;
   m' ← store m (i_op i) (add32 x (o_imm (i_a3 i))) y; Ok (rf, m')).
Proof.
  unfold memWrite. destruct (rf_get (o_reg (i_a2 i)) rf) as [x|]; [|done].
  destruct (rf_get (o_reg (i_a1 i)) rf) as [y|]; [|done].
  cbn [mbind result_bind accept MemWriteReqPacket_visit]. rewrite rv_memWrite_store.
  by destruct (store m (i_op i) (add32 x (o_imm (i_a3 i))) y).
Qed.

(** * The switch and the reference *)

(** The instructions of [src/riscv/]. *)
Definition rv_conforming (clean : bool) (i : instr) (rf : list Z) : bool :=
  riscv_op (i_op i) && conforms clean i rf.

Section Switch.
Context `{Framework} (clean : bool) (i : instr) (v rf : list Z) (pc : Z) (m : mem).
Context (Hv : x0_view clean v rf) (Hpc : is_u 32 pc) (Hm : wf_mem m) (Hwu : wf_used i).
Context (Hc : rv_conforming clean i rf = true).

Lemma conf_split : riscv_op (i_op i) = true /\ conforms clean i rf = true.
Proof. by apply andb_prop. Qed.

Lemma source_get r : r ∈ sources i -> rf_get r v = Ok (xget rf r).
Proof. intros Hr. by apply (view_source clean i v rf r Hv Hwu (proj2 conf_split)). Qed.

Lemma source_range r : r ∈ sources i -> is_u 32 (xget rf r).
Proof. intros Hr. by apply (view_source clean i v rf r Hv Hwu (proj2 conf_split)). Qed.

(** The instruction does what the reference does. *)
Definition agrees (rf' : list Z) (m' : mem) (pc' : Z) : Prop :=
  exists v', exec_switch i v pc m = Ok (v', m', pc') /\ x0_view (clean_after clean i) v' rf'.

Lemma switch_rr x : is_rr (i_op i) = true ->
  rv32_rr (i_op i) (xget rf (o_reg (i_a2 i))) (xget rf (o_reg (i_a3 i))) = Some x ->
  agrees (xset (o_reg (i_a1 i)) x rf) m (add32 pc 4).
Proof.
  intros Hk Hval. assert (Es : sources i = [o_reg (i_a2 i); o_reg (i_a3 i)]) by (apply sources_rr; by rewrite Hk).
  assert (S2 : o_reg (i_a2 i) ∈ sources i) by (rewrite Es; left).
  assert (S3 : o_reg (i_a3 i) ∈ sources i) by (rewrite Es; right; left).
  destruct conf_split as [Hop (Hsltu & Hsh & _)%conforms_inv].
  rewrite Hk in Hsh.
  assert (Ha : alu_rr (i_op i) (xget rf (o_reg (i_a2 i))) (xget rf (o_reg (i_a3 i))) = Ok x)
    by (apply alu_rr_rv32; auto using source_range).
  pose proof (alu_rr_range _ _ _ _ (source_range _ S2) (source_range _ S3) Ha) as Hx.
  destruct (view_write clean i v rf x) as (v' & E & Hv'); try done;
    [by unfold writes_rd; rewrite Hk|unfold is_nop; by destruct (i_op i)|].
  exists v'. split; [|done]. unfold exec_switch.
  destruct (i_op i); try discriminate; rewrite (source_get _ S2); cbn [mbind result_bind];
    rewrite (source_get _ S3); cbn [mbind result_bind]; rewrite Ha; cbn [mbind result_bind]; by rewrite E.
Qed.

Lemma switch_ri x : is_ri (i_op i) = true ->
  rv32_rr (ri_rr (i_op i)) (xget rf (o_reg (i_a2 i))) (o_imm (i_a3 i)) = Some x ->
  agrees (xset (o_reg (i_a1 i)) x rf) m (add32 pc 4).
Proof.
  intros Hk Hval. assert (Es : sources i = [o_reg (i_a2 i)]) by (apply sources_one; by rewrite Hk).
  assert (S2 : o_reg (i_a2 i) ∈ sources i) by (rewrite Es; left).
  assert (I3 : is_u 32 (o_imm (i_a3 i))) by (apply (wu_imm3 i Hwu); unfold uses_imm3; by rewrite Hk).
  destruct conf_split as [_ (_ & Hsh & _)%conforms_inv].
  assert (is_rr (i_op i) = false) as Hnr by (by destruct (i_op i)). rewrite Hnr in Hsh.
  assert (Ha : alu_ri (i_op i) (xget rf (o_reg (i_a2 i))) (o_imm (i_a3 i)) = Ok x)
    by (apply alu_ri_rv32; auto using source_range).
  pose proof (alu_ri_range _ _ _ _ (source_range _ S2) I3 Ha) as Hx.
  destruct (view_write clean i v rf x) as (v' & E & Hv'); try done;
    [by unfold writes_rd; rewrite Hk, orb_true_r|intros Hn; by eapply nop_value|].
  exists v'. split; [|done]. unfold exec_switch.
  destruct (i_op i); try discriminate; rewrite (source_get _ S2); cbn [mbind result_bind];
    rewrite Ha; cbn [mbind result_bind]; by rewrite E.
Qed.

Lemma switch_branch t : is_branch (i_op i) = true ->
  rv32_branch (i_op i) (xget rf (o_reg (i_a1 i))) (xget rf (o_reg (i_a2 i))) = Some t ->
  agrees rf m (if t then o_imm (i_a3 i) else add32 pc 4).
Proof.
  intros Hk Ht%branch_taken_rv32. exists v.
  assert (clean_after clean i = clean) as ->.
  { unfold clean_after. revert Hk. by destruct clean, (i_op i). }
  split; [|done].
  assert (Es : sources i = [o_reg (i_a1 i); o_reg (i_a2 i)]) by (apply sources_two; by rewrite Hk).
  assert (S1 : o_reg (i_a1 i) ∈ sources i) by (rewrite Es; left).
  assert (S2 : o_reg (i_a2 i) ∈ sources i) by (rewrite Es; right; left). unfold exec_switch.
  destruct (i_op i); try discriminate; rewrite (source_get _ S1); cbn [mbind result_bind];
    rewrite (source_get _ S2); cbn [mbind result_bind]; by rewrite Ht.
Qed.

Lemma switch_jump rf' pc' : is_jump (i_op i) = true -> rv32_step i rf pc = Some (rf', pc') ->
  agrees rf' m pc'.
Proof.
  intros Hk Hstep. destruct conf_split as [_ (_ & _ & Hj & _)%conforms_inv].
  assert (is_nop i = false) as Hnn by (unfold is_nop; revert Hk; by destruct (i_op i)).
  destruct (view_write clean i v rf (add32 pc 4)) as (v' & E & Hv'); try done;
    [by apply uint_range|by unfold writes_rd; rewrite Hk, !orb_true_r|by rewrite Hnn|].
  exists v'. unfold rv32_step in Hstep.
  assert (S2 : i_op i = JALR -> o_reg (i_a2 i) ∈ sources i).
  { intros Ej. rewrite sources_one by (by rewrite Ej). left. }
  unfold exec_switch. destruct (i_op i) eqn:Ei; try discriminate; injection Hstep as <- <-;
    rewrite E; cbn [mbind result_bind]; (split; [|done]); [done|].
  destruct (Hj eq_refl) as [Hne He]. rewrite even_target by done.
  rewrite (rf_set_get _ _ _ _ _ (vw_wf _ _ _ Hv) E), (proj2 (Z.eqb_neq _ _)) by done.
  by rewrite (source_get _ (S2 eq_refl)).
Qed.

Lemma switch_upper rf' pc' : is_upper (i_op i) = true -> rv32_step i rf pc = Some (rf', pc') ->
  agrees rf' m pc'.
Proof.
  intros Hk Hstep.
  assert (is_nop i = false) as Hnn by (unfold is_nop; revert Hk; by destruct (i_op i)).
  assert (Hw : forall x, is_u 32 x -> exists v', rf_set (o_reg (i_a1 i)) x v = Ok v'
    /\ x0_view (clean_after clean i) v' (xset (o_reg (i_a1 i)) x rf)).
  { intros x Hx. apply view_write; try done; [by unfold writes_rd; rewrite Hk, !orb_true_r|by rewrite Hnn]. }
  unfold agrees, exec_switch. unfold rv32_step in Hstep.
  destruct (i_op i) eqn:Ei; try discriminate; injection Hstep as <- <-; rewrite Z.shiftl_mul_pow2 by lia.
  - destruct (Hw ((pc + o_imm (i_a2 i) * 4096) mod 2 ^ 32)) as (v' & E & Hv'); [by apply uint_range|].
    exists v'. split; [|done]. unfold add32. rewrite uint_add_r.
    change (uint 32 (pc + o_imm (i_a2 i) * 2 ^ 12)) with ((pc + o_imm (i_a2 i) * 4096) mod 2 ^ 32).
    by rewrite E.
  - destruct (Hw ((o_imm (i_a2 i) * 4096) mod 2 ^ 32)) as (v' & E & Hv'); [by apply uint_range|].
    exists v'. split; [|done].
    change (u32 (o_imm (i_a2 i) * 2 ^ 12)) with ((o_imm (i_a2 i) * 4096) mod 2 ^ 32). by rewrite E.
Qed.

Lemma switch_load x : is_load (i_op i) = true ->
  load m (i_op i) (add32 (xget rf (o_reg (i_a2 i))) (o_imm (i_a3 i))) = Ok x ->
  agrees (xset (o_reg (i_a1 i)) x rf) m (add32 pc 4).
Proof.
  intros Hk Hx. assert (Es : sources i = [o_reg (i_a2 i)]) by (apply sources_one; by rewrite Hk, orb_true_r).
  assert (S2 : o_reg (i_a2 i) ∈ sources i) by (rewrite Es; left).
  destruct (view_write clean i v rf x) as (v' & E & Hv'); try done;
    [by eapply load_range|unfold writes_rd; by rewrite Hk, !orb_true_r
    |unfold is_nop; revert Hk; by destruct (i_op i)|].
  exists v'. split; [|done]. unfold exec_switch. rewrite memRead_eq, (source_get _ S2).
  cbn [mbind result_bind]. rewrite Hx. cbn [mbind result_bind]. rewrite E. by destruct (i_op i).
Qed.

Lemma switch_store m' : is_store (i_op i) = true ->
  store m (i_op i) (add32 (xget rf (o_reg (i_a2 i))) (o_imm (i_a3 i))) (xget rf (o_reg (i_a1 i)))
  = Ok m' -> agrees rf m' (add32 pc 4).
Proof.
  intros Hk Hx. exists v.
  assert (clean_after clean i = clean) as ->.
  { unfold clean_after. revert Hk. by destruct clean, (i_op i). }
  split; [|done].
  assert (Es : sources i = [o_reg (i_a1 i); o_reg (i_a2 i)]) by (apply sources_two; by rewrite Hk, orb_true_r).
  assert (S1 : o_reg (i_a1 i) ∈ sources i) by (rewrite Es; left).
  assert (S2 : o_reg (i_a2 i) ∈ sources i) by (rewrite Es; right; left).
  unfold exec_switch. rewrite memWrite_eq, (source_get _ S2). cbn [mbind result_bind].
  rewrite (source_get _ S1). cbn [mbind result_bind]. rewrite Hx. by destruct (i_op i).
Qed.

(** The switch is the reference step. *)
Lemma exec_switch_ref rf' m' pc' :
  rv32_mstep i rf pc m = Some (rf', m', pc') -> agrees rf' m' pc'.
Proof.
  unfold rv32_mstep. change ((?x + ?y) mod 2 ^ 32) with (add32 x y).
  destruct (is_load (i_op i)) eqn:Hl; [|destruct (is_store (i_op i)) eqn:Hst].
  - destruct (load m (i_op i) _) as [x|] eqn:Hx; [|done]. intros [= <- <- <-]. by apply switch_load.
  - destruct (store m (i_op i) _ _) as [m1|] eqn:Hx; [|done]. intros [= <- <- <-]. by apply switch_store.
  - case_bool_decide as Eh.
    + intros [= <- <- <-]. exists v. unfold exec_switch, clean_after. rewrite Eh.
      cbn. by rewrite andb_true_r.
    + destruct (rv32_step i rf pc) as [[rf1 pc1]|] eqn:E; [|done]. intros [= <- <- <-].
      assert (Hkind : (is_rr (i_op i) || is_ri (i_op i) || is_branch (i_op i) || is_jump (i_op i)
        || is_upper (i_op i)) = true).
      { revert E. unfold rv32_step. by destruct (i_op i). }
      rewrite !orb_true_iff in Hkind. destruct Hkind as [[[[Hk|Hk]|Hk]|Hk]|Hk].
      * apply (rv32_step_rr i) in E as (x & Hx & -> & ->); [|done]. by apply switch_rr.
      * apply (rv32_step_ri i) in E as (x & Hx & -> & ->); [|done]. by apply switch_ri.
      * apply (rv32_step_branch i) in E as (t & Ht & -> & ->); [|done]. by apply switch_branch.
      * by apply switch_jump.
      * by apply switch_upper.
Qed.
End Switch.

(** * The reference machine

    It fetches from a function of the address, so that it runs the words of
    an instruction memory and, in [RvSource], the text of a program alike. *)

(** The packet that describes an executed instruction. *)
Definition trace_packet (i : instr) (pc pc' : Z) : InstPacket :=
  MkInstPacket i pc (negb (pc' =? add32 pc 4)).

(** It ends the program. *)
Definition is_hcf (k : InstPacket) : bool := bool_decide (i_op (ip_inst k) = HCF).

(** One instruction: the next state, and what the pipeline must be told.
    [None] outside of the instructions on which processor and reference
    agree. *)
Definition rv32_next (fetch : Z -> option instr) (x : rv_state) : option (rv_state * InstPacket) :=
  i ← fetch (x_pc x);
  if rv_conforming (x_clean x) i (x_rf x) then
    '(rf, m, pc) ← rv32_mstep i (x_rf x) (x_pc x) (x_mem x);
    Some (RvState rf pc m (clean_after (x_clean x) i), trace_packet i (x_pc x) pc)
  else None.

Fixpoint ref_run (n : nat) (fetch : Z -> option instr) (x : rv_state)
    : option (rv_state * list InstPacket) :=
  match n with
  | O => Some (x, [])
  | S n' =>
      '(x1, k) ← rv32_next fetch x;
      '(x', tr) ← ref_run n' fetch x1;
      Some (x', k :: tr)
  end.

Lemma rv32_next_inv fetch x x' k : rv32_next fetch x = Some (x', k) ->
  exists i, fetch (x_pc x) = Some i /\ rv_conforming (x_clean x) i (x_rf x) = true
    /\ rv32_mstep i (x_rf x) (x_pc x) (x_mem x) = Some (x_rf x', x_mem x', x_pc x')
    /\ x_clean x' = clean_after (x_clean x) i /\ k = trace_packet i (x_pc x) (x_pc x').
Proof.
  unfold rv32_next. destruct (fetch (x_pc x)) as [i|]; [|done]. cbn.
  destruct (rv_conforming _ _ _) eqn:Hc; [|done].
  destruct (rv32_mstep _ _ _ _) as [[[rf m] pc]|] eqn:Hs; [|done]. cbn. intros [= <- <-].
  by exists i.
Qed.

Lemma ref_run_S n fetch x x' tr : ref_run (S n) fetch x = Some (x', tr) ->
  exists x1 k tr1, rv32_next fetch x = Some (x1, k) /\ ref_run n fetch x1 = Some (x', tr1)
    /\ tr = k :: tr1.
Proof.
  cbn. destruct (rv32_next fetch x) as [[x1 k]|]; [|done]. cbn.
  destruct (ref_run n fetch x1) as [[x2 tr1]|] eqn:E; [|done]. cbn. intros [= <- <-].
  by exists x1, k, tr1.
Qed.

Lemma ref_run_app n1 n2 fetch x :
  ref_run (n1 + n2) fetch x =
  ('(x1, tr1) ← ref_run n1 fetch x; '(x2, tr2) ← ref_run n2 fetch x1; Some (x2, tr1 ++ tr2)).
Proof.
  revert x. induction n1 as [|n1 IH]; intros x; cbn.
  - by destruct (ref_run n2 fetch x) as [[]|].
  - destruct (rv32_next fetch x) as [[x1 k]|]; [|done]. cbn. rewrite IH.
    destruct (ref_run n1 fetch x1) as [[x2 tr1]|]; [|done]. cbn.
    by destruct (ref_run n2 fetch x2) as [[x3 tr2]|].
Qed.

Lemma ref_run_snoc n fetch x x' tr : ref_run (n + 1) fetch x = Some (x', tr) ->
  exists x1 tr1 k, ref_run n fetch x = Some (x1, tr1) /\ rv32_next fetch x1 = Some (x', k)
    /\ tr = tr1 ++ [k].
Proof.
  rewrite ref_run_app. destruct (ref_run n fetch x) as [[x1 tr1]|]; [|done]. cbn.
  destruct (rv32_next fetch x1) as [[x2 k]|] eqn:E; [|done]. cbn. intros [= <- <-].
  by exists x1, tr1, k.
Qed.

Lemma ref_run_length n fetch x x' tr : ref_run n fetch x = Some (x', tr) -> length tr = n.
Proof.
  revert x tr. induction n as [|n IH]; intros x tr; [by intros [= <- <-]|].
  intros (x1 & k & tr1 & _ & Hr & ->)%ref_run_S. cbn. by rewrite (IH _ _ Hr).
Qed.

(** * Lemmas: one instruction *)

Section Rv_cpu_lemmas.
Context `{Framework} `{RC : RecycleContainer} `{MP : MasterPort}.
Implicit Types s : RvCPU.

Lemma exec_ok now s i rf m pc r p ok q :
  v_fetchInstr (v_pc s) s = Ok i -> v_inst_cnt s < 2 ^ 31 - 1 ->
  exec_switch i (v_rf s) (v_pc s) (v_dmem s) = Ok (rf, m, pc) ->
  acquire (v_pool s) = (r, p) -> mp_push (v_port s) r = (ok, q) ->
  outcome (v_execOneInstr now) s =
  Ok (MkRv rf pc (v_inst_cnt s + 1) (v_imem s) m
        (<[r := trace_packet i (v_pc s) pc]> (v_heap s)) p q
        (if ok then v_pending s else Some r),
      if ok && negb (bool_decide (i_op i = HCF))
      then [RvExecOneInstr (now + 1) (v_inst_cnt s + 1)] else []).
Proof.
  intros Hf Hc He Ha Hp. unfold v_execOneInstr, outcome.
  erewrite M_bind_silent by reflexivity. rewrite Hf. erewrite M_bind_silent by reflexivity.
  rewrite Ha. erewrite M_bind_silent by reflexivity. unfold v_processInstr.
  erewrite M_bind_silent.
  2: { unfold v_incrementInstCount. erewrite M_bind_silent by reflexivity. simpl v_inst_cnt.
       rewrite (proj2 (Z.ltb_lt _ _)) by exact Hc. by erewrite M_bind_silent by reflexivity. }
  erewrite M_bind_silent by reflexivity. simpl v_rf. simpl v_pc. simpl v_dmem. rewrite He.
  erewrite M_bind_silent by reflexivity. cbv beta iota.
  erewrite M_bind_silent by reflexivity.
  unfold v_commitInstr, mark_taken, trace_packet. simpl. step_monad. rewrite Hp.
  destruct ok, (bool_decide (i_op i = HCF)), (pc =? add32 (v_pc s) 4); simpl; try done;
    unfold v_set_pc, v_set_heap, v_set_port, v_set_arch, v_set_cnt; simpl;
    by rewrite alter_insert_eq.
Qed.

(** ** A step of the processor is one of the reference *)

(** The processor is in a state of the reference, within the ranges that the
    C++ types guarantee. *)
Record simulates (x : rv_state) (s : RvCPU) : Prop := {
  sim_view : x0_view (x_clean x) (v_rf s) (x_rf x);
  sim_pc : v_pc s = x_pc x;
  sim_mem : v_dmem s = x_mem x;
  sim_pc_range : is_u 32 (v_pc s);
  sim_mem_range : wf_mem (v_dmem s);
  sim_imem : Forall wf_used (v_imem s);
}.

(** A state in which register 0 holds zero is in a state of the reference. *)
Lemma simulates_self s : wf_rf (v_rf s) -> x0_zero (v_rf s) -> is_u 32 (v_pc s) ->
  wf_mem (v_dmem s) -> Forall wf_used (v_imem s) ->
  simulates (RvState (v_rf s) (v_pc s) (v_dmem s) true) s.
Proof. intros W1 W2 W3 W4 W5. split; try done. split; try done. by destruct W1. Qed.

Lemma exec_switch_wf i rf pc m rf' m' pc' :
  wf_rf rf -> is_u 32 pc -> wf_mem m -> wf_used i ->
  exec_switch i rf pc m = Ok (rf', m', pc') ->
  wf_rf rf' /\ is_u 32 pc' /\ wf_mem m'.
Proof.
  intros Hrf Hpc Hm [_ _ I2 I3]. unfold exec_switch.
  assert (Hn : forall x y, is_u 32 (add32 x y)) by (intros; by apply uint_range).
  destruct (i_op i) eqn:Ei; rewrite ?memRead_eq, ?memWrite_eq; intros Hs;
    try specialize (I2 eq_refl); try specialize (I3 eq_refl);
    repeat (apply bind_ok in Hs as (? & ? & Hs) || destruct_and?);
    repeat match goal with
      | x : _ * _ |- _ => destruct x
      | Hb : (_ ≫= _) = Ok _ |- _ => apply bind_ok in Hb as (? & ? & Hb)
      | Hb : Ok _ = Ok _ |- _ => injection Hb as; subst
      end; split_and?; try done; try apply Hn;
    try (eapply rf_set_wf; [done| |eassumption];
         first [ eapply alu_rr_range; [| |eassumption]; by eapply rf_get_range
               | eapply alu_ri_range; [| |eassumption]; [by eapply rf_get_range|done]
               | by eapply load_range | apply Hn | by apply uint_range ]);
    try (case_if; done || apply Hn);
    try (by eapply store_wf).
Qed.

(** The processor after an executed instruction. *)
Definition executed (s : RvCPU) (rf : list Z) (pc : Z) (m : mem) (r : nat) (k : InstPacket)
    (p : pool) (ok : bool) (q : mport) : RvCPU :=
  MkRv rf pc (v_inst_cnt s + 1) (v_imem s) m (<[r := k]> (v_heap s)) p q
    (if ok then v_pending s else Some r).

Lemma exec_simulates now x s x' k r p ok q :
  simulates x s -> rv32_next (fetch_imem (v_imem s)) x = Some (x', k) ->
  v_inst_cnt s < 2 ^ 31 - 1 -> acquire (v_pool s) = (r, p) -> mp_push (v_port s) r = (ok, q) ->
  exists rf, outcome (v_execOneInstr now) s =
    Ok (executed s rf (x_pc x') (x_mem x') r k p ok q,
        if ok && negb (bool_decide (i_op (ip_inst k) = HCF))
        then [RvExecOneInstr (now + 1) (v_inst_cnt s + 1)] else [])
    /\ simulates x' (executed s rf (x_pc x') (x_mem x') r k p ok q).
Proof.
  intros [S1 S2 S3 S4 S5 S6] (i & Hi & Hc & Hs & Ecl & ->)%rv32_next_inv Hcnt Ha Hq.
  assert (Hwi : wf_used i) by (by apply (Forall_lookup_1 _ _ _ _ S6 Hi)).
  rewrite <- S2, <- S3 in Hs.
  assert (Hag : agrees (x_clean x) i (v_rf s) (v_pc s) (v_dmem s) (x_rf x') (x_mem x') (x_pc x'))
    by (by apply (exec_switch_ref _ _ _ (x_rf x))).
  destruct Hag as (rf & Hex & Hv).
  pose proof (exec_switch_wf _ _ _ _ _ _ _ (vw_wf _ _ _ S1) S4 S5 Hwi Hex) as (_ & W2 & W3).
  exists rf. split; [|split; cbn; try done; by rewrite Ecl].
  rewrite (exec_ok now s i rf (x_mem x') (x_pc x') r p ok q); try done.
  - unfold executed. by rewrite S2.
  - unfold v_fetchInstr. unfold fetch_imem in Hi. by rewrite S2, Hi.
Qed.
End Rv_cpu_lemmas.

(** * Runs *)

Section Rv_runs.
Context `{Framework} `{RC : RecycleContainer} {RL : RecycleContainerLaws RC}.
Context `{MP : MasterPort} {ML : MasterPortLaws MP}.
Implicit Types s : RvCPU.

(** *** Any number of instructions *)

Lemma simulates_ext x s s' : simulates x s -> v_rf s' = v_rf s -> v_pc s' = v_pc s ->
  v_dmem s' = v_dmem s -> v_imem s' = v_imem s -> simulates x s'.
Proof. intros [S1 S2 S3 S4 S5 S6] E1 E2 E3 E4. split; by rewrite ?E1, ?E2, ?E3, ?E4. Qed.

(** [s] has executed the instructions of the packets [ex] since [s0]: as long
    as the reference has a next step from [x0], they are those of the
    reference, and the processor is in its state. *)
Record follows (x0 : rv_state) (s0 : RvCPU) (ex : list InstPacket) (s : RvCPU) : Prop := {
  fo_imem : v_imem s = v_imem s0;
  fo_count : v_inst_cnt s = v_inst_cnt s0 + Z.of_nat (length ex);
  fo_ref : forall x tr, ref_run (length ex) (fetch_imem (v_imem s0)) x0 = Some (x, tr) ->
    ex = tr /\ simulates x s;
}.

Lemma follows_start x0 s : simulates x0 s -> follows x0 s [] s.
Proof. intros Hsim. split; cbn; [done|lia|]. by intros x tr [= <- <-]. Qed.

(** Only these parts of the processor matter. *)
Lemma follows_ext x0 s0 ex s s' : follows x0 s0 ex s -> v_rf s' = v_rf s -> v_pc s' = v_pc s ->
  v_dmem s' = v_dmem s -> v_imem s' = v_imem s -> v_inst_cnt s' = v_inst_cnt s -> follows x0 s0 ex s'.
Proof.
  intros [F1 F2 F3] E1 E2 E3 E4 E5. split; [congruence|congruence|].
  intros x tr Hr. destruct (F3 _ _ Hr) as [-> Hsim]. split; [done|]. by eapply simulates_ext.
Qed.

(** ** Back-pressure *)

(** The processor and the framework: the events that wait to be fired, and
    the packets of the instructions executed so far. The framework fires an
    event, or tells the processor to retry, at any time. *)
Record rv_system : Type := RvSystem {
  y_cpu : RvCPU;
  y_events : list rv_effect;
  y_executed : list nat;
}.

Inductive sys_step : rv_system -> rv_system -> Prop :=
  | sys_exec s s' t id evs w ex :
      outcome (v_execOneInstr t) s = Ok (s', w) ->
      sys_step (RvSystem s (RvExecOneInstr t id :: evs) ex)
        (RvSystem s' (evs ++ w) (ex ++ [(acquire (v_pool s)).1]))
  | sys_retry s s' now evs w ex :
      outcome (soc_masterPortRetry now "sIF-m") s = Ok (s', w) ->
      sys_step (RvSystem s evs ex) (RvSystem s' (evs ++ w) ex).

Definition option_list (o : option nat) : list nat := match o with Some r => [r] | None => [] end.

(** Every executed instruction is at the port or pending; while one is
    pending no event is outstanding, and there is never more than one. *)
Definition sys_inv (taken0 : list nat) (y : rv_system) : Prop :=
  mp_taken (v_port (y_cpu y)) ++ option_list (v_pending (y_cpu y)) = taken0 ++ y_executed y
  /\ (length (y_events y) + length (option_list (v_pending (y_cpu y))) <= 1)%nat.

Lemma exec_inv now s s' w : outcome (v_execOneInstr now) s = Ok (s', w) ->
  exists i rf m pc r p ok q, v_fetchInstr (v_pc s) s = Ok i /\ v_inst_cnt s < 2 ^ 31 - 1
    /\ exec_switch i (v_rf s) (v_pc s) (v_dmem s) = Ok (rf, m, pc)
    /\ acquire (v_pool s) = (r, p) /\ mp_push (v_port s) r = (ok, q)
    /\ s' = executed s rf pc m r (trace_packet i (v_pc s) pc) p ok q
    /\ w = (if ok && negb (bool_decide (i_op i = HCF))
            then [RvExecOneInstr (now + 1) (v_inst_cnt s + 1)] else []).
Proof.
  intros E. destruct (v_fetchInstr (v_pc s) s) as [i|f] eqn:Hf.
  2: { unfold v_execOneInstr, outcome in E. erewrite M_bind_silent in E by reflexivity.
       by rewrite Hf in E. }
  destruct (acquire (v_pool s)) as [r p] eqn:Ha.
  destruct (mp_push (v_port s) r) as [ok q] eqn:Hq.
  destruct (Z.ltb_spec (v_inst_cnt s) (2 ^ 31 - 1)) as [Hc|Hc].
  2: { unfold v_execOneInstr, outcome in E. erewrite M_bind_silent in E by reflexivity.
       rewrite Hf in E. erewrite M_bind_silent in E by reflexivity. rewrite Ha in E.
       erewrite M_bind_silent in E by reflexivity.
       unfold v_processInstr, v_incrementInstCount in E. revert E. step_monad.
       by rewrite (proj2 (Z.ltb_ge _ _)) by exact Hc. }
  destruct (exec_switch i (v_rf s) (v_pc s) (v_dmem s)) as [[[rf m] pc]|f] eqn:He.
  2: { unfold v_execOneInstr, outcome in E. erewrite M_bind_silent in E by reflexivity.
       rewrite Hf in E. erewrite M_bind_silent in E by reflexivity. rewrite Ha in E.
       erewrite M_bind_silent in E by reflexivity.
       unfold v_processInstr, v_incrementInstCount in E. revert E. step_monad.
       rewrite (proj2 (Z.ltb_lt _ _)) by exact Hc. simpl. by rewrite He. }
  rewrite (exec_ok now s i rf m pc r p ok q) in E by done. injection E as <- <-.
  by exists i, rf, m, pc, r, p, ok, q.
Qed.

Lemma follows_exec now x0 s0 ex s s' w k : outcome (v_execOneInstr now) s = Ok (s', w) ->
  v_heap s' !! (acquire (v_pool s)).1 = Some k -> follows x0 s0 ex s -> follows x0 s0 (ex ++ [k]) s'.
Proof.
  intros E Hk [F1 F2 F3]. pose proof E as E0.
  apply exec_inv in E as (i & rf & m & pc & r & pl & ok & q & _ & Hc & _ & Ha & Hq & -> & _).
  rewrite Ha in Hk. cbn in Hk. rewrite lookup_insert_eq in Hk. injection Hk as <-.
  split; cbn; [done|rewrite F2, length_app; cbn; lia|].
  intros x tr. rewrite length_app. intros (x1 & tr1 & k & H1 & H2 & ->)%ref_run_snoc.
  destruct (F3 _ _ H1) as [<- Hsim]. rewrite <- F1 in H2.
  destruct (exec_simulates now x1 s x k r pl ok q Hsim H2 Hc Ha Hq) as (rf' & E1 & Hsim').
  rewrite E0 in E1. injection E1 as Erf Epc Em Eh _.
  split; [|by eapply simulates_ext; [exact Hsim'|..]; cbn; rewrite ?Erf, ?Epc, ?Em].
  do 2 f_equal. pose proof (f_equal (lookup r) Eh) as Ek. rewrite !lookup_insert_eq in Ek.
  by injection Ek.
Qed.

Lemma retry_inv now s s' w : outcome (soc_masterPortRetry now "sIF-m") s = Ok (s', w) ->
  match v_pending s with
  | None => s' = s /\ w = []
  | Some r =>
      exists ok q, mp_push (v_port s) r = (ok, q)
        /\ s' = v_set_port q (if ok then None else Some r) s
        /\ (if ok
            then exists k, v_heap s !! r = Some k
              /\ w = (if bool_decide (i_op (ip_inst k) = HCF) then []
                      else [RvExecOneInstr (now + 1) (v_inst_cnt s)])
            else w = [])
  end.
Proof.
  unfold soc_masterPortRetry. rewrite decide_True by done. unfold retrySendInstPacket.
  destruct (v_pending s) as [r|] eqn:Hp; intros E.
  2: { revert E. step_monad. rewrite Hp. simpl. by intros [= <- <-]. }
  destruct (mp_push (v_port s) r) as [ok q] eqn:Hq. exists ok, q.
  revert E. step_monad. rewrite Hp, Hq. destruct ok; simpl.
  - destruct (v_heap s !! r) as [k|]; simpl; [|done].
    intros E. split_and!; [done| |exists k; split; [done|]]; revert E;
      case_bool_decide; simpl; by intros [= <- <-].
  - unfold log_error. destruct error_halts; [done|]. simpl. by intros [= <- <-].
Qed.

Lemma follows_retry now x0 s0 ex s s' w : outcome (soc_masterPortRetry now "sIF-m") s = Ok (s', w) ->
  follows x0 s0 ex s -> follows x0 s0 ex s'.
Proof.
  intros E%retry_inv F. destruct (v_pending s) as [r|]; [|by destruct E as [-> _]].
  destruct E as (ok & q & _ & -> & _). by eapply follows_ext.
Qed.

Lemma retry_ok now s r k q : v_pending s = Some r -> v_heap s !! r = Some k ->
  mp_push (v_port s) r = (true, q) ->
  outcome (soc_masterPortRetry now "sIF-m") s =
  Ok (v_set_port q None s, if bool_decide (i_op (ip_inst k) = HCF) then []
                           else [RvExecOneInstr (now + 1) (v_inst_cnt s)]).
Proof.
  intros Hp Hk Hq. unfold soc_masterPortRetry. rewrite decide_True by done.
  unfold retrySendInstPacket. step_monad. rewrite Hp, Hq. simpl. rewrite Hk. simpl.
  by case_bool_decide.
Qed.

Lemma sys_step_inv taken0 y y' : sys_step y y' -> sys_inv taken0 y -> sys_inv taken0 y'.
Proof.
  intros [s s' t id evs w ex E|s s' now evs w ex E] [I1 I2]; simpl in *; split; simpl.
  - apply exec_inv in E as (i & rf & m & pc & r & p & ok & q & _ & _ & _ & Ha & Hq & -> & _).
    rewrite Ha. simpl.
    destruct (v_pending s); [simpl in I2; lia|]. simpl in I1. rewrite app_nil_r in I1.
    rewrite app_assoc, <- I1. destruct ok.
    + apply mp_push_true in Hq. by rewrite Hq, app_nil_r.
    + apply mp_push_false in Hq. by rewrite Hq.
  - apply exec_inv in E as (i & rf & m & pc & r & p & ok & q & _ & _ & _ & Ha & Hq & -> & ->).
    simpl. destruct (v_pending s); simpl in I2; [lia|]. destruct evs; [|simpl in I2; lia].
    destruct ok, (bool_decide (i_op i = HCF)); simpl; lia.
  - apply retry_inv in E. destruct (v_pending s) as [r|] eqn:Hp.
    + destruct E as (ok & q & Hq & -> & _). rewrite <- I1. destruct ok; simpl.
      * apply mp_push_true in Hq. by rewrite Hq, app_nil_r.
      * apply mp_push_false in Hq. by rewrite Hq.
    + destruct E as [-> ->]. by rewrite Hp.
  - apply retry_inv in E. rewrite length_app. destruct (v_pending s) as [r|] eqn:Hp.
    + destruct E as (ok & q & Hq & -> & Hw).
      destruct ok; [destruct Hw as (k & _ & ->); case_bool_decide|rewrite Hw]; simpl in *; lia.
    + destruct E as [-> ->]. rewrite Hp. simpl in *. lia.
Qed.

(** ** Runs in any environment *)

(** The processor, its events and the packets of what it has executed, while
    the rest of the simulator takes packets from the port and recycles. *)
Record rv_run : Type := RvRun {
  u_cpu : RvCPU;
  u_events : list rv_effect;
  u_executed : list InstPacket;
}.

Inductive run_step : rv_run -> rv_run -> Prop :=
  | run_event s evs1 evs2 ex t id s' w k :
      outcome (v_execOneInstr t) s = Ok (s', w) -> v_heap s' !! (acquire (v_pool s)).1 = Some k ->
      run_step (RvRun s (evs1 ++ RvExecOneInstr t id :: evs2) ex) (RvRun s' (evs1 ++ evs2 ++ w) (ex ++ [k]))
  | run_retry s evs ex now s' w :
      outcome (soc_masterPortRetry now "sIF-m") s = Ok (s', w) ->
      run_step (RvRun s evs ex) (RvRun s' (evs ++ w) ex)
  | run_elsewhere s evs ex l q : mp_taken q = mp_taken (v_port s) ->
      run_step (RvRun s evs ex)
        (RvRun (MkRv (v_rf s) (v_pc s) (v_inst_cnt s) (v_imem s) (v_dmem s) (v_heap s) l q (v_pending s)) evs ex).

(** What the processor waits for: the next event, a retry, or nothing after
    the last instruction. *)
Definition waits (y : rv_run) : Prop :=
  match v_pending (u_cpu y), u_events y with
  | None, [] => exists k, last (u_executed y) = Some k /\ is_hcf k = true
  | None, [_] => forall k, last (u_executed y) = Some k -> is_hcf k = false
  | Some r, [] => exists k, v_heap (u_cpu y) !! r = Some k /\ last (u_executed y) = Some k
  | _, _ => False
  end.

Record run_inv (x0 : rv_state) (s0 : RvCPU) (y : rv_run) : Prop := {
  ri_follows : follows x0 s0 (u_executed y) (u_cpu y);
  ri_waits : waits y;
}.

Lemma waits_event s evs1 evs2 ex t id s' w k :
  outcome (v_execOneInstr t) s = Ok (s', w) -> v_heap s' !! (acquire (v_pool s)).1 = Some k ->
  waits (RvRun s (evs1 ++ RvExecOneInstr t id :: evs2) ex) -> waits (RvRun s' (evs1 ++ evs2 ++ w) (ex ++ [k])).
Proof.
  intros (i & rf & m & pc & r & p & ok & q & _ & _ & _ & Ha & _ & -> & ->)%exec_inv Hk.
  rewrite Ha in Hk. cbn in Hk. rewrite lookup_insert_eq in Hk. injection Hk as <-.
  unfold waits. cbn. rewrite last_snoc.
  destruct (v_pending s); [by destruct evs1|].
  destruct evs1 as [|e evs1]; [|by destruct evs1]. destruct evs2; [|done]. cbn. intros _.
  destruct ok; cbn; [|eexists; split; [apply lookup_insert_eq|done]].
  destruct (bool_decide (i_op i = HCF)) eqn:Eh; cbn; [by eexists|]. by intros k [= <-].
Qed.

Lemma waits_retry s evs ex now s' w : outcome (soc_masterPortRetry now "sIF-m") s = Ok (s', w) ->
  waits (RvRun s evs ex) -> waits (RvRun s' (evs ++ w) ex).
Proof.
  intros E%retry_inv. unfold waits. cbn. destruct (v_pending s) as [r|] eqn:Hp.
  2: { destruct E as [-> ->]. by rewrite app_nil_r, Hp. }
  destruct E as (ok & q & _ & -> & Hw). destruct evs; [|done]. intros (k & Hk & Hl).
  destruct ok; cbn; [|rewrite Hw; cbn; by exists k]. destruct Hw as (k' & Hk' & ->). simplify_eq.
  change (bool_decide (i_op (ip_inst k') = HCF)) with (is_hcf k').
  destruct (is_hcf k') eqn:Eh; [by exists k'|]. intros k2 Hk2. congruence.
Qed.

Lemma run_step_inv x0 s0 y y' : run_step y y' -> run_inv x0 s0 y -> run_inv x0 s0 y'.
Proof.
  intros [s evs1 evs2 ex t id s' w k E Hk|s evs ex now s' w E|s evs ex l q Hq] [F W]; split; cbn in *.
  - by eapply follows_exec.
  - by eapply waits_event.
  - by eapply follows_retry.
  - by eapply waits_retry.
  - by eapply follows_ext.
  - exact W.
Qed.

Lemma run_reach_inv x0 s0 y y' : rtc run_step y y' -> run_inv x0 s0 y -> run_inv x0 s0 y'.
Proof. induction 1 as [|y1 y2 y3 H12 _ IH]; [done|]. intros I. by eapply IH, run_step_inv. Qed.

(** If the reference has a next step, an event or a pending packet leads to
    it. *)
Lemma run_next {PV : MasterPortLive MP} x0 s0 y x tr : run_inv x0 s0 y ->
  ref_run (length (u_executed y) + 1) (fetch_imem (v_imem s0)) x0 = Some (x, tr) ->
  v_inst_cnt s0 + Z.of_nat (length (u_executed y)) < 2 ^ 31 - 1 ->
  (forall k, last (u_executed y) = Some k -> is_hcf k = false) ->
  exists y', rtc run_step y y' /\ length (u_executed y') = (length (u_executed y) + 1)%nat.
Proof.
  intros I Hr Hc Hl.
  assert (Hev : forall y, run_inv x0 s0 y ->
    ref_run (length (u_executed y) + 1) (fetch_imem (v_imem s0)) x0 = Some (x, tr) ->
    v_inst_cnt s0 + Z.of_nat (length (u_executed y)) < 2 ^ 31 - 1 -> u_events y <> [] ->
    exists y', run_step y y' /\ length (u_executed y') = (length (u_executed y) + 1)%nat).
  { clear. intros [s [|[t id] evs] ex] [[F1 F2 F3] _] Hr Hc Hne; cbn in *; [done|].
    apply ref_run_snoc in Hr as (x1 & tr1 & k & H1 & H2 & ->). destruct (F3 _ _ H1) as [<- Hsim].
    rewrite <- F1 in H2. destruct (acquire (v_pool s)) as [r p] eqn:Ha.
    destruct (mp_push (v_port s) r) as [ok q] eqn:Hq.
    destruct (exec_simulates t x1 s x k r p ok q Hsim H2 ltac:(lia) Ha Hq) as (rf & E & _).
    eexists. split; [apply (run_event s [] evs ex t id _ _ k E)|cbn; by rewrite length_app].
    rewrite Ha. apply lookup_insert_eq. }
  destruct y as [s evs ex]. pose proof (ri_waits _ _ _ I) as W. unfold waits in W. cbn in *.
  destruct (v_pending s) as [r|] eqn:Hp.
  - destruct evs; [|done]. destruct W as (k & Hk & Hlast). specialize (Hl k Hlast).
    destruct (mp_drains (v_port s)) as (q & Hq & Hpush). destruct (Hpush r) as [q' Hq'].
    pose proof (run_elsewhere s [] ex (v_pool s) q Hq) as St1. rewrite Hp in St1.
    set (s1 := MkRv _ _ _ _ _ _ _ q _) in St1.
    pose proof (run_retry s1 [] ex 0 _ _ (retry_ok 0 s1 r k q' eq_refl Hk Hq')) as St2.
    change (bool_decide (i_op (ip_inst k) = HCF)) with (is_hcf k) in St2. rewrite Hl in St2. cbn [app] in St2.
    match type of St2 with run_step _ ?y2 => destruct (Hev y2) as (y' & St3 & Hlen) end; try done.
    { by eapply run_step_inv, run_step_inv. }
    exists y'. split; [|exact Hlen]. eapply rtc_l; [exact St1|]. eapply rtc_l; [exact St2|]. by apply rtc_once.
  - destruct evs as [|e evs]; [destruct W as (k & Hk & Eh); by rewrite (Hl k Hk) in Eh|].
    destruct (Hev _ I Hr Hc) as (y' & St & Hlen); [done|]. exists y'. split; [by apply rtc_once|done].
Qed.

(** A run is the beginning of every longer one. *)
Lemma ref_run_take n m fetch x0 x tr : ref_run n fetch x0 = Some (x, tr) -> (m <= n)%nat ->
  exists x', ref_run m fetch x0 = Some (x', take m tr).
Proof.
  intros Hr Hm. replace n with (m + (n - m))%nat in Hr by lia. rewrite ref_run_app in Hr.
  destruct (ref_run m fetch x0) as [[x1 tr1]|] eqn:E; [|done]. cbn in Hr.
  destruct (ref_run (n - m) fetch x1) as [[x2 tr2]|]; [|done]. cbn in Hr. injection Hr as <- <-.
  exists x1. rewrite <- (ref_run_length _ _ _ _ _ E). by rewrite take_app_length.
Qed.

(** Where the reference is when [ex] has been executed. *)
Lemma run_at x0 s0 y n x tr : run_inv x0 s0 y -> ref_run n (fetch_imem (v_imem s0)) x0 = Some (x, tr) ->
  (length (u_executed y) <= n)%nat ->
  exists xk, ref_run (length (u_executed y)) (fetch_imem (v_imem s0)) x0 = Some (xk, u_executed y)
    /\ simulates xk (u_cpu y) /\ u_executed y = take (length (u_executed y)) tr.
Proof.
  intros I Hr Hn. destruct (ref_run_take _ _ _ _ _ _ Hr Hn) as [xk Hk].
  destruct (fo_ref _ _ _ _ (ri_follows _ _ _ I) _ _ Hk) as [E Hs]. exists xk. by rewrite E at 2.
Qed.

Lemma run_completes {PV : MasterPortLive MP} n x0 s0 x tr :
  ref_run n (fetch_imem (v_imem s0)) x0 = Some (x, tr) -> v_inst_cnt s0 + Z.of_nat n <= 2 ^ 31 - 1 ->
  (forall j k, tr !! j = Some k -> is_hcf k = true -> S j = n) ->
  forall y, run_inv x0 s0 y -> (length (u_executed y) <= n)%nat ->
  exists y', rtc run_step y y' /\ u_executed y' = tr /\ simulates x (u_cpu y').
Proof.
  intros Hr Hc Hh y. remember (n - length (u_executed y))%nat as m eqn:Hm. revert y Hm.
  induction m as [|m IH]; intros y Hm I Hle.
  - assert (E : length (u_executed y) = n) by lia. exists y. split; [done|].
    apply (fo_ref _ _ _ _ (ri_follows _ _ _ I)). by rewrite E.
  - destruct (run_at _ _ _ _ _ _ I Hr Hle) as (_ & _ & _ & Htr).
    destruct (ref_run_take _ (length (u_executed y) + 1) _ _ _ _ Hr ltac:(lia)) as [x1 Hr1].
    destruct (run_next _ _ _ _ _ I Hr1) as (y1 & Hst & Hl1); [lia| |].
    + intros k Hk. destruct (is_hcf k) eqn:Eh; [|done]. rewrite last_lookup in Hk.
      assert (Hj : (pred (length (u_executed y)) < length (u_executed y))%nat) by (by eapply lookup_lt_Some).
      rewrite Htr, lookup_take_lt in Hk by (rewrite <- Htr; lia). apply (Hh _ _) in Hk; [|done].
      rewrite <- Htr in Hk. lia.
    + destruct (IH y1) as (y' & Hst' & E'); [lia|by eapply run_reach_inv|lia|].
      exists y'. split; [by etrans|exact E'].
Qed.

(** * Properties *)

(** C14. The processor runs its program whatever the rest of the simulator
    does. Suppose the reference can do [n] steps, of which only the last may
    be [hcf]. From a state of the reference with one event scheduled, however
    the framework interleaves events and retries, however the port accepts or
    refuses packets and is emptied, and whatever the recycle container yields:
    as long as no more than [n] instructions have been executed, the packets
    that describe them are the first ones of the reference's trace - each
    marked exactly if its successor is not the next word - and registers,
    memory and program counter are the reference's; and from there the
    processor can go on until all [n] have been executed: neither a refused
    packet nor a retry ends it. Register 0 is that of the reference until an
    instruction has written it. *)
Theorem rv_runs_program {PV : MasterPortLive MP} n t id s x x' tr y :
  simulates x s -> v_pending s = None -> v_inst_cnt s + Z.of_nat n <= 2 ^ 31 - 1 ->
  ref_run n (fetch_imem (v_imem s)) x = Some (x', tr) ->
  (forall j k, tr !! j = Some k -> is_hcf k = true -> S j = n) ->
  rtc run_step (RvRun s [RvExecOneInstr t id] []) y -> (length (u_executed y) <= n)%nat ->
  (exists xk, ref_run (length (u_executed y)) (fetch_imem (v_imem s)) x = Some (xk, u_executed y)
     /\ simulates xk (u_cpu y) /\ u_executed y = take (length (u_executed y)) tr)
  /\ exists y', rtc run_step y y' /\ u_executed y' = tr /\ simulates x' (u_cpu y').
Proof.
  intros Hsim Hp Hc Hr Hh Hy Hn.
  assert (I : run_inv x s y).
  { eapply run_reach_inv; [exact Hy|]. split; [by apply follows_start|]. unfold waits. cbn. by rewrite Hp. }
  split; [by eapply run_at|]. by eapply run_completes.
Qed.

(** C23. However the framework interleaves events and retries, and whatever
    the port answers: the packets it has taken, with the pending one, are
    those of the executed instructions, each once and in order; while one is
    pending nothing is executed, and at most one event is outstanding. *)
Theorem rv_back_pressure s t id y :
  v_pending s = None ->
  rtc sys_step (RvSystem s [RvExecOneInstr t id] []) y ->
  mp_taken (v_port (y_cpu y)) ++ option_list (v_pending (y_cpu y))
    = mp_taken (v_port s) ++ y_executed y
  /\ (length (y_events y) + length (option_list (v_pending (y_cpu y))) <= 1)%nat.
Proof.
  intros Hp Hy.
  assert (Hi : sys_inv (mp_taken (v_port s)) (RvSystem s [RvExecOneInstr t id] [])).
  { split; simpl; rewrite Hp; [done|simpl; lia]. }
  revert Hi. induction Hy as [y|y1 y2 y3 H12 _ IH]; [done|].
  intros Hi. by apply IH, (sys_step_inv _ y1).
Qed.
End Rv_runs.

(** * Concrete framework parts, and witnesses *)

(** A container that knows what is in use and yields the number after all of
    it: numbers that were recycled come back. *)
Definition after_all (l : list nat) : nat := foldr (fun r n => Nat.max (S r) n) 0%nat l.

Lemma after_all_gt l r : r ∈ l -> (r < after_all l)%nat.
Proof. unfold after_all. induction 1; cbn [foldr]; lia. Qed.

#[export] Instance FreshContainer : RecycleContainer := {
  pool := list nat;
  acquire := fun l => (after_all l, after_all l :: l);
  recycle := fun r l => filter (fun q => q <> r) l;
}.

#[export] Instance FreshContainerLaws : RecycleContainerLaws FreshContainer.
Proof.
  refine {| in_use := list_to_set : @pool FreshContainer -> gset nat |}.
  - intros p r p' [= <- <-]. split; [|done]. rewrite elem_of_list_to_set.
    intros Hr%after_all_gt. lia.
  - intros r p. simpl. apply set_eq. intros q. rewrite elem_of_list_to_set, list_elem_of_filter,
      elem_of_difference, elem_of_list_to_set, elem_of_singleton. tauto.
Defined.

(** A port that accepts while it is open. *)
Definition GatedPort : MasterPort := {|
  mport := bool * list nat;
  mp_push := fun p r => if p.1 then (true, (p.1, p.2 ++ [r])) else (false, p)
|}.
Definition GatedPortLaws : MasterPortLaws GatedPort.
Proof.
  refine {| mp_taken := snd : @mport GatedPort -> list nat |};
    intros [[] l] r p'; simpl; by intros [= <-].
Defined.

Lemma GatedPortLive : @MasterPortLive GatedPort GatedPortLaws.
Proof. split. intros [b l]. exists (true, l). split; [done|]. intros r. by eexists. Qed.

#[local] Existing Instance printing_framework.

Definition w_op (op : instr_type) (a1 a2 a3 : operand) : instr :=
  Instr op a1 a2 a3 None 1 false.
Definition w_reg (r : Z) : operand := Operand OPTYPE_REG "" r 0.
Definition w_imm (v : Z) : operand := Operand OPTYPE_IMM "" 0 v.

(** [nop; x1 := 5; mem[4] := x1; x2 := mem[4]; if x1 = x2 goto 0]. *)
Definition w_program : list instr :=
  [w_op ADDI (w_reg 0) (w_reg 0) (w_imm 0); w_op ADDI (w_reg 1) (w_reg 0) (w_imm 5);
   w_op SW (w_reg 1) (w_reg 0) (w_imm 4); w_op LW (w_reg 2) (w_reg 0) (w_imm 4);
   w_op BEQ (w_reg 1) (w_reg 2) (w_imm 0)].

(** The port is closed. *)
Definition w_gated : @RvCPU FreshContainer GatedPort :=
  @RvCPU_new FreshContainer GatedPort w_program (replicate 8 0) [] (false, []).
Definition w_rv_state : rv_state := RvState (replicate 32 0) 0 (replicate 8 0) true.

Lemma w_rv_simulates : simulates w_rv_state w_gated.
Proof.
  apply (simulates_self w_gated); try done.
  - split; [done|]. apply Forall_replicate. unfold is_u. lia.
  - repeat constructor; unfold is_u; lia.
  - apply (Forall_impl wf_instr); [|intros i Hi; by apply wf_instr_used].
    repeat constructor; unfold is_u; simpl; lia.
Qed.

(** The port refuses the first packet, and still all five instructions can be
    executed. *)
Lemma rv_runs_program_witness :
  exists s1, run_step (ML := GatedPortLaws) (RvRun w_gated [RvExecOneInstr 1 1] []) s1 /\ u_events s1 = []
    /\ exists y, rtc (run_step (ML := GatedPortLaws)) s1 y
         /\ map ip_taken (u_executed y) = [false; false; false; false; true]
         /\ v_dmem (u_cpu y) = [0; 0; 0; 0; 5; 0; 0; 0] /\ v_pc (u_cpu y) = 0.
Proof.
  destruct (outcome (v_execOneInstr 1) w_gated) as [[s' w]|] eqn:E; [|by vm_compute in E].
  destruct (v_heap s' !! 0%nat) as [k|] eqn:Hk; [|vm_compute in E; injection E as <- <-; by vm_compute in Hk].
  pose proof (run_event (ML := GatedPortLaws) w_gated [] [] [] 1 1 s' w k E Hk) as Hst.
  eexists. split; [exact Hst|]. split; [vm_compute in E; by injection E as <- <-|].
  destruct (rv_runs_program (ML := GatedPortLaws) (PV := GatedPortLive) 5 1 1 w_gated w_rv_state
    (RvState (xset 2 5 (xset 1 5 (replicate 32 0))) 0 [0; 0; 0; 0; 5; 0; 0; 0] true)
    [trace_packet (w_op ADDI (w_reg 0) (w_reg 0) (w_imm 0)) 0 4;
     trace_packet (w_op ADDI (w_reg 1) (w_reg 0) (w_imm 5)) 4 8;
     trace_packet (w_op SW (w_reg 1) (w_reg 0) (w_imm 4)) 8 12;
     trace_packet (w_op LW (w_reg 2) (w_reg 0) (w_imm 4)) 12 16;
     trace_packet (w_op BEQ (w_reg 1) (w_reg 2) (w_imm 0)) 16 0]
    (RvRun s' ([] ++ [] ++ w) ([] ++ [k])))
    as [_ (y & Hy & Ex & [_ Epc Em _ _ _])];
    [exact w_rv_simulates|reflexivity|vm_compute; congruence|vm_compute; reflexivity|
    |by apply rtc_once|cbn; lia|].
  - intros j k' Hj Eh. do 5 (destruct j as [|j]; [injection Hj as <-; by vm_compute in Eh|]). done.
  - exists y. rewrite Ex. by split_and!.
Defined.

(** The port refuses the first packet: it is pending and no event is left. *)
Lemma rv_back_pressure_witness :
  exists s', outcome (v_execOneInstr 1) w_gated = Ok (s', [])
    /\ snd (v_port s') ++ option_list (v_pending s') = [0%nat].
Proof.
  eexists. split; [reflexivity|].
  apply (rv_back_pressure (ML := GatedPortLaws) w_gated 1 1 (RvSystem _ [] [0%nat])); [reflexivity|].
  apply rtc_once. apply (sys_exec w_gated _ 1 1 [] [] []). reflexivity.
Defined.
