(* ===== verification/Pipeline.v ===== *)
(** The timing model of the five-stage pipeline ([src/riscv/libs/IFStage.cc],
    [IDStage.cc], [EXEStage.cc], [MEMStage.cc], [src/riscv/include/WBStage.hh]
    and [PipelineUtils.hh]): the stages pass references to instruction packets
    through pipe registers, and stall on data hazards, taken branches and
    memory accesses. *)
From S2P Require Import Prelude Machine DataStruct Memory Isa Reference RvCpu.
Local Open Scope Z_scope.

(** * [PipelineUtils] *)

Definition getDestReg (i : instr) : Z :=
  match i_op i with
  | ADD | ADDI | AND | ANDI | OR | ORI | XOR | XORI | SUB | SLL | SLLI | SRL | SRLI | SRA | SRAI
  | SLT | SLTI | SLTU | SLTIU | LB | LH | LW | LBU | LHU | LUI | AUIPC | JAL | JALR =>
      o_reg (i_a1 i)
  | _ => 0
  end.

Definition isRs1Used (i : instr) : bool :=
  match i_op i with
  | ADD | SUB | AND | OR | XOR | SLT | SLTU | SLL | SRL | SRA
  | BEQ | BNE | BLT | BGE | BLTU | BGEU | SW | SB | SH
  | ADDI | ANDI | ORI | XORI | SLTI | SLTIU | SLLI | SRLI | SRAI
  | LW | LH | LHU | LB | LBU | JALR => true
  | _ => false
  end.

Definition isRs2Used (i : instr) : bool :=
  match i_op i with
  | ADD | SUB | AND | OR | XOR | SLT | SLTU | SLL | SRL | SRA
  | BEQ | BNE | BLT | BGE | BLTU | BGEU | SW | SB | SH => true
  | _ => false
  end.

(** [rs1] and [rs2] of the switch of [checkRAW]. *)
Definition raw_sources (i : instr) : Z * Z :=
  match i_op i with
  | ADD | AND | OR | XOR | SUB | SLL | SLT | SLTU | SRL | SRA =>
      (o_reg (i_a2 i), o_reg (i_a3 i))
  | ADDI | ANDI | ORI | XORI | SLTI | SLTIU | SLLI | SRLI | SRAI
  | LB | LH | LW | LBU | LHU | JALR => (o_reg (i_a2 i), 0)
  | SB | SH | SW | BEQ | BNE | BLT | BGE | BLTU | BGEU => (o_reg (i_a1 i), o_reg (i_a2 i))
  | _ => (0, 0)
  end.

Definition checkRAW (rd : Z) (i : instr) : bool :=
  if rd =? 0 then false
  else let '(rs1, rs2) := raw_sources i in (rs1 =? rd) || (rs2 =? rd).

(** The destination of a packet, 0 for a null one. *)
Definition packet_rd (o : option InstPacket) : Z :=
  match o with Some k => getDestReg (ip_inst k) | None => 0 end.

Definition depends_on (rd : Z) (i : instr) : bool :=
  (isRs1Used i && checkRAW rd i) || (isRs2Used i && checkRAW rd i).

(** The flags for IF, ID and EXE. *)
Definition hazard_check (ifp idp exep memp wbp : option InstPacket) : bool * bool * bool :=
  match idp with
  | Some k =>
      let i := ip_inst k in
      if depends_on (packet_rd exep) i || depends_on (packet_rd memp) i
         || depends_on (packet_rd wbp) i
      then (true, true, true) else (false, false, false)
  | None => (false, false, false)
  end.

Definition is_MemPacket (o : option InstPacket) : bool :=
  match o with
  | Some k =>
      match i_op (ip_inst k) with
      | LB | LH | LW | LBU | LHU | SB | SH | SW => true
      | _ => false
      end
  | None => false
  end.

Definition memory_access_time : Z := 1000.

(** * Memory stalls *)

(** [last_mem_access_pc] is an [int], compared with a [uint32_t]. *)
Record mem_timer : Type := MemTimer { mem_access_count : Z; last_mem_access_pc : Z }.
Definition new_timer : mem_timer := MemTimer 0 (-1).

(** The block that decides [stall_ma] for a memory instruction at [pc]. *)
Definition timer_step (pc : Z) (t : mem_timer) : bool * mem_timer :=
  if negb (u32 (last_mem_access_pc t) =? pc) then (true, MemTimer 1 (s32 pc))
  else if mem_access_count t <? memory_access_time
  then (true, MemTimer (mem_access_count t + 1) (last_mem_access_pc t))
  else (false, t).

(** Only a memory instruction runs the timer. *)
Definition stall_ma (o : option InstPacket) (t : mem_timer) : bool * mem_timer :=
  match o with
  | Some k => if is_MemPacket o then timer_step (ip_pc k) t else (false, t)
  | None => (false, t)
  end.

(** * Pipe registers between stages

    The stage upstream pushes, the one downstream looks and pops; [sync] is
    what [TopPipeRegisterManager::runSyncPipeRegister] does to a register at
    the end of a tick. *)
Class StageRegister : Type := {
  sreg : Type;
  sr_isStalled : sreg -> bool;
  sr_push : sreg -> nat -> bool * sreg;
  sr_isValid : sreg -> bool;
  sr_value : sreg -> nat;
  sr_pop : sreg -> nat * sreg;
  sr_sync : sreg -> sreg;
}.

(** The register is a queue of which a part can be seen: a push that is
    accepted appends, a pop of a valid register yields the value and takes
    the first packet that was pushed and not popped yet. A register that is
    not stalled accepts. *)
Class StageRegisterLaws `(SR : StageRegister) : Type := {
  sr_in : sreg -> list nat;
  sr_out : sreg -> list nat;
  sr_order : forall r, sr_out r `prefix_of` sr_in r;
  sr_push_ready : forall r p, sr_isStalled r = false -> exists r', sr_push r p = (true, r');
  sr_push_true : forall r p r', sr_push r p = (true, r') ->
    sr_in r' = sr_in r ++ [p] /\ sr_out r' = sr_out r;
  sr_push_false : forall r p r', sr_push r p = (false, r') ->
    sr_in r' = sr_in r /\ sr_out r' = sr_out r;
  sr_pop_valid : forall r, sr_isValid r = true ->
    exists r', sr_pop r = (sr_value r, r') /\ sr_in r' = sr_in r
      /\ sr_out r' = sr_out r ++ [sr_value r];
  sr_sync_same : forall r, sr_in (sr_sync r) = sr_in r /\ sr_out (sr_sync r) = sr_out r;
}.

(** What a stage asks of the framework: to be stepped again. *)
Inductive stage_effect : Type := ForceStepInNextIteration | RecyclePacket (r : nat).

(** The packets that are given back to the recycle container. *)
Definition recycled (w : list stage_effect) : list nat :=
  omap (fun e => match e with RecyclePacket r => Some r | ForceStepInNextIteration => None end) w.

(** * The stages *)

Section Stages.
Context `{Framework} `{SR : StageRegister}.

(** The packets are read, never written, by the stages. *)
Definition deref (h : gmap nat InstPacket) (o : option nat) : result (option InstPacket) :=
  match o with
  | None => Ok None
  | Some r => k ← from_opt (Undefined "packet") (h !! r); Ok (Some k)
  end.

(** A stage between its two registers. *)
Record staged (S : Type) : Type := Staged { g_stage : S; g_in : sreg; g_out : sreg }.
Arguments Staged {S}. Arguments g_stage {S}. Arguments g_in {S}. Arguments g_out {S}.

Definition set_stage {S} (s : S) (g : staged S) : staged S := Staged s (g_in g) (g_out g).

(** [pop] from the upstream register. *)
Definition pop_in {S} : M (staged S) stage_effect nat :=
  g ← get; let '(r, q) := sr_pop (g_in g) in put (Staged (g_stage g) q (g_out g));; mret r.

(** [if (!push(pkt)) CLASS_ERROR] *)
Definition push_out {S} (r : nat) : M (staged S) stage_effect unit :=
  g ← get;
  let '(ok, q) := sr_push (g_out g) r in
  put (Staged (g_stage g) (g_in g) q);;
  when (negb ok) (lift (log_error "failed to push InstPacket!")).

(** ** IF *)

Record IFStage : Type := MkIF {
  if_timer : mem_timer;
  flush_flag : bool;
  if_ID : option nat; if_EXE : option nat; if_MEM : option nat; if_WB : option nat;
}.

Definition IFStage_new : IFStage := MkIF new_timer false None None None None.

Definition IF_instPacketHandler (r : nat) : M (staged IFStage) stage_effect unit :=
  push_out r;;
  modify (fun g => let s := g_stage g in
    set_stage (MkIF (if_timer s) (flush_flag s) (Some r) (if_ID s) (if_EXE s) (if_MEM s)) g).

Definition IF_step (h : gmap nat InstPacket) : M (staged IFStage) stage_effect unit :=
  modify (fun g => let s := g_stage g in
    if flush_flag s then set_stage (MkIF (if_timer s) false None None None None) g else g);;
  g ← get;
  when (sr_isValid (g_in g))
    (let s := g_stage g in
     ifp ← lift (deref h (Some (sr_value (g_in g))));
     idp ← lift (deref h (if_ID s)); exep ← lift (deref h (if_EXE s));
     memp ← lift (deref h (if_MEM s)); wbp ← lift (deref h (if_WB s));
     let '(ifHazard, idHazard, exeHazard) := hazard_check ifp idp exep memp wbp in
     let hazard := ifHazard || idHazard || exeHazard in
     let '(stall, t) := stall_ma memp (if_timer s) in
     let control_hazard := match exep with Some k => ip_taken k | None => false end in
     modify (set_stage (MkIF t (flush_flag s) (if_ID s) (if_EXE s) (if_MEM s) (if_WB s)));;
     when (negb (sr_isStalled (g_out g)))
       (if negb hazard && negb stall && negb control_hazard then
          r ← pop_in; IF_instPacketHandler r
        else
          emit ForceStepInNextIteration;;
          when (negb stall)
            (modify (set_stage (MkIF t (flush_flag s) (if_ID s) None (if_EXE s) (if_MEM s)))))).

(** ** ID *)

Record IDStage : Type := MkID {
  id_timer : mem_timer;
  id_EXE : option nat; id_MEM : option nat; id_WB : option nat;
}.

Definition IDStage_new : IDStage := MkID new_timer None None None.

Definition ID_instPacketHandler (r : nat) : M (staged IDStage) stage_effect unit :=
  push_out r;;
  modify (fun g => let s := g_stage g in
    set_stage (MkID (id_timer s) (Some r) (id_EXE s) (id_MEM s)) g).

Definition ID_step (h : gmap nat InstPacket) : M (staged IDStage) stage_effect unit :=
  g ← get;
  when (sr_isValid (g_in g))
    (let s := g_stage g in
     idp ← lift (deref h (Some (sr_value (g_in g))));
     exep ← lift (deref h (id_EXE s));
     memp ← lift (deref h (id_MEM s)); wbp ← lift (deref h (id_WB s));
     let '(_, idHazard, exeHazard) := hazard_check None idp exep memp wbp in
     let hazard := idHazard || exeHazard in
     let control_hazard := match exep with Some k => ip_taken k | None => false end in
     let '(stall, t) := stall_ma memp (id_timer s) in
     modify (set_stage (MkID t (id_EXE s) (id_MEM s) (id_WB s)));;
     when (negb (sr_isStalled (g_out g)))
       (if negb hazard && negb stall then r ← pop_in; ID_instPacketHandler r
        else
          emit ForceStepInNextIteration;;
          when (negb stall && (control_hazard || hazard))
            (modify (set_stage (MkID t None (id_EXE s) (id_MEM s)))))).

(** ** EXE *)

Record EXEStage : Type := MkEXE { ex_timer : mem_timer; ex_MEM : option nat; ex_WB : option nat }.

Definition EXEStage_new : EXEStage := MkEXE new_timer None None.

Definition EXE_instPacketHandler (r : nat) : M (staged EXEStage) stage_effect unit :=
  push_out r;;
  modify (fun g => let s := g_stage g in set_stage (MkEXE (ex_timer s) (Some r) (ex_MEM s)) g).

Definition EXE_step (h : gmap nat InstPacket) : M (staged EXEStage) stage_effect unit :=
  g ← get;
  when (sr_isValid (g_in g))
    (let s := g_stage g in
     memp ← lift (deref h (ex_MEM s));
     let '(stall, t) := stall_ma memp (ex_timer s) in
     modify (set_stage (MkEXE t (ex_MEM s) (ex_WB s)));;
     when (negb (sr_isStalled (g_out g)))
       (if negb stall then r ← pop_in; EXE_instPacketHandler r
        else emit ForceStepInNextIteration)).

(** ** MEM *)

Record MEMStage : Type := MkMEM { me_timer : mem_timer; me_WB : option nat }.

Definition MEMStage_new : MEMStage := MkMEM new_timer None.

Definition MEM_instPacketHandler (r : nat) : M (staged MEMStage) stage_effect unit :=
  push_out r;;
  modify (fun g => set_stage (MkMEM (me_timer (g_stage g)) (Some r)) g).

Definition MEM_step (h : gmap nat InstPacket) : M (staged MEMStage) stage_effect unit :=
  g ← get;
  when (sr_isValid (g_in g))
    (let s := g_stage g in
     instPacket ← lift (deref h (Some (sr_value (g_in g))));
     let '(stall, t) := stall_ma instPacket (me_timer s) in
     modify (set_stage (MkMEM t (me_WB s)));;
     when (negb (sr_isStalled (g_out g)))
       (if negb stall then r ← pop_in; MEM_instPacketHandler r
        else emit ForceStepInNextIteration)).

(** ** WB *)

(** The handler gives the packet back to the recycle container. *)
Definition WB_step : M sreg stage_effect unit :=
  q ← get;
  when (sr_isValid q)
    (let '(r, q') := sr_pop q in put q';; emit (RecyclePacket r)).
End Stages.
Arguments Staged {SR S}. Arguments g_stage {SR S}. Arguments g_in {SR S}. Arguments g_out {SR S}.

(** * Lemmas: one stage *)

Definition refs_of (os : list (option nat)) : list nat := omap (fun o => o) os.

Definition if_refs (s : IFStage) := refs_of [if_ID s; if_EXE s; if_MEM s; if_WB s].
Definition id_refs (s : IDStage) := refs_of [id_EXE s; id_MEM s; id_WB s].
Definition ex_refs (s : EXEStage) := refs_of [ex_MEM s; ex_WB s].
Definition me_refs (s : MEMStage) := refs_of [me_WB s].

Section Stage_lemmas.
Context `{Framework} `{SR : StageRegister} {SL : StageRegisterLaws SR}.

(** A stage moves at most one packet, from its input to its output. *)
Definition moves {S} (l : list nat) (g g' : staged S) : Prop :=
  sr_in (g_in g') = sr_in (g_in g) /\ sr_out (g_in g') = sr_out (g_in g) ++ l
  /\ sr_in (g_out g') = sr_in (g_out g) ++ l /\ sr_out (g_out g') = sr_out (g_out g).

Definition known (h : gmap nat InstPacket) (l : list nat) : Prop :=
  forall r, r ∈ l -> is_Some (h !! r).

(** A step returns, moves at most one packet, recycles none, and keeps track
    only of packets that it knew or moved. *)
Definition stage_ok {S} (refs : S -> list nat) (m : M (staged S) stage_effect unit)
    (g : staged S) : Prop :=
  exists g' w l, outcome m g = Ok (g', w) /\ moves l g g' /\ (length l <= 1)%nat
    /\ refs (g_stage g') ⊆ refs (g_stage g) ++ l /\ recycled w = [].

Lemma deref_ok h o : known h (refs_of [o]) -> exists k, deref h o = Ok k.
Proof.
  intros Hk. destruct o as [r|]; [|by eexists]. destruct (Hk r) as [k Ek]; [by left|].
  exists (Some k). simpl. by rewrite Ek.
Qed.

(** What can be seen of a register is known. *)
Definition value_known (h : gmap nat InstPacket) (q : sreg) : Prop :=
  sr_isValid q = true -> known h (refs_of [Some (sr_value q)]).

Lemma moves_nil {S} (g : staged S) s : moves [] g (set_stage s g).
Proof. unfold moves. simpl. by rewrite !app_nil_r. Qed.

Lemma move_ok {S} (f : nat -> staged S -> S) (g : staged S) :
  sr_isValid (g_in g) = true -> sr_isStalled (g_out g) = false ->
  exists g' r, (r ← pop_in; push_out r;; modify (fun g => set_stage (f r g) g)) g = Ok (tt, g', [])
    /\ moves [r] g g' /\ exists q1 q2, g_stage g' = f r (Staged (g_stage g) q1 q2).
Proof.
  intros Hv Hs. destruct (sr_pop_valid (g_in g) Hv) as (q & Eq & I1 & O1).
  destruct (sr_push_ready (g_out g) (sr_value (g_in g)) Hs) as (q' & Eq').
  pose proof (sr_push_true _ _ _ Eq') as (I2 & O2).
  eexists _, (sr_value (g_in g)). unfold pop_in, push_out. step_monad. rewrite Eq. simpl.
  rewrite Eq'. simpl. split; [reflexivity|]. split; [by unfold moves|]. by eexists _, _.
Qed.

Lemma known_app h l1 l2 : known h (l1 ++ l2) <-> known h l1 /\ known h l2.
Proof.
  unfold known. split.
  - intros Hk. split; intros r Hr; apply Hk, elem_of_app; auto.
  - intros [H1 H2] r [Hr|Hr]%elem_of_app; auto.
Qed.

Lemma elem_of_refs r os : r ∈ refs_of os <-> Some r ∈ os.
Proof.
  unfold refs_of. induction os as [|[q|] os IH]; simpl;
    rewrite ?elem_of_cons, ?elem_of_nil, ?IH; intuition congruence.
Qed.

Lemma refs_of_cons o os : refs_of (o :: os) = refs_of [o] ++ refs_of os.
Proof. by destruct o. Qed.

Lemma hazard_check_eq ifp idp exep memp wbp :
  exists b, hazard_check ifp idp exep memp wbp = (b, b, b).
Proof. unfold hazard_check. destruct idp; [|by exists false]. case_if; eauto. Qed.
End Stage_lemmas.

(** Split the knowledge about tracked packets and read them. *)
Ltac split_known :=
  repeat match goal with
  | Hk : known _ (refs_of (_ :: _ :: _)) |- _ => rewrite refs_of_cons in Hk
  | Hk : known _ (_ ++ _) |- _ => apply known_app in Hk as [? ?]
  end.
Ltac read_packets :=
  repeat match goal with
  | Hk : known ?h (refs_of [?o]) |- context [deref ?h ?o] =>
      let k := fresh "k" in let E := fresh "E" in
      destruct (deref_ok h o Hk) as [k E]; rewrite E; clear Hk;
      erewrite M_bind_silent by reflexivity
  end.

(** The tracked packets after a step are among those before, and the moved
    one. *)
Ltac solve_refs :=
  unfold if_refs, id_refs, ex_refs, me_refs; intros x; simpl if_ID; simpl if_EXE; simpl if_MEM;
  simpl if_WB; simpl id_EXE; simpl id_MEM; simpl id_WB; simpl ex_MEM; simpl ex_WB; simpl me_WB;
  rewrite ?elem_of_app, ?elem_of_refs, ?elem_of_cons, ?elem_of_nil; intuition congruence.

Section Stage_steps.
Context `{Framework} `{SR : StageRegister} {SL : StageRegisterLaws SR}.

Lemma stay_ok {S} (refs : S -> list nat) m (g : staged S) s w :
  m g = Ok (tt, set_stage s g, w) -> refs s ⊆ refs (g_stage g) -> recycled w = [] ->
  stage_ok refs m g.
Proof.
  intros E Hs Hw. exists (set_stage s g), w, []. unfold outcome. rewrite E.
  split_and!; [done|apply moves_nil|simpl; lia| |done]. simpl. by rewrite app_nil_r.
Qed.

(** The common shape of the steps: the timer is updated; the packet is moved,
    or the stage asks to be stepped again, with or without a bubble. *)
Definition stage_body {S} (g : staged S) (s1 s2 : S) (go bubble : bool)
    (f : nat -> staged S -> S) : M (staged S) stage_effect unit :=
  modify (set_stage s1);;
  when (negb (sr_isStalled (g_out g)))
    (if go then r ← pop_in; push_out r;; modify (fun g => set_stage (f r g) g)
     else emit ForceStepInNextIteration;; when bubble (modify (set_stage s2))).

Lemma stage_body_ok {S} (refs : S -> list nat) m (g : staged S) s1 s2 go bubble f :
  sr_isValid (g_in g) = true -> m g = stage_body g s1 s2 go bubble f g ->
  refs s1 ⊆ refs (g_stage g) -> refs s2 ⊆ refs (g_stage g) ->
  (forall r q1 q2, refs (f r (Staged s1 q1 q2)) ⊆ refs (g_stage g) ++ [r]) ->
  stage_ok refs m g.
Proof.
  intros Hv E H1 H2 Hf. destruct (sr_isStalled (g_out g)) eqn:Es; [|destruct go].
  - apply (stay_ok _ _ _ s1 []); [|done..]. rewrite E. unfold stage_body.
    erewrite M_bind_silent by reflexivity. by rewrite Es.
  - destruct (move_ok f (set_stage s1 g) Hv Es) as (g' & r & Em & Hm & q1 & q2 & Eg).
    exists g', [], [r]. split_and!; [|done|simpl; lia|rewrite Eg; apply Hf|done].
    unfold outcome. rewrite E. unfold stage_body. erewrite M_bind_silent by reflexivity.
    rewrite Es. cbn [negb when]. by rewrite Em.
  - destruct bubble; [apply (stay_ok _ _ _ s2 [ForceStepInNextIteration])
                     |apply (stay_ok _ _ _ s1 [ForceStepInNextIteration])]; try done;
      rewrite E; unfold stage_body; erewrite M_bind_silent by reflexivity; by rewrite Es.
Qed.

(** A register with nothing to see: the step does nothing. *)
Lemma idle_ok {S} (refs : S -> list nat) (m k : M (staged S) stage_effect unit) (g : staged S) :
  m g = when (sr_isValid (g_in g)) k g -> sr_isValid (g_in g) = false -> stage_ok refs m g.
Proof.
  intros E Hv. apply (stay_ok _ _ _ (g_stage g) []); [|done..]. rewrite E, Hv. by destruct g.
Qed.

(** ** The steps in the common shape *)

Lemma MEM_body h g k st t : sr_isValid (g_in g) = true ->
  deref h (Some (sr_value (g_in g))) = Ok k -> stall_ma k (me_timer (g_stage g)) = (st, t) ->
  MEM_step h g = stage_body g (MkMEM t (me_WB (g_stage g))) (g_stage g) (negb st) false
    (fun r g => MkMEM (me_timer (g_stage g)) (Some r)) g.
Proof.
  intros Ev E Est. unfold MEM_step. erewrite M_bind_silent by reflexivity. rewrite Ev.
  unfold when at 1. rewrite E. erewrite M_bind_silent by reflexivity. rewrite Est.
  unfold stage_body. do 2 (erewrite M_bind_silent by reflexivity).
  by destruct (sr_isStalled (g_out g)), st.
Qed.

Lemma EXE_body h g k st t : sr_isValid (g_in g) = true ->
  deref h (ex_MEM (g_stage g)) = Ok k -> stall_ma k (ex_timer (g_stage g)) = (st, t) ->
  EXE_step h g = stage_body g (MkEXE t (ex_MEM (g_stage g)) (ex_WB (g_stage g))) (g_stage g)
    (negb st) false (fun r g => MkEXE (ex_timer (g_stage g)) (Some r) (ex_MEM (g_stage g))) g.
Proof.
  intros Ev E Est. unfold EXE_step. erewrite M_bind_silent by reflexivity. rewrite Ev.
  unfold when at 1. rewrite E. erewrite M_bind_silent by reflexivity. rewrite Est.
  unfold stage_body. do 2 (erewrite M_bind_silent by reflexivity).
  by destruct (sr_isStalled (g_out g)), st.
Qed.

Lemma ID_body h g idp exep memp wbp b st t : sr_isValid (g_in g) = true ->
  deref h (Some (sr_value (g_in g))) = Ok idp -> deref h (id_EXE (g_stage g)) = Ok exep ->
  deref h (id_MEM (g_stage g)) = Ok memp -> deref h (id_WB (g_stage g)) = Ok wbp ->
  hazard_check None idp exep memp wbp = (b, b, b) ->
  stall_ma memp (id_timer (g_stage g)) = (st, t) ->
  ID_step h g = stage_body g
    (MkID t (id_EXE (g_stage g)) (id_MEM (g_stage g)) (id_WB (g_stage g)))
    (MkID t None (id_EXE (g_stage g)) (id_MEM (g_stage g))) (negb b && negb st)
    (negb st && ((match exep with Some k => ip_taken k | None => false end) || b))
    (fun r g => MkID (id_timer (g_stage g)) (Some r) (id_EXE (g_stage g)) (id_MEM (g_stage g))) g.
Proof.
  intros Ev E1 E2 E3 E4 Eh Est. unfold ID_step. erewrite M_bind_silent by reflexivity. rewrite Ev.
  unfold when at 1. rewrite E1. erewrite M_bind_silent by reflexivity. rewrite E2.
  erewrite M_bind_silent by reflexivity. rewrite E3. erewrite M_bind_silent by reflexivity.
  rewrite E4. erewrite M_bind_silent by reflexivity. rewrite Eh, Est. unfold stage_body.
  do 2 (erewrite M_bind_silent by reflexivity). by destruct (sr_isStalled (g_out g)), st, b.
Qed.

Definition taken_packet (o : option InstPacket) : bool :=
  match o with Some k => ip_taken k | None => false end.

Lemma IF_body h g ifp idp exep memp wbp b st t : flush_flag (g_stage g) = false ->
  sr_isValid (g_in g) = true ->
  deref h (Some (sr_value (g_in g))) = Ok ifp -> deref h (if_ID (g_stage g)) = Ok idp ->
  deref h (if_EXE (g_stage g)) = Ok exep -> deref h (if_MEM (g_stage g)) = Ok memp ->
  deref h (if_WB (g_stage g)) = Ok wbp -> hazard_check ifp idp exep memp wbp = (b, b, b) ->
  stall_ma memp (if_timer (g_stage g)) = (st, t) ->
  IF_step h g = (let s := g_stage g in stage_body g
    (MkIF t (flush_flag s) (if_ID s) (if_EXE s) (if_MEM s) (if_WB s))
    (MkIF t (flush_flag s) (if_ID s) None (if_EXE s) (if_MEM s))
    (negb b && negb st && negb (taken_packet exep)) (negb st)
    (fun r g => let s := g_stage g in
      MkIF (if_timer s) (flush_flag s) (Some r) (if_ID s) (if_EXE s) (if_MEM s)) g).
Proof.
  intros Hfl Ev E1 E2 E3 E4 E5 Eh Est. unfold IF_step. erewrite M_bind_silent by reflexivity.
  rewrite Hfl. erewrite M_bind_silent by reflexivity. rewrite Ev. unfold when at 1.
  rewrite E1. erewrite M_bind_silent by reflexivity. rewrite E2. erewrite M_bind_silent by reflexivity.
  rewrite E3. erewrite M_bind_silent by reflexivity. rewrite E4. erewrite M_bind_silent by reflexivity.
  rewrite E5. erewrite M_bind_silent by reflexivity. rewrite Eh, Est. unfold stage_body, taken_packet.
  cbv zeta. do 2 (erewrite M_bind_silent by reflexivity).
  rewrite ?Hfl. by destruct (sr_isStalled (g_out g)), st, b, exep as [[? ? []]|].
Qed.

(** ** What a step does *)

Lemma MEM_step_ok h g : value_known h (g_in g) -> stage_ok me_refs (MEM_step h) g.
Proof.
  intros Hv. destruct (sr_isValid (g_in g)) eqn:Ev;
    [|eapply idle_ok; [unfold MEM_step; by erewrite M_bind_silent by reflexivity|done]].
  destruct (deref_ok h _ (Hv Ev)) as [k E]. destruct (stall_ma k (me_timer (g_stage g))) as [st t] eqn:Est.
  eapply stage_body_ok; [done|by eapply MEM_body|done|done|]. intros; solve_refs.
Qed.

Lemma EXE_step_ok h g : known h (ex_refs (g_stage g)) -> stage_ok ex_refs (EXE_step h) g.
Proof.
  intros Hk. unfold ex_refs in Hk. split_known.
  destruct (sr_isValid (g_in g)) eqn:Ev;
    [|eapply idle_ok; [unfold EXE_step; by erewrite M_bind_silent by reflexivity|done]].
  destruct (deref_ok h (ex_MEM (g_stage g))) as [k E]; [done|].
  destruct (stall_ma k (ex_timer (g_stage g))) as [st t] eqn:Est.
  eapply stage_body_ok; [done|by eapply EXE_body|done|done|]. intros; solve_refs.
Qed.

Lemma ID_step_ok h g : known h (id_refs (g_stage g)) ->
  value_known h (g_in g) -> stage_ok id_refs (ID_step h) g.
Proof.
  intros Hk Hv. unfold id_refs in Hk. split_known.
  destruct (sr_isValid (g_in g)) eqn:Ev;
    [|eapply idle_ok; [unfold ID_step; by erewrite M_bind_silent by reflexivity|done]].
  destruct (deref_ok h _ (Hv Ev)) as [idp E1]. destruct (deref_ok h (id_EXE (g_stage g))) as [exep E2]; [done|].
  destruct (deref_ok h (id_MEM (g_stage g))) as [memp E3]; [done|].
  destruct (deref_ok h (id_WB (g_stage g))) as [wbp E4]; [done|].
  destruct (hazard_check_eq None idp exep memp wbp) as [b Eh].
  destruct (stall_ma memp (id_timer (g_stage g))) as [st t] eqn:Est.
  eapply stage_body_ok; [done|by eapply ID_body|..]; intros; solve_refs.
Qed.

(** The flush at the beginning of the step of the first stage. *)
Definition flushed (g : staged IFStage) : staged IFStage :=
  let s := g_stage g in
  if flush_flag s then set_stage (MkIF (if_timer s) false None None None None) g else g.

Lemma flushed_ok g : g_in (flushed g) = g_in g /\ g_out (flushed g) = g_out g
  /\ if_refs (g_stage (flushed g)) ⊆ if_refs (g_stage g)
  /\ flush_flag (g_stage (flushed g)) = false.
Proof. unfold flushed. destruct (flush_flag _) eqn:E; split_and!; try done. solve_refs. Qed.

Lemma IF_step_flushed h g : outcome (IF_step h) g = outcome (IF_step h) (flushed g).
Proof.
  destruct (flushed_ok g) as (_ & _ & _ & Hf). unfold outcome, IF_step.
  erewrite !M_bind_silent by reflexivity. fold (flushed (flushed g)) (flushed g).
  assert (flushed (flushed g) = flushed g) as -> by (unfold flushed at 1; by rewrite Hf). done.
Qed.

Lemma IF_flushed_ok h g : flush_flag (g_stage g) = false ->
  known h (if_refs (g_stage g)) -> value_known h (g_in g) -> stage_ok if_refs (IF_step h) g.
Proof.
  intros Hfl Hk Hv. unfold if_refs in Hk. split_known.
  destruct (sr_isValid (g_in g)) eqn:Ev.
  2: { eapply idle_ok; [|done]. unfold IF_step. erewrite M_bind_silent by reflexivity. rewrite Hfl.
       by erewrite M_bind_silent by reflexivity. }
  destruct (deref_ok h _ (Hv Ev)) as [ifp E1]. destruct (deref_ok h (if_ID (g_stage g))) as [idp E2]; [done|].
  destruct (deref_ok h (if_EXE (g_stage g))) as [exep E3]; [done|].
  destruct (deref_ok h (if_MEM (g_stage g))) as [memp E4]; [done|].
  destruct (deref_ok h (if_WB (g_stage g))) as [wbp E5]; [done|].
  destruct (hazard_check_eq ifp idp exep memp wbp) as [b Eh].
  destruct (stall_ma memp (if_timer (g_stage g))) as [st t] eqn:Est.
  eapply stage_body_ok; [done|by eapply IF_body|..]; intros; solve_refs.
Qed.

Lemma IF_step_ok h g : known h (if_refs (g_stage g)) ->
  value_known h (g_in g) -> stage_ok if_refs (IF_step h) g.
Proof.
  intros Hk Hv. destruct (flushed_ok g) as (Hi & Ho & Hr & Hf).
  destruct (IF_flushed_ok h (flushed g)) as (g' & w & l & E & Hm & Hl & Hs & Hw);
    [done|intros r Hin; by apply Hk, Hr|by rewrite Hi|].
  exists g', w, l. rewrite IF_step_flushed. split_and!;
    [done|unfold moves in *; by rewrite <- Hi, <- Ho|done|set_solver|done].
Qed.
End Stage_steps.

(** * The pipeline *)

Section Whole_pipeline.
Context `{Framework} `{SR : StageRegister} {SL : StageRegisterLaws SR}.

(** [SOCTop]: the stages, the port from the processor and the registers
    [prIF2ID], [prID2EXE], [prEXE2MEM] and [prMEM2WB]. *)
Record pipeline : Type := Pipe {
  p_if : IFStage; p_id : IDStage; p_exe : EXEStage; p_mem : MEMStage;
  p_port : sreg; prIF2ID : sreg; prID2EXE : sreg; prEXE2MEM : sreg; prMEM2WB : sreg;
}.

(** All the packets that the processor has delivered are in the heap. *)
Definition heap_ok (h : gmap nat InstPacket) (y : pipeline) : Prop := known h (sr_in (p_port y)).

Definition set_p_port (q : sreg) (y : pipeline) : pipeline :=
  Pipe (p_if y) (p_id y) (p_exe y) (p_mem y) q (prIF2ID y) (prID2EXE y) (prEXE2MEM y) (prMEM2WB y).

(** A stage is stepped, or the four registers are synchronised
    ([TopPipeRegisterManager::runSyncPipeRegister]), or the framework does so
    with the port, which the manager does not hold; [h] is the heap. *)
Inductive stage_step (h : gmap nat InstPacket) : pipeline -> list stage_effect -> pipeline -> Prop :=
  | step_IF y g w :
      outcome (IF_step h) (Staged (p_if y) (p_port y) (prIF2ID y)) = Ok (g, w) ->
      stage_step h y w (Pipe (g_stage g) (p_id y) (p_exe y) (p_mem y)
                     (g_in g) (g_out g) (prID2EXE y) (prEXE2MEM y) (prMEM2WB y))
  | step_ID y g w :
      outcome (ID_step h) (Staged (p_id y) (prIF2ID y) (prID2EXE y)) = Ok (g, w) ->
      stage_step h y w (Pipe (p_if y) (g_stage g) (p_exe y) (p_mem y)
                     (p_port y) (g_in g) (g_out g) (prEXE2MEM y) (prMEM2WB y))
  | step_EXE y g w :
      outcome (EXE_step h) (Staged (p_exe y) (prID2EXE y) (prEXE2MEM y)) = Ok (g, w) ->
      stage_step h y w (Pipe (p_if y) (p_id y) (g_stage g) (p_mem y)
                     (p_port y) (prIF2ID y) (g_in g) (g_out g) (prMEM2WB y))
  | step_MEM y g w :
      outcome (MEM_step h) (Staged (p_mem y) (prEXE2MEM y) (prMEM2WB y)) = Ok (g, w) ->
      stage_step h y w (Pipe (p_if y) (p_id y) (p_exe y) (g_stage g)
                     (p_port y) (prIF2ID y) (prID2EXE y) (g_in g) (g_out g))
  | step_WB y q w :
      outcome WB_step (prMEM2WB y) = Ok (q, w) ->
      stage_step h y w (Pipe (p_if y) (p_id y) (p_exe y) (p_mem y)
                     (p_port y) (prIF2ID y) (prID2EXE y) (prEXE2MEM y) q)
  | step_sync y :
      stage_step h y [] (Pipe (p_if y) (p_id y) (p_exe y) (p_mem y) (p_port y)
                     (sr_sync (prIF2ID y)) (sr_sync (prID2EXE y)) (sr_sync (prEXE2MEM y))
                     (sr_sync (prMEM2WB y)))
  | step_port_sync y : stage_step h y [] (set_p_port (sr_sync (p_port y)) y).

(** The framework delivers a packet or runs the pipeline, in any order. *)
Inductive pipe_step : pipeline -> pipeline -> Prop :=
  | pipe_deliver y r q :
      sr_push (p_port y) r = (true, q) -> pipe_step y (set_p_port q y)
  | pipe_stage y h w y' : heap_ok h y -> stage_step h y w y' -> pipe_step y y'.

(** What leaves a register enters the next one, and the stages track only
    packets that were delivered. *)
Record pipe_inv (y : pipeline) : Prop := {
  pi_1 : sr_in (prIF2ID y) = sr_out (p_port y);
  pi_2 : sr_in (prID2EXE y) = sr_out (prIF2ID y);
  pi_3 : sr_in (prEXE2MEM y) = sr_out (prID2EXE y);
  pi_4 : sr_in (prMEM2WB y) = sr_out (prEXE2MEM y);
  pi_if : if_refs (p_if y) ⊆ sr_in (p_port y);
  pi_id : id_refs (p_id y) ⊆ sr_in (p_port y);
  pi_ex : ex_refs (p_exe y) ⊆ sr_in (p_port y);
  pi_me : me_refs (p_mem y) ⊆ sr_in (p_port y);
}.

Definition empty_pipeline (q : sreg) : pipeline :=
  Pipe IFStage_new IDStage_new EXEStage_new MEMStage_new q q q q q.

Lemma prefix_sub (l1 l2 : list nat) : l1 `prefix_of` l2 -> l1 ⊆ l2.
Proof. intros [k ->]. set_solver. Qed.

(** The order in which packets leave a register is the order in which they
    were delivered. *)
Lemma pipe_orders y : pipe_inv y ->
  sr_out (prMEM2WB y) `prefix_of` sr_in (prMEM2WB y)
  /\ sr_in (prMEM2WB y) `prefix_of` sr_in (prEXE2MEM y)
  /\ sr_in (prEXE2MEM y) `prefix_of` sr_in (prID2EXE y)
  /\ sr_in (prID2EXE y) `prefix_of` sr_in (prIF2ID y)
  /\ sr_in (prIF2ID y) `prefix_of` sr_in (p_port y).
Proof.
  intros I. split_and!; [|rewrite (pi_4 y I)|rewrite (pi_3 y I)|rewrite (pi_2 y I)
    |rewrite (pi_1 y I)]; apply sr_order.
Qed.

Lemma value_in q : sr_isValid q = true -> sr_value q ∈ sr_in q.
Proof.
  intros Hv. destruct (sr_pop_valid q Hv) as (q' & _ & Ei & Eo).
  pose proof (sr_order q') as Hp. rewrite Ei, Eo in Hp. apply (prefix_sub _ _ Hp).
  apply elem_of_app. right. by left.
Qed.

Lemma known_sub h (l l' : list nat) : l ⊆ l' -> known h l' -> known h l.
Proof. intros Hl Hk r Hr. by apply Hk, Hl. Qed.

Lemma value_known_ok h q (l : list nat) : sr_in q ⊆ l -> known h l -> value_known h q.
Proof.
  intros Hs Hk Hv r [Hr|Hr]%elem_of_refs%elem_of_cons; [|by apply elem_of_nil in Hr].
  injection Hr as ->. apply Hk, Hs, value_in, Hv.
Qed.

(** Every stage's step returns, in a state of the invariant. *)
Lemma steps_ok h y : pipe_inv y -> heap_ok h y ->
  stage_ok if_refs (IF_step h) (Staged (p_if y) (p_port y) (prIF2ID y))
  /\ stage_ok id_refs (ID_step h) (Staged (p_id y) (prIF2ID y) (prID2EXE y))
  /\ stage_ok ex_refs (EXE_step h) (Staged (p_exe y) (prID2EXE y) (prEXE2MEM y))
  /\ stage_ok me_refs (MEM_step h) (Staged (p_mem y) (prEXE2MEM y) (prMEM2WB y)).
Proof.
  intros I Hh. destruct (pipe_orders y I) as (_ & O3 & O2 & O1 & O0).
  assert (sr_in (prID2EXE y) `prefix_of` sr_in (p_port y)) as O1' by (by etrans).
  assert (sr_in (prEXE2MEM y) `prefix_of` sr_in (p_port y)) as O2' by (by etrans).
  split_and!; [apply IF_step_ok|apply ID_step_ok|apply EXE_step_ok|apply MEM_step_ok]; simpl;
    try (eapply known_sub; [apply I|exact Hh]);
    (eapply value_known_ok; [|exact Hh]); try done; by apply prefix_sub.
Qed.

Lemma WB_step_ok q : exists q' w, outcome WB_step q = Ok (q', w) /\ sr_in q' = sr_in q
  /\ sr_out q' = sr_out q ++ recycled w.
Proof.
  unfold WB_step. step_monad. destruct (sr_isValid q) eqn:Hv; simpl.
  - destruct (sr_pop_valid q Hv) as (q' & E & Hi & Ho). rewrite E. simpl. by eexists _, _.
  - eexists _, _. split; [done|]. by rewrite app_nil_r.
Qed.

Lemma moved_sub {S} l (g g' : staged S) : moves l g g' -> l ⊆ sr_in (g_in g).
Proof.
  intros (Hi & Ho & _). pose proof (sr_order (g_in g')) as Hp. rewrite Hi, Ho in Hp.
  apply prefix_sub in Hp. set_solver.
Qed.

(** The step that was taken is the one that [stage_ok] describes. *)
Lemma stage_ok_inv {S} (refs : S -> list nat) m g g' w : stage_ok refs m g ->
  outcome m g = Ok (g', w) ->
  exists l, moves l g g' /\ refs (g_stage g') ⊆ refs (g_stage g) ++ l /\ l ⊆ sr_in (g_in g)
    /\ recycled w = [].
Proof.
  intros (g1 & w1 & l & E1 & Hm & _ & Hr & Hw) E. rewrite E in E1. injection E1 as <- <-.
  exists l. split_and!; [done|done|by eapply moved_sub|done].
Qed.

(** A step of the pipeline keeps the invariant and what was delivered, and
    recycles what leaves the last register. *)
Lemma stage_step_inv h y w y' : stage_step h y w y' -> heap_ok h y -> pipe_inv y ->
  pipe_inv y' /\ sr_in (p_port y') = sr_in (p_port y)
  /\ sr_out (prMEM2WB y') = sr_out (prMEM2WB y) ++ recycled w.
Proof.
  intros Hs Hh I. pose proof I as [P1 P2 P3 P4 R1 R2 R3 R4].
  destruct (pipe_orders y I) as (_ & O3 & O2 & O1 & O0).
  assert (sr_in (prID2EXE y) `prefix_of` sr_in (p_port y)) as O1' by (by etrans).
  assert (sr_in (prEXE2MEM y) `prefix_of` sr_in (p_port y)) as O2' by (by etrans).
  apply prefix_sub in O0, O1', O2'.
  destruct (steps_ok h y I Hh) as (S1 & S2 & S3 & S4).
  destruct Hs as [y g w E|y g w E|y g w E|y g w E|y q w E|y|y];
    try (first [ apply (stage_ok_inv _ _ _ _ _ S1) in E | apply (stage_ok_inv _ _ _ _ _ S2) in E
               | apply (stage_ok_inv _ _ _ _ _ S3) in E | apply (stage_ok_inv _ _ _ _ _ S4) in E ];
         destruct E as (l & (M1 & M2 & M3 & M4) & Hr & Hl & Hw); simpl in *;
         split_and!; [split|..]; simpl; rewrite ?M1, ?M2, ?M3, ?M4, ?Hw, ?app_nil_r;
         congruence || set_solver).
  - destruct (WB_step_ok (prMEM2WB y)) as (q' & w' & E' & Hi & Ho). rewrite E in E'.
    injection E' as <- <-. split_and!; [split|..]; simpl; rewrite ?Hi, ?Ho; done.
  - split_and!; [split|..]; simpl;
      rewrite ?(proj1 (sr_sync_same _)), ?(proj2 (sr_sync_same _)), ?app_nil_r; done.
  - split_and!; [split|..]; simpl;
      rewrite ?(proj1 (sr_sync_same _)), ?(proj2 (sr_sync_same _)), ?app_nil_r; done.
Qed.

Lemma deliver_inv y r q : sr_push (p_port y) r = (true, q) -> pipe_inv y -> pipe_inv (set_p_port q y).
Proof.
  intros [Ei Eo]%sr_push_true [P1 P2 P3 P4 R1 R2 R3 R4].
  split; simpl; rewrite ?Ei, ?Eo; try done; set_solver.
Qed.

Lemma pipe_step_inv y y' : pipe_step y y' -> pipe_inv y -> pipe_inv y'.
Proof.
  intros [y0 r q E|y0 h w y1 Hh E] I; [by eapply deliver_inv|].
  by destruct (stage_step_inv _ _ _ _ E Hh I).
Qed.

Lemma empty_pipeline_inv q : sr_in q = [] -> pipe_inv (empty_pipeline q).
Proof.
  intros Hq. pose proof (sr_order q) as Ho. rewrite Hq in Ho. apply prefix_nil_inv in Ho.
  split; simpl; rewrite ?Hq, ?Ho; done.
Qed.

(** * Properties *)

(** C15. However the framework interleaves the stages, the deliveries and the
    synchronisation of the registers: no stage fails, and the packets that
    leave the pipeline are a prefix of those that the processor delivered, in
    the same order: none is lost, duplicated or overtaken. *)
Theorem pipeline_in_order q y :
  sr_in q = [] -> rtc pipe_step (empty_pipeline q) y ->
  (forall h, heap_ok h y ->
     (exists g w, outcome (IF_step h) (Staged (p_if y) (p_port y) (prIF2ID y)) = Ok (g, w))
     /\ (exists g w, outcome (ID_step h) (Staged (p_id y) (prIF2ID y) (prID2EXE y)) = Ok (g, w))
     /\ (exists g w, outcome (EXE_step h) (Staged (p_exe y) (prID2EXE y) (prEXE2MEM y)) = Ok (g, w))
     /\ (exists g w, outcome (MEM_step h) (Staged (p_mem y) (prEXE2MEM y) (prMEM2WB y)) = Ok (g, w))
     /\ (exists q w, outcome WB_step (prMEM2WB y) = Ok (q, w)))
  /\ sr_out (prMEM2WB y) `prefix_of` sr_in (p_port y).
Proof.
  intros Hq Hy. assert (I : pipe_inv y).
  { pose proof (empty_pipeline_inv q Hq) as I0. revert I0.
    induction Hy as [|y1 y2 y3 H12 _ IH]; [done|]. intros I0. by apply IH, (pipe_step_inv y1). }
  split.
  - intros h Hh. destruct (steps_ok h y I Hh) as (S1 & S2 & S3 & S4).
    destruct S1 as (? & ? & ? & E1 & _). destruct S2 as (? & ? & ? & E2 & _).
    destruct S3 as (? & ? & ? & E3 & _). destruct S4 as (? & ? & ? & E4 & _).
    destruct (WB_step_ok (prMEM2WB y)) as (? & ? & E5 & _). split_and!; eauto.
  - destruct (pipe_orders y I) as (O4 & O3 & O2 & O1 & O0). by repeat (etrans; [eassumption|]).
Qed.
End Whole_pipeline.

(** * Data hazards *)

(** Register files that differ at most in register [rd]. *)
Definition agree_but (rd : Z) (rf rf' : list Z) : Prop :=
  length rf = length rf' /\ forall k, k <> Z.to_nat rd -> rf !! k = rf' !! k.

Lemma rf_get_agree rd r rf rf' : agree_but rd rf rf' -> in_rf rd = true -> r <> rd ->
  rf_get r rf' = rf_get r rf.
Proof.
  intros [_ Ha] Hrd Hr. unfold rf_get. destruct (in_rf r) eqn:Hin; [|done].
  unfold in_rf in *. rewrite Ha by lia. done.
Qed.

Lemma rf_set_agree rd r v rf rf' rf1 : agree_but rd rf rf' -> rf_set r v rf = Ok rf1 ->
  exists rf1', rf_set r v rf' = Ok rf1' /\ agree_but rd rf1 rf1'.
Proof.
  intros [Hl Ha]. unfold rf_set. case_if; [|done]. intros [= <-].
  eexists. split; [done|]. split; [by rewrite !length_insert|]. intros k Hk.
  destruct (decide (k = Z.to_nat r)) as [->|Hne].
  - destruct (decide (Z.to_nat r < length rf)%nat).
    + by rewrite !list_lookup_insert_eq by lia.
    + by rewrite !list_insert_ge by lia; apply Ha.
  - rewrite !list_lookup_insert_ne by done. by apply Ha.
Qed.

Lemma agree_set rd v rf rf1 : rf_set rd v rf = Ok rf1 -> agree_but rd rf rf1.
Proof.
  unfold rf_set. case_if; [|done]. intros [= <-]. split; [by rewrite length_insert|].
  intros k Hk. by rewrite list_lookup_insert_ne.
Qed.

Section Hazards.
Context `{Framework}.

(** An instruction changes its destination register at most. *)
Lemma exec_dest i rf pc m rf' m' pc' : exec_switch i rf pc m = Ok (rf', m', pc') ->
  agree_but (getDestReg i) rf rf'.
Proof.
  unfold exec_switch, getDestReg.
  destruct (i_op i); rewrite ?memRead_eq, ?memWrite_eq; intros Hs;
    repeat match goal with
      | x : _ * _ |- _ => destruct x
      | Hb : (_ ≫= _) = Ok _ |- _ => apply bind_ok in Hb as (? & ? & Hb)
      | Hb : Ok _ = Ok _ |- _ => injection Hb as; subst
      end; first [by eapply agree_set | by split].
Qed.

Lemma depends_on_checkRAW rd i : depends_on rd i = checkRAW rd i.
Proof.
  unfold depends_on, checkRAW, isRs1Used, isRs2Used, raw_sources.
  destruct (rd =? 0) eqn:E; [by destruct (i_op i)|].
  rewrite Z.eqb_sym in E. destruct (i_op i); cbn -[Z.eqb]; rewrite ?E, ?orb_false_r; try done;
    apply orb_diag.
Qed.

(** A register that the switch of [checkRAW] does not name is no source; the
    opcodes that the riscv tree lacks have no sources there. *)
Lemma checkRAW_sources rd i : checkRAW rd i = false -> rd <> 0 ->
  riscv_op (i_op i) = true -> rd ∉ sources i.
Proof.
  intros Hc H0 Hop. unfold checkRAW in Hc. rewrite (proj2 (Z.eqb_neq rd 0)) in Hc by done.
  unfold raw_sources in Hc. unfold sources.
  destruct (i_op i); try done; apply orb_false_iff in Hc as [?%Z.eqb_neq ?%Z.eqb_neq]; cbn; set_solver.
Qed.

(** A register that is no source is not read. *)
Lemma exec_sources i rd rf rf' pc m rf1 m1 pc1 :
  (riscv_op (i_op i) = true -> rd ∉ sources i) -> in_rf rd = true -> agree_but rd rf rf' ->
  exec_switch i rf pc m = Ok (rf1, m1, pc1) ->
  exists rf1', exec_switch i rf' pc m = Ok (rf1', m1, pc1) /\ agree_but rd rf1 rf1'.
Proof.
  intros Hc Hin Ha.
  assert (Hg : forall r rg rg', agree_but rd rg rg' -> rd <> r -> rf_get r rg' = rf_get r rg)
    by (intros; by apply (rf_get_agree rd)).
  unfold sources in Hc. unfold exec_switch.
  destruct (i_op i) eqn:Ei; cbn in Hc; try specialize (Hc eq_refl);
    try rewrite bool_decide_eq_false_2 in Hc by done; try rewrite bool_decide_eq_true_2 in Hc by done;
    rewrite ?not_elem_of_cons in Hc; destruct_and?;
    rewrite ?memRead_eq, ?memWrite_eq, ?(Hg _ _ _ Ha) by done; intros Hs;
    repeat match goal with
      | x : _ * _ |- _ => destruct x
      | Hb : (_ ≫= _) = Ok _ |- _ => apply bind_ok in Hb as (? & ? & Hb)
      | Hb : Ok _ = Ok _ |- _ => injection Hb as; subst
      end;
    repeat match goal with E : _ = Ok _ |- _ =>
      first [ rewrite E; cbn [mbind result_bind]
            | let rfx := fresh "rfx" in let Er := fresh "Er" in let Ag := fresh "Ag" in
              destruct (rf_set_agree rd _ _ _ rf' _ Ha E) as (rfx & Er & Ag);
              rewrite Er; cbn [mbind result_bind]; clear E ] end;
    try (by eexists).
  rewrite (Hg (o_reg (i_a2 i)) rf1 rfx) by done.
  match goal with E : rf_get _ _ = Ok _ |- _ => rewrite E end. by eexists.
Qed.

(** An instruction without a destination changes no register. *)
Definition writes_x0 (i : instr) : bool := writes_rd (i_op i) && (o_reg (i_a1 i) =? 0).

Lemma exec_no_dest i rf pc m rf' m' pc' : exec_switch i rf pc m = Ok (rf', m', pc') ->
  getDestReg i = 0 -> writes_x0 i = false -> rf' = rf.
Proof.
  unfold exec_switch, getDestReg, writes_x0. intros Hs Hd Hw.
  destruct (i_op i); cbn in Hw; rewrite ?Hd in Hw; try done; revert Hs; rewrite ?memWrite_eq; intros Hs;
    repeat match goal with
      | x : _ * _ |- _ => destruct x
      | Hb : (_ ≫= _) = Ok _ |- _ => apply bind_ok in Hb as (? & ? & Hb)
      | Hb : Ok _ = Ok _ |- _ => injection Hb as; subst
      end; done.
Qed.

End Hazards.

(** The destinations that [hazard_check] compares with the sources. *)
Definition older_rds (exep memp wbp : option InstPacket) : list Z :=
  [packet_rd exep; packet_rd memp; packet_rd wbp].

Lemma hazard_check_spec ifp k exep memp wbp :
  hazard_check ifp (Some k) exep memp wbp =
  (let b := existsb (fun rd => checkRAW rd (ip_inst k)) (older_rds exep memp wbp) in (b, b, b)).
Proof.
  unfold hazard_check, older_rds. simpl. rewrite !depends_on_checkRAW, orb_false_r, orb_assoc.
  by case_if.
Qed.

(** * The time of a memory access *)

Fixpoint timer_run (n : nat) (pc : Z) (t : mem_timer) : list bool * mem_timer :=
  match n with
  | O => ([], t)
  | S n' => let '(b, t1) := timer_step pc t in
            let '(bs, t2) := timer_run n' pc t1 in (b :: bs, t2)
  end.

Lemma timer_run_from n pc c : is_u 32 pc -> (1 <= c <= 1000)%nat ->
  (timer_run n pc (MemTimer (Z.of_nat c) (s32 pc))).1 =
  replicate (Nat.min n (1000 - c)) true ++ replicate (n - (1000 - c)) false
  /\ last_mem_access_pc (timer_run n pc (MemTimer (Z.of_nat c) (s32 pc))).2 = s32 pc.
Proof.
  intros Hpc. revert c. induction n as [|n IH]; intros c Hc; [done|].
  simpl timer_run. unfold timer_step. cbn [last_mem_access_pc mem_access_count].
  rewrite uint_sint, (uint_id 32 pc), Z.eqb_refl by done. cbn [negb].
  unfold memory_access_time. destruct (Z.ltb_spec (Z.of_nat c) 1000) as [Hlt|Hge].
  - destruct (IH (S c) ltac:(lia)) as [E1 E2].
    replace (Z.of_nat c + 1) with (Z.of_nat (S c)) by lia.
    destruct (timer_run n pc _) as [bs t2]. cbn [fst snd] in *. split; [|done]. rewrite E1.
    replace (Nat.min (S n) (1000 - c)) with (S (Nat.min n (1000 - S c))) by lia.
    replace (S n - (1000 - c))%nat with (n - (1000 - S c))%nat by lia. done.
  - assert (c = 1000%nat) as -> by lia. destruct (IH 1000%nat ltac:(lia)) as [E1 E2].
    destruct (timer_run n pc _) as [bs t2]. simpl fst in *. simpl snd in *.
    split; [|done]. rewrite E1. change (1000 - 1000)%nat with 0%nat.
    by rewrite !Nat.min_0_r, !Nat.sub_0_r.
Qed.

(** * Properties *)

(** C22. When the check reports no hazard for an instruction, it does not
    depend on any older instruction in EXE, MEM or WB: executed before or
    after the older one has written its register, it gives the same memory,
    the same next address and the same registers, the older one's destination
    apart. The one exception is register 0, which instructions can write here:
    the check never reports it, so an older instruction that writes it must not
    be followed by one that reads it. The three flags are always equal. *)
Theorem hazard_check_sound `{Framework} ifp k exep memp wbp :
  (Forall (fun o => packet_rd o = 0) [exep; memp; wbp] ->
     hazard_check ifp (Some k) exep memp wbp = (false, false, false))
  /\ (hazard_check ifp (Some k) exep memp wbp = (false, false, false) ->
     forall ko, Some ko ∈ [exep; memp; wbp] -> in_rf (getDestReg (ip_inst ko)) = true ->
     (writes_x0 (ip_inst ko) = true -> 0 ∉ sources (ip_inst k)) ->
     forall rf pc m rfo mo pco, exec_switch (ip_inst ko) rf pc m = Ok (rfo, mo, pco) ->
     forall pc' m' rf1 m1 pc1, exec_switch (ip_inst k) rf pc' m' = Ok (rf1, m1, pc1) ->
     exists rf1', exec_switch (ip_inst k) rfo pc' m' = Ok (rf1', m1, pc1)
       /\ agree_but (getDestReg (ip_inst ko)) rf1 rf1').
Proof.
  rewrite hazard_check_spec. split.
  { rewrite !Forall_cons. intros (E1 & E2 & E3 & _). unfold older_rds. by rewrite E1, E2, E3. }
  intros Hh ko Ho Hin Hx0 rf pc m rfo mo pco Eo pc' m' rf1 m1 pc1 E. injection Hh as Hh _ _.
  pose proof (exec_dest _ _ _ _ _ _ _ Eo) as Ha.
  assert (Hraw : checkRAW (getDestReg (ip_inst ko)) (ip_inst k) = false).
  { apply orb_false_iff in Hh as [A Hh]. apply orb_false_iff in Hh as [B Hh].
    apply orb_false_iff in Hh as [C _]. rewrite !elem_of_cons, elem_of_nil in Ho.
    by destruct Ho as [<-|[<-|[<-|[]]]]. }
  destruct (decide (getDestReg (ip_inst ko) = 0)) as [E0|Hne].
  - destruct (writes_x0 (ip_inst ko)) eqn:Hw.
    + apply (exec_sources _ _ rf _ _ _ _ _ _); try done. intros _. rewrite E0. by apply Hx0.
    + rewrite (exec_no_dest _ _ _ _ _ _ _ Eo E0 Hw). exists rf1. split; [done|]. by split.
  - apply (exec_sources _ _ rf _ _ _ _ _ _); try done. by apply checkRAW_sources.
Qed.

(** C24. A memory access stalls its stage for exactly 1000 steps, and then no
    more: in particular, the next execution of the same instruction is not
    delayed at all, unless another memory access came in between. *)
Theorem mem_stall_time n pc t : is_u 32 pc -> u32 (last_mem_access_pc t) <> pc ->
  (timer_run n pc t).1 = replicate (Nat.min n 1000) true ++ replicate (n - 1000) false.
Proof.
  intros Hpc Ht. destruct n as [|n]; [done|]. simpl timer_run. unfold timer_step.
  rewrite (proj2 (Z.eqb_neq _ _)) by done. cbn [negb].
  destruct (timer_run_from n pc 1 Hpc ltac:(lia)) as [E _]. change (Z.of_nat 1) with 1 in E.
  destruct (timer_run n pc (MemTimer 1 (s32 pc))) as [bs t2]. simpl in E |- *. by rewrite E.
Qed.

(** * A concrete register, and witnesses *)

(** A register of one entry: what was popped, what is inside, and whether the
    stage downstream sees it yet. *)
Record flow_slot : Type := FlowSlot {
  fs_done : list nat; fs_queue : list nat; fs_visible : bool;
}.

Definition fs_occupied (r : flow_slot) : bool := match fs_queue r with [] => false | _ => true end.

#[export] Instance FlowSlotRegister : StageRegister := {
  sreg := flow_slot;
  sr_isStalled := fs_occupied;
  sr_push := fun r p =>
    if fs_occupied r then (false, r) else (true, FlowSlot (fs_done r) (fs_queue r ++ [p]) false);
  sr_isValid := fun r => fs_occupied r && fs_visible r;
  sr_value := fun r => hd 0%nat (fs_queue r);
  sr_pop := fun r => match fs_queue r with
    | p :: q => (p, FlowSlot (fs_done r ++ [p]) q false)
    | [] => (0%nat, r)
    end;
  sr_sync := fun r => FlowSlot (fs_done r) (fs_queue r) true;
}.

#[export] Instance FlowSlotLaws : StageRegisterLaws FlowSlotRegister.
Proof.
  refine {| sr_in := (fun r => fs_done r ++ fs_queue r) : @sreg FlowSlotRegister -> list nat;
            sr_out := fs_done : @sreg FlowSlotRegister -> list nat |}.
  - intros r. by eexists.
  - intros r p Hs. simpl in *. rewrite Hs. eauto.
  - intros r p r'. simpl. destruct (fs_occupied r); [done|]. intros [= <-]. simpl.
    by rewrite app_assoc.
  - intros r p r'. simpl. destruct (fs_occupied r); [|done]. by intros [= <-].
  - intros r. simpl. unfold fs_occupied. destruct (fs_queue r) as [|p q]; [done|]. intros _.
    eexists. split; [reflexivity|]. simpl. by rewrite <- app_assoc.
  - done.
Defined.

#[local] Existing Instance printing_framework.

Definition wq_packet (op : instr_type) (a1 a2 a3 : operand) : InstPacket :=
  MkInstPacket (w_op op a1 a2 a3) 8 false.
Definition wq_heap : gmap nat InstPacket :=
  {[ 7%nat := wq_packet ADDI (w_reg 1) (w_reg 0) (w_imm 5) ]}.
Definition wq_empty : @sreg FlowSlotRegister := FlowSlot [] [] false.

Definition wq_pipe (st : IFStage) (port r1 rest : @sreg FlowSlotRegister) : pipeline :=
  Pipe st IDStage_new EXEStage_new MEMStage_new port r1 rest rest rest.
Definition wq_synced : @sreg FlowSlotRegister := FlowSlot [] [] true.
Definition wq_final : pipeline :=
  wq_pipe (MkIF new_timer false (Some 7%nat) None None None) (FlowSlot [7%nat] [] false)
    (FlowSlot [] [7%nat] false) wq_synced.

(** Packet 7 is delivered, becomes visible, and is moved by the first stage. *)
Lemma wq_reaches : rtc pipe_step (empty_pipeline wq_empty) wq_final.
Proof.
  apply rtc_l with (wq_pipe IFStage_new (FlowSlot [] [7%nat] false) wq_empty wq_empty).
  { by apply (pipe_deliver (empty_pipeline wq_empty) 7%nat (FlowSlot [] [7%nat] false)). }
  assert (Hk : forall r, r ∈ [7%nat] -> is_Some (wq_heap !! r)).
  { intros r Hr. apply elem_of_cons in Hr as [->|E]; [by eexists|by apply elem_of_nil in E]. }
  apply rtc_l with (wq_pipe IFStage_new (FlowSlot [] [7%nat] false) wq_synced wq_synced).
  { apply (pipe_stage _ wq_heap []); [exact Hk|].
    apply (step_sync wq_heap (wq_pipe IFStage_new (FlowSlot [] [7%nat] false) wq_empty wq_empty)). }
  apply rtc_l with (wq_pipe IFStage_new (FlowSlot [] [7%nat] true) wq_synced wq_synced).
  { apply (pipe_stage _ wq_heap []); [exact Hk|].
    apply (step_port_sync wq_heap (wq_pipe IFStage_new (FlowSlot [] [7%nat] false) wq_synced wq_synced)). }
  apply rtc_once.
  apply (pipe_stage _ wq_heap []); [exact Hk|].
  apply (step_IF wq_heap (wq_pipe IFStage_new (FlowSlot [] [7%nat] true) wq_synced wq_synced)
    (Staged (MkIF new_timer false (Some 7%nat) None None None)
      (FlowSlot [7%nat] [] false : @sreg FlowSlotRegister) (FlowSlot [] [7%nat] false)) []).
  reflexivity.
Qed.

Lemma pipeline_in_order_witness :
  sr_in (p_port wq_final) = [7%nat]
  /\ sr_out (prMEM2WB wq_final) `prefix_of` sr_in (p_port wq_final).
Proof.
  split; [reflexivity|].
  apply (pipeline_in_order wq_empty wq_final); [reflexivity|exact wq_reaches].
Defined.

(** An independent pair; and a jump that writes register 0, before an [ADDI]
    that does not read it. *)
Lemma hazard_check_sound_witness :
  let k := wq_packet ADD (w_reg 3) (w_reg 4) (w_reg 5) in
  let ko := wq_packet ADDI (w_reg 1) (w_reg 0) (w_imm 5) in
  let jump := wq_packet JAL (w_reg 0) (w_imm 12) (w_imm 0) in
  (exists rf1', exec_switch (ip_inst k) (xset 1 5 (replicate 32 0)) 12 [] = Ok (rf1', [], 16)
    /\ agree_but 1 (replicate 32 0) rf1')
  /\ exists rf1', exec_switch (ip_inst k) (<[0%nat := 12]> (replicate 32 0)) 12 [] = Ok (rf1', [], 16)
    /\ agree_but 0 (replicate 32 0) rf1'.
Proof.
  split.
  - apply (proj2 (hazard_check_sound None (wq_packet ADD (w_reg 3) (w_reg 4) (w_reg 5))
      (Some (wq_packet ADDI (w_reg 1) (w_reg 0) (w_imm 5))) None None))
      with (ko := wq_packet ADDI (w_reg 1) (w_reg 0) (w_imm 5)) (rf := replicate 32 0) (pc := 8) (m := []) (mo := []) (pco := 12);
      [reflexivity|left|reflexivity|discriminate|reflexivity|reflexivity].
  - apply (proj2 (hazard_check_sound None (wq_packet ADD (w_reg 3) (w_reg 4) (w_reg 5))
      (Some (wq_packet JAL (w_reg 0) (w_imm 12) (w_imm 0))) None None))
      with (ko := wq_packet JAL (w_reg 0) (w_imm 12) (w_imm 0)) (rf := replicate 32 0) (pc := 8) (m := []) (mo := []) (pco := 12);
      [reflexivity|left|reflexivity| |reflexivity|reflexivity].
    intros _. apply (bool_decide_unpack _). by vm_compute.
Defined.

(** A dependence through register 0 is not reported: after [JAL x0] at 8 the
    [ADDI x1, x0, 5] behind it computes 17, not 5. *)
Example hazard_check_misses_x0 :
  let jump := wq_packet JAL (w_reg 0) (w_imm 12) (w_imm 0) in
  let add := wq_packet ADDI (w_reg 1) (w_reg 0) (w_imm 5) in
  hazard_check None (Some add) (Some jump) None None = (false, false, false)
  /\ exists rfo rf1 rf1', exec_switch (ip_inst jump) (replicate 32 0) 8 [] = Ok (rfo, [], 12)
    /\ exec_switch (ip_inst add) (replicate 32 0) 12 [] = Ok (rf1, [], 16) /\ rf1 !! 1%nat = Some 5
    /\ exec_switch (ip_inst add) rfo 12 [] = Ok (rf1', [], 16) /\ rf1' !! 1%nat = Some 17.
Proof.
  split; [reflexivity|].
  exists (12 :: replicate 31 0), (0 :: 5 :: replicate 30 0), (12 :: 17 :: replicate 30 0).
  split_and!; reflexivity.
Qed.

Lemma mem_stall_time_witness :
  (timer_run 3 8 new_timer).1 = [true; true; true]
  /\ (timer_run 1002 8 new_timer).1 = replicate 1000 true ++ [false; false].
Proof.
  split.
  - apply (mem_stall_time 3 8 new_timer); [unfold is_u; lia|discriminate].
  - apply (mem_stall_time 1002 8 new_timer); [unfold is_u; lia|discriminate].
Defined.
