(* ===== verification/RvSystem.v ===== *)
(** The pipelined simulator as a whole ([src/riscv/include/SOCTop.hh]): the
    processor, its port to the IF stage, the stages with their registers, and
    the recycling of packets in WB, under every order in which the framework
    can run them. *)
From S2P Require Import Prelude Machine DataStruct Memory Isa Reference MemPacket RvCpu Pipeline.
Local Open Scope Z_scope.

(** * The composition *)

(** [registerSimulators] connects the master port ["sIF-m"] of the SoC to the
    slave port ["soc-s"] of the IF stage: the two ends of one queue. *)
#[export] Instance stage_port `{SR : StageRegister} : MasterPort :=
  {| mport := sreg; mp_push := sr_push |}.

#[export] Instance stage_port_laws `{SR : StageRegister} {SL : StageRegisterLaws SR} :
  MasterPortLaws stage_port.
Proof.
  refine {| mp_taken := sr_in : @mport stage_port -> list nat |}; intros p r p' E; cbn in E.
  - by apply sr_push_true in E as [-> _].
  - by apply sr_push_false in E as [-> _].
Defined.

(** The objects that references name. *)
Definition contents (h : gmap nat InstPacket) (refs : list nat) : list InstPacket :=
  omap (fun r => h !! r) refs.
Arguments contents : simpl never.

Section Top.
Context `{Framework} `{RC : RecycleContainer} {RL : RecycleContainerLaws RC}.
Context `{SR : StageRegister} {SL : StageRegisterLaws SR}.

(** The simulators of [SOCTop]; what was executed and what has left the
    pipeline is recorded. *)
Record SOCTop : Type := MkTop {
  t_cpu : RvCPU;
  t_events : list rv_effect;
  t_pipe : pipeline;
  t_executed : list InstPacket;
  t_retired : list InstPacket;
}.

(** The port after a step of the pipeline, and the recycled objects. *)
Definition after_stage (w : list stage_effect) (p : pipeline) (s : RvCPU) : RvCPU :=
  MkRv (v_rf s) (v_pc s) (v_inst_cnt s) (v_imem s) (v_dmem s) (v_heap s)
    (foldl (fun l r => recycle r l) (v_pool s) (recycled w)) (p_port p) (v_pending s).

(** The framework fires an event, has the processor retry, or runs the
    pipeline. *)
Inductive top_step : SOCTop -> SOCTop -> Prop :=
  | top_exec s evs1 evs2 p ex rt t id s' w :
      outcome (v_execOneInstr t) s = Ok (s', w) ->
      top_step (MkTop s (evs1 ++ RvExecOneInstr t id :: evs2) p ex rt)
        (MkTop s' (evs1 ++ evs2 ++ w) (set_p_port (v_port s') p)
           (ex ++ contents (v_heap s') [(acquire (v_pool s)).1]) rt)
  | top_retry s evs p ex rt now s' w :
      outcome (soc_masterPortRetry now "sIF-m") s = Ok (s', w) ->
      top_step (MkTop s evs p ex rt) (MkTop s' (evs ++ w) (set_p_port (v_port s') p) ex rt)
  | top_stage s evs p ex rt w p' :
      stage_step (v_heap s) p w p' ->
      top_step (MkTop s evs p ex rt)
        (MkTop (after_stage w p' s) evs p' ex (rt ++ contents (v_heap s) (recycled w))).

(** The packets on their way: at the port, in the stages, or pending. *)
Definition in_flight (y : SOCTop) : list nat :=
  drop (length (sr_out (prMEM2WB (t_pipe y)))) (sr_in (p_port (t_pipe y)))
  ++ option_list (v_pending (t_cpu y)).

(** The last executed instruction ends the program. *)
Definition halted (ex : list InstPacket) : bool :=
  match last ex with Some k => is_hcf k | None => false end.

(** A simulator that starts: nothing in flight, one event. *)
Definition top_start (s : RvCPU) (t : Z) : SOCTop :=
  MkTop s [RvExecOneInstr t 1]
    (set_p_port (v_port s) (empty_pipeline (v_port s))) [] [].

(** * The invariant *)

Record top_inv (y : SOCTop) : Prop := {
  ti_pipe : pipe_inv (t_pipe y);
  ti_port : v_port (t_cpu y) = p_port (t_pipe y);
  ti_known : known (v_heap (t_cpu y)) (sr_in (p_port (t_pipe y)) ++ option_list (v_pending (t_cpu y)));
  ti_nodup : NoDup (in_flight y);
  ti_used : forall r, r ∈ in_flight y -> r ∈ in_use (v_pool (t_cpu y));
  ti_packets : t_executed y = t_retired y ++ contents (v_heap (t_cpu y)) (in_flight y);
  ti_events : (length (t_events y) + length (option_list (v_pending (t_cpu y))) <= 1)%nat;
  ti_halted : halted (t_executed y) = true -> t_events y = [];
  ti_running : t_events y = [] -> v_pending (t_cpu y) = None -> halted (t_executed y) = true;
  ti_last : forall l k, t_executed y = l ++ [k] -> existsb is_hcf l = false;
}.

Lemma contents_app h l1 l2 : contents h (l1 ++ l2) = contents h l1 ++ contents h l2.
Proof. apply omap_app. Qed.

Lemma contents_cons h r l :
  contents h (r :: l) = match h !! r with Some k => k :: contents h l | None => contents h l end.
Proof. done. Qed.

Lemma contents_one h r k : h !! r = Some k -> contents h [r] = [k].
Proof. intros Hk. by rewrite contents_cons, Hk. Qed.

Lemma contents_insert h r k l : r ∉ l -> contents (<[r := k]> h) l = contents h l.
Proof.
  intros Hr. induction l as [|q l IH]; [done|]. apply not_elem_of_cons in Hr as [Hne Hr].
  by rewrite !contents_cons, lookup_insert_ne, IH.
Qed.

(** An executed instruction adds an object. *)
Lemma contents_snoc h r k l : r ∉ l -> contents (<[r := k]> h) (l ++ [r]) = contents h l ++ [k].
Proof.
  intros Hr. by rewrite contents_app, contents_insert, contents_cons, lookup_insert_eq.
Qed.

Lemma known_insert h r k l : known h l -> known (<[r := k]> h) (l ++ [r]).
Proof.
  intros Hk q [Hq|Hq]%elem_of_app.
  - destruct (decide (q = r)) as [->|Hne]; [rewrite lookup_insert_eq; by eexists|].
    rewrite lookup_insert_ne by done. by apply Hk.
  - apply list_elem_of_singleton in Hq as ->. rewrite lookup_insert_eq. by eexists.
Qed.

Lemma recycled_use l p q :
  q ∈ in_use (foldl (fun l r => recycle r l) p l) <-> q ∈ in_use p /\ q ∉ l.
Proof.
  revert p. induction l as [|r l IH]; intros p; cbn; [set_solver|].
  rewrite IH, recycle_frees. set_solver.
Qed.

(** What has left is a prefix of what was delivered. *)
Lemma pipe_out_prefix p : pipe_inv p -> sr_out (prMEM2WB p) `prefix_of` sr_in (p_port p).
Proof.
  intros I. destruct (pipe_orders p I) as (O4 & O3 & O2 & O1 & O0).
  by repeat (etrans; [eassumption|]).
Qed.

Lemma flight_split y : top_inv y ->
  sr_in (p_port (t_pipe y)) =
  sr_out (prMEM2WB (t_pipe y))
  ++ drop (length (sr_out (prMEM2WB (t_pipe y)))) (sr_in (p_port (t_pipe y))).
Proof.
  intros I. destruct (pipe_out_prefix _ (ti_pipe y I)) as [l Hl].
  rewrite Hl at 1. by rewrite Hl, drop_app_length.
Qed.

(** ** It is kept *)

Lemma refuse_inv p r q : sr_push (p_port p) r = (false, q) -> pipe_inv p -> pipe_inv (set_p_port q p).
Proof.
  intros [Ei Eo]%sr_push_false [P1 P2 P3 P4 R1 R2 R3 R4].
  split; cbn; rewrite ?Ei, ?Eo; done.
Qed.

(** A push, accepted or not, appends the packet to those in flight. *)
Lemma port_push p r ok q :
  sr_in (p_port p) = sr_out (prMEM2WB p) ++ drop (length (sr_out (prMEM2WB p))) (sr_in (p_port p)) ->
  sr_push (p_port p) r = (ok, q) ->
  sr_in q ++ option_list (if ok then None else Some r) = sr_in (p_port p) ++ [r]
  /\ drop (length (sr_out (prMEM2WB p))) (sr_in q) ++ option_list (if ok then None else Some r)
     = drop (length (sr_out (prMEM2WB p))) (sr_in (p_port p)) ++ [r].
Proof.
  intros Hsplit Hq. destruct ok.
  - apply sr_push_true in Hq as [-> _]. rewrite !app_nil_r. split; [done|].
    rewrite drop_app_le; [done|]. rewrite Hsplit at 1. rewrite length_app. lia.
  - by apply sr_push_false in Hq as [-> _].
Qed.

Lemma top_exec_inv s evs1 evs2 p ex rt t id s' w :
  outcome (v_execOneInstr t) s = Ok (s', w) ->
  top_inv (MkTop s (evs1 ++ RvExecOneInstr t id :: evs2) p ex rt) ->
  top_inv (MkTop s' (evs1 ++ evs2 ++ w) (set_p_port (v_port s') p)
             (ex ++ contents (v_heap s') [(acquire (v_pool s)).1]) rt).
Proof.
  intros E I. pose proof (flight_split _ I) as Hsplit.
  destruct I as [I1 I2 I3 I4 I5 I6 I7 I8 I9 I10]. unfold in_flight in *. cbn in *.
  apply exec_inv in E as (i & rf & m & pc & r & pl & ok & q & _ & _ & _ & Ha & Hq & -> & ->).
  destruct evs1; [|rewrite length_app in I7; cbn in I7; lia]. destruct evs2; [|cbn in I7; lia].
  destruct (v_pending s) eqn:Hp; [cbn in I7; lia|]. cbn in *. rewrite app_nil_r in *.
  set (k := trace_packet i (v_pc s) pc). rewrite Ha. cbn [fst].
  apply acquire_fresh in Ha as [Hfresh Huse]. rewrite I2 in Hq.
  set (fl := drop (length (sr_out (prMEM2WB p))) (sr_in (p_port p))) in *.
  assert (Hr : r ∉ fl) by (intros Hin; by apply Hfresh, I5).
  destruct (port_push p r ok q Hsplit Hq) as [Hin Hnew].
  assert (Hpd : (if ok then v_pending s else Some r) = if ok then None else Some r) by (by rewrite Hp).
  assert (Hk : contents (<[r := k]> (v_heap s)) [r] = [k])
    by (by apply contents_one, lookup_insert_eq).
  split; unfold in_flight; cbn; rewrite ?Hpd, ?Hin, ?Hnew, ?Hk; try done.
  - destruct ok; cbn in Hq; [by eapply deliver_inv|]. by eapply refuse_inv.
  - by apply known_insert.
  - apply NoDup_app. split_and!; [done| |apply NoDup_singleton].
    intros q' Hq' ->%list_elem_of_singleton. done.
  - intros q' Hq'. rewrite Huse.
    apply elem_of_app in Hq' as [Hq'|Hq']; [|apply list_elem_of_singleton in Hq' as ->; set_solver].
    apply I5 in Hq'. set_solver.
  - by rewrite contents_snoc, I6, <- app_assoc.
  - destruct ok, (bool_decide (i_op i = HCF)); cbn; lia.
  - unfold halted. rewrite last_snoc. unfold is_hcf, k. cbn. intros ->. by rewrite andb_false_r.
  - unfold halted. rewrite last_snoc. unfold is_hcf, k. cbn.
    destruct ok; [|done]. by destruct (bool_decide (i_op i = HCF)).
  - intros l k' [-> ->]%app_inj_tail. destruct (existsb is_hcf l) eqn:Hx; [|done]. exfalso.
    destruct l as [|k0 l0] using rev_ind; [done|]. clear IHl0.
    rewrite existsb_app, (I10 _ _ eq_refl) in Hx. cbn in Hx. rewrite orb_false_r in Hx.
    unfold halted in I8. rewrite last_snoc in I8. by apply I8 in Hx.
Qed.

Lemma top_retry_inv s evs p ex rt now s' w :
  outcome (soc_masterPortRetry now "sIF-m") s = Ok (s', w) ->
  top_inv (MkTop s evs p ex rt) ->
  top_inv (MkTop s' (evs ++ w) (set_p_port (v_port s') p) ex rt).
Proof.
  intros E I. pose proof (flight_split _ I) as Hsplit.
  destruct I as [I1 I2 I3 I4 I5 I6 I7 I8 I9 I10]. unfold in_flight in *. cbn in *.
  apply retry_inv in E. destruct (v_pending s) as [r|] eqn:Hp.
  2: { destruct E as [-> ->]. rewrite app_nil_r, I2.
       assert (set_p_port (p_port p) p = p) as -> by (by destruct p).
       split; unfold in_flight; cbn; rewrite ?Hp; done. }
  destruct E as (ok & q & Hq & -> & Hw). rewrite I2 in Hq. cbn in I6, I7.
  destruct evs; [|cbn in I7; lia]. cbn.
  destruct (port_push p r ok q Hsplit Hq) as [Hin Hnew].
  split; unfold in_flight; cbn; rewrite ?Hnew, ?Hin; try done.
  - destruct ok; cbn in Hq; [by eapply deliver_inv|by eapply refuse_inv].
  - destruct ok; [destruct Hw as (k & _ & ->); case_bool_decide|rewrite Hw]; cbn; lia.
  - intros Hx. destruct ok; [|done]. destruct Hw as (k & Hk & ->).
    rewrite I6, contents_app, (contents_one _ _ _ Hk), app_assoc in Hx. unfold halted in Hx.
    rewrite last_snoc in Hx. unfold is_hcf in Hx. by rewrite Hx.
  - destruct ok; [|done]. destruct Hw as (k & Hk & ->). intros Hx _.
    rewrite I6, contents_app, (contents_one _ _ _ Hk), app_assoc. unfold halted. rewrite last_snoc.
    unfold is_hcf. by destruct (bool_decide _).
Qed.

Lemma top_stage_inv s evs p ex rt w p' : stage_step (v_heap s) p w p' ->
  top_inv (MkTop s evs p ex rt) ->
  top_inv (MkTop (after_stage w p' s) evs p' ex (rt ++ contents (v_heap s) (recycled w))).
Proof.
  intros E I. pose proof (flight_split _ I) as Hsplit.
  destruct I as [I1 I2 I3 I4 I5 I6 I7 I8 I9 I10]. cbn in *.
  assert (Hh : heap_ok (v_heap s) p) by (eapply known_sub; [|exact I3]; set_solver).
  destruct (stage_step_inv _ _ _ _ E Hh I1) as (I1' & Hin & Hout).
  destruct (pipe_out_prefix p' I1') as [l Hl]. rewrite Hin, Hout, <- app_assoc in Hl.
  assert (Hfl : in_flight (MkTop s evs p ex rt)
    = recycled w ++ in_flight (MkTop (after_stage w p' s) evs p' ex rt)).
  { unfold in_flight. cbn. rewrite Hin, Hout, Hl, drop_app_length.
    by rewrite (app_assoc (sr_out _)), drop_app_length, <- app_assoc. }
  unfold in_flight in *. cbn in *. rewrite Hfl in I4, I5, I6.
  apply NoDup_app in I4 as (_ & Hdis & I4).
  split; unfold in_flight; cbn; try done.
  - by rewrite Hin.
  - intros r Hr. rewrite recycled_use. split; [apply I5, elem_of_app; by right|].
    intros Hx. by apply (Hdis r Hx).
  - by rewrite I6, contents_app, <- app_assoc.
Qed.

Lemma top_step_inv y y' : top_step y y' -> top_inv y -> top_inv y'.
Proof. intros []; [by apply top_exec_inv|by eapply top_retry_inv|by apply top_stage_inv]. Qed.
Lemma top_start_inv s t : sr_in (v_port s) = [] -> v_pending s = None -> top_inv (top_start s t).
Proof.
  intros Hq Hp. pose proof (empty_pipeline_inv _ Hq) as I.
  assert (sr_out (v_port s) = []) as Ho.
  { apply prefix_nil_inv. rewrite <- Hq. apply sr_order. }
  split; unfold in_flight; cbn; rewrite ?Hq, ?Ho, ?Hp; cbn; try done.
  - by intros r Hr%elem_of_nil.
  - constructor.
  - by intros r Hr%elem_of_nil.
  - by intros [|? l] k Hx%eq_sym; [|by destruct l].
Qed.

Lemma top_reach_inv y y' : rtc top_step y y' -> top_inv y -> top_inv y'.
Proof. induction 1 as [|y1 y2 y3 H12 _ IH]; [done|]. intros I. by eapply IH, top_step_inv. Qed.

(** ** The reference *)

(** As long as the reference has a next step, the executed instructions are
    those of the reference, and the processor is in its state. *)
Abbreviation top_follows x0 s0 y := (follows x0 s0 (t_executed y) (t_cpu y)).

Lemma top_step_follows x0 s0 y y' : top_step y y' -> top_follows x0 s0 y -> top_follows x0 s0 y'.
Proof.
  intros [s evs1 evs2 p ex rt t id s' w E|s evs p ex rt now s' w E|s evs p ex rt w p' _] F; cbn in *.
  - destruct (exec_inv _ _ _ _ E) as (i & rf & m & pc & r & pl & ok & q & _ & _ & _ & Ha & _ & -> & _).
    rewrite Ha. cbn [fst]. rewrite (contents_one _ _ (trace_packet i (v_pc s) pc)) by apply lookup_insert_eq.
    eapply follows_exec; [exact E| |done]. rewrite Ha. apply lookup_insert_eq.
  - by eapply follows_retry.
  - by eapply follows_ext.
Qed.

Lemma top_reach_follows x0 s t y : simulates x0 s -> rtc top_step (top_start s t) y ->
  top_follows x0 s y.
Proof.
  intros Hsim Hy. assert (F : top_follows x0 s (top_start s t)) by (by apply follows_start).
  revert F. induction Hy as [|y1 y2 y3 H12 _ IH]; [done|]. intros F. by eapply IH, top_step_follows.
Qed.

(** * Properties *)

(** C13. No instruction is lost, repeated or reordered between the processor
    and the end of the pipeline, and no packet object is used twice: for every
    program, well-formed or not, and every order in which the framework runs
    the processor, the retries, the stages and the synchronisation, what was
    executed is what has left followed by the contents of the packets in
    flight; these are distinct objects, still in use in the recycle container
    and never recycled early; and at most one execution is scheduled, none
    after [hcf], and one unless a packet waits or the program has ended. *)
Theorem rv_packets_conserved s t y :
  sr_in (v_port s) = [] -> v_pending s = None -> rtc top_step (top_start s t) y ->
  t_executed y = t_retired y ++ contents (v_heap (t_cpu y)) (in_flight y)
  /\ NoDup (in_flight y)
  /\ (forall r, r ∈ in_flight y ->
        r ∈ in_use (v_pool (t_cpu y)) /\ is_Some (v_heap (t_cpu y) !! r))
  /\ (length (t_events y) + length (option_list (v_pending (t_cpu y))) <= 1)%nat
  /\ (halted (t_executed y) = true -> t_events y = [])
  /\ (t_events y = [] -> v_pending (t_cpu y) = None -> halted (t_executed y) = true).
Proof.
  intros Hq Hp Hy. pose proof (top_reach_inv _ _ Hy (top_start_inv s t Hq Hp)) as I.
  split; [by apply I|]. split; [by apply I|]. split; [|split_and!; by apply I].
  intros r Hr. split; [by apply (ti_used y I)|]. apply (ti_known y I).
  unfold in_flight in Hr. apply elem_of_app in Hr as [Hr|Hr]; apply elem_of_app; [left|by right].
  by eapply subseteq_drop.
Qed.
End Top.

(** * Witness *)

#[local] Existing Instance printing_framework.

Definition w_top_cpu : @RvCPU FreshContainer (stage_port (SR := FlowSlotRegister)) :=
  @RvCPU_new FreshContainer (stage_port (SR := FlowSlotRegister)) w_program (replicate 8 0) []
    wq_empty.

(** The first instruction is executed; its packet is in flight. *)
Lemma rv_packets_conserved_witness :
  exists y, rtc top_step (top_start w_top_cpu 1) y
    /\ map ip_pc (t_executed y) = [0]
    /\ t_executed y = t_retired y ++ contents (v_heap (t_cpu y)) (in_flight y)
    /\ in_flight y = [0%nat].
Proof.
  destruct (outcome (v_execOneInstr 1) w_top_cpu) as [[s' w]|] eqn:E; [|by vm_compute in E].
  pose proof (top_exec w_top_cpu [] [] (t_pipe (top_start w_top_cpu 1)) [] [] 1 1 s' w E) as Hstep.
  eexists. split; [by apply rtc_once|].
  assert (Hy := proj1 (rv_packets_conserved (SL := FlowSlotLaws) w_top_cpu 1 _ eq_refl eq_refl
    (rtc_once _ _ Hstep))).
  vm_compute in E. injection E as <- <-. split; [reflexivity|]. split; [exact Hy|reflexivity].
Defined.
