(* ===== verification/RvProgress.v ===== *)
(** The pipeline never gets stuck: whatever its state, the framework can run
    it until every packet has left, and so every program that ends can be
    completed from every state of every run. *)
From S2P Require Import Prelude Machine DataStruct Memory Isa Reference MemPacket RvCpu Pipeline RvSystem.
Local Open Scope Z_scope.

(** What a synchronisation promises: a packet inside becomes visible, an empty
    register accepts. *)
Class StageRegisterLive `(SR : StageRegister) {SL : StageRegisterLaws SR} : Prop := {
  sr_sync_valid : forall r, sr_in r <> sr_out r -> sr_isValid (sr_sync r) = true;
  sr_sync_ready : forall r, sr_in r = sr_out r -> sr_isStalled (sr_sync r) = false;
}.

(** * One stage *)

Section Stage_progress.
Context `{Framework} `{SR : StageRegister} {SL : StageRegisterLaws SR}.
Context (h : gmap nat InstPacket) (h_pcs : forall r k, h !! r = Some k -> is_u 32 (ip_pc k)).

(** The steps that a memory access can still stall. *)
Definition tleft (pc : Z) (t : mem_timer) : nat :=
  if u32 (last_mem_access_pc t) =? pc then Z.to_nat (memory_access_time - mem_access_count t)
  else Z.to_nat (memory_access_time + 1).

Lemma timer_left pc t t' : is_u 32 pc -> timer_step pc t = (true, t') ->
  (tleft pc t' < tleft pc t)%nat.
Proof.
  intros Hpc. unfold timer_step, tleft. destruct (Z.eqb_spec (u32 (last_mem_access_pc t)) pc) as [E|E];
    cbn [negb].
  - destruct (Z.ltb_spec (mem_access_count t) memory_access_time); [|done].
    intros [= <-]. cbn [last_mem_access_pc mem_access_count].
    rewrite (proj2 (Z.eqb_eq _ _) E). lia.
  - intros [= <-]. cbn [last_mem_access_pc mem_access_count].
    rewrite uint_sint, (uint_id 32 pc), Z.eqb_refl by done. unfold memory_access_time. lia.
Qed.

Definition ma_left (o : option nat) (t : mem_timer) : nat :=
  match o ≫= (fun r => h !! r) with
  | Some k => if is_MemPacket (Some k) then tleft (ip_pc k) t else 0%nat
  | None => 0%nat
  end.

Lemma deref_inv o k : deref h o = Ok k -> k = o ≫= (fun r => h !! r) /\ (o <> None -> k <> None).
Proof.
  destruct o as [r|]; cbn; [|by intros [= <-]]. destruct (h !! r); cbn; by intros [= <-].
Qed.

Lemma stall_left o k t t' : deref h o = Ok k -> stall_ma k t = (true, t') ->
  (ma_left o t' < ma_left o t)%nat.
Proof.
  intros [Hk _]%deref_inv. unfold ma_left. rewrite <- Hk. destruct k as [k|]; [|done].
  unfold stall_ma. destruct (is_MemPacket (Some k)); [|done]. apply timer_left.
  destruct o as [r|]; [|done]. cbn in Hk. by eapply h_pcs.
Qed.

(** A step that does not move a packet leaves the registers and brings the
    stage closer to moving one. *)
Definition closer {S} (refs : S -> list nat) (u v : staged S -> nat) (g g' : staged S) : Prop :=
  g_in g' = g_in g /\ g_out g' = g_out g /\ refs (g_stage g') ⊆ refs (g_stage g)
  /\ ((u g' < u g)%nat \/ u g' = u g /\ (v g' < v g)%nat).

Definition quietly {S} (m : M (staged S) stage_effect unit) (g g' : staged S) : Prop :=
  exists w, outcome m g = Ok (g', w) /\ recycled w = [].

Definition advances {S} (refs : S -> list nat) (u v : staged S -> nat)
    (m : M (staged S) stage_effect unit) : Prop :=
  forall g, sr_isValid (g_in g) = true -> sr_isStalled (g_out g) = false ->
    known h (refs (g_stage g)) -> value_known h (g_in g) ->
    exists g', quietly m g g' /\ ((exists r, moves [r] g g') \/ closer refs u v g g').

Lemma advances_run {S} refs u v (m : M (staged S) stage_effect unit) g : advances refs u v m ->
  sr_isValid (g_in g) = true -> sr_isStalled (g_out g) = false ->
  known h (refs (g_stage g)) -> value_known h (g_in g) ->
  exists g' r, rtc (quietly m) g g' /\ moves [r] g g'.
Proof.
  intros Ha. remember (u g) as a eqn:Ea. revert g Ea.
  induction a as [a IHa] using lt_wf_ind. intros g. remember (v g) as b eqn:Eb. revert g Eb.
  induction b as [b IHb] using lt_wf_ind. intros g Eb Ea Hv Hs Hk Hvk.
  destruct (Ha g Hv Hs Hk Hvk) as (g1 & Hq & [[r Hr]|(E1 & E2 & Hsub & Hd)]).
  - exists g1, r. split; [by apply rtc_once|done].
  - assert (Hrec : exists g' r, rtc (quietly m) g1 g' /\ moves [r] g1 g').
    { assert (Hk1 : known h (refs (g_stage g1))) by (by eapply known_sub).
      destruct Hd as [Hd|[Eu Hd]].
      - apply (IHa (u g1)); [lia|done|by rewrite E1|by rewrite E2|done|by rewrite E1].
      - apply (IHb (v g1)); [lia|done|lia|by rewrite E1|by rewrite E2|done|by rewrite E1]. }
    destruct Hrec as (g' & r & Hrun & Hm). exists g', r. split; [by eapply rtc_l|].
    unfold moves in *. by rewrite <- E1, <- E2.
Qed.

(** The common shape of the steps, when the next register has room. *)
Lemma body_advances {S} (refs : S -> list nat) u v m (g : staged S) s1 s2 go bubble f :
  sr_isValid (g_in g) = true -> sr_isStalled (g_out g) = false ->
  m g = stage_body g s1 s2 go bubble f g ->
  (go = false -> closer refs u v g (set_stage (if bubble then s2 else s1) g)) ->
  exists g', quietly m g g' /\ ((exists r, moves [r] g g') \/ closer refs u v g g').
Proof.
  intros Hv Hs E Hc. destruct go.
  - destruct (move_ok f (set_stage s1 g) Hv Hs) as (g' & r & Em & Hm & _).
    exists g'. split; [|left; by exists r]. exists []. split; [|done].
    unfold outcome. rewrite E. unfold stage_body. erewrite M_bind_silent by reflexivity.
    rewrite Hs. cbn [negb when]. by rewrite Em.
  - eexists. split; [|right; by apply Hc]. exists [ForceStepInNextIteration]. split; [|done].
    unfold outcome. rewrite E. unfold stage_body. erewrite M_bind_silent by reflexivity.
    rewrite Hs. by destruct bubble.
Qed.

(** ** The stages *)

Definition me_left (g : staged MEMStage) : nat :=
  ma_left (Some (sr_value (g_in g))) (me_timer (g_stage g)).
Definition ex_left (g : staged EXEStage) : nat :=
  ma_left (ex_MEM (g_stage g)) (ex_timer (g_stage g)).

Lemma MEM_advances : advances me_refs (fun _ => 0%nat) me_left (MEM_step h).
Proof.
  intros g Hv Hs Hk Hvk. destruct (deref_ok h _ (Hvk Hv)) as [k E].
  destruct (stall_ma k (me_timer (g_stage g))) as [st t] eqn:Est.
  eapply body_advances; [done|done|by eapply MEM_body|].
  intros Hst%negb_false_iff. subst st. split_and!; try done. right. split; [done|].
  unfold me_left. cbn. by eapply stall_left.
Qed.

Lemma EXE_advances : advances ex_refs (fun _ => 0%nat) ex_left (EXE_step h).
Proof.
  intros g Hv Hs Hk Hvk. unfold ex_refs in Hk. split_known.
  destruct (deref_ok h (ex_MEM (g_stage g))) as [k E]; [done|].
  destruct (stall_ma k (ex_timer (g_stage g))) as [st t] eqn:Est.
  eapply body_advances; [done|done|by eapply EXE_body|].
  intros Hst%negb_false_iff. subst st. split_and!; try done. right. split; [done|].
  unfold ex_left. cbn. by eapply stall_left.
Qed.

(** Tracked packets, the youngest counting most: a bubble lowers the weight. *)
Definition bit (o : option nat) : nat := if o then 1%nat else 0%nat.
Definition weight (e m w : option nat) : nat := (4 * bit e + 2 * bit m + bit w)%nat.

Lemma bubble_weight e m w : ~ (e = None /\ m = None /\ w = None) ->
  (weight None e m < weight e m w)%nat.
Proof. intros Hn. destruct e, m, w; unfold weight; cbn; try lia. by exfalso; apply Hn. Qed.

(** Without older packets there is no hazard. *)
Lemma no_hazard ifp idp : hazard_check ifp idp None None None = (false, false, false).
Proof. destruct idp as [k|]; [|done]. by rewrite hazard_check_spec. Qed.

Lemma hazard_tracked ifp idp e m w ke km kw :
  deref h e = Ok ke -> deref h m = Ok km -> deref h w = Ok kw ->
  hazard_check ifp idp ke km kw = (true, true, true) -> ~ (e = None /\ m = None /\ w = None).
Proof.
  intros He Hm Hw Hh (-> & -> & ->). injection He as <-. injection Hm as <-. injection Hw as <-.
  by rewrite no_hazard in Hh.
Qed.

Definition id_weight (g : staged IDStage) : nat :=
  let s := g_stage g in weight (id_EXE s) (id_MEM s) (id_WB s).
Definition id_left (g : staged IDStage) : nat := ma_left (id_MEM (g_stage g)) (id_timer (g_stage g)).

Lemma ID_advances : advances id_refs id_weight id_left (ID_step h).
Proof.
  intros g Hv Hs Hk Hvk. unfold id_refs in Hk. split_known.
  destruct (deref_ok h _ (Hvk Hv)) as [idp E1]. destruct (deref_ok h (id_EXE (g_stage g))) as [exep E2]; [done|].
  destruct (deref_ok h (id_MEM (g_stage g))) as [memp E3]; [done|].
  destruct (deref_ok h (id_WB (g_stage g))) as [wbp E4]; [done|].
  destruct (hazard_check_eq None idp exep memp wbp) as [b Eh].
  destruct (stall_ma memp (id_timer (g_stage g))) as [st t] eqn:Est.
  eapply body_advances; [done|done|by eapply ID_body|]. intros Hgo.
  destruct st; cbn [negb andb].
  - split_and!; try done. right. split; [done|]. unfold id_left. cbn. by eapply stall_left.
  - destruct b; [|done]. rewrite orb_true_r. split_and!; try done; [solve_refs|].
    left. unfold id_weight. cbn. apply bubble_weight. by eapply hazard_tracked.
Qed.

Definition if_weight (g : staged IFStage) : nat :=
  let s := g_stage (flushed g) in weight (if_EXE s) (if_MEM s) (if_WB s).
Definition if_left (g : staged IFStage) : nat :=
  let s := g_stage (flushed g) in ma_left (if_MEM s) (if_timer s).

Lemma IF_advances_flushed g : flush_flag (g_stage g) = false ->
  sr_isValid (g_in g) = true -> sr_isStalled (g_out g) = false ->
  known h (if_refs (g_stage g)) -> value_known h (g_in g) ->
  exists g', quietly (IF_step h) g g'
    /\ ((exists r, moves [r] g g') \/ closer if_refs if_weight if_left g g').
Proof.
  intros Hfl Hv Hs Hk Hvk. unfold if_refs in Hk. split_known.
  destruct (deref_ok h _ (Hvk Hv)) as [ifp E1]. destruct (deref_ok h (if_ID (g_stage g))) as [idp E2]; [done|].
  destruct (deref_ok h (if_EXE (g_stage g))) as [exep E3]; [done|].
  destruct (deref_ok h (if_MEM (g_stage g))) as [memp E4]; [done|].
  destruct (deref_ok h (if_WB (g_stage g))) as [wbp E5]; [done|].
  destruct (hazard_check_eq ifp idp exep memp wbp) as [b Eh].
  destruct (stall_ma memp (if_timer (g_stage g))) as [st t] eqn:Est.
  eapply body_advances; [done|done|by eapply IF_body|]. intros Hgo. rewrite Hfl.
  destruct st; cbn [negb].
  - split_and!; try done. right. unfold if_weight, if_left, flushed. cbn. rewrite Hfl.
    split; [done|]. by eapply stall_left.
  - split_and!; try done; [solve_refs|]. left. unfold if_weight, flushed. cbn. rewrite Hfl.
    apply bubble_weight. destruct b; [by eapply hazard_tracked|].
    intros (Ee & _). rewrite Ee in E3. injection E3 as <-. done.
Qed.

Lemma IF_advances : advances if_refs if_weight if_left (IF_step h).
Proof.
  intros g Hv Hs Hk Hvk. destruct (flushed_ok g) as (Hi & Ho & Hr & Hf).
  destruct (IF_advances_flushed (flushed g)) as (g' & (w & E & Hw) & Hc); try done;
    [by rewrite Hi|by rewrite Ho|by eapply known_sub|by rewrite Hi|].
  exists g'. split; [exists w; by rewrite IF_step_flushed|].
  assert (flushed (flushed g) = flushed g) as Hff by (unfold flushed at 1; by rewrite Hf).
  unfold moves, closer, if_weight, if_left in *. rewrite Hff, Hi, Ho in Hc.
  destruct Hc as [Hc|(C1 & C2 & C3 & C4)]; [by left|right]. split_and!; try done. set_solver.
Qed.
End Stage_progress.

(** * The pipeline *)

Section Pipeline_progress.
Context `{Framework} `{SR : StageRegister} {SL : StageRegisterLaws SR} {LV : StageRegisterLive SR}.
Context (h : gmap nat InstPacket) (h_pcs : forall r k, h !! r = Some k -> is_u 32 (ip_pc k)).

(** Steps of the pipeline, and what they recycle. *)
Inductive stages_run : pipeline -> list nat -> pipeline -> Prop :=
  | run_nil p : stages_run p [] p
  | run_cons p w p1 l p' :
      stage_step h p w p1 -> stages_run p1 l p' -> stages_run p (recycled w ++ l) p'.

Lemma run_one p w p' : stage_step h p w p' -> stages_run p (recycled w) p'.
Proof. intros Hs. rewrite <- (app_nil_r (recycled w)). by eapply run_cons, run_nil. Qed.

Lemma run_app p l p1 l' p' : stages_run p l p1 -> stages_run p1 l' p' -> stages_run p (l ++ l') p'.
Proof.
  induction 1 as [|p w p1 l p2 H12 _ IH]; [done|]. intros Hr. rewrite <- app_assoc.
  eapply run_cons; [done|]. by apply IH.
Qed.

Lemma run_inv p l p' : stages_run p l p' -> heap_ok h p -> pipe_inv p ->
  pipe_inv p' /\ heap_ok h p' /\ sr_in (p_port p') = sr_in (p_port p)
  /\ sr_out (prMEM2WB p') = sr_out (prMEM2WB p) ++ l.
Proof.
  induction 1 as [p|p w p1 l p2 H12 _ IH]; intros Hh I; [by rewrite app_nil_r|].
  destruct (stage_step_inv _ _ _ _ H12 Hh I) as (I1 & E1 & E2).
  assert (Hh1 : heap_ok h p1) by (unfold heap_ok; by rewrite E1).
  destruct (IH Hh1 I1) as (I2 & Hh2 & E3 & E4).
  split_and!; [done|done|congruence|by rewrite E4, E2, app_assoc].
Qed.

Lemma run_quiet w : recycled w = [] -> recycled w ++ [] = [].
Proof. by intros ->. Qed.

(** A stage in its place between two registers of the pipeline. *)
Record seated {S} (m : M (staged S) stage_effect unit) (get : pipeline -> staged S)
    (put : staged S -> pipeline -> pipeline) : Prop := {
  st_step : forall p g w, outcome m (get p) = Ok (g, w) -> stage_step h p w (put g p);
  st_get : forall p g, get (put g p) = g;
  st_same : forall p, put (get p) p = p;
  st_put : forall p g g', put g (put g' p) = put g p;
}.

Lemma seated_run {S} (m : M (staged S) stage_effect unit) get put p g :
  seated m get put -> rtc (quietly m) (get p) g -> stages_run p [] (put g p).
Proof.
  intros Hst Hr. remember (get p) as g0 eqn:E. revert p E.
  induction Hr as [g0|g0 g1 g2 (w & E1 & Hw) _ IH]; intros p ->.
  - rewrite (st_same _ _ _ Hst). apply run_nil.
  - rewrite <- (st_put _ _ _ Hst p g2 g1). rewrite <- (run_quiet _ Hw).
    eapply run_cons; [by apply (st_step _ _ _ Hst)|]. apply IH. by rewrite (st_get _ _ _ Hst).
Qed.

Definition get_IF p := Staged (p_if p) (p_port p) (prIF2ID p).
Definition get_ID p := Staged (p_id p) (prIF2ID p) (prID2EXE p).
Definition get_EXE p := Staged (p_exe p) (prID2EXE p) (prEXE2MEM p).
Definition get_MEM p := Staged (p_mem p) (prEXE2MEM p) (prMEM2WB p).
Definition put_IF g p :=
  Pipe (g_stage g) (p_id p) (p_exe p) (p_mem p) (g_in g) (g_out g) (prID2EXE p) (prEXE2MEM p) (prMEM2WB p).
Definition put_ID g p :=
  Pipe (p_if p) (g_stage g) (p_exe p) (p_mem p) (p_port p) (g_in g) (g_out g) (prEXE2MEM p) (prMEM2WB p).
Definition put_EXE g p :=
  Pipe (p_if p) (p_id p) (g_stage g) (p_mem p) (p_port p) (prIF2ID p) (g_in g) (g_out g) (prMEM2WB p).
Definition put_MEM g p :=
  Pipe (p_if p) (p_id p) (p_exe p) (g_stage g) (p_port p) (prIF2ID p) (prID2EXE p) (g_in g) (g_out g).

Lemma IF_seated : seated (IF_step h) get_IF put_IF.
Proof. split; [by apply step_IF|by intros ? []|by intros []|done]. Qed.
Lemma ID_seated : seated (ID_step h) get_ID put_ID.
Proof. split; [by apply step_ID|by intros ? []|by intros []|done]. Qed.
Lemma EXE_seated : seated (EXE_step h) get_EXE put_EXE.
Proof. split; [by apply step_EXE|by intros ? []|by intros []|done]. Qed.
Lemma MEM_seated : seated (MEM_step h) get_MEM put_MEM.
Proof. split; [by apply step_MEM|by intros ? []|by intros []|done]. Qed.

(** The moves that are left until the pipeline is empty. *)
Definition backlog (p : pipeline) : nat :=
  let n := length (sr_in (p_port p)) in
  ((n - length (sr_out (p_port p))) + (n - length (sr_out (prIF2ID p)))
   + (n - length (sr_out (prID2EXE p))) + (n - length (sr_out (prEXE2MEM p)))
   + (n - length (sr_out (prMEM2WB p))))%nat.

Definition synced (p : pipeline) : pipeline :=
  Pipe (p_if p) (p_id p) (p_exe p) (p_mem p) (sr_sync (p_port p)) (sr_sync (prIF2ID p))
    (sr_sync (prID2EXE p)) (sr_sync (prEXE2MEM p)) (sr_sync (prMEM2WB p)).

(** The manager and the framework synchronise. *)
Lemma synced_run p l p' : stages_run (synced p) l p' -> stages_run p l p'.
Proof.
  intros Hr. change l with (recycled [] ++ recycled [] ++ l).
  eapply run_cons; [apply step_sync|]. eapply run_cons; [apply step_port_sync|]. exact Hr.
Qed.

Lemma synced_backlog p : backlog (synced p) = backlog p.
Proof.
  unfold backlog. cbn. by rewrite !(proj1 (sr_sync_same _)), !(proj2 (sr_sync_same _)).
Qed.

(** A register that is not empty, before one that is, moves on. *)
Lemma seat_moves {S} (refs : S -> list nat) u v (m : M (staged S) stage_effect unit) get put p :
  seated m get put -> advances h refs u v m ->
  g_in (get (synced p)) = sr_sync (g_in (get p)) ->
  g_out (get (synced p)) = sr_sync (g_out (get p)) ->
  known h (refs (g_stage (get (synced p)))) -> value_known h (g_in (get (synced p))) ->
  sr_in (g_in (get p)) <> sr_out (g_in (get p)) -> sr_in (g_out (get p)) = sr_out (g_out (get p)) ->
  exists g r, stages_run p [] (put g (synced p)) /\ moves [r] (get (synced p)) g.
Proof.
  intros Hst Ha Ei Eo Hk Hv Hin Hout.
  destruct (advances_run h refs u v m (get (synced p)) Ha) as (g & r & Hr & Hm); try done.
  - rewrite Ei. by apply sr_sync_valid.
  - rewrite Eo. by apply sr_sync_ready.
  - exists g, r. split; [|done]. apply synced_run. by eapply seated_run.
Qed.
Lemma synced_inv p : pipe_inv p -> heap_ok h p -> pipe_inv (synced p) /\ heap_ok h (synced p).
Proof.
  intros I Hh. destruct (stage_step_inv h p [] _ (step_sync h p) Hh I) as (I1 & E1 & _).
  assert (Hh1 : heap_ok h _) by (unfold heap_ok; rewrite E1; exact Hh).
  destruct (stage_step_inv h _ [] _ (step_port_sync h _) Hh1 I1) as (I2 & E2 & _).
  split; [exact I2|]. unfold heap_ok. cbn in E2 |- *. rewrite E2. exact Hh.
Qed.

(** What a stage can look at is in the heap. *)
Lemma all_known p : pipe_inv p -> heap_ok h p ->
  (known h (if_refs (p_if p)) /\ value_known h (p_port p))
  /\ (known h (id_refs (p_id p)) /\ value_known h (prIF2ID p))
  /\ (known h (ex_refs (p_exe p)) /\ value_known h (prID2EXE p))
  /\ (known h (me_refs (p_mem p)) /\ value_known h (prEXE2MEM p)).
Proof.
  intros I Hh. destruct (pipe_orders p I) as (_ & O3 & O2 & O1 & O0).
  assert (sr_in (prID2EXE p) `prefix_of` sr_in (p_port p)) as O1' by (by etrans).
  assert (sr_in (prEXE2MEM p) `prefix_of` sr_in (p_port p)) as O2' by (by etrans).
  split_and!; try (eapply known_sub; [apply I|exact Hh]);
    (eapply value_known_ok; [|exact Hh]); try done; by apply prefix_sub.
Qed.

(** The lengths of what has left the registers decrease along the pipeline. *)
Lemma pipe_lengths p : pipe_inv p ->
  (length (sr_out (prMEM2WB p)) <= length (sr_out (prEXE2MEM p))
   /\ length (sr_out (prEXE2MEM p)) <= length (sr_out (prID2EXE p))
   /\ length (sr_out (prID2EXE p)) <= length (sr_out (prIF2ID p))
   /\ length (sr_out (prIF2ID p)) <= length (sr_out (p_port p))
   /\ length (sr_out (p_port p)) <= length (sr_in (p_port p)))%nat.
Proof.
  intros I. rewrite <- (pi_1 p I), <- (pi_2 p I), <- (pi_3 p I), <- (pi_4 p I).
  pose proof (sr_order (p_port p)) as A. rewrite <- (pi_1 p I) in A.
  pose proof (sr_order (prIF2ID p)) as B. rewrite <- (pi_2 p I) in B.
  pose proof (sr_order (prID2EXE p)) as C. rewrite <- (pi_3 p I) in C.
  pose proof (sr_order (prEXE2MEM p)) as D. rewrite <- (pi_4 p I) in D.
  split_and!; apply prefix_length; try done. apply sr_order.
Qed.

Lemma WB_pops q : sr_isValid q = true ->
  exists q' r, outcome WB_step q = Ok (q', [RecyclePacket r]) /\ sr_in q' = sr_in q
    /\ sr_out q' = sr_out q ++ [r].
Proof.
  intros Hv. destruct (sr_pop_valid q Hv) as (q' & E & Hi & Ho). exists q', (sr_value q).
  unfold WB_step. step_monad. rewrite Hv. cbn. by rewrite E.
Qed.

(** One packet more has left a register. *)
Lemma one_more (q q' : sreg) r n : sr_in q' = sr_in q -> sr_out q' = sr_out q ++ [r] ->
  (length (sr_in q) <= n)%nat -> (n - length (sr_out q') < n - length (sr_out q))%nat.
Proof.
  intros Ei Eo Hn. pose proof (prefix_length _ _ (sr_order q')) as Hl.
  rewrite Ei, Eo, length_app in Hl. rewrite Eo, length_app. cbn in *. lia.
Qed.

Ltac count_move p M1 M2 M3 M4 :=
  rewrite <- synced_backlog; unfold backlog; cbn in M1, M2, M3, M4 |- *;
  pose proof (one_more _ _ _ (length (sr_in (p_port p))) M1 M2) as Hmore;
  rewrite ?(proj1 (sr_sync_same _)), ?(proj2 (sr_sync_same _)) in *;
  rewrite ?M1, ?M3, ?M4.

(** The register farthest downstream that holds a packet lets it go. *)
Lemma drain_step p : pipe_inv p -> heap_ok h p -> backlog p <> 0%nat ->
  exists l p', stages_run p l p' /\ (backlog p' < backlog p)%nat.
Proof.
  intros I Hh Hb. destruct (synced_inv p I Hh) as [Is Hs].
  destruct (all_known _ Is Hs) as ([A1 A2] & [B1 B2] & [C1 C2] & [D1 D2]).
  pose proof (pipe_lengths p I) as (L4 & L3 & L2 & L1 & L0).
  destruct (decide (sr_in (prMEM2WB p) = sr_out (prMEM2WB p))) as [E4|N4].
  2: { destruct (WB_pops (sr_sync (prMEM2WB p)) (sr_sync_valid _ N4)) as (q & r & E & M1 & M2).
       eexists _, _. split.
       - apply synced_run, run_one. by apply (step_WB h (synced p)).
       - count_move p M1 M2 M1 M1.
         rewrite (pi_4 p I) in Hmore. lia. }
  destruct (decide (sr_in (prEXE2MEM p) = sr_out (prEXE2MEM p))) as [E3|N3].
  2: { destruct (seat_moves me_refs _ _ _ get_MEM put_MEM p MEM_seated (MEM_advances h h_pcs))
         as (g & r & Hr & (M1 & M2 & M3 & M4)); try done.
       exists [], (put_MEM g (synced p)). split; [done|]. count_move p M1 M2 M3 M4.
       rewrite (pi_3 p I) in Hmore. lia. }
  destruct (decide (sr_in (prID2EXE p) = sr_out (prID2EXE p))) as [E2|N2].
  2: { destruct (seat_moves ex_refs _ _ _ get_EXE put_EXE p EXE_seated (EXE_advances h h_pcs))
         as (g & r & Hr & (M1 & M2 & M3 & M4)); try done.
       exists [], (put_EXE g (synced p)). split; [done|]. count_move p M1 M2 M3 M4.
       rewrite (pi_2 p I) in Hmore. lia. }
  destruct (decide (sr_in (prIF2ID p) = sr_out (prIF2ID p))) as [E1|N1].
  2: { destruct (seat_moves id_refs _ _ _ get_ID put_ID p ID_seated (ID_advances h h_pcs))
         as (g & r & Hr & (M1 & M2 & M3 & M4)); try done.
       exists [], (put_ID g (synced p)). split; [done|]. count_move p M1 M2 M3 M4.
       rewrite (pi_1 p I) in Hmore. lia. }
  destruct (decide (sr_in (p_port p) = sr_out (p_port p))) as [E0|N0].
  2: { destruct (seat_moves if_refs _ _ _ get_IF put_IF p IF_seated (IF_advances h h_pcs))
         as (g & r & Hr & (M1 & M2 & M3 & M4)); try done.
       exists [], (put_IF g (synced p)). split; [done|]. count_move p M1 M2 M3 M4. lia. }
  exfalso. apply Hb. unfold backlog.
  rewrite E0, <- (pi_1 p I), E1, <- (pi_2 p I), E2, <- (pi_3 p I), E3, <- (pi_4 p I), E4. lia.
Qed.

(** Everything leaves, and the port has room again. *)
Lemma pipeline_drains p : pipe_inv p -> heap_ok h p ->
  exists l p', stages_run p l p' /\ sr_out (prMEM2WB p') = sr_in (p_port p')
    /\ sr_isStalled (p_port p') = false.
Proof.
  intros I Hh. remember (backlog p) as n eqn:En. revert p En I Hh.
  induction n as [n IH] using lt_wf_ind. intros p -> I Hh.
  destruct (decide (backlog p = 0%nat)) as [E|N].
  - exists [], (synced p). pose proof (pipe_lengths p I) as (L4 & L3 & L2 & L1 & L0).
    assert (Hall : (length (sr_in (p_port p)) <= length (sr_out (prMEM2WB p)))%nat).
    { unfold backlog in E. lia. }
    split_and!.
    + apply synced_run, run_nil.
    + cbn. rewrite (proj1 (sr_sync_same _)), (proj2 (sr_sync_same _)).
      apply prefix_length_eq; [by apply pipe_out_prefix|done].
    + cbn. apply sr_sync_ready. symmetry. apply prefix_length_eq; [apply sr_order|lia].
  - destruct (drain_step p I Hh N) as (l & p1 & Hr & Hlt).
    destruct (run_inv _ _ _ Hr Hh I) as (I1 & Hh1 & _ & _).
    destruct (IH _ Hlt p1 eq_refl I1 Hh1) as (l' & p' & Hr' & Hd & Hp).
    exists (l ++ l'), p'. split; [by eapply run_app|done].
Qed.
End Pipeline_progress.

(** * The whole simulator *)

Section Top_progress.
Context `{Framework} `{RC : RecycleContainer} {RL : RecycleContainerLaws RC}.
Context `{SR : StageRegister} {SL : StageRegisterLaws SR} {LV : StageRegisterLive SR}.

(** The ranges that the C++ types guarantee. *)
Record top_wf (y : SOCTop) : Prop := {
  tw_rf : wf_rf (v_rf (t_cpu y));
  tw_pc : is_u 32 (v_pc (t_cpu y));
  tw_mem : wf_mem (v_dmem (t_cpu y));
  tw_imem : Forall wf_used (v_imem (t_cpu y));
  tw_heap : forall r k, v_heap (t_cpu y) !! r = Some k -> is_u 32 (ip_pc k);
}.

Lemma top_step_wf y y' : top_step y y' -> top_wf y -> top_wf y'.
Proof.
  intros [s evs1 evs2 p ex rt t id s' w E|s evs p ex rt now s' w E|s evs p ex rt w p' _]
    [W1 W2 W3 W4 W5]; cbn in *.
  - apply exec_inv in E as (i & rf & m & pc & r & pl & ok & q & Hf & _ & He & _ & _ & -> & _).
    assert (wf_used i) as Hi.
    { unfold v_fetchInstr, from_opt in Hf. destruct (v_imem s !! _) eqn:Hi; [|done].
      injection Hf as <-. by apply (Forall_lookup_1 _ _ _ _ W4 Hi). }
    destruct (exec_switch_wf _ _ _ _ _ _ _ W1 W2 W3 Hi He) as (V1 & V2 & V3).
    split; cbn; try done. intros r' k. destruct (decide (r' = r)) as [->|Hne].
    + rewrite lookup_insert_eq. by intros [= <-].
    + rewrite lookup_insert_ne by done. apply W5.
  - apply retry_inv in E. destruct (v_pending s); [|by destruct E as [-> _]].
    by destruct E as (ok & q & _ & -> & _).
  - by split.
Qed.

(** All that holds in every state of a run. *)
Record running (x0 : rv_state) (s0 : RvCPU) (y : SOCTop) : Prop := {
  rn_inv : top_inv y;
  rn_wf : top_wf y;
  rn_follows : follows x0 s0 (t_executed y) (t_cpu y);
}.

Lemma running_step x0 s0 y y' : top_step y y' -> running x0 s0 y -> running x0 s0 y'.
Proof.
  intros Hs [I W F]. split; [by eapply top_step_inv|by eapply top_step_wf|by eapply top_step_follows].
Qed.

Lemma running_reach x0 s0 y y' : rtc top_step y y' -> running x0 s0 y -> running x0 s0 y'.
Proof. induction 1 as [|y1 y2 y3 H12 _ IH]; [done|]. intros R. by eapply IH, running_step. Qed.

Lemma running_start x0 s t : simulates x0 s -> sr_in (v_port s) = [] -> v_pending s = None ->
  v_heap s = ∅ -> running x0 s (top_start s t).
Proof.
  intros Hsim Hq Hp Hh. split; [by apply top_start_inv| |by eapply top_reach_follows, rtc_refl].
  destruct Hsim as [[V1 _ _ _] _ _ S4 S5 S6]. split; cbn; try done.
  intros r k. by rewrite Hh, lookup_empty.
Qed.

(** A run of the stages, in the simulator. *)
Lemma lift_run h p l p' s evs ex rt : stages_run h p l p' -> v_heap s = h ->
  exists s', rtc top_step (MkTop s evs p ex rt) (MkTop s' evs p' ex (rt ++ contents h l))
    /\ v_pending s' = v_pending s.
Proof.
  intros Hr. revert s rt. induction Hr as [p|p w p1 l p2 H12 _ IH]; intros s rt Hh.
  - exists s. rewrite app_nil_r. split; [apply rtc_refl|done].
  - destruct (IH (after_stage w p1 s) (rt ++ contents h (recycled w)) Hh) as (s' & Hs' & Hp').
    exists s'. rewrite contents_app, app_assoc. split; [|done].
    eapply rtc_l; [|exact Hs']. rewrite <- Hh. apply top_stage. by rewrite Hh.
Qed.

(** The stages run until nothing is left in them. *)
Lemma top_drains x0 s0 y : running x0 s0 y ->
  exists y', rtc top_step y y' /\ t_executed y' = t_executed y /\ t_events y' = t_events y
    /\ v_pending (t_cpu y') = v_pending (t_cpu y)
    /\ in_flight y' = option_list (v_pending (t_cpu y))
    /\ sr_isStalled (p_port (t_pipe y')) = false.
Proof.
  intros [I W F]. destruct y as [s evs p ex rt]. cbn in *.
  assert (Hh : heap_ok (v_heap s) p) by (eapply known_sub; [|exact (ti_known _ I)]; cbn; set_solver).
  destruct (pipeline_drains (v_heap s) (tw_heap _ W) p (ti_pipe _ I) Hh) as (l & p' & Hr & Hout & Hst).
  destruct (lift_run _ _ _ _ s evs ex rt Hr eq_refl) as (s' & Hs' & Hp').
  exists (MkTop s' evs p' ex (rt ++ contents (v_heap s) l)). split_and!; try done.
  unfold in_flight. cbn. by rewrite Hout, drop_all, Hp'.
Qed.

(** And a pending packet is delivered. *)
Lemma top_settles x0 s0 y : running x0 s0 y ->
  exists y', rtc top_step y y' /\ t_executed y' = t_executed y
    /\ v_pending (t_cpu y') = None /\ in_flight y' = [] /\ sr_isStalled (p_port (t_pipe y')) = false.
Proof.
  intros R. destruct (top_drains x0 s0 y R) as (y1 & H1 & E1 & _ & P1 & F1 & S1).
  destruct (v_pending (t_cpu y)) as [r|] eqn:Hp.
  2: { exists y1. by split_and!. }
  pose proof (running_reach _ _ _ _ H1 R) as R1. destruct y1 as [s evs p ex rt]. cbn in *.
  pose proof (rn_inv _ _ _ R1) as I1. pose proof (ti_port _ I1) as Hport. cbn in Hport.
  destruct (sr_push_ready (p_port p) r S1) as [q Hq].
  destruct (ti_known _ I1 r) as [k Hk]; [cbn; rewrite P1; set_solver|]. cbn in Hk.
  assert (Hpush : mp_push (v_port s) r = (true, q)) by (rewrite Hport; exact Hq).
  pose proof (top_retry s evs p ex rt 0 _ _ (retry_ok 0 s r k q P1 Hk Hpush)) as Hstep.
  destruct (top_drains x0 s0 _ (running_step _ _ _ _ Hstep R1)) as (y2 & H2 & E2 & _ & P2 & F2 & S2).
  exists y2. cbn in *. split_and!; try done; [|by rewrite E2].
  etrans; [exact H1|]. by eapply rtc_l.
Qed.
(** ** To the end of the program *)

(** A program that ends: [n] instructions and [hcf]. *)
Record ends (fetch : Z -> option instr) (x0 : rv_state) (x : rv_state) (tr : list InstPacket)
    (k : InstPacket) : Prop := {
  en_run : ref_run (length tr + 1) fetch x0 = Some (x, tr ++ [k]);
  en_hcf : is_hcf k = true;
  en_before : existsb is_hcf tr = false;
}.

Lemma ends_prefix fetch x0 x tr k m : ends fetch x0 x tr k -> (m <= length tr)%nat ->
  exists x1 x2 k2 tr1, ref_run m fetch x0 = Some (x1, tr1) /\ rv32_next fetch x1 = Some (x2, k2)
    /\ halted tr1 = false.
Proof.
  intros [Hr _ Hb] Hm. replace (length tr + 1)%nat with (m + S (length tr - m))%nat in Hr by lia.
  rewrite ref_run_app in Hr. destruct (ref_run m fetch x0) as [[x1 tr1]|] eqn:E1; [|done].
  cbn [mbind option_bind] in Hr.
  destruct (ref_run (S (length tr - m)) fetch x1) as [[x3 tr3]|] eqn:E2; [|done].
  cbn in Hr. injection Hr as <- Htr. apply ref_run_S in E2 as (x2 & k2 & tr2 & E2 & _ & ->).
  exists x1, x2, k2, tr1. split_and!; [done..|].
  destruct tr1 as [|k1 tr1 _] using rev_ind; [done|]. unfold halted. rewrite last_snoc.
  destruct tr2 as [|k3 tr2 _] using rev_ind.
  - apply app_inj_tail in Htr as [<- _]. rewrite existsb_app in Hb.
    apply orb_false_iff in Hb as [_ Hb]. cbn in Hb. by rewrite orb_false_r in Hb.
  - rewrite app_comm_cons, app_assoc in Htr. apply app_inj_tail in Htr as [<- _].
    rewrite !existsb_app in Hb. apply orb_false_iff in Hb as [Hb _].
    apply orb_false_iff in Hb as [_ Hb]. cbn in Hb. by rewrite orb_false_r in Hb.
Qed.

Section To_the_end.
Context (x0 : rv_state) (s0 : RvCPU) (x : rv_state) (tr : list InstPacket) (k : InstPacket).
Context (He : ends (fetch_imem (v_imem s0)) x0 x tr k).
Context (Hcnt : v_inst_cnt s0 + Z.of_nat (length tr) + 1 <= 2 ^ 31 - 1).

(** No instruction is executed after the last one. *)
Lemma bounded_step y y' : top_step y y' -> running x0 s0 y ->
  (length (t_executed y) <= length tr + 1)%nat -> (length (t_executed y') <= length tr + 1)%nat.
Proof.
  intros Hs [I _ F] Hl. destruct (decide (length (t_executed y) = length tr + 1)%nat) as [E|N].
  - destruct (fo_ref _ _ _ _ F x (tr ++ [k])) as [Ex _]; [rewrite E; apply He|].
    assert (Hh : halted (t_executed y) = true).
    { rewrite Ex. unfold halted. rewrite last_snoc. apply He. }
    apply (ti_halted y I) in Hh.
    destruct Hs as [s evs1 evs2 p ex rt t id s' w E1| |]; [|done|done]. cbn in Hh. by destruct evs1.
  - destruct Hs as [s evs1 evs2 p ex rt t id s' w E1| |]; cbn in *; [|done|done].
    rewrite length_app. unfold contents. cbn. destruct (v_heap s' !! _); cbn; lia.
Qed.

Lemma bounded_reach y y' : rtc top_step y y' -> running x0 s0 y ->
  (length (t_executed y) <= length tr + 1)%nat -> (length (t_executed y') <= length tr + 1)%nat.
Proof.
  induction 1 as [|y1 y2 y3 H12 _ IH]; [done|]. intros R Hl.
  apply IH; [by eapply running_step|by eapply bounded_step].
Qed.

(** With nothing on its way, the next instruction can be executed. *)
Lemma next_executes y : running x0 s0 y -> v_pending (t_cpu y) = None ->
  sr_isStalled (p_port (t_pipe y)) = false -> (length (t_executed y) <= length tr)%nat ->
  exists y', top_step y y' /\ length (t_executed y') = S (length (t_executed y)).
Proof.
  intros [I W F] Hp Hst Hl.
  destruct (ends_prefix _ _ _ _ _ _ He Hl) as (x1 & x2 & k2 & tr1 & H1 & H2 & Hh).
  destruct (fo_ref _ _ _ _ F _ _ H1) as [Ex Hsim].
  destruct y as [s evs p ex rt]. cbn in *.
  assert (exists t id, evs = [RvExecOneInstr t id]) as (t & id & ->).
  { pose proof (ti_events _ I) as Hev. pose proof (ti_running _ I) as Hrun. cbn in Hev, Hrun.
    destruct evs as [|[t id] [|]]; [|by eexists _, _|cbn in Hev; lia].
    specialize (Hrun eq_refl Hp). by rewrite Ex, Hh in Hrun. }
  destruct (acquire (v_pool s)) as [r pl] eqn:Ha.
  destruct (sr_push_ready (p_port p) r Hst) as [q Hq].
  pose proof (ti_port _ I) as Hport. cbn in Hport.
  assert (Hpush : mp_push (v_port s) r = (true, q)) by (rewrite Hport; exact Hq).
  assert (Hc : v_inst_cnt s < 2 ^ 31 - 1).
  { pose proof (fo_count _ _ _ _ F) as Hn. cbn in Hn. lia. }
  rewrite <- (fo_imem _ _ _ _ F) in H2. cbn in H2.
  destruct (exec_simulates t x1 s x2 k2 r pl true q Hsim H2 Hc Ha Hpush) as (rf & E & _).
  eexists. split; [by apply (top_exec s [] [] p ex rt t id _ _ E)|].
  cbn. rewrite Ha. cbn [fst]. rewrite (contents_one _ _ k2) by apply lookup_insert_eq.
  rewrite length_app. cbn. lia.
Qed.

Lemma completes y : running x0 s0 y -> (length (t_executed y) <= length tr + 1)%nat ->
  exists y', rtc top_step y y' /\ t_executed y' = tr ++ [k] /\ t_retired y' = tr ++ [k]
    /\ t_events y' = [] /\ in_flight y' = [] /\ simulates x (t_cpu y').
Proof.
  remember (length tr + 1 - length (t_executed y))%nat as n eqn:En. revert y En.
  induction n as [|n IH]; intros y En R Hl;
    destruct (top_settles x0 s0 y R) as (y1 & H1 & E1 & P1 & F1 & S1);
    pose proof (running_reach _ _ _ _ H1 R) as R1.
  - assert (Hlen : length (t_executed y1) = (length tr + 1)%nat) by (rewrite E1; lia).
    destruct (fo_ref _ _ _ _ (rn_follows _ _ _ R1) x (tr ++ [k])) as [Ex Hsim];
      [rewrite Hlen; apply He|].
    exists y1. split_and!; try done.
    + pose proof (ti_packets _ (rn_inv _ _ _ R1)) as Hpk. rewrite F1 in Hpk.
      cbn in Hpk. rewrite app_nil_r in Hpk. congruence.
    + apply (ti_halted _ (rn_inv _ _ _ R1)). rewrite Ex. unfold halted. rewrite last_snoc. apply He.
  - destruct (next_executes y1 R1 P1 S1) as (y2 & H2 & E2); [rewrite E1; lia|].
    destruct (IH y2) as (y3 & H3 & Hrest); [rewrite E2, E1; lia|by eapply running_step
      |rewrite E2, E1; lia|].
    exists y3. split; [|done]. etrans; [exact H1|]. by eapply rtc_l.
Qed.
End To_the_end.
End Top_progress.
