(* ===== verification/CString.v ===== *)
(** The C library's strings, as the assembler uses them: [strtok], [strtol],
    [atoi], [memcmp] against a literal, [strncpy], [tolower], [fgets] and the
    two [sprintf] formats; and decimal numbers, as they are written and read.
    A C string is the text before its terminator. *)
From Stdlib Require Import Ascii String.
From S2P Require Import Prelude Machine.
Local Open Scope string_scope.
Local Open Scope Z_scope.

(** * Characters *)

Definition code (c : ascii) : Z := Z.of_N (N_of_ascii c).
Definition char_of (z : Z) : ascii := ascii_of_N (Z.to_N z).

(** Is [c] one of the characters of [d]? *)
Fixpoint one_of (d : string) (c : ascii) : bool :=
  match d with
  | EmptyString => false
  | String x d' => Ascii.eqb x c || one_of d' c
  end.

(** [isspace] of the C locale. *)
Definition isspace (c : ascii) : bool := (code c =? 32) || ((9 <=? code c) && (code c <=? 13)).

Definition isdigit (c : ascii) : bool := (48 <=? code c) && (code c <=? 57).

(** [tolower] takes an [int] that is an [unsigned char] or [EOF]; a [char] of
    128 or more is negative, and 255 is [EOF]. *)
Definition tolower (c : ascii) : result ascii :=
  if (65 <=? code c) && (code c <=? 90) then Ok (char_of (code c + 32))
  else if (128 <=? code c) && negb (code c =? 255) then Err (Undefined "tolower")
  else Ok c.

Fixpoint lower (s : string) : result string :=
  match s with
  | EmptyString => Ok EmptyString
  | String c s' => c' ← tolower c; r ← lower s'; Ok (String c' r)
  end.

Fixpoint all_chars (p : ascii -> bool) (s : string) : bool :=
  match s with
  | EmptyString => true
  | String c s' => p c && all_chars p s'
  end.

(** The text of a buffer that ends at its first NUL. *)
Fixpoint c_str (s : string) : string :=
  match s with
  | EmptyString => EmptyString
  | String c s' => if code c =? 0 then EmptyString else String c (c_str s')
  end.

Definition strlen (s : string) : Z := Z.of_nat (String.length s).

Definition last_char (s : string) : option ascii := String.get (pred (String.length s)) s.

(** [s[strlen(s) - 1] = 0] *)
Definition chop (s : string) : string := String.substring 0 (pred (String.length s)) s.

(** What an array of [n] characters holds after [strncpy(a, s, n)]. *)
Definition strncpy (n : nat) (s : string) : string := String.substring 0 n s.

(** [0 == memcmp(s, lit, strlen(s))]: comparing more bytes than the literal
    and its terminator have is undefined. *)
Definition memcmp_is (s lit : string) : result bool :=
  if strlen s <=? strlen lit then Ok (String.prefix s lit)
  else if strlen s =? strlen lit + 1 then Ok false
  else Err (Undefined "memcmp").

(** * Tokens

    [strtok] keeps a pointer to what follows the last token: it is passed
    in and out here. *)

Fixpoint skip (p : ascii -> bool) (s : string) : string :=
  match s with
  | EmptyString => EmptyString
  | String c s' => if p c then skip p s' else s
  end.

(** The characters before the first delimiter, and those after it. *)
Fixpoint split_at (p : ascii -> bool) (s : string) : string * string :=
  match s with
  | EmptyString => (EmptyString, EmptyString)
  | String c s' =>
      if p c then (EmptyString, s')
      else let '(t, r) := split_at p s' in (String c t, r)
  end.

Definition strtok (delims s : string) : option string * string :=
  match skip (one_of delims) s with
  | EmptyString => (None, EmptyString)
  | s' => let '(t, r) := split_at (one_of delims) s' in (Some t, r)
  end.

(** * Numbers *)

Definition digit_val (c : ascii) : option Z :=
  let x := code c in
  if isdigit c then Some (x - 48)
  else if (97 <=? x) && (x <=? 122) then Some (x - 87)
  else if (65 <=? x) && (x <=? 90) then Some (x - 55)
  else None.

(** The longest run of digits of the base. *)
Fixpoint read_digits (base acc : Z) (s : string) : Z :=
  match s with
  | EmptyString => acc
  | String c s' =>
      match digit_val c with
      | Some d => if d <? base then read_digits base (acc * base + d) s' else acc
      | None => acc
      end
  end.

Definition read_sign (s : string) : bool * string :=
  match s with
  | String "-" s' => (true, s')
  | String "+" s' => (false, s')
  | _ => (false, s)
  end.

(** Base 0 is read off the prefix; [0x] is one if a digit follows. *)
Definition read_base (base : Z) (s : string) : Z * string :=
  match s with
  | String "0" (String x (String c s')) =>
      if ((base =? 0) || (base =? 16)) && one_of "xX" x
         && match digit_val c with Some d => d <? 16 | None => false end
      then (16, String c s')
      else (if base =? 0 then 8 else base, s)
  | String "0" _ => (if base =? 0 then 8 else base, s)
  | _ => (if base =? 0 then 10 else base, s)
  end.

Definition LONG_MAX : Z := 2 ^ 63 - 1.
Definition LONG_MIN : Z := - 2 ^ 63.

(** The value of [strtol(s, NULL, base)] and whether [errno] becomes
    [ERANGE]; a [long] has 64 bits. *)
Definition strtol (base : Z) (s : string) : Z * bool :=
  let '(neg, s1) := read_sign (skip isspace s) in
  let '(b, s2) := read_base base s1 in
  let v := (if neg then -1 else 1) * read_digits b 0 s2 in
  if LONG_MAX <? v then (LONG_MAX, true)
  else if v <? LONG_MIN then (LONG_MIN, true)
  else (v, false).

(** [atoi]: a value that is not an [int] is undefined. *)
Definition atoi (s : string) : result Z :=
  let '(v, _) := strtol 10 s in
  if (- 2 ^ 31 <=? v) && (v <? 2 ^ 31) then Ok v else Err (Undefined "atoi").

Definition digit_char (d : Z) : ascii := char_of (if d <? 10 then d + 48 else d + 87).

(** The digits of a number below [base ^ n], without leading zeros. *)
Fixpoint write_digits (n : nat) (base z : Z) : string :=
  match n with
  | O => ""
  | S n' =>
      if z <? base then String (digit_char z) ""
      else write_digits n' base (z / base) +:+ String (digit_char (z mod base)) ""
  end.

(** [%d], for an [int] or [unsigned]. *)
Definition dec (z : Z) : string :=
  if z <? 0 then String "-" (write_digits 10 10 (- z)) else write_digits 10 10 z.

Fixpoint pad0 (n : nat) (s : string) : string :=
  match n with
  | O => s
  | S n' => String "0" (pad0 n' s)
  end.

(** [%02d] and [%08x] *)
Definition fmt_02d (z : Z) : string :=
  if z <? 0 then dec z else pad0 (2 - String.length (dec z)) (dec z).
Definition fmt_08x (z : Z) : string :=
  let s := write_digits 8 16 z in pad0 (8 - String.length s) s.

(** * Files *)

(** What successive calls of [fgets(buf, n + 1, f)] read: a call ends after a
    newline or [n] characters. The first component is the piece that the
    characters at hand begin, the second the pieces after it. *)
Fixpoint pieces (n room : nat) (s : string) : string * list string :=
  match s with
  | EmptyString => ("", [])
  | String c s' =>
      let last := (room =? 0)%nat || (code c =? 10) in
      let '(h, t) := pieces n (if last then pred n else pred room) s' in
      if last then (String c "", match h with EmptyString => t | _ => h :: t end)
      else (String c h, t)
  end.

Definition fgets_all (n : nat) (s : string) : list string :=
  let '(h, t) := pieces n (pred n) s in
  match h with EmptyString => t | _ => h :: t end.

(** * Lemmas *)

Lemma str_app_cons c (a b : string) : String c a +:+ b = String c (a +:+ b).
Proof. done. Qed.
Lemma str_app_assoc (a b c : string) : (a +:+ b) +:+ c = a +:+ (b +:+ c).
Proof. induction a as [|x a IH]; [done|]. rewrite !str_app_cons. by f_equal. Qed.
Lemma str_app_nil (a : string) : a +:+ "" = a.
Proof. induction a as [|x a IH]; [done|]. rewrite !str_app_cons. by f_equal. Qed.
Lemma str_length_app (a b : string) :
  String.length (a +:+ b) = (String.length a + String.length b)%nat.
Proof. induction a as [|x a IH]; [done|]. rewrite str_app_cons. simpl. by rewrite IH. Qed.
Lemma all_chars_app p a b : all_chars p (a +:+ b) = all_chars p a && all_chars p b.
Proof. induction a as [|x a IH]; [done|]. rewrite str_app_cons. simpl. by rewrite IH, andb_assoc. Qed.
Lemma all_chars_impl (p q : ascii -> bool) s :
  (forall c, p c = true -> q c = true) -> all_chars p s = true -> all_chars q s = true.
Proof.
  intros H. induction s as [|c s IH]; simpl; [done|].
  intros [Hc Hs]%andb_prop. by rewrite (H c Hc), IH.
Qed.
#[export] Hint Rewrite str_app_assoc str_app_nil str_length_app all_chars_app : model.

Lemma take_all s : String.substring 0 (String.length s) s = s.
Proof. induction s as [|c s IH]; [done|]. simpl. by rewrite IH. Qed.

Lemma strncpy_short n s : (String.length s <= n)%nat -> strncpy n s = s.
Proof.
  unfold strncpy. revert n. induction s as [|c s IH]; intros [|n] Hn; simpl in *; try done; [lia|].
  rewrite IH by lia. done.
Qed.

Lemma substring_app a b : String.substring 0 (String.length a) (a +:+ b) = a.
Proof. induction a as [|c a IH]; [by destruct b|]. rewrite str_app_cons. simpl. by rewrite IH. Qed.

Lemma last_char_snoc s c : last_char (s +:+ String c "") = Some c.
Proof.
  unfold last_char. rewrite str_length_app, Nat.add_1_r. simpl pred.
  symmetry. apply (append_correct2 s (String c "") 0).
Qed.
Lemma chop_snoc s c : chop (s +:+ String c "") = s.
Proof.
  unfold chop. rewrite str_length_app, Nat.add_1_r. simpl pred. apply substring_app.
Qed.

(** ** Tokens *)

Lemma split_at_end p w : all_chars (fun c => negb (p c)) w = true -> split_at p w = (w, "").
Proof.
  induction w as [|c w IH]; simpl; [done|]. intros [Hc Hw]%andb_prop.
  apply negb_true_iff in Hc. by rewrite Hc, IH.
Qed.
Lemma split_at_delim p w c r : all_chars (fun c => negb (p c)) w = true -> p c = true ->
  split_at p (w +:+ String c r) = (w, r).
Proof.
  intros Hw Hc. induction w as [|x w IH].
  { rewrite (eq_refl : "" +:+ String c r = String c r). simpl. by rewrite Hc. }
  rewrite str_app_cons. simpl in *.
  apply andb_prop in Hw as [Hx Hw]. apply negb_true_iff in Hx. by rewrite Hx, IH.
Qed.

(** A word has no delimiter. *)
Definition word (d w : string) : bool :=
  all_chars (fun c => negb (one_of d c)) w && negb (String.eqb w "").

Lemma word_cons d w : word d w = true -> exists c w', w = String c w'
  /\ one_of d c = false /\ all_chars (fun c => negb (one_of d c)) w = true.
Proof.
  unfold word. intros [Hw Hne]%andb_prop. destruct w as [|c w]; [done|].
  exists c, w. split; [done|]. split; [|done]. simpl in Hw.
  by apply andb_prop in Hw as [Hc%negb_true_iff _].
Qed.

Lemma strtok_delim d c s : one_of d c = true -> strtok d (String c s) = strtok d s.
Proof. intros Hc. unfold strtok. simpl. by rewrite Hc. Qed.
Lemma strtok_last d w : word d w = true -> strtok d w = (Some w, "").
Proof.
  intros (c & w' & -> & Hc & Hw)%word_cons. unfold strtok. cbn [skip]. rewrite Hc.
  by rewrite split_at_end.
Qed.
Lemma strtok_word d w c r : word d w = true -> one_of d c = true ->
  strtok d (w +:+ String c r) = (Some w, r).
Proof.
  intros (x & w' & -> & Hx & Hw)%word_cons Hc. unfold strtok.
  change (String x w' +:+ String c r) with (String x (w' +:+ String c r)).
  cbn [skip]. rewrite Hx.
  change (String x (w' +:+ String c r)) with (String x w' +:+ String c r).
  by rewrite split_at_delim.
Qed.
Lemma strtok_none d s : all_chars (one_of d) s = true -> strtok d s = (None, "").
Proof.
  intros H. unfold strtok. assert (skip (one_of d) s = "") as ->; [|done].
  induction s as [|c s IH]; simpl in *; [done|]. apply andb_prop in H as [-> H]. by apply IH.
Qed.

(** ** Case *)

Definition plain (c : ascii) : bool :=
  (code c <? 128) && negb ((65 <=? code c) && (code c <=? 90)) && (0 <? code c).

Lemma lower_plain s : all_chars plain s = true -> lower s = Ok s.
Proof.
  induction s as [|c s IH]; [done|]. cbn [all_chars lower].
  intros [Hc Hs]%andb_prop. unfold tolower. unfold plain in Hc.
  destruct ((65 <=? code c) && (code c <=? 90)); [by rewrite andb_false_r in Hc|].
  destruct (Z.leb_spec 128 (code c)); [by rewrite (proj2 (Z.ltb_ge _ _)) in Hc by done|].
  cbn. by rewrite IH.
Qed.
Lemma c_str_plain s : all_chars plain s = true -> c_str s = s.
Proof.
  induction s as [|c s IH]; [done|]. cbn [all_chars c_str]. intros [Hc Hs]%andb_prop.
  unfold plain in Hc. rewrite IH by done. case_match; [|done]. lia.
Qed.

(** ** Numbers *)

Lemma digit_cases d : 0 <= d < 16 ->
  digit_val (digit_char d) = Some d /\ isspace (digit_char d) = false
  /\ (d < 10 -> isdigit (digit_char d) = true)
  /\ (digit_char d = "0"%char -> d = 0).
Proof.
  intros Hd.
  assert (d = 0 \/ d = 1 \/ d = 2 \/ d = 3 \/ d = 4 \/ d = 5 \/ d = 6 \/ d = 7 \/ d = 8 \/ d = 9
    \/ d = 10 \/ d = 11 \/ d = 12 \/ d = 13 \/ d = 14 \/ d = 15) as Hc by lia.
  repeat (destruct Hc as [->|Hc]; [by (split_and!; (done || lia))|]). subst.
  by (split_and!; (done || lia)).
Qed.

Lemma read_write_digits n base z acc rest :
  2 <= base <= 16 -> 0 <= z < base ^ Z.of_nat n ->
  read_digits base acc (write_digits n base z +:+ rest) =
  read_digits base
    (acc * base ^ Z.of_nat (String.length (write_digits n base z)) + z) rest.
Proof.
  intros Hb. revert z acc rest. induction n as [|n IH]; intros z acc rest Hz.
  - replace z with 0 by lia. cbn. f_equal. lia.
  - cbn [write_digits]. destruct (Z.ltb_spec z base) as [Hlt|Hge].
    + rewrite str_app_cons. cbn [read_digits].
      destruct (digit_cases z) as [-> _]; [lia|].
      rewrite (proj2 (Z.ltb_lt _ _)) by lia. cbn [String.length].
      rewrite Z.pow_1_r. done.
    + assert (0 <= z / base < base ^ Z.of_nat n) as Hq.
      { split; [apply Z.div_pos; lia|]. apply Z.div_lt_upper_bound; [lia|].
        rewrite <- Z.pow_succ_r by lia. rewrite <- Nat2Z.inj_succ. lia. }
      rewrite str_app_assoc, IH by done. rewrite str_app_cons. cbn [read_digits].
      pose proof (Z.mod_pos_bound z base ltac:(lia)).
      destruct (digit_cases (z mod base)) as [-> _]; [lia|].
      rewrite (proj2 (Z.ltb_lt _ _)) by lia.
      rewrite str_length_app. cbn [String.length].
      rewrite Nat2Z.inj_add, Z.pow_add_r by lia. rewrite Z.pow_1_r.
      change ("" +:+ rest) with rest. f_equal.
      pose proof (Z.div_mod z base ltac:(lia)). lia.
Qed.

(** The first digit; it is 0 in the number 0 only. *)
Lemma write_digits_head n base z :
  2 <= base <= 16 -> 0 <= z < base ^ Z.of_nat n -> (0 < n)%nat ->
  exists d s, write_digits n base z = String (digit_char d) s /\ 0 <= d < base
    /\ (d = 0 -> z = 0 /\ s = "").
Proof.
  intros Hb. revert z. induction n as [|n IH]; intros z Hz Hn; [lia|].
  cbn [write_digits]. destruct (Z.ltb_spec z base) as [Hlt|Hge].
  - exists z, "". by split_and!; try lia.
  - assert (1 <= z / base < base ^ Z.of_nat n) as Hq.
    { split; [by apply Z.div_le_lower_bound; lia|]. apply Z.div_lt_upper_bound; [lia|].
      rewrite <- Z.pow_succ_r by lia. rewrite <- Nat2Z.inj_succ. lia. }
    destruct (IH (z / base)) as (d & s & -> & Hd & H0); [lia| |].
    { destruct n; [simpl in Hq; lia|lia]. }
    exists d, (s +:+ String (digit_char (z mod base)) ""). split_and!; [done|lia|lia|].
    intros ->. destruct H0; lia.
Qed.

Lemma write_digits_all p n base z :
  (forall d, 0 <= d < base -> p (digit_char d) = true) -> 2 <= base -> 0 <= z ->
  all_chars p (write_digits n base z) = true.
Proof.
  intros Hp Hb. revert z. induction n as [|n IH]; intros z Hz; [done|].
  cbn [write_digits]. destruct (Z.ltb_spec z base) as [Hlt|Hge].
  - simpl. by rewrite Hp.
  - rewrite all_chars_app, IH by (apply Z.div_pos; lia).
    simpl. rewrite Hp; [done|]. apply Z.mod_pos_bound. lia.
Qed.

Lemma write_digits_length n base z : (String.length (write_digits n base z) <= n)%nat.
Proof.
  revert z. induction n as [|n IH]; intros z; [done|]. cbn [write_digits].
  case_match; simpl; [lia|]. rewrite str_length_app. simpl. specialize (IH (z / base)). lia.
Qed.

Lemma read_base_digit base d s : base = 0 \/ base = 10 -> 0 <= d < 10 -> (d = 0 -> s = "") ->
  exists b, read_base base (String (digit_char d) s) = (b, String (digit_char d) s)
    /\ 2 <= b <= 16 /\ (b <> 10 -> d = 0).
Proof.
  intros Hb Hd H0. destruct (decide (d = 0)) as [->|Hd0].
  - rewrite H0 by done. destruct Hb as [->| ->]; by eexists.
  - exists 10.
    assert (d = 1 \/ d = 2 \/ d = 3 \/ d = 4 \/ d = 5 \/ d = 6 \/ d = 7 \/ d = 8 \/ d = 9)
      as Hc by lia.
    destruct Hb as [->| ->];
      repeat (destruct Hc as [->|Hc]; [by (split_and!; (done || lia))|]); subst;
      by (split_and!; (done || lia)).
Qed.

(** Unsigned digits after a sign are read whole. *)
Lemma read_digits_based base z : base = 0 \/ base = 10 -> 0 <= z < 10 ^ 10 ->
  let '(b, s) := read_base base (write_digits 10 10 z) in read_digits b 0 s = z.
Proof.
  intros Hb Hz.
  pose proof (read_write_digits 10 10 z 0 "" ltac:(lia) Hz) as Hr.
  rewrite str_app_nil in Hr. cbn [read_digits] in Hr. rewrite Z.mul_0_l, Z.add_0_l in Hr.
  destruct (write_digits_head 10 10 z) as (d & s & E & Hd & H0); [lia..|]. rewrite E in *.
  destruct (read_base_digit base d s) as (b & -> & Hb' & H10); [done|lia|naive_solver|].
  destruct (decide (b = 10)) as [->|Hne]; [done|].
  destruct (H0 (H10 Hne)) as [-> ->]. rewrite (H10 Hne).
  destruct b; [lia|done|lia].
Qed.

Lemma strtol_dec base z : base = 0 \/ base = 10 -> - 10 ^ 10 < z < 10 ^ 10 ->
  strtol base (dec z) = (z, false).
Proof.
  intros Hb Hz. unfold dec, strtol.
  assert (forall v : Z, - 10 ^ 10 < v < 10 ^ 10 ->
    (if LONG_MAX <? v then (LONG_MAX, true)
     else if v <? LONG_MIN then (LONG_MIN, true) else (v, false)) = (v, false)) as Hclamp.
  { intros v Hv. unfold LONG_MAX, LONG_MIN.
    by rewrite (proj2 (Z.ltb_ge _ _)), (proj2 (Z.ltb_ge _ _)) by lia. }
  destruct (Z.ltb_spec z 0) as [Hneg|Hpos].
  - cbn [skip]. change (isspace "-") with false. cbn [read_sign].
    pose proof (read_digits_based base (- z) Hb) as Hr.
    destruct (read_base base (write_digits 10 10 (- z))) as [b s]. rewrite Hr by lia.
    replace (-1 * - z) with z by lia. by apply Hclamp.
  - pose proof (read_digits_based base z Hb) as Hr.
    destruct (write_digits_head 10 10 z) as (d & s & E & Hd & H0); [lia..|]. rewrite E in *.
    destruct (digit_cases d) as (_ & Hsp & _); [lia|]. cbn [skip]. rewrite Hsp.
    assert (read_sign (String (digit_char d) s) = (false, String (digit_char d) s)) as ->.
    { assert (d = 0 \/ d = 1 \/ d = 2 \/ d = 3 \/ d = 4 \/ d = 5 \/ d = 6 \/ d = 7 \/ d = 8
        \/ d = 9) as Hc by lia.
      repeat (destruct Hc as [->|Hc]; [done|]). by subst. }
    destruct (read_base base (String (digit_char d) s)) as [b s']. rewrite Hr by lia.
    rewrite Z.mul_1_l. by apply Hclamp.
Qed.

Lemma atoi_dec z : - 2 ^ 31 <= z < 2 ^ 31 -> atoi (dec z) = Ok z.
Proof.
  intros Hz. unfold atoi. rewrite strtol_dec by lia.
  rewrite (proj2 (Z.leb_le _ _)), (proj2 (Z.ltb_lt _ _)) by lia. done.
Qed.

(** ** Lines *)

(** A line: characters that [tolower] keeps, then a newline. *)
Definition line_char (c : ascii) : bool := plain c && negb (code c =? 10).
Definition is_line (n : nat) (x : string) : Prop :=
  exists w, x = w +:+ String (char_of 10) "" /\ all_chars line_char w = true
    /\ (String.length w < n)%nat.

Lemma line_plain n x : is_line n x -> all_chars plain x = true.
Proof.
  intros (w & -> & Hw & _). rewrite all_chars_app.
  rewrite (all_chars_impl line_char plain w); [done| |done]. by intros c [? _]%andb_prop.
Qed.

Lemma line_text n x : is_line n x -> lower (c_str x) = Ok x.
Proof. intros H%line_plain. by rewrite c_str_plain, lower_plain. Qed.

Lemma pieces_line n room w rest : all_chars line_char w = true -> (String.length w <= room)%nat ->
  pieces n room (w +:+ String (char_of 10) rest) = (w +:+ String (char_of 10) "", fgets_all n rest).
Proof.
  revert room. induction w as [|c w IH]; intros room Hw Hl.
  - change ("" +:+ String (char_of 10) rest) with (String (char_of 10) rest).
    cbn [pieces]. rewrite orb_true_r. unfold fgets_all. by destruct (pieces n (pred n) rest).
  - rewrite !str_app_cons. cbn [pieces]. cbn [all_chars String.length] in *.
    apply andb_prop in Hw as [Hc Hw]. destruct room as [|room]; [lia|].
    unfold line_char in Hc. apply andb_prop in Hc as [_ Hc%negb_true_iff]. rewrite Hc.
    cbn [Nat.eqb orb pred]. by rewrite IH by (done || lia).
Qed.

Lemma concat_cons x xs : String.concat "" (x :: xs) = x +:+ String.concat "" xs.
Proof. destruct xs; cbn [String.concat]; [by rewrite str_app_nil|done]. Qed.

(** A file of lines that fit the buffer is read line by line. *)
Lemma fgets_lines n lines : Forall (is_line n) lines ->
  fgets_all n (String.concat "" lines) = lines.
Proof.
  induction 1 as [|x lines (w & -> & Hw & Hl) _ IH]; [done|].
  rewrite concat_cons, str_app_assoc, str_app_cons.
  change ("" +:+ String.concat "" lines) with (String.concat "" lines).
  unfold fgets_all at 1. rewrite pieces_line by (done || lia). rewrite IH.
  by destruct w.
Qed.
