(* ===== verification/Emulator.v ===== *)
(** The assembler ([include/Emulator.hh], [libs/Emulator.cc], and its copy in
    [src/riscv/], which knows fewer mnemonics and also keeps a copy of the
    mnemonic that nothing reads): it
    reads an assembly file line by line into the instruction memory and the
    data memory, records labels, and replaces label operands by addresses in
    a second pass. The definitions follow the members of [Emulator]; the
    members that the two processors share by pointer, the instruction and the
    data memory, are part of the state here. *)
From Stdlib Require Import Ascii String.
From S2P Require Import Prelude Machine DataStruct Memory CString.
Local Open Scope string_scope.
Local Open Scope list_scope.
Local Open Scope Z_scope.

(** * State *)

Record label_loc : Type := LabelLoc { l_label : string; l_loc : Z }.

(** The source buffer, as the pieces written to it and where; [offset] is
    where the next one begins. *)
Record source : Type := Source { s_pieces : list (Z * string); s_offset : Z }.

(** The parameters of [EmulatorConfig]; the path is the argument of [parse]. *)
Record EmulatorConfig : Type := EmuConfig {
  memory_size : Z; data_offset : Z; text_offset : Z; max_label_count : Z; max_src_len : Z;
}.
Definition default_config : EmulatorConfig := EmuConfig 65536 8192 0 128 1048576.

(** [labels] holds [label_count] entries. [e_tok] is what [strtok] keeps. *)
Record Emulator : Type := Emu {
  e_labels : list label_loc;
  e_memoff : Z;
  e_src : source;
  e_tok : string;
  e_mem : mem;
  e_imem : list instr;
}.

Definition Emulator_new (m : mem) (imem : list instr) : Emulator :=
  Emu [] 0 (Source [] 0) "" m imem.

Definition set_memoff (n : Z) (s : Emulator) : Emulator :=
  Emu (e_labels s) n (e_src s) (e_tok s) (e_mem s) (e_imem s).
Definition set_src (x : source) (s : Emulator) : Emulator :=
  Emu (e_labels s) (e_memoff s) x (e_tok s) (e_mem s) (e_imem s).
Definition set_tok (t : string) (s : Emulator) : Emulator :=
  Emu (e_labels s) (e_memoff s) (e_src s) t (e_mem s) (e_imem s).
Definition set_emem (m : mem) (s : Emulator) : Emulator :=
  Emu (e_labels s) (e_memoff s) (e_src s) (e_tok s) m (e_imem s).
Definition set_imem (l : list instr) (s : Emulator) : Emulator :=
  Emu (e_labels s) (e_memoff s) (e_src s) (e_tok s) (e_mem s) l.
Definition add_label (l : label_loc) (s : Emulator) : Emulator :=
  Emu (e_labels s ++ [l]) (e_memoff s) (e_src s) (e_tok s) (e_mem s) (e_imem s).

(** Assignments to the fields of an instruction. *)
Definition op_type (t : operand_type) (o : operand) : operand :=
  Operand t (o_label o) (o_reg o) (o_imm o).
Definition op_label (l : string) (o : operand) : operand :=
  Operand (o_type o) (strncpy MAX_LABEL_LEN l) (o_reg o) (o_imm o).
Definition op_reg (r : Z) (o : operand) : operand :=
  Operand (o_type o) (o_label o) r (o_imm o).
Definition op_imm (v : Z) (o : operand) : operand :=
  Operand (o_type o) (o_label o) (o_reg o) v.
Definition typed_reg (r : Z) (o : operand) : operand := op_reg r (op_type OPTYPE_REG o).
Definition typed_imm (v : Z) (o : operand) : operand := op_imm v (op_type OPTYPE_IMM o).
Definition typed_label (l : string) (o : operand) : operand :=
  op_label l (op_type OPTYPE_LABEL o).

Definition on_a1 (f : operand -> operand) (i : instr) : instr :=
  Instr (i_op i) (f (i_a1 i)) (i_a2 i) (i_a3 i) (i_psrc i) (i_orig_line i) (i_breakpoint i).
Definition on_a2 (f : operand -> operand) (i : instr) : instr :=
  Instr (i_op i) (i_a1 i) (f (i_a2 i)) (i_a3 i) (i_psrc i) (i_orig_line i) (i_breakpoint i).
Definition on_a3 (f : operand -> operand) (i : instr) : instr :=
  Instr (i_op i) (i_a1 i) (i_a2 i) (f (i_a3 i)) (i_psrc i) (i_orig_line i) (i_breakpoint i).
Definition with_op (o : instr_type) (i : instr) : instr :=
  Instr o (i_a1 i) (i_a2 i) (i_a3 i) (i_psrc i) (i_orig_line i) (i_breakpoint i).
Definition with_psrc (p : Z) (i : instr) : instr :=
  Instr (i_op i) (i_a1 i) (i_a2 i) (i_a3 i) (Some p) (i_orig_line i) (i_breakpoint i).
Definition with_line (n : Z) (i : instr) : instr :=
  Instr (i_op i) (i_a1 i) (i_a2 i) (i_a3 i) (i_psrc i) n (i_breakpoint i).

Definition blanks : string :=
  String " " (String (char_of 9) (String (char_of 13) (String (char_of 10) ""))).
Definition seps : string := blanks +:+ ",".

(** A chain of [streq] tests. *)
Fixpoint streq_chain {A} (table : list (string * A)) (t : string) : option A :=
  match table with
  | [] => None
  | (q, a) :: table' => if String.eqb t q then Some a else streq_chain table' t
  end.

Definition reg_names : list (string * Z) :=
  [("zero", 0); ("ra", 1); ("sp", 2); ("gp", 3); ("tp", 4); ("t0", 5); ("t1", 6); ("t2", 7);
   ("s0", 8); ("s1", 9); ("a0", 10); ("a1", 11); ("a2", 12); ("a3", 13); ("a4", 14);
   ("a5", 15); ("a6", 16); ("a7", 17); ("s2", 18); ("s3", 19); ("s4", 20); ("s5", 21);
   ("s6", 22); ("s7", 23); ("s8", 24); ("s9", 25); ("s10", 26); ("s11", 27); ("t3", 28);
   ("t4", 29); ("t5", 30); ("t6", 31)].

Definition rv32_op_names : list (string * instr_type) :=
  [("add", ADD); ("sub", SUB); ("slt", SLT); ("sltu", SLTU); ("and", AND); ("or", OR);
   ("xor", XOR); ("sll", SLL); ("srl", SRL); ("sra", SRA);
   ("addi", ADDI); ("slti", SLTI); ("sltiu", SLTIU); ("andi", ANDI); ("ori", ORI);
   ("xori", XORI); ("slli", SLLI); ("srli", SRLI); ("srai", SRAI);
   ("lb", LB); ("lbu", LBU); ("lh", LH); ("lhu", LHU); ("lw", LW);
   ("sb", SB); ("sh", SH); ("sw", SW);
   ("beq", BEQ); ("bge", BGE); ("bgeu", BGEU); ("blt", BLT); ("bltu", BLTU); ("bne", BNE);
   ("jal", JAL); ("jalr", JALR); ("auipc", AUIPC); ("lui", LUI)].
Definition simd_op_names : list (string * instr_type) :=
  [("mul", MUL); ("saddi8i8s.vv", S_ADDI8I8S_VV); ("saddi16i16s.vv", S_ADDI16I16S_VV);
   ("ssubi8i8s.vv", S_SUBI8I8S_VV); ("ssubi16i16s.vv", S_SUBI16I16S_VV);
   ("spmuli8i16s.vv.l", S_PMULI8I16S_VV_L); ("spmuli8i16s.vv.h", S_PMULI8I16S_VV_H);
   ("samuli8i8s.vv.nq", S_AMULI8I8S_VV_NQ); ("samuli8i8s.vv.l", S_AMULI8I8S_VV_L)].

Definition soc_op_names : list (string * instr_type) :=
  rv32_op_names ++ simd_op_names ++ [("hcf", HCF)].
Definition riscv_op_names : list (string * instr_type) := rv32_op_names ++ [("hcf", HCF)].

(** The two copies of the assembler differ in the mnemonics they know. *)
Class AsmTarget : Type := { op_names : list (string * instr_type) }.
Definition soc_assembler : AsmTarget := {| op_names := soc_op_names |}.
Definition riscv_assembler : AsmTarget := {| op_names := riscv_op_names |}.

Definition parse_op `{AsmTarget} (t : string) : instr_type :=
  default UNIMPL (streq_chain op_names t).

Definition first_is (c : ascii) (t : string) : bool :=
  match t with String x _ => Ascii.eqb x c | EmptyString => false end.

Definition signextend (x bits : Z) : Z :=
  if Z.testbit x (bits - 1) then Z.lor (u32 (Z.shiftl (-1) bits)) x else x.

Section Assembler.
Context `{Framework} `{T : AsmTarget} (cfg : EmulatorConfig).

#[local] Abbreviation A := (M Emulator Empty_set).

Definition print_syntax_error (line : Z) (msg : string) : result unit := log_error msg.

(** A pointer to a token is read: [NULL] is undefined. *)
Definition token (t : option string) : result string := from_opt (Undefined "NULL token") t.

Definition parse_reg (tok : option string) (line : Z) (strict : bool) : result Z :=
  t ← token tok;
  let malformed :=
    (if strict then print_syntax_error line "Malformed register name" else Ok tt) ≫= fun _ =>
    Ok (-1) in
  match t with
  | String "x" t' => ri ← atoi t'; if (ri <? 0) || (32 <? ri) then malformed else Ok ri
  | _ => match streq_chain reg_names t with Some r => Ok r | None => malformed end
  end.

Definition parse_imm (tok : option string) (bits line : Z) (strict : bool) : result Z :=
  t ← token tok;
  _ ← (if negb (match t with String c _ => isdigit c | "" => false end)
          && negb (first_is "-" t) && strict
       then print_syntax_error line "Malformed immediate value" else Ok tt);
  let imml := (strtol 0 t).1 in
  if (2 ^ bits - 1 <? imml) || (imml <? - 2 ^ (bits - 1)) then Err (Exited 1)
  else Ok (u32 imml).

(** [strtok(s, delims)], with [NULL] for the text that is left. *)
Definition strtok_next (o : option string) (delims : string) : A (option string) :=
  s ← get;
  let '(t, rest) := strtok delims (default (e_tok s) o) in
  put (set_tok rest s);;
  mret t.

Definition parse_mem (tok : option string) (bits line : Z) : A (Z * Z) :=
  imms ← strtok_next tok "(";
  regs ← strtok_next None ")";
  imm ← lift (parse_imm imms bits line true);
  reg ← lift (parse_reg regs line true);
  mret (reg, imm).

(** ** Memories *)

(** Bytes stored through a pointer into [_mem]; out of it, undefined. *)
Definition poke (off : Z) (bs : list Z) : A unit :=
  s ← get;
  if (0 <=? off) && (off + Z.of_nat (List.length bs) <=? getSize (e_mem s))
  then put (set_emem (splice (Z.to_nat off) bs (e_mem s)) s)
  else fail (Undefined "_mem").

(** Assignments through [instr* i = &_imem[k]]. *)
Definition with_instr (k : Z) (f : instr -> instr) : A unit :=
  s ← get;
  if (0 <=? k) && (k <? Z.of_nat (List.length (e_imem s)))
  then put (set_imem (alter f (Z.to_nat k) (e_imem s)) s)
  else fail (Undefined "_imem").

Definition append_source (o a1 a2 a3 : option string) (k : Z) : A unit :=
  let text := match o, a1, a2, a3 with
    | Some x, Some y, None, None => Some (x +:+ " " +:+ y)
    | Some x, Some y, Some z, None => Some (x +:+ " " +:+ y +:+ ", " +:+ z)
    | Some x, Some y, Some z, Some w => Some (x +:+ " " +:+ y +:+ ", " +:+ z +:+ ", " +:+ w)
    | _, _, _, _ => None
    end in
  match text with
  | None => mret tt
  | Some tbuf =>
      if 128 <=? strlen tbuf then fail (Undefined "tbuf")
      else
        s ← get;
        let off := s_offset (e_src s) in
        when (strlen tbuf + off <? max_src_len cfg)
          (with_instr k (with_psrc off);;
           modify (set_src (Source (s_pieces (e_src s) ++ [(off, tbuf)]) (off + strlen tbuf + 1))))
  end.

(** ** Data *)

Fixpoint data_loop (fuel : nat) (line size offset : Z) : A Z :=
  match fuel with
  | O => fail (Undefined "fuel")
  | S fuel' =>
      t ← strtok_next None blanks;
      match t with
      | None => mret offset
      | Some t =>
          let '(v, erange) := strtol 0 t in
          let vs := Z.shiftr v (size * 8) in
          if erange || ((0 <? vs) && negb (vs =? -1)) then fail (Exited 2)
          else
            poke offset (le_bytes (Z.to_nat size) v);;
            data_loop fuel' line size (offset + size)
      end
  end.

(** A token has at least one character. *)
Definition parse_data_element (line size offset : Z) : A Z :=
  s ← get; data_loop (S (String.length (e_tok s))) line size offset.

Definition parse_assembler_directive (line : Z) (ftok : string) (memoff : Z) : A Z :=
  text ← lift (memcmp_is ftok ".text");
  if text : bool then
    t ← strtok_next None blanks;
    lift (match t with
          | Some _ => print_syntax_error line "Tokens after assembler directive"
          | None => Ok tt
          end);;
    mret (text_offset cfg)
  else
    data ← lift (memcmp_is ftok ".data");
    if data : bool then mret (data_offset cfg)
    else
      byte ← lift (memcmp_is ftok ".byte");
      if byte : bool then parse_data_element line 1 memoff
      else
        half ← lift (memcmp_is ftok ".half");
        if half : bool then parse_data_element line 2 memoff
        else
          word ← lift (memcmp_is ftok ".word");
          if word : bool then parse_data_element line 4 memoff
          else fail (Exited 3).

(** ** Instructions *)

Definition invalid_format (bad : bool) (line : Z) : A unit :=
  when bad (lift (print_syntax_error line "Invalid format")).

(** [strncpy] from a token into the label of an operand. *)
Definition copy_label (k : Z) (on : (operand -> operand) -> instr -> instr)
    (o : option string) : A unit :=
  l ← lift (token o); with_instr k (on (op_label l)).

Definition reg_operand (k : Z) (on : (operand -> operand) -> instr -> instr)
    (o : option string) (line : Z) : A unit :=
  r ← lift (parse_reg o line true); with_instr k (on (op_reg r)).

Definition mem_operands (k : Z) (o : option string) (line : Z) : A unit :=
  '(r, v) ← parse_mem o 12 line;
  with_instr k (fun i => on_a2 (op_reg r) (on_a3 (op_imm v) i)).

(** ["x%02d"] into an array of four characters. *)
Definition sprint_reg (r : Z) : result string :=
  let s := "x" +:+ fmt_02d r in if strlen s <? 4 then Ok s else Err (Undefined "areg").
Definition sprint_imm (v : Z) : string := "0x" +:+ fmt_08x v.

Definition is_some {T} (o : option T) : bool := match o with Some _ => true | None => false end.
Definition is_none {T} (o : option T) : bool := negb (is_some o).

(** The number of instructions written, 0 for no pseudo-instruction. *)
Definition parse_pseudoinstructions (line : Z) (ftok : string) (ioff : Z)
    (o1 o2 o3 o4 : option string) : A Z :=
  let format bad := invalid_format bad line in
  if String.eqb ftok "li" then
    format (is_none o1 || is_none o2 || is_some o3);;
    reg ← lift (parse_reg o1 line true);
    t2 ← lift (token o2);
    let imml := (strtol 0 t2).1 in
    if (reg <? 0) || (2 ^ 32 - 1 <? imml) || (imml <? - 2 ^ 31) then fail (Exited 1)
    else
      let hv := u32 imml in
      areg ← lift (sprint_reg reg);
      let immu := sprint_imm (Z.shiftr hv 12) in
      let immd := sprint_imm (Z.land hv (Z.shiftl 1 12 - 1)) in
      with_instr ioff (fun i => with_line line
        (on_a2 (typed_imm (Z.shiftr hv 12)) (on_a1 (typed_reg reg) (with_op LUI i))));;
      append_source (Some "lui") (Some areg) (Some immu) None ioff;;
      with_instr (ioff + 1) (fun i => with_line line
        (on_a3 (typed_imm (Z.land hv (Z.shiftl 1 12 - 1)))
          (on_a2 (typed_reg reg) (on_a1 (typed_reg reg) (with_op ADDI i)))));;
      append_source (Some "addi") (Some areg) (Some areg) (Some immd) (ioff + 1);;
      mret 2
  else if String.eqb ftok "la" then
    format (is_none o1 || is_none o2 || is_some o3);;
    reg ← lift (parse_reg o1 line true);
    with_instr ioff (fun i => on_a2 (op_type OPTYPE_LABEL)
      (on_a1 (typed_reg reg) (with_op LUI i)));;
    copy_label ioff on_a2 o2;;
    with_instr ioff (with_line line);;
    with_instr (ioff + 1) (fun i => on_a3 (op_type OPTYPE_LABEL)
      (on_a2 (typed_reg reg) (on_a1 (typed_reg reg) (with_op ADDI i))));;
    copy_label (ioff + 1) on_a3 o2;;
    with_instr (ioff + 1) (with_line line);;
    mret 2
  else if String.eqb ftok "ret" then
    format (is_some o1);;
    with_instr ioff (fun i => with_line line
      (on_a3 (typed_imm 0) (on_a2 (typed_reg 1) (on_a1 (typed_reg 0) (with_op JALR i)))));;
    append_source (Some "jalr") (Some "x0") (Some "x1") (Some "x0") ioff;;
    mret 1
  else if String.eqb ftok "j" then
    format (is_none o1 || is_some o2);;
    with_instr ioff (fun i => on_a2 (op_type OPTYPE_LABEL)
      (on_a1 (typed_reg 0) (with_op JAL i)));;
    copy_label ioff on_a2 o1;;
    with_instr ioff (with_line line);;
    append_source (Some "j") (Some "x0") o1 None ioff;;
    mret 1
  else if String.eqb ftok "mv" then
    format (is_none o1 || is_none o2 || is_some o3);;
    with_instr ioff (fun i => on_a1 (op_type OPTYPE_REG) (with_op ADDI i));;
    reg_operand ioff on_a1 o1 line;;
    with_instr ioff (on_a2 (op_type OPTYPE_REG));;
    reg_operand ioff on_a2 o2 line;;
    with_instr ioff (fun i => with_line line (on_a3 (typed_imm 0) i));;
    append_source (Some "addi") o1 o2 None ioff;;
    mret 1
  else if String.eqb ftok "bnez" || String.eqb ftok "beqz" then
    let op := if String.eqb ftok "bnez" then BNE else BEQ in
    let name := if String.eqb ftok "bnez" then "bne" else "beq" in
    format (is_none o1 || is_none o2 || is_some o3);;
    with_instr ioff (fun i => on_a1 (op_type OPTYPE_REG) (with_op op i));;
    reg_operand ioff on_a1 o1 line;;
    with_instr ioff (fun i => on_a3 (op_type OPTYPE_LABEL) (on_a2 (typed_reg 0) i));;
    copy_label ioff on_a3 o2;;
    with_instr ioff (with_line line);;
    append_source (Some name) (Some "x0") o1 o2 ioff;;
    mret 1
  else mret 0.

(** How the operands of an opcode are written. *)
Inductive shape : Type :=
  | ShNone | ShJump | ShMem | ShRegs | ShImm | ShBranch | ShUpper.

Definition shape_of (op : instr_type) : shape :=
  match op with
  | JAL => ShJump
  | JALR | LB | LBU | LH | LHU | LW | SB | SH | SW => ShMem
  | ADD | SUB | SLT | SLTU | AND | OR | XOR | SLL | SRL | SRA | MUL
  | S_ADDI8I8S_VV | S_ADDI16I16S_VV | S_SUBI8I8S_VV | S_SUBI16I16S_VV
  | S_PMULI8I16S_VV_L | S_PMULI8I16S_VV_H | S_AMULI8I8S_VV_NQ | S_AMULI8I8S_VV_L => ShRegs
  | ADDI | SLTI | SLTIU | ANDI | ORI | XORI | SLLI | SRLI | SRAI => ShImm
  | BEQ | BGE | BGEU | BLT | BLTU | BNE => ShBranch
  | LUI | AUIPC => ShUpper
  | UNIMPL | HCF | NOP => ShNone
  end.

(** The switch of [parse_instr]. *)
Definition parse_operands (line : Z) (op : instr_type) (k : Z) (o1 o2 o3 o4 : option string) :
    A unit :=
  let format bad := invalid_format bad line in
  match shape_of op with
  | ShNone => mret tt
  | ShJump =>
      if is_some o2 then
        format (is_none o1 || is_none o2 || is_some o3 || is_some o4);;
        with_instr k (on_a1 (op_type OPTYPE_REG));;
        reg_operand k on_a1 o1 line;;
        with_instr k (on_a2 (op_type OPTYPE_LABEL));;
        copy_label k on_a2 o2
      else
        format (is_none o1 || is_some o2 || is_some o3 || is_some o4);;
        with_instr k (fun i => on_a2 (op_type OPTYPE_LABEL) (on_a1 (typed_reg 1) i));;
        copy_label k on_a2 o1
  | ShMem =>
      format (is_none o1 || is_none o2 || is_some o3 || is_some o4);;
      reg_operand k on_a1 o1 line;;
      mem_operands k o2 line
  | ShRegs =>
      format (is_none o1 || is_none o2 || is_none o3 || is_some o4);;
      reg_operand k on_a1 o1 line;;
      reg_operand k on_a2 o2 line;;
      reg_operand k on_a3 o3 line
  | ShImm =>
      format (is_none o1 || is_none o2 || is_none o3 || is_some o4);;
      reg_operand k on_a1 o1 line;;
      reg_operand k on_a2 o2 line;;
      v ← lift (parse_imm o3 12 line true);
      with_instr k (on_a3 (op_imm (signextend v 12)))
  | ShBranch =>
      format (is_none o1 || is_none o2 || is_none o3 || is_some o4);;
      reg_operand k on_a1 o1 line;;
      reg_operand k on_a2 o2 line;;
      with_instr k (on_a3 (op_type OPTYPE_LABEL));;
      copy_label k on_a3 o3
  | ShUpper =>
      format (is_none o1 || is_none o2 || is_some o3 || is_some o4);;
      reg_operand k on_a1 o1 line;;
      v ← lift (parse_imm o2 20 line true);
      with_instr k (on_a2 (op_imm v))
  end.

Definition parse_instr (line : Z) (ftok : string) (memoff : Z) : A Z :=
  if data_offset cfg <? memoff + 4 then fail (Exited 1)
  else
    o1 ← strtok_next None seps;
    o2 ← strtok_next None seps;
    o3 ← strtok_next None seps;
    o4 ← strtok_next None seps;
    let ioff := Z.quot memoff 4 in
    pscnt ← parse_pseudoinstructions line ftok ioff o1 o2 o3 o4;
    if 0 <? pscnt then mret pscnt
    else
      let op := parse_op ftok in
      with_instr ioff (fun i => with_line line (with_op op i));;
      append_source (Some ftok) o1 o2 o3 ioff;;
      parse_operands line op ioff o1 o2 o3 o4;;
      mret 1.

(** ** The first pass *)

(** One instruction: its words in memory are marked. *)
Definition instr_line (line : Z) (ftok : string) : A unit :=
  s ← get;
  count ← parse_instr line ftok (e_memoff s);
  foreach (seq 0 (Z.to_nat count)) (fun i =>
    poke (e_memoff s + Z.of_nat i * 4) (le_bytes 4 0xcccccccc));;
  modify (set_memoff (e_memoff s + count * 4)).

Definition directive_line (line : Z) (ftok : string) : A unit :=
  s ← get;
  off ← parse_assembler_directive line ftok (e_memoff s);
  modify (set_memoff off).

(** [l] is the token without its colon. *)
Definition label_line (line : Z) (l : string) : A unit :=
  if Z.of_nat MAX_LABEL_LEN <=? strlen l then fail (Exited 3)
  else
    s ← get;
    if max_label_count cfg <=? Z.of_nat (List.length (e_labels s)) then fail (Exited 3)
    else
      modify (add_label (LabelLoc (strncpy MAX_LABEL_LEN l) (e_memoff s)));;
      ntok ← strtok_next None blanks;
      match ntok with
      | None => mret tt
      | Some t => if first_is "." t then directive_line line t else instr_line line t
      end.

Definition parse_line (line : Z) (rbuf : string) : A unit :=
  buf ← lift (lower (c_str rbuf));
  ftok ← strtok_next (Some buf) blanks;
  match ftok with
  | None => mret tt
  | Some t =>
      if first_is "#" t then mret tt
      else if first_is "." t then directive_line line t
      else if bool_decide (last_char t = Some ":"%char) then label_line line (chop t)
      else instr_line line t
  end.

(** Lines are counted from 1; a buffer holds 1023 characters. *)
Definition parse_pieces (ls : list string) : A unit :=
  foreach (imap (fun k l => (Z.of_nat k + 1, l)) ls) (fun x => parse_line x.1 x.2).

(** The file's contents, or none when it cannot be opened: then [feof] is
    called on [NULL]. *)
Definition parse (file : option string) : A unit :=
  match file with
  | None => lift (log_error "No such file");; fail (Undefined "feof")
  | Some text => parse_pieces (fgets_all 1023 text)
  end.

(** ** The second pass *)

Definition label_addr (label : string) (labels : list label_loc) (line : Z) : result Z :=
  match list_find (fun l => l_label l = label) labels with
  | Some (_, l) => Ok (u32 (l_loc l))
  | None => print_syntax_error line "Undefined label" ≫= fun _ => Ok (2 ^ 32 - 1)
  end.

(** [int diff = pc - target] and its absolute value: an overflow is undefined. *)
Definition distance (pc target : Z) : result Z :=
  let diff := pc - s32 target in
  if (- 2 ^ 31 <? diff) && (diff <? 2 ^ 31) then Ok (Z.abs diff)
  else Err (Undefined "overflow").

Definition resolve_a1 (k : Z) (ii : instr) : A unit :=
  when (bool_decide (o_type (i_a1 ii) = OPTYPE_LABEL))
    (s ← get;
     v ← lift (label_addr (o_label (i_a1 ii)) (e_labels s) (i_orig_line ii));
     with_instr k (on_a1 (typed_imm v))).

Definition resolve_a2 (k : Z) (ii : instr) : A unit :=
  when (bool_decide (o_type (i_a2 ii) = OPTYPE_LABEL))
    (s ← get;
     v ← lift (label_addr (o_label (i_a2 ii)) (e_labels s) (i_orig_line ii));
     with_instr k (on_a2 (typed_imm v));;
     match i_op ii with
     | LUI =>
         let imm := Z.shiftr v 12 in
         with_instr k (on_a2 (op_imm imm));;
         areg ← lift (sprint_reg (o_reg (i_a1 ii)));
         append_source (Some "lui") (Some areg) (Some (sprint_imm imm)) None k
     | JAL =>
         diff ← lift (distance (k * 4) (o_imm (i_a3 ii)));
         when (2 ^ 21 <=? diff) (fail (Exited 3))
     | _ => mret tt
     end).

Definition resolve_a3 (k : Z) (ii : instr) : A unit :=
  when (bool_decide (o_type (i_a3 ii) = OPTYPE_LABEL))
    (s ← get;
     v ← lift (label_addr (o_label (i_a3 ii)) (e_labels s) (i_orig_line ii));
     with_instr k (on_a3 (typed_imm v));;
     match i_op ii with
     | ADDI =>
         let imm := Z.land v (Z.shiftl 1 12 - 1) in
         with_instr k (on_a3 (op_imm imm));;
         a1reg ← lift (sprint_reg (o_reg (i_a1 ii)));
         a2reg ← lift (sprint_reg (o_reg (i_a2 ii)));
         append_source (Some "addi") (Some a1reg) (Some a2reg) (Some (sprint_imm imm)) k
     | BEQ | BGE | BGEU | BLT | BLTU | BNE =>
         diff ← lift (distance (k * 4) v);
         when (2 ^ 13 <=? diff) (fail (Exited 3))
     | _ => mret tt
     end).

Definition normalize_one (k : nat) : A unit :=
  s ← get;
  ii ← lift (from_opt (Undefined "_imem") (e_imem s !! k));
  if bool_decide (i_op ii = UNIMPL) then mret tt
  else
    resolve_a1 (Z.of_nat k) ii;;
    resolve_a2 (Z.of_nat k) ii;;
    resolve_a3 (Z.of_nat k) ii.

Definition normalize_labels : A unit :=
  foreach (seq 0 (Z.to_nat (Z.quot (data_offset cfg) 4))) normalize_one.

(** [SOC::simInit]: both passes. *)
Definition assemble (file : option string) : A unit := parse file;; normalize_labels.

End Assembler.
