(* ===== verification/RvEmulator.v ===== *)
(** The assembler of [src/riscv/] ([src/riscv/libs/Emulator.cc]): the copy of
    the one in [soc/] without the mnemonics of [simd_op_names]. What differs
    in the text of its members is listed at [AsmTarget]; each is the member of
    [Emulator] at the target [riscv_assembler]. *)
From Stdlib Require Import Ascii String.
From S2P Require Import Prelude Machine DataStruct Memory CString Emulator.
Local Open Scope string_scope.
Local Open Scope list_scope.
Local Open Scope Z_scope.

Section Riscv_assembler.
Context `{Framework} (cfg : EmulatorConfig).
#[local] Existing Instance riscv_assembler.

Definition rv_parse_op : string -> instr_type := parse_op.
Definition rv_print_syntax_error := print_syntax_error.
Definition rv_parse_reg := parse_reg.
Definition rv_parse_imm := parse_imm.
Definition rv_parse_mem := parse_mem.
Definition rv_signextend := signextend.
Definition rv_append_source := append_source cfg.
Definition rv_parse_data_element := parse_data_element.
Definition rv_parse_assembler_directive := parse_assembler_directive cfg.
Definition rv_parse_pseudoinstructions := parse_pseudoinstructions cfg.
Definition rv_parse_operands := parse_operands.
Definition rv_parse_instr := parse_instr cfg.
Definition rv_parse_line := parse_line cfg.
Definition rv_parse := parse cfg.
Definition rv_label_addr := label_addr.
Definition rv_normalize_one := normalize_one cfg.
Definition rv_normalize_labels := normalize_labels cfg.
Definition rv_assemble := assemble cfg.
End Riscv_assembler.

(** * The two assemblers *)

Lemma streq_chain_app {A} (t1 t2 : list (string * A)) x :
  streq_chain (t1 ++ t2) x =
  match streq_chain t1 x with Some a => Some a | None => streq_chain t2 x end.
Proof.
  induction t1 as [|[q a] t1 IH]; simpl; [done|]. by destruct (String.eqb x q).
Qed.

(** The mnemonics that only [soc/] knows are unimplemented instructions in
    [src/riscv/]; all others mean the same in both. *)
Lemma targets_agree x :
  @parse_op riscv_assembler x =
  match streq_chain simd_op_names x with
  | Some _ => UNIMPL
  | None => @parse_op soc_assembler x
  end.
Proof.
  unfold parse_op. cbn [op_names riscv_assembler soc_assembler].
  unfold riscv_op_names, soc_op_names. rewrite !streq_chain_app.
  destruct (streq_chain simd_op_names x) as [op|] eqn:E.
  - assert (x ∈ map fst simd_op_names) as Hx.
    { clear -E. induction simd_op_names as [|[q a] l IH]; simpl in *; [done|].
      destruct (String.eqb_spec x q) as [->|]; [apply list_elem_of_here|].
      apply list_elem_of_further. by apply IH. }
    unfold simd_op_names in Hx. cbn [map fst] in Hx.
    repeat (apply elem_of_cons in Hx as [->|Hx]; [done|]). by apply not_elem_of_nil in Hx.
  - by destruct (streq_chain rv32_op_names x).
Qed.
