(* ===== verification/Asm.v ===== *)
(** Assembly programs and what the assembler is to make of them: abstract
    syntax, its concrete text, the layout of a program in memory and the
    instructions it stands for. [Assembler] proves that [Emulator] agrees. *)
From Stdlib Require Import Ascii String.
From S2P Require Import Prelude Machine DataStruct Memory CString Emulator.
Local Open Scope string_scope.
Local Open Scope Z_scope.

(** * Abstract syntax *)

Inductive asm : Type :=
  | ALabel (l : string)
  | ARegs (op : instr_type) (rd rs1 rs2 : Z)
  | AImm (op : instr_type) (rd rs v : Z)
  | AMem (op : instr_type) (r v rs : Z)
  | ABranch (op : instr_type) (r1 r2 : Z) (l : string)
  | AUpper (op : instr_type) (rd v : Z)
  | AJal (rd : Z) (l : string)
  | AHcf
  | ALi (rd v : Z)
  | ALa (rd : Z) (l : string)
  | AJ (l : string)
  | AMv (rd rs : Z)
  | ARet
  | ABnez (r : Z) (l : string)
  | ABeqz (r : Z) (l : string).

(** An element of the data section: a label, or values of 1, 2 or 4 bytes. *)
Inductive datum : Type :=
  | DLabel (l : string)
  | DVals (size : Z) (vs : list Z).

Record program : Type := Program { p_data : list datum; p_text : list asm }.

(** * Concrete text *)

Definition nl : string := String (char_of 10) "".

Definition name_of (op : instr_type) : string :=
  match list_find (fun x => x.2 = op) soc_op_names with Some (_, (n, _)) => n | None => "" end.

Definition reg (r : Z) : string := "x" +:+ dec r.

Fixpoint args_text (args : list string) : string :=
  match args with
  | [] => nl
  | [a] => a +:+ nl
  | a :: args' => a +:+ ", " +:+ args_text args'
  end.

(** The mnemonic and the operands of an instruction. *)
Definition words_of (a : asm) : string * list string :=
  match a with
  | ALabel l => (l +:+ ":", [])
  | ARegs op rd rs1 rs2 => (name_of op, [reg rd; reg rs1; reg rs2])
  | AImm op rd rs v => (name_of op, [reg rd; reg rs; dec v])
  | AMem op r v rs => (name_of op, [reg r; dec v +:+ "(" +:+ reg rs +:+ ")"])
  | ABranch op r1 r2 l => (name_of op, [reg r1; reg r2; l])
  | AUpper op rd v => (name_of op, [reg rd; dec v])
  | AJal rd l => ("jal", [reg rd; l])
  | AHcf => ("hcf", [])
  | ALi rd v => ("li", [reg rd; dec v])
  | ALa rd l => ("la", [reg rd; l])
  | AJ l => ("j", [l])
  | AMv rd rs => ("mv", [reg rd; reg rs])
  | ARet => ("ret", [])
  | ABnez r l => ("bnez", [reg r; l])
  | ABeqz r l => ("beqz", [reg r; l])
  end.

Definition line_of (w : string * list string) : string :=
  match w with
  | (n, []) => n +:+ nl
  | (n, args) => n +:+ " " +:+ args_text args
  end.

Definition asm_line (a : asm) : string := line_of (words_of a).

Definition size_directive (size : Z) : string :=
  if size =? 1 then ".byte" else if size =? 2 then ".half" else ".word".

(** The values of a data directive, each after a space. *)
Fixpoint vals_text (vs : list Z) : string :=
  match vs with
  | [] => nl
  | v :: vs' => " " +:+ dec v +:+ vals_text vs'
  end.

Definition datum_line (d : datum) : string :=
  match d with
  | DLabel l => l +:+ ":" +:+ nl
  | DVals size vs => size_directive size +:+ vals_text vs
  end.

Definition program_lines (p : program) : list string :=
  [".data" +:+ nl] ++ map datum_line (p_data p) ++ [".text" +:+ nl] ++ map asm_line (p_text p).

Definition print_program (p : program) : string := String.concat "" (program_lines p).

(** * Layout *)

Definition datum_size (d : datum) : Z :=
  match d with DLabel _ => 0 | DVals size vs => size * Z.of_nat (List.length vs) end.
Definition data_size (ds : list datum) : Z := foldr (fun d n => datum_size d + n) 0 ds.

Definition datum_bytes (d : datum) : list Z :=
  match d with
  | DLabel _ => []
  | DVals size vs => concat (map (le_bytes (Z.to_nat size)) vs)
  end.
Definition data_bytes (ds : list datum) : list Z := concat (map datum_bytes ds).

(** In instructions. *)
Definition asm_size (a : asm) : nat :=
  match a with ALabel _ => 0 | ALi _ _ | ALa _ _ => 2 | _ => 1 end.
Definition text_size (l : list asm) : nat := foldr (fun a n => asm_size a + n)%nat 0%nat l.

(** Where the labels of a section are. *)
Fixpoint data_labels (off : Z) (ds : list datum) : list label_loc :=
  match ds with
  | [] => []
  | d :: ds' =>
      (match d with DLabel l => [LabelLoc l off] | _ => [] end)
      ++ data_labels (off + datum_size d) ds'
  end.
Fixpoint text_labels (off : Z) (l : list asm) : list label_loc :=
  match l with
  | [] => []
  | a :: l' =>
      (match a with ALabel x => [LabelLoc x off] | _ => [] end)
      ++ text_labels (off + 4 * Z.of_nat (asm_size a)) l'
  end.

Definition label_table (cfg : EmulatorConfig) (p : program) : list label_loc :=
  data_labels (data_offset cfg) (p_data p) ++ text_labels (text_offset cfg) (p_text p).

(** The first definition counts. *)
Definition address (tbl : list label_loc) (l : string) : option Z :=
  (fun x => l_loc x.2) <$> list_find (fun x => l_label x = l) tbl.

(** * Instructions *)

(** An operand: unused, a register, an immediate, or the part of an address
    that the instruction takes. *)
Inductive soperand : Type :=
  | SNone
  | SReg (r : Z)
  | SImm (v : Z)
  | SAddr (part : Z -> Z) (l : string).

Record sinstr : Type := SInstr { s_op : instr_type; s_1 : soperand; s_2 : soperand; s_3 : soperand }.

Definition hi20 (a : Z) : Z := Z.shiftr a 12.
Definition lo12 (a : Z) : Z := Z.land a 0xfff.

Definition expand (a : asm) : list sinstr :=
  match a with
  | ALabel _ => []
  | ARegs op rd rs1 rs2 => [SInstr op (SReg rd) (SReg rs1) (SReg rs2)]
  | AImm op rd rs v => [SInstr op (SReg rd) (SReg rs) (SImm (u32 v))]
  | AMem op r v rs => [SInstr op (SReg r) (SReg rs) (SImm (u32 v))]
  | ABranch op r1 r2 l => [SInstr op (SReg r1) (SReg r2) (SAddr id l)]
  | AUpper op rd v => [SInstr op (SReg rd) (SImm (u32 v)) SNone]
  | AJal rd l => [SInstr JAL (SReg rd) (SAddr id l) SNone]
  | AHcf => [SInstr HCF SNone SNone SNone]
  | ALi rd v => [SInstr LUI (SReg rd) (SImm (hi20 (u32 v))) SNone;
                 SInstr ADDI (SReg rd) (SReg rd) (SImm (lo12 (u32 v)))]
  | ALa rd l => [SInstr LUI (SReg rd) (SAddr hi20 l) SNone;
                 SInstr ADDI (SReg rd) (SReg rd) (SAddr lo12 l)]
  | AJ l => [SInstr JAL (SReg 0) (SAddr id l) SNone]
  | AMv rd rs => [SInstr ADDI (SReg rd) (SReg rs) (SImm 0)]
  | ARet => [SInstr JALR (SReg 0) (SReg 1) (SImm 0)]
  | ABnez r l => [SInstr BNE (SReg r) (SReg 0) (SAddr id l)]
  | ABeqz r l => [SInstr BEQ (SReg r) (SReg 0) (SAddr id l)]
  end.

Definition code_of (l : list asm) : list sinstr := concat (map expand l).

(** The operand holds what the program says, at the addresses of a table. *)
Definition operand_is (tbl : list label_loc) (s : soperand) (o : operand) : Prop :=
  match s with
  | SNone => True
  | SReg r => o_reg o = r
  | SImm v => o_imm o = v
  | SAddr part l => exists a, address tbl l = Some a /\ o_imm o = part (u32 a)
  end.

Definition instr_is (tbl : list label_loc) (s : sinstr) (i : instr) : Prop :=
  i_op i = s_op s /\ operand_is tbl (s_1 s) (i_a1 i)
  /\ operand_is tbl (s_2 s) (i_a2 i) /\ operand_is tbl (s_3 s) (i_a3 i).

(** * Well-formed programs *)

Definition is_reg (r : Z) : bool := (0 <=? r) && (r <? 32).

(** A label can be written where it is defined and where it is used. *)
Definition label_char (c : ascii) : bool := plain c && negb (one_of seps c) && negb (code c =? 35).
Definition is_label (l : string) : bool :=
  all_chars label_char l && negb (String.eqb l "") && negb (first_is "." l)
  && (strlen l <? Z.of_nat MAX_LABEL_LEN).

Definition uses (a : asm) : list string :=
  match a with
  | ABranch _ _ _ l | AJal _ l | ALa _ l | AJ l | ABnez _ l | ABeqz _ l => [l]
  | _ => []
  end.

Definition shape_is (op : instr_type) (sh : shape) : bool :=
  match shape_of op, sh with
  | ShJump, ShJump | ShMem, ShMem | ShRegs, ShRegs | ShImm, ShImm | ShBranch, ShBranch
  | ShUpper, ShUpper => true
  | _, _ => false
  end.

(** The assembler knows the mnemonic. *)
Definition knows `{AsmTarget} (op : instr_type) : bool := bool_decide (parse_op (name_of op) = op).

(** Mnemonics, registers, and the immediates that the fields can hold. *)
Definition wf_asm `{AsmTarget} (a : asm) : bool :=
  match a with
  | ALabel l => is_label l
  | ARegs op rd rs1 rs2 => knows op && shape_is op ShRegs && is_reg rd && is_reg rs1 && is_reg rs2
  | AImm op rd rs v =>
      knows op && shape_is op ShImm && is_reg rd && is_reg rs && (-2048 <=? v) && (v <? 2048)
  | AMem op r v rs =>
      knows op && shape_is op ShMem && is_reg r && is_reg rs && (-2048 <=? v) && (v <? 2048)
  | ABranch op r1 r2 l => knows op && shape_is op ShBranch && is_reg r1 && is_reg r2 && is_label l
  | AUpper op rd v => knows op && shape_is op ShUpper && is_reg rd && (0 <=? v) && (v <? 2 ^ 20)
  | AJal rd l => knows JAL && is_reg rd && is_label l
  | AHcf => knows HCF
  | ARet => true
  | ALi rd v => is_reg rd && (- 2 ^ 31 <=? v) && (v <? 2 ^ 32)
  | ALa rd l => is_reg rd && is_label l
  | AJ l => is_label l
  | AMv rd rs => is_reg rd && is_reg rs
  | ABnez r l | ABeqz r l => is_reg r && is_label l
  end.

Definition wf_datum (d : datum) : bool :=
  match d with
  | DLabel l => is_label l
  | DVals size vs =>
      ((size =? 1) || (size =? 2) || (size =? 4))
      && forallb (fun v => (- 2 ^ (8 * size - 1) <=? v) && (v <? 2 ^ (8 * size))) vs
      && (strlen (datum_line d) <? 1023)
  end.

(** A branch is within 8 KiB of its target. *)
Definition reaches (tbl : list label_loc) (pc : Z) (s : sinstr) : Prop :=
  match s_3 s with
  | SAddr _ l =>
      s_op s = ADDI \/ forall a, address tbl l = Some a -> Z.abs (pc - a) < 2 ^ 13
  | _ => True
  end.

Record wf_program `{AsmTarget} (cfg : EmulatorConfig) (p : program) : Prop := {
  wf_data : Forall (fun d => wf_datum d = true) (p_data p);
  wf_text : Forall (fun a => wf_asm a = true) (p_text p);
  wf_uses : forall a l, a ∈ p_text p -> l ∈ uses a -> is_Some (address (label_table cfg p) l);
  wf_labels : Z.of_nat (List.length (label_table cfg p)) <= max_label_count cfg;
  wf_reach : forall k s, code_of (p_text p) !! k = Some s ->
    reaches (label_table cfg p) (text_offset cfg + 4 * Z.of_nat k) s;
}.

(** The sections and the memories they go to. *)
Record fits (cfg : EmulatorConfig) (m : mem) (imem : list instr) (p : program) : Prop := {
  fit_text_offset : 0 <= text_offset cfg /\ text_offset cfg mod 4 = 0;
  fit_text : text_offset cfg + 4 * Z.of_nat (text_size (p_text p)) <= data_offset cfg;
  fit_data : data_offset cfg + data_size (p_data p) <= getSize m;
  fit_size : getSize m < 2 ^ 21;
  fit_imem : Z.of_nat (List.length imem) = data_offset cfg / 4;
}.

(** An instruction memory as the processor leaves it: the operation and the
    types of the operands are set ([CPU.cc]), the other fields are not. *)
Definition cleared (i : instr) : Prop :=
  i_op i = UNIMPL /\ o_type (i_a1 i) = OPTYPE_NONE /\ o_type (i_a2 i) = OPTYPE_NONE
  /\ o_type (i_a3 i) = OPTYPE_NONE.

(** One of those fields is read: for a [JAL] the second pass tests the distance
    to the immediate of the third operand, which nothing writes. A value in
    this range passes the test wherever the jump is. Only a program with jumps
    depends on it. *)
Definition jump_field (v : Z) : Prop := 0 <= s32 v < 2 ^ 21.
Definition jumps (l : list asm) : bool := existsb (fun d => bool_decide (s_op d = JAL)) (code_of l).

(** A cell that is ready for a program with the text [l]. *)
Definition ready (l : list asm) (i : instr) : Prop :=
  cleared i /\ (jumps l = true -> jump_field (o_imm (i_a3 i))).

Lemma jumps_app l1 l2 : jumps (l1 ++ l2) = jumps l1 || jumps l2.
Proof. unfold jumps, code_of. by rewrite map_app, concat_app, existsb_app. Qed.

Lemma jumps_in l d : d ∈ code_of l -> s_op d = JAL -> jumps l = true.
Proof.
  intros Hd Hop. apply existsb_exists. exists d. split; [by apply list_elem_of_In|].
  by rewrite bool_decide_eq_true_2.
Qed.

(** The data memory afterwards. *)
Definition image (cfg : EmulatorConfig) (p : program) (m : mem) : mem :=
  splice (Z.to_nat (text_offset cfg))
    (concat (replicate (text_size (p_text p)) (le_bytes 4 0xcccccccc)))
    (splice (Z.to_nat (data_offset cfg)) (data_bytes (p_data p)) m).
