(* ===== verification/Assembler.v ===== *)
(** [Emulator] assembles what [Asm] describes: it reads the text of a
    well-formed program back into the instructions, labels and data that the
    program stands for. *)
From Stdlib Require Import Ascii String.
From S2P Require Import Prelude Machine DataStruct Memory CString Emulator Asm.
Local Open Scope string_scope.
Local Open Scope Z_scope.

(** * Characters of the printed text *)

(** No character of [w] is in [d], and all of them survive [tolower]. *)
Definition clean (d w : string) : bool :=
  all_chars (fun c => plain c && negb (one_of d c)) w.

Lemma clean_app d a b : clean d (a +:+ b) = clean d a && clean d b.
Proof. apply all_chars_app. Qed.

Lemma clean_plain d w : clean d w = true -> all_chars plain w = true.
Proof. apply all_chars_impl. by intros c [? _]%andb_prop. Qed.

Lemma clean_word d w : clean d w = true -> w <> "" -> word d w = true.
Proof.
  intros Hc Hw. unfold word. apply andb_true_intro. split.
  - revert Hc. apply all_chars_impl. by intros c [_ ?]%andb_prop.
  - by destruct w.
Qed.

(** All separators of an assembly line, and the brackets. *)
Definition marks : string := seps +:+ "()".

Lemma digit_clean d : 0 <= d < 10 ->
  plain (digit_char d) && negb (one_of marks (digit_char d)) = true.
Proof.
  intros Hd. assert (d = 0 \/ d = 1 \/ d = 2 \/ d = 3 \/ d = 4 \/ d = 5 \/ d = 6 \/ d = 7
    \/ d = 8 \/ d = 9) as Hc by lia.
  repeat (destruct Hc as [->|Hc]; [done|]). by subst.
Qed.

Lemma clean_dec z : clean marks (dec z) = true.
Proof.
  unfold dec, clean. case_match.
  - cbn [all_chars]. rewrite write_digits_all; [done|apply digit_clean|lia|lia].
  - apply write_digits_all; [apply digit_clean|lia|lia].
Qed.
Lemma clean_reg r : clean marks (reg r) = true.
Proof. exact (clean_dec r). Qed.

Lemma dec_nonempty z : - 10 ^ 10 < z < 10 ^ 10 -> dec z <> "".
Proof.
  intros Hz. unfold dec. case_match; [done|].
  destruct (write_digits_head 10 10 z) as (d & s & -> & _); [lia..|done].
Qed.

Lemma length_dec z : (String.length (dec z) <= 11)%nat.
Proof.
  pose proof (write_digits_length 10 10 z). pose proof (write_digits_length 10 10 (- z)).
  unfold dec. case_match; cbn [String.length]; lia.
Qed.

(** Cleanness for fewer delimiters. *)
Lemma clean_sub d d' w : (forall c, one_of d' c = true -> one_of d c = true) ->
  clean d w = true -> clean d' w = true.
Proof.
  intros Hd. apply all_chars_impl. intros c [Hp Hn]%andb_prop. rewrite Hp. simpl.
  apply negb_true_iff in Hn. apply negb_true_iff.
  destruct (one_of d' c) eqn:E; [|done]. by rewrite (Hd c E) in Hn.
Qed.

Lemma one_of_app a b c : one_of (a +:+ b) c = one_of a c || one_of b c.
Proof.
  induction a as [|x a IH]; [done|]. rewrite str_app_cons. simpl. by rewrite IH, orb_assoc.
Qed.
Lemma marks_seps c : one_of seps c = true -> one_of marks c = true.
Proof. intros H. unfold marks. rewrite one_of_app. by rewrite H. Qed.
Lemma seps_blanks c : one_of blanks c = true -> one_of seps c = true.
Proof. intros H. unfold seps. rewrite one_of_app. by rewrite H. Qed.

Lemma seps_word w : clean marks w = true -> w <> "" -> word seps w = true.
Proof. intros H. apply clean_word. revert H. apply clean_sub, marks_seps. Qed.

(** Labels. *)
Lemma label_clean l : is_label l = true -> clean seps l = true /\ l <> "".
Proof.
  unfold is_label. intros [[[H Hne]%andb_prop _]%andb_prop _]%andb_prop.
  split; [|by destruct l]. revert H. apply all_chars_impl.
  unfold label_char. by intros c [[-> ->]%andb_prop _]%andb_prop.
Qed.
Lemma label_word l : is_label l = true -> word seps l = true.
Proof. intros [??]%label_clean. by apply clean_word. Qed.
Lemma label_short l : is_label l = true -> (String.length l < MAX_LABEL_LEN)%nat.
Proof. unfold is_label, strlen. intros [_ H]%andb_prop. lia. Qed.
Lemma label_copy l : is_label l = true -> strncpy MAX_LABEL_LEN l = l.
Proof. intros H%label_short. apply strncpy_short. lia. Qed.

(** * Tokens of a line *)

Definition rest_text (args : list string) : string :=
  match args with [] => "" | _ => String " " (args_text args) end.

Lemma strtok_args pre a args : pre = "" \/ pre = " " -> word seps a = true ->
  strtok seps (pre +:+ args_text (a :: args)) = (Some a, rest_text args).
Proof.
  intros Hpre Ha.
  assert (strtok seps (pre +:+ args_text (a :: args)) = strtok seps (args_text (a :: args))) as ->.
  { destruct Hpre as [->| ->]; [done|]. by apply strtok_delim. }
  destruct args as [|b args]; cbn [args_text rest_text].
  - by apply (strtok_word seps a (char_of 10) "").
  - by apply (strtok_word seps a "," (String " " (args_text (b :: args)))).
Qed.

(** The text after the mnemonic. *)
Definition after_name (args : list string) : string :=
  match args with [] => "" | _ => args_text args end.

Lemma strtok_after args : Forall (fun a => word seps a = true) args ->
  forall pre, pre = "" \/ (pre = " " /\ args <> []) ->
  strtok seps (pre +:+ after_name args) =
  (head args, rest_text (tail args)).
Proof.
  intros Hargs pre Hpre. destruct Hargs as [|a args Ha _]; cbn [after_name head tail].
  - destruct Hpre as [->|[_ ?]]; done.
  - apply strtok_args; [naive_solver|done].
Qed.

Lemma rest_after args : exists pre, rest_text args = pre +:+ after_name args
  /\ (pre = "" \/ (pre = " " /\ args <> [])).
Proof. destruct args as [|a args]; [exists ""|exists " "]; auto. Qed.

(** The first token is the mnemonic. *)
Lemma strtok_name n args : word blanks n = true ->
  strtok blanks (line_of (n, args)) = (Some n, after_name args).
Proof.
  intros Hn. destruct args as [|a args]; cbn [line_of after_name].
  - by apply (strtok_word blanks n (char_of 10) "").
  - by apply (strtok_word blanks n " " (args_text (a :: args))).
Qed.

(** * Steps on one cell of the instruction memory *)

(** [s] with [i] in cell [k], and the source buffer and [strtok]'s text given. *)
Definition cell (k : nat) (i : instr) (src : source) (t : string) (s : Emulator) : Emulator :=
  Emu (e_labels s) (e_memoff s) src t (e_mem s) (<[k:=i]> (e_imem s)).

Lemma cell_self k i s : e_imem s !! k = Some i -> s = cell k i (e_src s) (e_tok s) s.
Proof. intros Hk. unfold cell. rewrite list_insert_id by done. by destruct s. Qed.

(** Two instructions that differ at most in [psrc]. *)
Definition but_psrc (i i' : instr) : Prop := i' = i \/ exists p, i' = with_psrc p i.

Section Steps.
Context `{Framework} `{T : AsmTarget} (cfg : EmulatorConfig).

Lemma strtok_step o d Q s t r : strtok d (default (e_tok s) o) = (t, r) ->
  Q t (set_tok r s) -> twp (strtok_next o d) Q s.
Proof. intros E HQ. unfold strtok_next. twp_step. apply twp_get. rewrite E. repeat twp_step. done. Qed.

Lemma cell_instr k i src t s f (Q : unit -> Emulator -> Prop) :
  (k < List.length (e_imem s))%nat -> Q tt (cell k (f i) src t s) ->
  twp (with_instr (Z.of_nat k) f) Q (cell k i src t s).
Proof.
  intros Hk HQ. unfold with_instr. twp_step. apply twp_get. cbn [cell e_imem].
  rewrite length_insert, (proj2 (Z.leb_le _ _)), (proj2 (Z.ltb_lt _ _)) by lia. cbn [andb].
  apply twp_put. unfold set_imem. cbn. rewrite Nat2Z.id.
  assert (alter f k (<[k:=i]> (e_imem s)) = <[k:=f i]> (e_imem s)) as ->; [|done].
  apply list_eq. intros j. destruct (decide (j = k)) as [->|Hne].
  - rewrite list_lookup_alter_eq, !list_lookup_insert_eq by done. done.
  - rewrite list_lookup_alter_ne, !list_lookup_insert_ne by done. done.
Qed.

(** The source text changes nothing else. *)
Lemma cell_source o a1 a2 a3 k i src t s (Q : unit -> Emulator -> Prop) :
  (k < List.length (e_imem s))%nat ->
  (String.length o <= 17)%nat ->
  (forall x, a1 = Some x \/ a2 = Some x \/ a3 = Some x -> String.length x < 32)%nat ->
  (forall i' src', but_psrc i i' -> Q tt (cell k i' src' t s)) ->
  twp (append_source cfg (Some o) a1 a2 a3 (Z.of_nat k)) Q (cell k i src t s).
Proof.
  intros Hk Ho Ha HQ. unfold append_source.
  set (text := match a1 with Some y => _ | None => _ end).
  assert (match text with Some x => (String.length x < 128)%nat | None => True end) as Ht.
  { subst text. destruct a1 as [x|], a2 as [y|], a3 as [z|]; try done;
      rewrite ?str_length_app; cbn [String.length];
      try (pose proof (Ha x ltac:(auto))); try (pose proof (Ha y ltac:(auto)));
      try (pose proof (Ha z ltac:(auto))); lia. }
  destruct text as [tbuf|]; [|apply twp_ret; apply HQ; by left].
  rewrite (proj2 (Z.leb_gt _ _)) by (unfold strlen; lia). cbn [cell e_src].
  twp_step. apply twp_get. apply twp_when; intros _; [|apply HQ; by left].
  twp_step. apply cell_instr; [done|]. apply twp_modify.
  apply (HQ _ (Source _ _)). right. by eexists.
Qed.

(** ** Operands *)

Lemma parse_reg_reg r line b : is_reg r = true -> parse_reg (Some (reg r)) line b = Ok r.
Proof.
  unfold is_reg. intros Hr. change (reg r) with (String "x" (dec r)).
  unfold parse_reg. cbn [token from_opt]. unfold mbind, result_bind.
  rewrite atoi_dec by lia.
  by rewrite (proj2 (Z.ltb_ge r 0)), (proj2 (Z.ltb_ge 32 r)) by lia.
Qed.

Lemma parse_imm_dec v bits line : 1 <= bits <= 20 -> - 2 ^ (bits - 1) <= v < 2 ^ bits ->
  parse_imm (Some (dec v)) bits line true = Ok (u32 v).
Proof.
  intros Hb Hv.
  assert (2 ^ bits <= 2 ^ 20) by (apply Z.pow_le_mono_r; lia).
  assert (2 ^ (bits - 1) <= 2 ^ 20) by (apply Z.pow_le_mono_r; lia).
  unfold parse_imm. cbn [token from_opt]. unfold mbind, result_bind.
  rewrite strtol_dec by lia. cbn [fst].
  rewrite (proj2 (Z.ltb_ge (2 ^ bits - 1) v)), (proj2 (Z.ltb_ge v _)) by lia.
  assert (match dec v with String c _ => isdigit c | "" => false end
          || first_is "-" (dec v) = true) as Hd.
  { unfold dec. destruct (Z.ltb_spec v 0); [done|].
    destruct (write_digits_head 10 10 v) as (d & s & -> & Hd & _); [lia..|].
    destruct (digit_cases d) as (_ & _ & Hdig & _); [lia|]. by rewrite Hdig by lia. }
  destruct (match dec v with String c _ => isdigit c | "" => false end); [done|].
  cbn [orb] in Hd. by rewrite Hd.
Qed.

Lemma signextend_id v : -2048 <= v < 2048 -> signextend (u32 v) 12 = u32 v.
Proof.
  intros Hv. unfold signextend. destruct (Z.leb_spec 0 v).
  - rewrite (uint_id 32 v) by (unfold is_u; lia).
    rewrite (proj2 (Z.testbit_false v (12 - 1) ltac:(lia))); [done|].
    by rewrite Z.div_small by lia.
  - assert (u32 v = 2 ^ 32 + v) as ->.
    { unfold uint. rewrite <- (Z.mod_add v 1) by lia. rewrite Z.mod_small; lia. }
    case_match; [|done].
    replace (u32 (Z.shiftl (-1) 12)) with (Z.shiftl (2 ^ 20 - 1) 12) by done.
    replace (2 ^ 32 + v) with (Z.lor (Z.shiftl (2 ^ 20 - 1) 12) (v + 4096)).
    + by rewrite Z.lor_assoc, Z.lor_diag.
    + rewrite lor_shiftl_add by lia. lia.
Qed.

Lemma cell_reg k (on : (operand -> operand) -> instr -> instr) r line i src t s
    (Q : unit -> Emulator -> Prop) :
  is_reg r = true -> (k < List.length (e_imem s))%nat ->
  Q tt (cell k (on (op_reg r) i) src t s) ->
  twp (reg_operand (Z.of_nat k) on (Some (reg r)) line) Q (cell k i src t s).
Proof.
  intros Hr Hk HQ. unfold reg_operand. twp_step. eapply twp_lift; [by apply parse_reg_reg|].
  by apply cell_instr.
Qed.

Lemma cell_label k (on : (operand -> operand) -> instr -> instr) l i src t s
    (Q : unit -> Emulator -> Prop) :
  (k < List.length (e_imem s))%nat -> Q tt (cell k (on (op_label l) i) src t s) ->
  twp (copy_label (Z.of_nat k) on (Some l)) Q (cell k i src t s).
Proof.
  intros Hk HQ. unfold copy_label. twp_step. eapply twp_lift; [done|]. by apply cell_instr.
Qed.

Lemma cell_mem k v r line i src t s (Q : unit -> Emulator -> Prop) :
  is_reg r = true -> -2048 <= v < 2048 -> (k < List.length (e_imem s))%nat ->
  (forall t', Q tt (cell k (on_a2 (op_reg r) (on_a3 (op_imm (u32 v)) i)) src t' s)) ->
  twp (mem_operands (Z.of_nat k) (Some (dec v +:+ "(" +:+ reg r +:+ ")")) line) Q (cell k i src t s).
Proof.
  intros Hr Hv Hk HQ. unfold mem_operands, parse_mem.
  assert (clean marks (dec v) = true /\ clean marks (reg r) = true) as [Hd Hg]
    by (split; [apply clean_dec|apply clean_reg]).
  twp_step. twp_step.
  eapply strtok_step.
  { apply (strtok_word "(" (dec v) "(" (reg r +:+ ")")); [|done].
    apply clean_word; [|apply dec_nonempty; lia]. revert Hd. apply clean_sub.
    intros c Hc. unfold marks. rewrite one_of_app. apply orb_true_intro. right.
    cbn [one_of] in *. rewrite orb_false_r in Hc. by rewrite Hc, ?orb_true_r. }
  twp_step. eapply strtok_step.
  { apply (strtok_word ")" (reg r) ")" ""); [|done].
    apply clean_word; [|done]. revert Hg. apply clean_sub.
    intros c Hc. unfold marks. rewrite one_of_app. apply orb_true_intro. right.
    cbn [one_of] in *. rewrite orb_false_r in Hc. by rewrite Hc, ?orb_true_r. }
  twp_step. eapply twp_lift; [apply parse_imm_dec; lia|].
  twp_step. eapply twp_lift; [by apply parse_reg_reg|]. twp_step.
  change (set_tok "" (set_tok (reg r +:+ ")") (cell k i src t s))) with (cell k i src "" s).
  by apply cell_instr.
Qed.
End Steps.

(** * What an instruction line writes *)

(** An operand before labels are resolved. *)
Definition sym_operand (s : soperand) (o : operand) : Prop :=
  match s with
  | SNone => o_type o <> OPTYPE_LABEL
  | SReg r => o_type o <> OPTYPE_LABEL /\ o_reg o = r
  | SImm v => o_type o <> OPTYPE_LABEL /\ o_imm o = v
  | SAddr _ l => o_type o = OPTYPE_LABEL /\ o_label o = l
  end.

(** The third operand of a jump is not written at all. *)
Definition sym_instr (d : sinstr) (i : instr) : Prop :=
  i_op i = s_op d /\ sym_operand (s_1 d) (i_a1 i) /\ sym_operand (s_2 d) (i_a2 i)
  /\ sym_operand (s_3 d) (i_a3 i) /\ (s_op d = JAL -> jump_field (o_imm (i_a3 i))).

(** [ds] is written from cell [k] on, and nothing else changes but the
    source text. *)
Record wrote (k : nat) (ds : list sinstr) (s s' : Emulator) : Prop := {
  wr_labels : e_labels s' = e_labels s;
  wr_memoff : e_memoff s' = e_memoff s;
  wr_mem : e_mem s' = e_mem s;
  wr_length : List.length (e_imem s') = List.length (e_imem s);
  wr_cells : forall j d, ds !! j = Some d ->
    exists i, e_imem s' !! (k + j)%nat = Some i /\ sym_instr d i;
  wr_others : forall n, (n < k \/ k + List.length ds <= n)%nat ->
    e_imem s' !! n = e_imem s !! n;
}.

Lemma wrote_cell k d i src t s : (k < List.length (e_imem s))%nat -> sym_instr d i ->
  wrote k [d] s (cell k i src t s).
Proof.
  intros Hk Hd. split; try done.
  - apply length_insert.
  - intros [|j] d' [= <-]. exists i. cbn. rewrite Nat.add_0_r.
    by rewrite list_lookup_insert_eq by done.
  - intros n Hn. cbn in *. by rewrite list_lookup_insert_ne by lia.
Qed.

Lemma wrote_cells k d1 d2 i1 i2 src1 src2 t1 t2 s :
  (S k < List.length (e_imem s))%nat -> sym_instr d1 i1 -> sym_instr d2 i2 ->
  wrote k [d1; d2] s (cell (S k) i2 src2 t2 (cell k i1 src1 t1 s)).
Proof.
  intros Hk H1 H2. split; try done.
  - cbn. by rewrite !length_insert.
  - intros [|[|j]] d' [= <-]; cbn.
    + exists i1. rewrite Nat.add_0_r, list_lookup_insert_ne by lia.
      by rewrite list_lookup_insert_eq by lia.
    + exists i2. rewrite Nat.add_1_r.
      by rewrite list_lookup_insert_eq by (rewrite length_insert; lia).
  - intros n Hn. cbn in *. by rewrite !list_lookup_insert_ne by lia.
Qed.

Lemma but_psrc_ops i i' : but_psrc i i' ->
  i_op i' = i_op i /\ i_a1 i' = i_a1 i /\ i_a2 i' = i_a2 i /\ i_a3 i' = i_a3 i.
Proof. by intros [->|[p ->]]. Qed.

(** A cell that is ready for the text [xs], with its opcode and line set. *)
Definition blank (xs : list asm) (i : instr) : Prop :=
  o_type (i_a1 i) = OPTYPE_NONE /\ o_type (i_a2 i) = OPTYPE_NONE
  /\ o_type (i_a3 i) = OPTYPE_NONE /\ (jumps xs = true -> jump_field (o_imm (i_a3 i))).

Lemma ready_blank xs i : ready xs i -> blank xs i.
Proof. intros ((_ & ? & ? & ?) & ?). done. Qed.

Lemma blank_sub xs ys i : (jumps ys = true -> jumps xs = true) -> blank xs i -> blank ys i.
Proof. intros Hj (? & ? & ? & Hi). split_and!; auto. Qed.

(** ** Operands of well-formed instructions *)

Lemma reg_word r : is_reg r = true -> word seps (reg r) = true.
Proof. intros _. by apply seps_word; [apply clean_reg|]. Qed.
Lemma dec_word z : - 10 ^ 10 < z < 10 ^ 10 -> word seps (dec z) = true.
Proof. intros Hz. apply seps_word; [apply clean_dec|by apply dec_nonempty]. Qed.

Lemma length_reg r : (String.length (reg r) <= 12)%nat.
Proof. unfold reg. rewrite str_length_app. pose proof (length_dec r). cbn [String.length]. lia. Qed.

(** The text of an operand is a short word that [tolower] keeps. *)
Definition good_arg (x : string) : Prop :=
  word seps x = true /\ (String.length x < 32)%nat /\ all_chars plain x = true.

Lemma good_reg r : is_reg r = true -> good_arg (reg r).
Proof.
  intros Hr. split_and!; [by apply reg_word|pose proof (length_reg r); lia|].
  eapply clean_plain, clean_reg.
Qed.
Lemma good_dec z : - 10 ^ 10 < z < 10 ^ 10 -> good_arg (dec z).
Proof.
  intros Hz. split_and!; [by apply dec_word|pose proof (length_dec z); lia|].
  eapply clean_plain, clean_dec.
Qed.
Lemma good_label l : is_label l = true -> good_arg l.
Proof.
  intros Hl. split_and!; [by apply label_word|by apply label_short|].
  by eapply clean_plain, label_clean.
Qed.
Lemma good_mem v r : - 10 ^ 10 < v < 10 ^ 10 -> good_arg (dec v +:+ "(" +:+ reg r +:+ ")").
Proof.
  intros Hv. assert (clean seps (dec v +:+ "(" +:+ reg r +:+ ")") = true) as Hc.
  { rewrite !clean_app.
    rewrite (clean_sub marks seps (dec v)), (clean_sub marks seps (reg r));
      eauto using marks_seps, clean_dec, clean_reg. }
  split_and!.
  - apply clean_word; [done|]. pose proof (dec_nonempty v Hv). by destruct (dec v).
  - rewrite !str_length_app. pose proof (length_dec v). pose proof (length_reg r).
    cbn [String.length]. lia.
  - by eapply clean_plain.
Qed.

Ltac wf_split :=
  repeat match goal with H : (_ && _) = true |- _ => apply andb_prop in H as [? ?] end.

(** The opcodes of a shape have a name that is no pseudo-instruction. *)
Definition is_name (n : string) : bool :=
  clean blanks n && (String.length n <=? 17)%nat && negb (String.eqb n "")
  && negb (first_is "#" n) && negb (first_is "." n) && bool_decide (last_char n <> Some ":"%char).

Definition pseudo_names : list string := ["li"; "la"; "ret"; "j"; "mv"; "bnez"; "beqz"].

Lemma op_name op : shape_of op <> ShNone ->
  is_name (name_of op) = true /\ existsb (String.eqb (name_of op)) pseudo_names = false.
Proof. destruct op; intros Hs; try done; by vm_compute. Qed.

Lemma knows_parse `{AsmTarget} op : knows op = true -> parse_op (name_of op) = op.
Proof. apply bool_decide_eq_true. Qed.

Lemma shape_is_eq op sh : shape_is op sh = true -> shape_of op = sh /\ sh <> ShNone.
Proof. unfold shape_is. by destruct (shape_of op), sh. Qed.

Lemma wf_words `{AsmTarget} a : wf_asm a = true -> (0 < asm_size a)%nat ->
  is_name (words_of a).1 = true /\ Forall good_arg (words_of a).2
  /\ (List.length (words_of a).2 <= 3)%nat.
Proof.
  intros Hw Hs. destruct a; cbn [wf_asm words_of asm_size fst snd] in *; wf_split;
    try lia;
    repeat match goal with
    | H : shape_is _ _ = true |- _ => apply shape_is_eq in H as [Hsh Hno]
    end;
    (split; [first [apply op_name; congruence | done] |]);
    (split; [|cbn; lia]);
    repeat (apply Forall_cons; split);
    first [by apply Forall_nil | by apply good_reg | by apply good_label
          | apply good_dec; lia | apply good_mem; lia].
Qed.

(** * Instruction lines *)

Section Instructions.
Context `{Framework} `{T : AsmTarget} (cfg : EmulatorConfig).

Lemma read_operands args (K : option string -> option string -> option string ->
    option string -> M Emulator Empty_set Z) Q s :
  Forall good_arg args -> (List.length args <= 3)%nat -> e_tok s = after_name args ->
  twp (K (args !! 0%nat) (args !! 1%nat) (args !! 2%nat) None) Q (set_tok "" s) ->
  twp (o1 ← strtok_next None seps; o2 ← strtok_next None seps; o3 ← strtok_next None seps;
       o4 ← strtok_next None seps; K o1 o2 o3 o4) Q s.
Proof.
  intros Hargs Hl Ht HQ.
  assert (Forall (fun a => word seps a = true) args) as Hw.
  { eapply Forall_impl; [exact Hargs|]. by intros x [? _]. }
  assert (forall l s1 o Q1, Forall (fun a => word seps a = true) l ->
    default (e_tok s1) o = rest_text l -> o = None ->
    Q1 (head l) (set_tok (rest_text (tail l)) s1) -> twp (strtok_next None seps) Q1 s1) as Hstep.
  { intros l s1 o Q1 Hf He -> HQ1. eapply strtok_step; [|exact HQ1].
    cbn [default] in *. destruct (rest_after l) as (pre & Hpre & Hc).
    cbn in He |- *. rewrite He, Hpre. by apply strtok_after. }
  twp_step. eapply strtok_step.
  { cbn. rewrite Ht. by apply (strtok_after args Hw ""); left. }
  twp_step. apply (Hstep (tail args) _ None); [by apply Forall_tail|done|done|].
  twp_step. apply (Hstep (tail (tail args)) _ None); [by do 2 apply Forall_tail|done|done|].
  twp_step. apply (Hstep (tail (tail (tail args))) _ None); [by do 3 apply Forall_tail|done|done|].
  destruct args as [|a [|b [|c [|d args]]]]; try exact HQ. simpl in Hl. lia.
Qed.

Lemma no_pseudo line n k o1 o2 o3 o4 : existsb (String.eqb n) pseudo_names = false ->
  parse_pseudoinstructions cfg line n k o1 o2 o3 o4 = mret 0.
Proof.
  unfold pseudo_names. cbn [existsb]. intros H0.
  repeat (apply orb_false_elim in H0 as [? H0]). unfold parse_pseudoinstructions.
  by repeat match goal with E : String.eqb _ _ = false |- _ => rewrite E; clear E end.
Qed.

Lemma format_ok bad line (Q : unit -> Emulator -> Prop) s :
  bad = false -> Q tt s -> twp (invalid_format bad line) Q s.
Proof. intros -> HQ. by apply twp_ret. Qed.

Lemma good_arg_short args j x : Forall good_arg args -> args !! j = Some x ->
  (String.length x < 32)%nat.
Proof. intros Hf Hx. by destruct (Forall_lookup_1 _ _ _ _ Hf Hx) as (_ & ? & _). Qed.

(** An instruction that is not a pseudo-instruction. *)
Lemma parse_instr_named n args op line s k i Q :
  is_name n = true -> existsb (String.eqb n) pseudo_names = false -> parse_op n = op ->
  Forall good_arg args -> (List.length args <= 3)%nat -> e_tok s = after_name args ->
  e_imem s !! k = Some i -> 4 * Z.of_nat k + 4 <= data_offset cfg ->
  (forall i' src, i_op i' = op -> i_a1 i' = i_a1 i -> i_a2 i' = i_a2 i -> i_a3 i' = i_a3 i ->
    twp (parse_operands line op (Z.of_nat k) (args !! 0%nat) (args !! 1%nat) (args !! 2%nat) None)
      (fun _ s' => Q 1 s') (cell k i' src "" s)) ->
  twp (parse_instr cfg line n (4 * Z.of_nat k)) Q s.
Proof.
  intros Hn Hp <- Hargs Hl Ht Hk Hoff HQ. unfold parse_instr.
  rewrite (proj2 (Z.ltb_ge _ _)) by lia.
  apply (read_operands args); [done..|].
  rewrite no_pseudo by done. twp_step. apply twp_ret. cbn [Z.ltb Z.compare].
  rewrite Z.mul_comm, Z.quot_mul by lia.
  assert (k < List.length (e_imem s))%nat as Hlt by (by eapply lookup_lt_Some).
  assert (set_tok "" s = cell k i (e_src s) "" s) as ->.
  { unfold cell, set_tok. by rewrite list_insert_id. }
  twp_step. apply cell_instr; [done|]. twp_step. apply cell_source; [done| | |].
  - unfold is_name in Hn. wf_split. by apply Nat.leb_le.
  - intros x [Hx|[Hx|Hx]]; by eapply good_arg_short.
  - intros i' src (E0 & E1 & E2 & E3)%but_psrc_ops. twp_step.
    eapply twp_mono; [by apply HQ|]. intros u s' HQ'. by apply twp_ret.
Qed.
End Instructions.

(** Close what a cell holds after the assignments of a line. *)
Ltac sym_done :=
  unfold sym_instr, sym_operand, blank in *; cbn in *;
  repeat match goal with
  | H : _ /\ _ |- _ => destruct H
  | E : i_a1 ?x = _ |- context [i_a1 ?x] => rewrite E
  | E : i_a2 ?x = _ |- context [i_a2 ?x] => rewrite E
  | E : i_a3 ?x = _ |- context [i_a3 ?x] => rewrite E
  end; cbn; split_and!; first [done | congruence | by intros -> | by rewrite label_copy
    | match goal with Hj : _ -> jump_field _ |- _ => by intros _; apply Hj end | idtac].

Section Operands.
Context `{Framework} `{T : AsmTarget} (cfg : EmulatorConfig).

(** The single instruction that a line stands for, if it is no pseudo-instruction. *)
Definition base_instr (a : asm) : option sinstr :=
  match a with
  | ARegs _ _ _ _ | AImm _ _ _ _ | AMem _ _ _ _ | ABranch _ _ _ _ | AUpper _ _ _
  | AJal _ _ | AHcf => head (expand a)
  | _ => None
  end.

(** Finish an operand proof: the cell reached is the one described. *)
Ltac operands_done Hlt := apply wrote_cell; [exact Hlt|sym_done].

Lemma operands_ok a d line k i i' src s :
  wf_asm a = true -> base_instr a = Some d -> blank [a] i -> (k < List.length (e_imem s))%nat ->
  i_op i' = s_op d -> i_a1 i' = i_a1 i -> i_a2 i' = i_a2 i -> i_a3 i' = i_a3 i ->
  let args := (words_of a).2 in
  twp (parse_operands line (s_op d) (Z.of_nat k) (args !! 0%nat) (args !! 1%nat) (args !! 2%nat) None)
    (fun _ s' => wrote k [d] s s') (cell k i' src "" s).
Proof.
  intros Hw Hd Hb Hlt E0 E1 E2 E3. destruct a; cbn in Hd; try done;
    injection Hd as <-; cbn [wf_asm] in Hw; wf_split;
    cbn [words_of snd s_op lookup list_lookup] in *; unfold parse_operands;
    repeat match goal with
    | Hs : shape_is _ _ = true |- _ => apply shape_is_eq in Hs as [Hsh _]; rewrite Hsh
    end; cbn [is_some shape_of].
  - twp_step. apply format_ok; [done|]. twp_step. apply cell_reg; [done..|].
    twp_step. apply cell_reg; [done..|]. apply cell_reg; [done..|].
    operands_done Hlt.
  - twp_step. apply format_ok; [done|]. twp_step. apply cell_reg; [done..|].
    twp_step. apply cell_reg; [done..|]. twp_step.
    eapply twp_lift; [apply parse_imm_dec; lia|]. rewrite signextend_id by lia.
    apply cell_instr; [done|]. operands_done Hlt.
  - twp_step. apply format_ok; [done|]. twp_step. apply cell_reg; [done..|].
    apply cell_mem; [done|lia|done|]. intros t'. operands_done Hlt.
  - twp_step. apply format_ok; [done|]. twp_step. apply cell_reg; [done..|].
    twp_step. apply cell_reg; [done..|]. twp_step. apply cell_instr; [done|].
    apply cell_label; [done|]. operands_done Hlt.
  - twp_step. apply format_ok; [done|]. twp_step. apply cell_reg; [done..|].
    twp_step. eapply twp_lift; [apply parse_imm_dec; lia|]. apply cell_instr; [done|].
    operands_done Hlt.
  - twp_step. apply format_ok; [done|]. twp_step. apply cell_instr; [done|].
    twp_step. apply cell_reg; [done..|]. twp_step. apply cell_instr; [done|].
    apply cell_label; [done|]. operands_done Hlt.
  - apply twp_ret. operands_done Hlt.
Qed.

Lemma sprint_reg_ok r : is_reg r = true ->
  exists x, sprint_reg r = Ok x /\ (String.length x < 4)%nat.
Proof.
  unfold is_reg. intros Hr. exists ("x" +:+ fmt_02d r).
  assert (String.length (fmt_02d r) = 2)%nat as Hl.
  { unfold fmt_02d, dec. rewrite (proj2 (Z.ltb_ge r 0)) by lia. cbn [write_digits].
    destruct (Z.ltb_spec r 10); [done|].
    assert (r / 10 < 10) by (apply Z.div_lt_upper_bound; lia).
    rewrite (proj2 (Z.ltb_lt (r / 10) 10)) by lia. done. }
  unfold sprint_reg. rewrite str_app_cons. cbn [String.length].
  assert (strlen (String "x" ("" +:+ fmt_02d r)) <? 4 = true) as ->; [|].
  { unfold strlen. cbn [String.length]. change ("" +:+ fmt_02d r) with (fmt_02d r).
    rewrite Hl. done. }
  split; [done|]. change ("" +:+ fmt_02d r) with (fmt_02d r). lia.
Qed.

Lemma length_pad0 n x : String.length (pad0 n x) = (n + String.length x)%nat.
Proof. induction n as [|n IH]; simpl; [done|]. by rewrite IH. Qed.

Lemma length_sprint_imm v : (String.length (sprint_imm v) <= 10)%nat.
Proof.
  unfold sprint_imm, fmt_08x. rewrite str_length_app, length_pad0.
  pose proof (write_digits_length 8 16 v). cbn [String.length]. lia.
Qed.

(** A second cell, above the first. *)
Lemma next_cell k i1 i2 src t s (m : M Emulator Empty_set Z) Q :
  e_imem s !! S k = Some i2 ->
  twp m Q (cell (S k) i2 src t (cell k i1 src t s)) -> twp m Q (cell k i1 src t s).
Proof.
  intros H2. assert (cell (S k) i2 src t (cell k i1 src t s) = cell k i1 src t s) as ->; [|done].
  unfold cell. cbn. f_equal. apply list_insert_id.
  by rewrite list_lookup_insert_ne by lia.
Qed.

Definition pseudo_post (k : nat) (a : asm) (s : Emulator) (n : Z) (s' : Emulator) : Prop :=
  n = Z.of_nat (asm_size a) /\ wrote k (expand a) s s'.

Ltac short_args := intros ? Hx; destruct Hx as [Hx|[Hx|Hx]]; (done || injection Hx as <-);
  first [ done | by apply label_short | by (eapply Nat.lt_le_trans; [eassumption|lia])
        | by (eapply Nat.le_lt_trans; [apply length_reg|lia])
        | by (eapply Nat.le_lt_trans; [apply length_sprint_imm|lia]) ].

Lemma li_ok rd v line k i1 i2 s :
  wf_asm (ALi rd v) = true -> blank [ALi rd v] i1 -> blank [ALi rd v] i2 ->
  e_imem s !! k = Some i1 -> e_imem s !! S k = Some i2 ->
  twp (parse_pseudoinstructions cfg line "li" (Z.of_nat k) (Some (reg rd)) (Some (dec v)) None None)
    (pseudo_post k (ALi rd v) s) (cell k i1 (e_src s) "" s).
Proof.
  intros Hw Hb1 Hb2 Hk1 Hk2. cbn [wf_asm] in Hw. wf_split.
  pose proof (lookup_lt_Some _ _ _ Hk1) as Hl1. pose proof (lookup_lt_Some _ _ _ Hk2) as Hl2.
  destruct (sprint_reg_ok rd) as (areg & Ha & Hal); [done|].
  unfold parse_pseudoinstructions. cbn [String.eqb Ascii.eqb Bool.eqb].
  twp_step. apply format_ok; [done|]. twp_step. eapply twp_lift; [by apply parse_reg_reg|].
  twp_step. eapply twp_lift; [done|]. rewrite strtol_dec by lia. cbn [fst].
  assert ((rd <? 0) || (2 ^ 32 - 1 <? v) || (v <? - 2 ^ 31) = false) as ->.
  { unfold is_reg in *. rewrite (proj2 (Z.ltb_ge rd 0)), (proj2 (Z.ltb_ge _ v)),
      (proj2 (Z.ltb_ge v _)) by lia. done. }
  twp_step. eapply twp_lift; [exact Ha|].
  twp_step. apply cell_instr; [done|]. twp_step. apply cell_source; [done|cbn; lia|short_args|].
  intros i1' src1 (A0 & A1 & A2 & A3)%but_psrc_ops.
  apply (next_cell _ _ i2); [done|].
  replace (Z.of_nat k + 1) with (Z.of_nat (S k)) by lia.
  twp_step. apply cell_instr; [cbn; by rewrite length_insert|].
  twp_step. apply cell_source; [cbn; by rewrite length_insert|cbn; lia|short_args|].
  intros i2' src2 (B0 & B1 & B2 & B3)%but_psrc_ops.
  apply twp_ret. split; [done|].
  apply wrote_cells; [done| |].
  - clear B0 B1 B2 B3. sym_done.
  - clear A0 A1 A2 A3. sym_done.
Qed.

Lemma la_ok rd l line k i1 i2 s :
  wf_asm (ALa rd l) = true -> blank [ALa rd l] i1 -> blank [ALa rd l] i2 ->
  e_imem s !! k = Some i1 -> e_imem s !! S k = Some i2 ->
  twp (parse_pseudoinstructions cfg line "la" (Z.of_nat k) (Some (reg rd)) (Some l) None None)
    (pseudo_post k (ALa rd l) s) (cell k i1 (e_src s) "" s).
Proof.
  intros Hw Hb1 Hb2 Hk1 Hk2. cbn [wf_asm] in Hw. wf_split.
  pose proof (lookup_lt_Some _ _ _ Hk1) as Hl1. pose proof (lookup_lt_Some _ _ _ Hk2) as Hl2.
  unfold parse_pseudoinstructions. cbn [String.eqb Ascii.eqb Bool.eqb].
  twp_step. apply format_ok; [done|]. twp_step. eapply twp_lift; [by apply parse_reg_reg|].
  twp_step. apply cell_instr; [done|]. twp_step. apply cell_label; [done|].
  twp_step. apply cell_instr; [done|]. apply (next_cell _ _ i2); [done|].
  replace (Z.of_nat k + 1) with (Z.of_nat (S k)) by lia.
  twp_step. apply cell_instr; [cbn; by rewrite length_insert|].
  twp_step. apply cell_label; [cbn; by rewrite length_insert|].
  twp_step. apply cell_instr; [cbn; by rewrite length_insert|].
  apply twp_ret. split; [done|]. apply wrote_cells; [done| |]; sym_done.
Qed.

(** The pseudo-instructions that stand for one instruction. *)
Lemma pseudo1_ok a line k i s :
  wf_asm a = true -> asm_size a = 1%nat -> base_instr a = None -> blank [a] i ->
  e_imem s !! k = Some i ->
  let args := (words_of a).2 in
  twp (parse_pseudoinstructions cfg line (words_of a).1 (Z.of_nat k)
      (args !! 0%nat) (args !! 1%nat) (args !! 2%nat) None)
    (pseudo_post k a s) (cell k i (e_src s) "" s).
Proof.
  intros Hw Hs Hd Hb Hk. pose proof (lookup_lt_Some _ _ _ Hk) as Hl.
  destruct a; try discriminate; cbn [wf_asm] in Hw; wf_split;
    cbn [words_of fst snd lookup list_lookup];
    unfold parse_pseudoinstructions; cbn [String.eqb Ascii.eqb Bool.eqb orb];
    (twp_step; apply format_ok; [done|]).
  - twp_step. apply cell_instr; [done|]. twp_step. apply cell_label; [done|].
    twp_step. apply cell_instr; [done|].
    twp_step. apply cell_source; [done|cbn; lia|short_args|].
    intros i' src (A0 & A1 & A2 & A3)%but_psrc_ops. apply twp_ret.
    split; [done|]. apply wrote_cell; [done|sym_done].
  - twp_step. apply cell_instr; [done|]. twp_step. apply cell_reg; [done..|].
    twp_step. apply cell_instr; [done|]. twp_step. apply cell_reg; [done..|].
    twp_step. apply cell_instr; [done|].
    twp_step. apply cell_source; [done|cbn; lia|short_args|].
    intros i' src (A0 & A1 & A2 & A3)%but_psrc_ops. apply twp_ret.
    split; [done|]. apply wrote_cell; [done|sym_done].
  - twp_step. apply cell_instr; [done|].
    twp_step. apply cell_source; [done|cbn; lia| |].
    { intros x [[= <-]|[[= <-]|[= <-]]]; cbn; lia. }
    intros i' src (A0 & A1 & A2 & A3)%but_psrc_ops. apply twp_ret.
    split; [done|]. apply wrote_cell; [done|sym_done].
  - twp_step. apply cell_instr; [done|]. twp_step. apply cell_reg; [done..|].
    twp_step. apply cell_instr; [done|]. twp_step. apply cell_label; [done|].
    twp_step. apply cell_instr; [done|].
    twp_step. apply cell_source; [done|cbn; lia| |].
    { short_args. }
    intros i' src (A0 & A1 & A2 & A3)%but_psrc_ops. apply twp_ret.
    split; [done|]. apply wrote_cell; [done|sym_done].
  - twp_step. apply cell_instr; [done|]. twp_step. apply cell_reg; [done..|].
    twp_step. apply cell_instr; [done|]. twp_step. apply cell_label; [done|].
    twp_step. apply cell_instr; [done|].
    twp_step. apply cell_source; [done|cbn; lia| |].
    { short_args. }
    intros i' src (A0 & A1 & A2 & A3)%but_psrc_ops. apply twp_ret.
    split; [done|]. apply wrote_cell; [done|sym_done].
Qed.
End Operands.
