(* ===== verification/AsmPass.v ===== *)
(** The first pass of the assembler over a printed program: every line has
    the effect of the element it prints. *)
From Stdlib Require Import Ascii String.
From S2P Require Import Prelude Machine DataStruct Memory CString Emulator Asm Assembler.
Local Open Scope string_scope.
Local Open Scope list_scope.
Local Open Scope Z_scope.

(** * Lists and sizes *)

Lemma length_expand a : List.length (expand a) = asm_size a.
Proof. by destruct a. Qed.

Lemma length_code_of l : List.length (code_of l) = text_size l.
Proof.
  induction l as [|a l IH]; [done|]. unfold code_of in *. simpl.
  by rewrite length_app, IH, length_expand.
Qed.

Lemma splice_app (i : nat) (v w l : list Z) :
  (i + List.length v + List.length w <= List.length l)%nat ->
  splice (i + List.length v) w (splice i v l) = splice i (v ++ w) l.
Proof.
  intros Hl. unfold splice at 1 3.
  assert (take (i + List.length v) (splice i v l) = take i l ++ v) as ->.
  { unfold splice. rewrite take_app_ge by (rewrite length_take; lia).
    rewrite length_take, Nat.min_l by lia.
    replace (i + List.length v - i)%nat with (List.length v) by lia. by rewrite take_app_length. }
  assert (drop (i + List.length v + List.length w) (splice i v l)
    = drop (i + List.length v + List.length w) l) as ->.
  { apply list_eq. intros j. rewrite !lookup_drop, lookup_splice by lia.
    by rewrite decide_False by lia. }
  rewrite length_app, <- !app_assoc. do 4 f_equal. lia.
Qed.

Lemma splice_nil (i : nat) (l : list Z) : splice i [] l = l.
Proof. unfold splice. cbn. rewrite Nat.add_0_r. apply take_drop. Qed.

(** The mark of [n] instruction words. *)
Definition fill (n : nat) : list Z := concat (replicate n (le_bytes 4 0xcccccccc)).
Lemma length_fill n : List.length (fill n) = (4 * n)%nat.
Proof.
  induction n as [|n IH]; [done|].
  change (fill (S n)) with (le_bytes 4 0xcccccccc ++ fill n).
  rewrite length_app, IH, length_le_bytes. lia.
Qed.
Lemma fill_add a b : fill (a + b) = fill a ++ fill b.
Proof. unfold fill. by rewrite replicate_add, concat_app. Qed.

Lemma length_vals_bytes size vs : 0 <= size ->
  Z.of_nat (List.length (concat (map (le_bytes (Z.to_nat size)) vs)))
  = size * Z.of_nat (List.length vs).
Proof.
  intros Hs. induction vs as [|v vs IH]; [simpl; lia|]. simpl concat. simpl List.length.
  rewrite length_app, length_le_bytes. lia.
Qed.

Lemma length_datum d : wf_datum d = true -> Z.of_nat (List.length (datum_bytes d)) = datum_size d.
Proof.
  destruct d as [l|size vs]; [done|]. cbn [wf_datum datum_bytes datum_size]. intros Hw. wf_split.
  apply length_vals_bytes.
  apply orb_prop in H as [[?%Z.eqb_eq|?%Z.eqb_eq]%orb_prop|?%Z.eqb_eq]; lia.
Qed.

(** * What is written to the instruction memory *)

Record code_at (k : nat) (ds : list sinstr) (l l' : list instr) : Prop := {
  ca_length : List.length l' = List.length l;
  ca_cells : forall j d, ds !! j = Some d -> exists i, l' !! (k + j)%nat = Some i /\ sym_instr d i;
  ca_others : forall n, (n < k \/ k + List.length ds <= n)%nat -> l' !! n = l !! n;
}.

Lemma wrote_code k ds s s' : wrote k ds s s' -> code_at k ds (e_imem s) (e_imem s').
Proof. intros []. by split. Qed.

Lemma code_at_nil k l : code_at k [] l l.
Proof. by split. Qed.

Lemma code_at_app k d1 d2 l l1 l2 :
  code_at k d1 l l1 -> code_at (k + List.length d1) d2 l1 l2 -> code_at k (d1 ++ d2) l l2.
Proof.
  intros [L1 C1 O1] [L2 C2 O2]. split.
  - congruence.
  - intros j d Hj. destruct (decide (j < List.length d1)%nat) as [Hlt|Hge].
    + rewrite lookup_app_l in Hj by done. destruct (C1 j d Hj) as (i & Hi & Hs).
      exists i. rewrite O2 by lia. done.
    + rewrite lookup_app_r in Hj by lia. destruct (C2 _ _ Hj) as (i & Hi & Hs).
      exists i. split; [|done]. rewrite <- Hi. f_equal. lia.
  - intros n Hn. rewrite length_app in Hn. rewrite O2 by lia. apply O1. lia.
Qed.

Section Pass.
Context `{Framework} `{T : AsmTarget} (cfg : EmulatorConfig).

(** * One instruction *)

Definition blank_cells (k : nat) (xs : list asm) (l : list instr) : Prop :=
  forall j, (k <= j < k + text_size xs)%nat -> exists i, l !! j = Some i /\ blank xs i.

Lemma parse_instr_ok a line k s :
  wf_asm a = true -> (0 < asm_size a)%nat -> e_tok s = after_name (words_of a).2 ->
  blank_cells k [a] (e_imem s) -> 4 * Z.of_nat k + 4 <= data_offset cfg ->
  twp (parse_instr cfg line (words_of a).1 (4 * Z.of_nat k)) (pseudo_post k a s) s.
Proof.
  intros Hw Hs Ht Hc Hoff. destruct (wf_words a Hw Hs) as (Hn & Hargs & Hl).
  destruct (Hc k) as (i & Hk & Hb); [simpl; lia|].
  destruct (base_instr a) as [d|] eqn:Hd.
  - assert (expand a = [d] /\ asm_size a = 1%nat) as [He H1]
      by (destruct a; cbn in Hd; try done; by injection Hd as <-).
    eapply (parse_instr_named cfg _ (words_of a).2 (s_op d)); try done.
    + destruct a; try done; cbn in *; wf_split;
        repeat match goal with
        | Hsh : shape_is _ _ = true |- _ => apply shape_is_eq in Hsh as [? ?]
        end; first [done | apply op_name; congruence].
    + destruct a; try done; injection Hd as <-; cbn [wf_asm words_of fst s_op] in *; wf_split;
        first [by apply knows_parse | by apply (knows_parse JAL) | by apply (knows_parse HCF)].
    + intros i' src E0 E1 E2 E3. eapply twp_mono.
      { by apply (operands_ok a d line k i i' src s Hw Hd Hb); [by eapply lookup_lt_Some|..]. }
      intros u s' Hs'. unfold pseudo_post. by rewrite H1, He.
  - unfold parse_instr. rewrite (proj2 (Z.ltb_ge _ _)) by lia.
    apply (read_operands (words_of a).2); [done..|].
    rewrite Z.mul_comm, Z.quot_mul by lia.
    assert (set_tok "" s = cell k i (e_src s) "" s) as ->.
    { unfold cell, set_tok. by rewrite list_insert_id. }
    twp_step. eapply twp_mono.
    { destruct (decide (asm_size a = 1%nat)) as [H1|H1]; [by apply pseudo1_ok|].
      destruct (Hc (S k)) as (i2 & Hk2 & Hb2); [destruct a; simpl in *; lia|].
      destruct a; try done; try (simpl in *; lia); [by apply (li_ok _ _ _ _ _ _ i2)|by apply (la_ok _ _ _ _ _ _ i2)]. }
    intros n s' [-> Hwr]. rewrite (proj2 (Z.ltb_lt 0 _)) by lia. by apply twp_ret.
Qed.

Lemma poke_ok off bs s (Q : unit -> Emulator -> Prop) :
  0 <= off -> off + Z.of_nat (List.length bs) <= getSize (e_mem s) ->
  Q tt (set_emem (splice (Z.to_nat off) bs (e_mem s)) s) -> twp (poke off bs) Q s.
Proof.
  intros H0 Hl HQ. unfold poke. twp_step. apply twp_get.
  rewrite (proj2 (Z.leb_le _ _)), (proj2 (Z.leb_le _ _)) by lia. by apply twp_put.
Qed.

Lemma fill_ok off n s : 0 <= off -> off + 4 * Z.of_nat n <= getSize (e_mem s) ->
  twp (foreach (seq 0 n) (fun i => poke (off + Z.of_nat i * 4) (le_bytes 4 0xcccccccc)))
    (fun _ s' => s' = set_emem (splice (Z.to_nat off) (fill n) (e_mem s)) s) s.
Proof.
  intros H0 Hn.
  pose (P := fun (ys : list nat) (s' : Emulator) =>
    s' = set_emem (splice (Z.to_nat off) (fill (List.length ys)) (e_mem s)) s : Prop).
  eapply twp_mono; [apply (twp_foreach _ P s [])|].
  - unfold P. cbn. rewrite splice_nil. by destruct s.
  - intros ys x s1 Hp ->. cbn [app] in Hp.
    assert (x = List.length ys /\ (x < n)%nat) as [-> Hx].
    { destruct Hp as [zs Hz]. assert (seq 0 n !! List.length ys = Some x) as Hlk.
      { rewrite Hz, <- app_assoc, lookup_app_r by lia. by rewrite Nat.sub_diag. }
      apply lookup_seq in Hlk. lia. }
    pose proof (length_fill (List.length ys)) as Hf.
    assert (List.length (splice (Z.to_nat off) (fill (List.length ys)) (e_mem s))
      = List.length (e_mem s)) as Hsl by (apply length_splice; unfold getSize in *; lia).
    apply poke_ok; [lia| |].
    + unfold getSize in *. cbn [set_emem e_mem]. rewrite Hsl, length_le_bytes. lia.
    + unfold P. cbn [set_emem e_mem]. unfold set_emem. cbn. f_equal.
      replace (Z.to_nat (off + Z.of_nat (List.length ys) * 4))
        with (Z.to_nat off + List.length (fill (List.length ys)))%nat by lia.
      change ([204; 204; 204; 204]) with (le_bytes 4 0xcccccccc).
      rewrite splice_app by (cbn [List.length le_bytes]; unfold getSize in *; lia).
      rewrite length_app, fill_add. f_equal.
  - intros u s' ->. cbn [app]. unfold P. by rewrite length_seq.
Qed.

(** * Lines of the text section *)

(** The effect of the elements [xs] from cell [k] on. *)
Record text_done (k : nat) (xs : list asm) (s s' : Emulator) : Prop := {
  td_labels : e_labels s' = e_labels s ++ text_labels (4 * Z.of_nat k) xs;
  td_memoff : e_memoff s' = 4 * Z.of_nat (k + text_size xs);
  td_mem : e_mem s' = splice (4 * k) (fill (text_size xs)) (e_mem s);
  td_code : code_at k (code_of xs) (e_imem s) (e_imem s');
}.

(** There is room for them. *)
Record text_room (k : nat) (xs : list asm) (s : Emulator) : Prop := {
  tr_memoff : e_memoff s = 4 * Z.of_nat k;
  tr_offset : 4 * Z.of_nat (k + text_size xs) <= data_offset cfg;
  tr_mem : (4 * (k + text_size xs) <= List.length (e_mem s))%nat;
  tr_cells : blank_cells k xs (e_imem s);
  tr_labels : Z.of_nat (List.length (e_labels s) + List.length (text_labels (4 * Z.of_nat k) xs))
    <= max_label_count cfg;
}.

Lemma instr_line_ok a line k s :
  wf_asm a = true -> (0 < asm_size a)%nat -> e_tok s = after_name (words_of a).2 ->
  text_room k [a] s ->
  twp (instr_line cfg line (words_of a).1) (fun _ s' => text_done k [a] s s') s.
Proof.
  intros Hw Hs Ht [Rm Ro Rl Rc _]. simpl text_size in *. rewrite Nat.add_0_r in *.
  unfold instr_line. twp_step. apply twp_get. rewrite Rm.
  twp_step. eapply twp_mono; [by apply parse_instr_ok; [..|lia]|].
  intros n s1 [-> [W1 W2 W3 W4 W5 W6]]. rewrite Nat2Z.id.
  twp_step. eapply twp_mono; [apply fill_ok; [lia|rewrite W3; unfold getSize; lia]|].
  intros u s2 ->. apply twp_modify. split; cbn [set_memoff set_emem e_labels e_memoff e_mem e_imem].
  - rewrite W1. destruct a; cbn in *; try lia; by rewrite app_nil_r.
  - simpl. lia.
  - rewrite W3. simpl text_size. rewrite Nat.add_0_r. f_equal. lia.
  - unfold code_of. simpl. rewrite app_nil_r. by split.
Qed.

Lemma label_last l : last_char (l +:+ ":") = Some ":"%char.
Proof. apply last_char_snoc. Qed.

Lemma label_first l c x : is_label l = true -> first_is c (l +:+ x) = first_is c l.
Proof. intros [_ Hne]%label_clean. by destruct l. Qed.

Lemma label_firsts l : is_label l = true -> first_is "#" l = false /\ first_is "." l = false.
Proof.
  unfold is_label. intros Hl. wf_split. split; [|by apply negb_true_iff].
  destruct l as [|c l]; [done|]. cbn in *. wf_split. unfold label_char in *. wf_split.
  destruct (Ascii.eqb_spec c "#") as [->|]; done.
Qed.

(** The token of a label's definition. *)
Lemma label_token l : is_label l = true -> word blanks (l +:+ ":") = true.
Proof.
  intros [Hc Hne]%label_clean. apply clean_word; [|by destruct l].
  rewrite clean_app. rewrite (clean_sub seps blanks l); [done|apply seps_blanks|done].
Qed.

Lemma name_token n : is_name n = true ->
  word blanks n = true /\ first_is "#" n = false /\ first_is "." n = false
  /\ bool_decide (last_char n = Some ":"%char) = false.
Proof.
  unfold is_name. intros Hn. wf_split. split_and!; try by apply negb_true_iff.
  - apply clean_word; [done|]. by destruct n.
  - apply bool_decide_eq_false. by eapply bool_decide_eq_true.
Qed.

(** The first token of a line that [tolower] keeps. *)
Lemma line_first n line x t r s Q : is_line n x -> strtok blanks x = (t, r) ->
  twp (match t with
    | None => mret tt
    | Some t =>
        if first_is "#" t then mret tt
        else if first_is "." t then directive_line cfg line t
        else if bool_decide (last_char t = Some ":"%char) then label_line cfg line (chop t)
        else instr_line cfg line t
    end) Q (set_tok r s) ->
  twp (parse_line cfg line x) Q s.
Proof.
  intros Hx Et HQ. unfold parse_line. twp_step.
  eapply twp_lift; [by eapply line_text|]. twp_step. by eapply strtok_step.
Qed.

(** A definition of a label alone on its line. *)
Lemma label_line_ok l line n s :
  is_label l = true -> is_line n (l +:+ ":" +:+ nl) ->
  Z.of_nat (List.length (e_labels s)) < max_label_count cfg ->
  twp (parse_line cfg line (l +:+ ":" +:+ nl))
    (fun _ s' => s' = set_tok "" (add_label (LabelLoc l (e_memoff s)) s)) s.
Proof.
  intros Hl Hline Hmax. eapply line_first; [exact Hline| |].
  { replace (l +:+ ":" +:+ nl) with ((l +:+ ":") +:+ nl) by (by rewrite str_app_assoc).
    apply (strtok_word blanks (l +:+ ":") (char_of 10) ""); [by apply label_token|done]. }
  cbn beta iota. rewrite !label_first by done. destruct (label_firsts l Hl) as [-> ->].
  rewrite bool_decide_eq_true_2 by apply label_last.
  rewrite chop_snoc. unfold label_line.
  rewrite (proj2 (Z.leb_gt _ _)) by (pose proof (label_short l Hl); unfold strlen; lia).
  twp_step. apply twp_get. cbn [set_tok e_labels].
  rewrite (proj2 (Z.leb_gt _ _)) by done.
  twp_step. apply twp_modify. twp_step.
  eapply strtok_step; [done|]. rewrite label_copy by done. apply twp_ret. done.
Qed.

Lemma asm_line_ok a line k s :
  wf_asm a = true -> is_line 1023 (asm_line a) -> text_room k [a] s ->
  twp (parse_line cfg line (asm_line a)) (fun _ s' => text_done k [a] s s') s.
Proof.
  intros Hw Hline Hr. destruct (decide (asm_size a = 0%nat)) as [H0|H0].
  - destruct a as [l| | | | | | | | | | | | | |]; try done. cbn in Hw.
    unfold asm_line in *. cbn [words_of line_of] in *. rewrite str_app_assoc in *.
    destruct Hr as [Rm Ro Rl Rc Rn]. cbn in Rn.
    eapply twp_mono; [apply (label_line_ok l line 1023 s Hw Hline); lia|].
    intros u s' ->. split; cbn.
    + by rewrite Rm.
    + rewrite Rm. f_equal. lia.
    + change (e_mem s = splice (4 * k) [] (e_mem s)). by rewrite splice_nil.
    + apply code_at_nil.
  - destruct (wf_words a Hw) as (Hn & Hargs & Hl); [lia|].
    destruct (name_token _ Hn) as (Ht & H1 & H2 & H3).
    eapply line_first; [exact Hline| |].
    { unfold asm_line. rewrite (surjective_pairing (words_of a)). by apply strtok_name. }
    cbn beta iota. rewrite H1, H2, H3. eapply twp_mono.
    { apply (instr_line_ok a line k); [done|lia|done|]. destruct Hr as [R1 R2 R3 R4 R5]. by split. }
    intros u s' [T1 T2 T3 T4]. by split.
Qed.

(** * Lines of the data section *)

Definition vals_rest (vs : list Z) : string :=
  match vs with [] => "" | v :: vs' => dec v +:+ vals_text vs' end.

Lemma vals_text_rest vs : exists c, vals_text vs = String c (vals_rest vs) /\ one_of blanks c = true.
Proof. destruct vs as [|v vs]; [by exists (char_of 10)|by exists " "%char]. Qed.

Lemma length_vals vs : Forall (fun v => - 10 ^ 10 < v < 10 ^ 10) vs ->
  (List.length vs <= String.length (vals_rest vs))%nat.
Proof.
  induction 1 as [|v vs Hv Hvs IH]; [done|]. cbn [vals_rest List.length].
  destruct (vals_text_rest vs) as (c & -> & _). rewrite str_length_app. cbn [String.length].
  pose proof (dec_nonempty v Hv). destruct (dec v); [done|]. cbn [String.length]. lia.
Qed.

Definition val_fits (size v : Z) : Prop := - 2 ^ (8 * size - 1) <= v < 2 ^ (8 * size).

Lemma fits_bound size v : 0 < size <= 4 -> val_fits size v -> - 10 ^ 10 < v < 10 ^ 10.
Proof.
  intros Hs [H1 H2]. assert (2 ^ (8 * size) <= 2 ^ 32) by (apply Z.pow_le_mono_r; lia).
  assert (2 ^ (8 * size - 1) <= 2 ^ 32) by (apply Z.pow_le_mono_r; lia). lia.
Qed.

Lemma data_loop_ok size line vs fuel off s :
  0 < size <= 4 -> Forall (val_fits size) vs -> e_tok s = vals_rest vs ->
  (List.length vs < fuel)%nat -> 0 <= off ->
  off + size * Z.of_nat (List.length vs) <= getSize (e_mem s) ->
  twp (data_loop fuel line size off) (fun r s' =>
    r = off + size * Z.of_nat (List.length vs) /\
    s' = set_tok "" (set_emem
      (splice (Z.to_nat off) (concat (map (le_bytes (Z.to_nat size)) vs)) (e_mem s)) s)) s.
Proof.
  intros Hsz Hvs. revert fuel off s. induction Hvs as [|v vs Hv Hvs IH]; intros fuel off s Ht Hf Ho Hl;
    (destruct fuel as [|fuel]; [simpl in Hf; lia|]); cbn [data_loop vals_rest] in *.
  - twp_step. eapply strtok_step; [cbn; by rewrite Ht|]. apply twp_ret.
    split; [simpl; lia|]. cbn. rewrite splice_nil. by destruct s.
  - twp_step. destruct (vals_text_rest vs) as (c & Ec & Hc). rewrite Ec in Ht.
    assert (- 10 ^ 10 < v < 10 ^ 10) as Hb by (by eapply fits_bound).
    eapply strtok_step.
    { cbn. rewrite Ht. apply strtok_word; [|done]. apply clean_word; [|by apply dec_nonempty].
      apply (clean_sub marks blanks); [|apply clean_dec]. intros x Hx. by apply marks_seps, seps_blanks. }
    cbn beta iota. rewrite strtol_dec by auto. cbn [orb].
    assert (0 <? Z.shiftr v (size * 8) = false) as ->.
    { apply Z.ltb_ge. rewrite Z.shiftr_div_pow2 by lia. destruct Hv as [_ Hv].
      rewrite (Z.mul_comm size). pose proof (Z.pow_pos_nonneg 2 (8 * size)).
      assert (v / 2 ^ (8 * size) < 1) by (apply Z.div_lt_upper_bound; lia). lia. }
    cbn [andb]. twp_step. simpl List.length in *.
    set (bs := le_bytes (Z.to_nat size) v).
    assert (Z.of_nat (List.length bs) = size) as Hbs by (subst bs; rewrite length_le_bytes; lia).
    assert (List.length (splice (Z.to_nat off) bs (e_mem s)) = List.length (e_mem s)) as Hsl
      by (apply length_splice; unfold getSize in *; lia).
    apply poke_ok; [done|cbn; lia|].
    eapply twp_mono; [apply IH; cbn; [done|lia|lia|unfold getSize in *; rewrite Hsl; lia]|].
    intros r s' [-> ->]. split; [lia|]. cbn [set_tok set_emem e_mem map concat]. unfold set_tok, set_emem. cbn.
    f_equal. replace (Z.to_nat (off + size)) with (Z.to_nat off + List.length bs)%nat by lia.
    fold bs. apply splice_app.
    pose proof (length_vals_bytes size vs).
    unfold getSize in *. lia.
Qed.

(** The effect of a data section. *)
Record data_done (off : Z) (ds : list datum) (s s' : Emulator) : Prop := {
  dd_labels : e_labels s' = e_labels s ++ data_labels off ds;
  dd_memoff : e_memoff s' = off + data_size ds;
  dd_mem : e_mem s' = splice (Z.to_nat off) (data_bytes ds) (e_mem s);
  dd_imem : e_imem s' = e_imem s;
}.

Record data_room (off : Z) (ds : list datum) (s : Emulator) : Prop := {
  dr_memoff : e_memoff s = off;
  dr_offset : 0 <= off;
  dr_mem : off + data_size ds <= getSize (e_mem s);
  dr_labels : Z.of_nat (List.length (e_labels s) + List.length (data_labels off ds))
    <= max_label_count cfg;
}.

Lemma wf_vals size vs : wf_datum (DVals size vs) = true ->
  (size = 1 \/ size = 2 \/ size = 4) /\ Forall (val_fits size) vs.
Proof.
  cbn [wf_datum]. intros Hw. wf_split. split.
  - apply orb_prop in H0 as [[?%Z.eqb_eq|?%Z.eqb_eq]%orb_prop|?%Z.eqb_eq]; auto.
  - apply Forall_forall. intros v Hv%list_elem_of_In.
    apply (proj1 (forallb_forall _ _) H2) in Hv. wf_split. unfold val_fits. lia.
Qed.

(** A directive takes its values from the rest of the line. *)
Lemma directive_ok size line vs off s :
  wf_datum (DVals size vs) = true -> e_tok s = vals_rest vs -> 0 <= off ->
  off + size * Z.of_nat (List.length vs) <= getSize (e_mem s) ->
  twp (parse_assembler_directive cfg line (size_directive size) off) (fun r s' =>
    r = off + size * Z.of_nat (List.length vs) /\
    s' = set_tok "" (set_emem
      (splice (Z.to_nat off) (concat (map (le_bytes (Z.to_nat size)) vs)) (e_mem s)) s)) s.
Proof.
  intros Hw Ht Ho Hl. destruct (wf_vals size vs Hw) as [Hs Hvs].
  assert (twp (parse_data_element line size off) (fun r s' =>
    r = off + size * Z.of_nat (List.length vs) /\
    s' = set_tok "" (set_emem
      (splice (Z.to_nat off) (concat (map (le_bytes (Z.to_nat size)) vs)) (e_mem s)) s)) s) as Hd.
  { unfold parse_data_element. twp_step. apply twp_get. apply data_loop_ok; auto; [lia|].
    rewrite Ht. assert (List.length vs <= String.length (vals_rest vs))%nat; [|lia].
    apply length_vals. eapply Forall_impl; [exact Hvs|]. intros v. by apply fits_bound; lia. }
  unfold parse_assembler_directive.
  destruct Hs as [->|[->| ->]];
    repeat (twp_step; first [apply (twp_lift _ true); [reflexivity|]
      | apply (twp_lift _ false); [reflexivity|]]; cbn beta iota); exact Hd.
Qed.

Lemma directive_token size : size = 1 \/ size = 2 \/ size = 4 ->
  word blanks (size_directive size) = true /\ first_is "#" (size_directive size) = false
  /\ first_is "." (size_directive size) = true.
Proof. by intros [->|[->| ->]]. Qed.

Lemma datum_line_ok d line off s :
  wf_datum d = true -> is_line 1023 (datum_line d) -> data_room off [d] s ->
  twp (parse_line cfg line (datum_line d)) (fun _ s' => data_done off [d] s s') s.
Proof.
  intros Hw Hline [Rm Ro Rl Rn]. destruct d as [l|size vs]; cbn [datum_line] in *.
  - cbn in Rn. eapply twp_mono; [apply (label_line_ok l line 1023); [done..|lia]|].
    intros u s' ->. split; cbn; [by rewrite Rm|lia| |done]. by rewrite splice_nil.
  - destruct (wf_vals size vs Hw) as [Hs _].
    destruct (directive_token size Hs) as (Htok & H1 & H2).
    destruct (vals_text_rest vs) as (c & Ec & Hc).
    eapply line_first; [exact Hline|rewrite Ec; by apply strtok_word|].
    cbn beta iota. rewrite H1, H2. unfold directive_line. twp_step. apply twp_get.
    cbn [set_tok e_memoff]. rewrite Rm. cbn in Rl. twp_step. eapply twp_mono.
    { apply (directive_ok size line vs); [done|done|done|cbn; lia]. }
    intros r s' [-> ->]. apply twp_modify. split; cbn.
    + by rewrite app_nil_r.
    + lia.
    + unfold data_bytes. cbn. by rewrite app_nil_r.
    + done.
Qed.
End Pass.
