(* ===== verification/AsmLink.v ===== *)
(** Both passes of the assembler: sections, the resolution of labels, and the
    theorems about whole programs. *)
From Stdlib Require Import Ascii String.
From S2P Require Import Prelude Machine DataStruct Memory CString Emulator Asm Assembler AsmPass.
Local Open Scope string_scope.
Local Open Scope list_scope.
Local Open Scope Z_scope.

(** * Printed lines *)

Lemma line_char_plain x : clean seps x = true -> all_chars line_char x = true.
Proof.
  apply all_chars_impl. intros c [Hp Hs]%andb_prop. unfold line_char. rewrite Hp. simpl.
  apply negb_true_iff in Hs. apply negb_true_iff. destruct (Z.eqb_spec (code c) 10) as [E|]; [|done].
  assert (c = char_of 10) as ->; [|done].
  unfold char_of. change (Z.to_N 10) with (Z.to_N (10)). rewrite <- E. unfold code.
  rewrite N2Z.id. symmetry. apply ascii_N_embedding.
Qed.

Lemma good_clean x : good_arg x -> all_chars line_char x = true.
Proof.
  intros (Hw & _ & Hp). apply line_char_plain. unfold word in Hw.
  apply andb_prop in Hw as [Hw _]. clear - Hw Hp. unfold clean.
  induction x as [|c x IH]; [done|]. cbn [all_chars] in *. wf_split.
  rewrite H, H1. by apply IH.
Qed.

(** The text of the operands, without its newline. *)
Fixpoint args_body (args : list string) : string :=
  match args with [] => "" | [a] => a | a :: args' => a +:+ ", " +:+ args_body args' end.

Lemma args_text_body args : args_text args = args_body args +:+ nl.
Proof.
  induction args as [|a [|b args] IH]; [done|done|].
  change (a +:+ ", " +:+ args_text (b :: args) = (a +:+ ", " +:+ args_body (b :: args)) +:+ nl).
  by rewrite IH, !str_app_assoc.
Qed.

Lemma args_body_ok args : Forall good_arg args ->
  all_chars line_char (args_body args) = true
  /\ (String.length (args_body args) <= 34 * List.length args)%nat.
Proof.
  induction 1 as [|a args Ha Hargs IH]; [done|]. destruct IH as [IH1 IH2].
  pose proof (good_clean _ Ha) as Hc. destruct Ha as (_ & Hl & _).
  destruct args as [|b args]; cbn [args_body] in *; [split; [done|simpl; lia]|].
  rewrite !all_chars_app, !str_length_app, Hc. cbn [String.length List.length] in *.
  split; [|lia]. rewrite IH1. done.
Qed.

Lemma name_line_char n : is_name n = true ->
  all_chars line_char n = true /\ (String.length n <= 17)%nat.
Proof.
  unfold is_name. intros Hn. wf_split. split; [|by apply Nat.leb_le].
  assert (forall c, plain c && negb (one_of blanks c) = true -> line_char c = true) as Hi.
  { intros c [Hp Hs]%andb_prop. unfold line_char. rewrite Hp. simpl.
    apply negb_true_iff in Hs. apply negb_true_iff. destruct (Z.eqb_spec (code c) 10) as [E|]; [|done].
    assert (c = char_of 10) as ->; [|done]. unfold char_of. rewrite <- E. unfold code.
    rewrite N2Z.id. symmetry. apply ascii_N_embedding. }
  eapply all_chars_impl; [exact Hi|done].
Qed.

Lemma label_is_line l : is_label l = true -> is_line 1023 (l +:+ ":" +:+ nl).
Proof.
  intros Hl. exists (l +:+ ":"). rewrite str_app_assoc. split; [done|].
  destruct (label_clean l Hl) as [Hc _]. pose proof (label_short l Hl).
  rewrite all_chars_app, str_length_app, (line_char_plain l Hc). cbn [String.length].
  split; [done|]. unfold MAX_LABEL_LEN in *. lia.
Qed.

Lemma asm_is_line `{AsmTarget} a : wf_asm a = true -> is_line 1023 (asm_line a).
Proof.
  intros Hw. destruct (decide (asm_size a = 0%nat)) as [H0|H0].
  - destruct a; try done. unfold asm_line. cbn [words_of line_of]. rewrite str_app_assoc.
    by apply label_is_line.
  - destruct (wf_words a Hw) as (Hn & Hargs & Hl); [lia|].
    destruct (name_line_char _ Hn) as [Hnc Hnl]. destruct (args_body_ok _ Hargs) as [Hbc Hbl].
    unfold asm_line. destruct (words_of a) as [n args]. cbn [fst snd] in *.
    destruct args as [|x args]; [by exists n; split_and!; [|done|lia]|].
    exists (n +:+ " " +:+ args_body (x :: args)). cbn [line_of]. rewrite args_text_body.
    rewrite !str_app_assoc. split; [done|].
    rewrite !all_chars_app, !str_length_app, Hnc, Hbc. cbn [String.length]. split; [done|lia].
Qed.

Lemma vals_text_line vs : exists w, vals_text vs = w +:+ nl /\ all_chars line_char w = true.
Proof.
  induction vs as [|v vs (w & E & Hw)]; [by exists ""|].
  exists (" " +:+ dec v +:+ w). cbn [vals_text]. rewrite E, !str_app_assoc. split; [done|].
  rewrite !all_chars_app, Hw. rewrite (line_char_plain (dec v)); [done|].
  apply (clean_sub marks seps); [apply marks_seps|apply clean_dec].
Qed.

Lemma datum_is_line d : wf_datum d = true -> is_line 1023 (datum_line d).
Proof.
  destruct d as [l|size vs]; [by apply label_is_line|]. intros Hw.
  destruct (wf_vals size vs Hw) as [Hs _]. cbn [wf_datum] in Hw. wf_split.
  cbn [datum_line] in *. destruct (vals_text_line vs) as (w & E & Hc). rewrite E in *.
  exists (size_directive size +:+ w). rewrite str_app_assoc. split; [done|].
  rewrite all_chars_app, Hc. split; [by destruct Hs as [->|[->| ->]]|].
  unfold strlen in H0. rewrite !str_length_app in H0. rewrite str_length_app.
  change (String.length nl) with 1%nat in H0. apply Z.ltb_lt in H0. lia.
Qed.

Section Passes.
Context `{Framework} `{T : AsmTarget} (cfg : EmulatorConfig).

#[local] Abbreviation body := (fun x : Z * string => parse_line cfg x.1 x.2).

(** * Sections *)

Lemma text_room_head k a xs s : text_room cfg k (a :: xs) s -> text_room cfg k [a] s.
Proof.
  intros [R1 R2 R3 R4 R5]. simpl in *. split; simpl; rewrite ?Nat.add_0_r; try done; try lia.
  - intros j Hj. destruct (R4 j) as (i & Hi & Hb); [simpl in *; lia|]. exists i. split; [done|].
    eapply blank_sub, Hb. intros Hx. change (a :: xs) with ([a] ++ xs). by rewrite jumps_app, Hx.
  - rewrite app_nil_r. rewrite length_app in R5. lia.
Qed.

Lemma text_room_tail k a xs s s1 : text_room cfg k (a :: xs) s -> text_done k [a] s s1 ->
  text_room cfg (k + asm_size a) xs s1.
Proof.
  intros [R1 R2 R3 R4 R5] [T1 T2 T3 [T4 T5 T6]]. simpl in *.
  rewrite ?Nat.add_0_r, ?app_nil_r in *. split.
  - done.
  - rewrite <- Nat.add_assoc. done.
  - rewrite T3, length_splice by (rewrite length_fill; lia). lia.
  - intros j Hj. rewrite T6.
    { destruct (R4 j) as (i & Hi & Hb); [simpl in *; lia|]. exists i. split; [done|].
      eapply blank_sub, Hb. intros Hx. change (a :: xs) with ([a] ++ xs). by rewrite jumps_app, Hx, orb_true_r. }
    right. unfold code_of. simpl. rewrite app_nil_r, length_expand. lia.
  - rewrite T1. rewrite !length_app in *.
    replace (4 * Z.of_nat (k + asm_size a)) with (4 * Z.of_nat k + 4 * Z.of_nat (asm_size a)) by lia.
    lia.
Qed.

Lemma text_done_cons k a xs s s1 s2 : text_room cfg k (a :: xs) s ->
  text_done k [a] s s1 -> text_done (k + asm_size a) xs s1 s2 -> text_done k (a :: xs) s s2.
Proof.
  intros [R1 R2 R3 R4 R5] [T1 T2 T3 T4] [U1 U2 U3 U4]. simpl in *.
  rewrite ?Nat.add_0_r, ?app_nil_r in *. split; simpl.
  - rewrite U1, T1, <- app_assoc. do 2 f_equal. f_equal. lia.
  - rewrite U2. lia.
  - rewrite U3, T3, fill_add.
    rewrite <- splice_app by (rewrite !length_fill; lia).
    f_equal; [rewrite length_fill; lia|]. f_equal. lia.
  - change (code_of (a :: xs)) with (expand a ++ code_of xs).
    eapply code_at_app; [|by rewrite length_expand].
    unfold code_of in T4. simpl in T4. by rewrite app_nil_r in T4.
Qed.

Lemma text_done_nil k s : e_memoff s = 4 * Z.of_nat k -> text_done k [] s s.
Proof.
  intros Hm. split; simpl.
  - by rewrite app_nil_r.
  - by rewrite Nat.add_0_r.
  - by rewrite splice_nil.
  - apply code_at_nil.
Qed.

Lemma text_pass xs ps k s :
  Forall (fun a => wf_asm a = true) xs -> map snd ps = map asm_line xs -> text_room cfg k xs s ->
  twp (foreach ps body) (fun _ s' => text_done k xs s s') s.
Proof.
  intros Hw. revert ps k s. induction Hw as [|a xs Ha Hw IH]; intros [|[n x] ps] k s Hps Hr; try done.
  - apply twp_ret. apply text_done_nil. apply Hr.
  - injection Hps as -> Hps. simpl foreach. twp_step. eapply twp_mono.
    { apply (asm_line_ok cfg a n k); [done|by apply asm_is_line|by eapply text_room_head]. }
    intros u s1 H1. eapply twp_mono; [apply (IH ps (k + asm_size a)%nat); [done|]|].
    + by eapply text_room_tail.
    + intros v s2 H2. eapply text_done_cons; [exact Hr|exact H1|exact H2].
Qed.

Lemma data_pass ds ps off s :
  Forall (fun d => wf_datum d = true) ds -> map snd ps = map datum_line ds -> data_room cfg off ds s ->
  twp (foreach ps body) (fun _ s' => data_done off ds s s') s.
Proof.
  intros Hw. revert ps off s.
  induction Hw as [|d ds Hd Hw IH]; intros [|[n x] ps] off s Hps [R1 R2 R3 R4]; try done.
  - apply twp_ret. split; simpl; [by rewrite app_nil_r|lia|by rewrite splice_nil|done].
  - injection Hps as -> Hps. simpl foreach. simpl in R3, R4. rewrite length_app in R4.
    pose proof (length_datum d Hd) as Hsz.
    assert (0 <= data_size ds) as Hnn.
    { clear - Hw. induction Hw as [|d ds Hd _ IH]; [done|]. simpl.
      pose proof (length_datum d Hd). lia. }
    twp_step. eapply twp_mono.
    { apply (datum_line_ok cfg d n off); [done|by apply datum_is_line|]. split; [done|done| |].
      - simpl. lia.
      - simpl. rewrite app_nil_r. lia. }
    intros u s1 [D1 D2 D3 D4]. simpl in D1, D2. rewrite app_nil_r in D1. rewrite Z.add_0_r in D2.
    unfold data_bytes in D3. simpl in D3. rewrite app_nil_r in D3.
    eapply twp_mono; [apply (IH ps (off + datum_size d)); [done|]|].
    + split; [done|lia| |].
      * rewrite D3. unfold getSize in *. rewrite length_splice by lia. lia.
      * rewrite D1, length_app. lia.
    + assert (data_size ds = Z.of_nat (List.length (data_bytes ds))) as Hds.
      { clear - Hw. unfold data_bytes. induction Hw as [|d ds Hd _ IH]; [done|]. simpl.
        rewrite length_app. pose proof (length_datum d Hd). lia. }
      intros v s2 [E1 E2 E3 E4]. split; simpl.
      * by rewrite E1, D1, <- app_assoc.
      * rewrite E2. lia.
      * rewrite E3, D3.
        replace (Z.to_nat (off + datum_size d)) with (Z.to_nat off + List.length (datum_bytes d))%nat
          by lia.
        unfold getSize in *. apply splice_app. lia.
      * congruence.
Qed.

Lemma twp_foreach_app {S W A} (f : A -> M S W unit) xs ys (Q : unit -> S -> Prop) s :
  twp (foreach xs f) (fun _ s1 => twp (foreach ys f) Q s1) s -> twp (foreach (xs ++ ys) f) Q s.
Proof.
  revert s. induction xs as [|x xs IH]; intros s; simpl.
  - intros (u & s1 & E & H1). injection E as _ <-. done.
  - intros (u & s1 & E & H1). twp_step. apply M_bind_ok in E as ([] & s2 & w1 & w2 & E1 & E2 & Ew).
    symmetry in Ew. apply app_eq_nil in Ew as [-> ->]. exists tt, s2. split; [done|].
    apply IH. by exists u, s1.
Qed.

(** * The first pass *)

Lemma data_section line s :
  twp (parse_line cfg line (".data" +:+ nl))
    (fun _ s' => s' = set_memoff (data_offset cfg) (set_tok "" s)) s.
Proof.
  eapply (line_first cfg 1023); [|reflexivity|].
  { exists ".data". split_and!; [done|done|cbn; lia]. }
  cbn beta iota. change (first_is "#" ".data") with false. change (first_is "." ".data") with true.
  cbn beta iota. unfold directive_line. twp_step. apply twp_get. twp_step.
  unfold parse_assembler_directive. twp_step. apply (twp_lift _ false); [reflexivity|].
  twp_step. apply (twp_lift _ true); [reflexivity|]. apply twp_ret. by apply twp_modify.
Qed.

Lemma text_section line s :
  twp (parse_line cfg line (".text" +:+ nl))
    (fun _ s' => s' = set_memoff (text_offset cfg) (set_tok "" s)) s.
Proof.
  eapply (line_first cfg 1023); [|reflexivity|].
  { exists ".text". split_and!; [done|done|cbn; lia]. }
  cbn beta iota. change (first_is "#" ".text") with false. change (first_is "." ".text") with true.
  cbn beta iota. unfold directive_line. twp_step. apply twp_get. twp_step.
  unfold parse_assembler_directive. twp_step. apply (twp_lift _ true); [reflexivity|].
  twp_step. eapply strtok_step; [reflexivity|]. twp_step. eapply twp_lift; [reflexivity|].
  apply twp_ret. by apply twp_modify.
Qed.

(** What the first pass leaves. *)
Record pass1_done (m : mem) (imem : list instr) (p : program) (s' : Emulator) : Prop := {
  p1_labels : e_labels s' = label_table cfg p;
  p1_mem : e_mem s' = image cfg p m;
  p1_code : code_at (Z.to_nat (text_offset cfg / 4)) (code_of (p_text p)) imem (e_imem s');
}.

Lemma length_data ds : Forall (fun d => wf_datum d = true) ds ->
  Z.of_nat (List.length (data_bytes ds)) = data_size ds.
Proof.
  unfold data_bytes. induction 1 as [|d ds Hd _ IH]; [done|]. simpl.
  rewrite length_app. pose proof (length_datum d Hd). lia.
Qed.

Lemma first_pass m imem p :
  wf_program cfg p -> fits cfg m imem p -> Forall (ready (p_text p)) imem ->
  twp (parse cfg (Some (print_program p))) (fun _ s' => pass1_done m imem p s') (Emulator_new m imem).
Proof.
  intros [Wd Wt Wu Wl Wr] [Fo Ft Fd Fs Fi] Hclear. destruct Fo as [Fo0 Fo4].
  pose proof (length_data _ Wd) as Hld.
  set (k := Z.to_nat (text_offset cfg / 4)).
  assert (text_offset cfg = 4 * Z.of_nat k) as Hk.
  { subst k. pose proof (Z.div_mod (text_offset cfg) 4). pose proof (Z.div_pos (text_offset cfg) 4). lia. }
  unfold parse, parse_pieces, print_program.
  rewrite fgets_lines; [|].
  2:{ unfold program_lines. repeat apply Forall_app_2.
      - repeat constructor. exists ".data". split_and!; [done|done|cbn; lia].
      - apply Forall_map. eapply Forall_impl; [exact Wd|]. apply datum_is_line.
      - repeat constructor. exists ".text". split_and!; [done|done|cbn; lia].
      - apply Forall_map. eapply Forall_impl; [exact Wt|]. apply asm_is_line. }
  set (ps := imap _ (program_lines p)).
  assert (map snd ps = program_lines p) as Hps.
  { subst ps. pose proof (map_snd_imap (fun x : string => x) (fun n => Z.of_nat n + 1)
      (fun x : string => x) (program_lines p)) as Hm. rewrite map_id in Hm. exact Hm. }
  unfold program_lines in Hps. clearbody ps.
  apply map_eq_app in Hps as (p1 & p2 & -> & E1 & E2).
  apply map_eq_app in E2 as (p3 & p4 & -> & E3 & E4).
  apply map_eq_app in E4 as (p5 & p6 & -> & E5 & E6).
  destruct p1 as [|[n1 x1] [|]]; try done. destruct p5 as [|[n5 x5] [|]]; try done.
  injection E1 as ->. injection E5 as ->.
  apply twp_foreach_app. simpl foreach. twp_step.
  eapply twp_mono; [apply data_section|]. intros [] s1 ->. apply twp_ret.
  apply twp_foreach_app. eapply twp_mono.
  { apply (data_pass (p_data p) p3 (data_offset cfg)); [done|done|]. split; cbn; [done|lia|done|].
    unfold label_table in Wl. rewrite length_app in Wl. lia. }
  intros [] s2 [D1 D2 D3 D4]. cbn in D1, D3, D4.
  simpl foreach. twp_step. eapply twp_mono; [apply text_section|]. intros [] s3 ->.
  assert (List.length (e_mem s2) = List.length m) as Hlm.
  { rewrite D3. apply length_splice. unfold getSize in *. lia. }
  eapply twp_mono.
  { apply (text_pass (p_text p) p6 k); [done|done|]. split; cbn.
    - done.
    - lia.
    - unfold getSize in *. rewrite Hlm. lia.
    - intros j Hj. rewrite D4. destruct (lookup_lt_is_Some_2 imem j) as [i Hi].
      { assert (data_offset cfg / 4 >= Z.of_nat (k + text_size (p_text p))); [|lia].
        apply Z.le_ge, Z.div_le_lower_bound; lia. }
      exists i. split; [done|]. by eapply ready_blank, Forall_lookup_1.
    - rewrite D1. unfold label_table in Wl. rewrite length_app, Hk in Wl. lia. }
  intros u s' [T1 T2 T3 T4]. split.
  - cbn in T1. rewrite T1, D1, <- Hk. done.
  - cbn [set_memoff set_tok e_mem] in T3. rewrite T3, D3. unfold image. f_equal. lia.
  - cbn in T4. by rewrite D4 in T4.
Qed.
End Passes.
