(* ===== verification/AsmCorrect.v ===== *)
(** The second pass, and the correctness of the assembler. *)
From Stdlib Require Import Ascii String.
From S2P Require Import Prelude Machine DataStruct Memory CString.
From S2P Require Import Emulator Asm Assembler AsmPass AsmLink.
Local Open Scope string_scope.
Local Open Scope list_scope.
Local Open Scope Z_scope.

(** * What the code of a well-formed program may hold *)

Definition is_branch_op (op : instr_type) : bool := shape_is op ShBranch.

(** A register operand that can be printed. *)
Definition printable (s : soperand) : Prop := exists r, s = SReg r /\ is_reg r = true.

(** Where addresses occur in an instruction. *)
Definition placed (d : sinstr) : Prop :=
  s_op d <> UNIMPL
  /\ (forall part l, s_1 d <> SAddr part l)
  /\ (forall part l, s_2 d = SAddr part l ->
        (s_op d = LUI /\ part = hi20 /\ printable (s_1 d)) \/ (s_op d = JAL /\ part = id))
  /\ (forall part l, s_3 d = SAddr part l ->
        (s_op d = ADDI /\ part = lo12 /\ printable (s_1 d) /\ printable (s_2 d))
        \/ (is_branch_op (s_op d) = true /\ part = id)).

Lemma expand_placed `{AsmTarget} a d : wf_asm a = true -> d ∈ expand a -> placed d.
Proof.
  intros Hw Hd. destruct a; cbn [expand wf_asm] in *; wf_split;
    repeat match goal with
    | H : _ ∈ [] |- _ => by apply not_elem_of_nil in H
    | H : _ ∈ _ :: _ |- _ => apply elem_of_cons in H as [->|H]
    | H : shape_is _ _ = true |- _ =>
        assert (is_branch_op op = true \/ is_branch_op op = false) as [Hbr|Hbr]
          by (destruct (is_branch_op op); auto);
        apply shape_is_eq in H as [? ?]
    end;
    (split; [cbn; first [discriminate | intros ->; done]|]);
    (split; [done|]); cbn;
    (split; intros part x; [|]; intros [=]; subst);
    first [ left; by (split_and!; try (eexists; split; [reflexivity|done])); done
          | right; done
          | right; split; [|done]; unfold is_branch_op, shape_is in *; by case_match
          | idtac ].
Qed.

(** * Addresses *)

Lemma address_in tbl l a : address tbl l = Some a -> exists x, x ∈ tbl /\ l_loc x = a.
Proof.
  unfold address. intros (x & <- & Hx)%fmap_Some_1 || intros Hx.
  all: destruct (list_find _ tbl) as [[i y]|] eqn:E; [|done]; cbn in *; simplify_eq;
    apply list_find_Some in E as (Hy & _); exists y; split; [by eapply list_elem_of_lookup_2|done].
Qed.

Lemma label_addr_ok `{Framework} tbl l a line : address tbl l = Some a ->
  label_addr l tbl line = Ok (u32 a).
Proof.
  unfold address, label_addr. destruct (list_find _ tbl) as [[i y]|]; [|done]. by intros [= <-].
Qed.

(** All labels are below the end of the memory. *)
Lemma data_labels_range off ds lim : Forall (fun d => wf_datum d = true) ds -> 0 <= off ->
  off + data_size ds <= lim -> Forall (fun x => 0 <= l_loc x <= lim) (data_labels off ds).
Proof.
  intros Hw. revert off. induction Hw as [|d ds Hd Hw IH]; intros off Ho Hl; [by constructor|].
  simpl in *. pose proof (length_datum d Hd). pose proof (length_data ds Hw).
  apply Forall_app_2; [|apply IH; lia]. destruct d; repeat constructor; cbn; lia.
Qed.
Lemma text_labels_range off xs lim : 0 <= off -> off + 4 * Z.of_nat (text_size xs) <= lim ->
  Forall (fun x => 0 <= l_loc x <= lim) (text_labels off xs).
Proof.
  revert off. induction xs as [|a xs IH]; intros off Ho Hl; [by constructor|]. simpl in *.
  apply Forall_app_2; [|apply IH; lia]. destruct a; repeat constructor; cbn; lia.
Qed.

Lemma address_range `{AsmTarget} cfg m imem p l a : wf_program cfg p -> fits cfg m imem p ->
  address (label_table cfg p) l = Some a -> 0 <= a < 2 ^ 21.
Proof.
  intros [Wd Wt Wu Wl Wr] [[Fo _] Ft Fd Fs Fi] (x & Hx & <-)%address_in.
  pose proof (length_data _ Wd).
  assert (Forall (fun x => 0 <= l_loc x <= getSize m) (label_table cfg p)) as Hall.
  { unfold label_table. apply Forall_app_2.
    - apply data_labels_range; [done|lia|done].
    - apply text_labels_range; lia. }
  rewrite Forall_forall in Hall. specialize (Hall x Hx). lia.
Qed.

Lemma u32_small a : 0 <= a < 2 ^ 21 -> u32 a = a /\ s32 a = a.
Proof. intros Ha. split; [apply uint_id; unfold is_u; lia|apply sint_id; lia]. Qed.

Lemma distance_field pc v : 0 <= pc < 2 ^ 21 -> jump_field v -> distance pc v = Ok (Z.abs (pc - s32 v)).
Proof.
  unfold jump_field, distance. intros Hp Hv.
  by rewrite (proj2 (Z.ltb_lt _ (pc - _))), (proj2 (Z.ltb_lt (pc - _) _)) by lia.
Qed.

Lemma distance_ok pc a : 0 <= pc < 2 ^ 21 -> 0 <= a < 2 ^ 21 -> distance pc a = Ok (Z.abs (pc - a)).
Proof.
  intros Hp Ha. pose proof (proj2 (u32_small a Ha)) as E.
  rewrite distance_field; [by rewrite E|done|]. unfold jump_field. by rewrite E.
Qed.

(** * The second pass *)

Section Second.
Context `{Framework} `{T : AsmTarget} (cfg : EmulatorConfig) (tbl : list label_loc).

Definition resolvable (pc : Z) (d : sinstr) : Prop :=
  placed d /\ reaches tbl pc d
  /\ forall part l, s_2 d = SAddr part l \/ s_3 d = SAddr part l ->
       exists a, address tbl l = Some a /\ 0 <= a < 2 ^ 21.

(** Operands that hold what they should keep it. *)
Lemma sym_resolved s o : (forall part l, s <> SAddr part l) -> sym_operand s o -> operand_is tbl s o.
Proof. destruct s; cbn; try tauto. intros Hs. by destruct (Hs part l). Qed.

Lemma resolve_a2_ok k d ii i src t s (Q : unit -> Emulator -> Prop) :
  (k < List.length (e_imem s))%nat -> 4 * Z.of_nat k < 2 ^ 21 -> e_labels s = tbl ->
  resolvable (4 * Z.of_nat k) d -> sym_instr d ii ->
  i_a1 i = i_a1 ii -> i_a2 i = i_a2 ii -> i_a3 i = i_a3 ii -> i_op i = i_op ii ->
  (forall i' src', operand_is tbl (s_2 d) (i_a2 i') -> i_a1 i' = i_a1 ii -> i_a3 i' = i_a3 ii ->
    i_op i' = i_op ii -> Q tt (cell k i' src' t s)) ->
  twp (resolve_a2 cfg (Z.of_nat k) ii) Q (cell k i src t s).
Proof.
  intros Hk Hpc Ht ((_ & _ & P2 & _) & _ & Hl) (S0 & S1 & S2 & S3 & SJ) E1 E2 E3 E0 HQ.
  unfold resolve_a2. destruct (s_2 d) as [|r|v|part l] eqn:Es.
  1-3: rewrite bool_decide_eq_false_2 by (cbn in S2; tauto); apply twp_ret;
    apply HQ; [rewrite E2; apply sym_resolved; done|done..].
  cbn in S2. destruct S2 as [Hty Hlab]. rewrite bool_decide_eq_true_2 by done.
  cbn [when]. destruct (Hl part l) as (a & Ha & Har); [by left|].
  destruct (u32_small a Har) as [Hu _].
  twp_step. apply twp_get. twp_step. cbn [cell e_labels]. rewrite Ht, Hlab.
  eapply twp_lift; [by apply label_addr_ok|]. twp_step. apply cell_instr; [done|].
  destruct (P2 part l eq_refl) as [(Hop & -> & r & Hr & Hreg)|[Hop ->]]; rewrite S0, Hop.
  - twp_step. apply cell_instr; [done|]. twp_step. rewrite Hr in S1. cbn in S1.
    destruct (sprint_reg_ok r Hreg) as (x & Hx & Hxl).
    eapply twp_lift; [by rewrite (proj2 S1)|]. apply cell_source; [done|cbn; lia| |].
    { intros y [[= <-]|[[= <-]|[=]]]; [lia|].
      pose proof (length_sprint_imm (Z.shiftr (u32 a) 12)). lia. }
    intros i' src' (A0 & A1 & A2 & A3)%but_psrc_ops.
    apply HQ; [|by rewrite A1|by rewrite A3|by rewrite A0].
    rewrite A2. cbn. exists a. done.
  - twp_step. eapply twp_lift.
    { rewrite Z.mul_comm. apply distance_field; [lia|]. by apply SJ. }
    pose proof (SJ Hop) as Hf. unfold jump_field in Hf. rewrite (proj2 (Z.leb_gt _ _)) by lia. apply twp_ret.
    apply HQ; [|done..]. cbn. exists a. done.
Qed.

Lemma resolve_a3_ok k d ii i src t s (Q : unit -> Emulator -> Prop) :
  (k < List.length (e_imem s))%nat -> 4 * Z.of_nat k < 2 ^ 21 -> e_labels s = tbl ->
  resolvable (4 * Z.of_nat k) d -> sym_instr d ii ->
  operand_is tbl (s_2 d) (i_a2 i) -> i_a1 i = i_a1 ii -> i_a3 i = i_a3 ii -> i_op i = i_op ii ->
  (forall i' src', instr_is tbl d i' -> Q tt (cell k i' src' t s)) ->
  twp (resolve_a3 cfg (Z.of_nat k) ii) Q (cell k i src t s).
Proof.
  intros Hk Hpc Ht ((_ & P1 & _ & P3) & Hre & Hl) (S0 & S1 & S2 & S3 & SJ) R2 E1 E3 E0 HQ.
  assert (operand_is tbl (s_1 d) (i_a1 ii)) as R1 by (by apply sym_resolved).
  unfold resolve_a3. destruct (s_3 d) as [|r|v|part l] eqn:Es.
  1-3: rewrite bool_decide_eq_false_2 by (cbn in S3; tauto); apply twp_ret;
    apply HQ; split_and!; [congruence|by rewrite E1|done|];
    rewrite Es, E3; apply sym_resolved; done.
  cbn in S3. destruct S3 as [Hty Hlab]. rewrite bool_decide_eq_true_2 by done.
  cbn [when]. destruct (Hl part l) as (a & Ha & Har); [by right|].
  destruct (u32_small a Har) as [Hu _].
  twp_step. apply twp_get. twp_step. cbn [cell e_labels]. rewrite Ht, Hlab.
  eapply twp_lift; [by apply label_addr_ok|]. twp_step. apply cell_instr; [done|].
  destruct (P3 part l eq_refl) as [(Hop & -> & (r1 & Hr1 & Hg1) & r2 & Hr2 & Hg2)|[Hop ->]].
  - rewrite S0, Hop. twp_step. apply cell_instr; [done|].
    rewrite Hr1 in S1. rewrite Hr2 in S2. cbn in S1, S2.
    destruct (sprint_reg_ok r1 Hg1) as (x1 & Hx1 & Hl1).
    destruct (sprint_reg_ok r2 Hg2) as (x2 & Hx2 & Hl2).
    twp_step. eapply twp_lift; [by rewrite (proj2 S1)|].
    twp_step. eapply twp_lift; [by rewrite (proj2 S2)|].
    apply cell_source; [done|cbn; lia| |].
    { intros y [[= <-]|[[= <-]|[= <-]]]; [lia|lia|].
      pose proof (length_sprint_imm (Z.land (u32 a) (Z.shiftl 1 12 - 1))). lia. }
    intros i' src' (A0 & A1 & A2 & A3)%but_psrc_ops. apply HQ.
    split_and!; [rewrite A0; cbn; congruence|by rewrite A1; cbn; rewrite E1|by rewrite A2|].
    rewrite Es, A3. cbn. by exists a.
  - assert (Z.abs (4 * Z.of_nat k - a) < 2 ^ 13) as Hnear.
    { unfold reaches in Hre. rewrite Es in Hre. destruct Hre as [E|Hre]; [by rewrite E in Hop|by apply Hre]. }
    assert (twp (diff ← lift (distance (Z.of_nat k * 4) (u32 a));
                 when (2 ^ 13 <=? diff) (fail (Exited 3)) : M Emulator Empty_set unit) Q
              (cell k (on_a3 (typed_imm (u32 a)) i) src t s)) as Hbr.
    { twp_step. eapply twp_lift; [rewrite Hu, Z.mul_comm; apply distance_ok; lia|].
      rewrite (proj2 (Z.leb_gt _ _)) by lia. apply twp_ret. apply HQ.
      split_and!; [by rewrite <- S0|by cbn; rewrite E1|done|]. rewrite Es. cbn. by exists a. }
    rewrite S0. unfold is_branch_op, shape_is in Hop. by destruct (s_op d).
Qed.

Lemma normalize_code k d ii s :
  e_imem s !! k = Some ii -> 4 * Z.of_nat k < 2 ^ 21 -> e_labels s = tbl ->
  resolvable (4 * Z.of_nat k) d -> sym_instr d ii ->
  twp (normalize_one cfg k)
    (fun _ s' => exists i' src, s' = cell k i' src (e_tok s) s /\ instr_is tbl d i') s.
Proof.
  intros Hk Hpc Ht Hr Hd. pose proof (lookup_lt_Some _ _ _ Hk) as Hlt.
  destruct Hr as [(Hop & P1 & P2 & P3) Hr']. assert (resolvable (4 * Z.of_nat k) d) as Hr by done.
  unfold normalize_one. twp_step. apply twp_get. twp_step.
  eapply twp_lift; [by rewrite Hk|].
  destruct Hd as (S0 & S1 & S2 & S3 & SJ). rewrite bool_decide_eq_false_2 by congruence.
  assert (sym_instr d ii) as Hd by done.
  twp_step. unfold resolve_a1. rewrite bool_decide_eq_false_2.
  2:{ destruct (s_1 d) as [|r|v|part l] eqn:Es; cbn in S1; try tauto. by destruct (P1 part l). }
  apply twp_ret.
  match goal with |- twp ?m ?Q s =>
    enough (twp m Q (cell k ii (e_src s) (e_tok s) s)) as Hgo
      by (by rewrite <- (cell_self k ii s Hk) in Hgo)
  end. twp_step.
  apply (resolve_a2_ok k d); try done. intros i1 src1 R2 E1 E3 E0.
  apply (resolve_a3_ok k d); try done. intros i2 src2 Hi. by exists i2, src2.
Qed.

Lemma normalize_free k ii s : e_imem s !! k = Some ii -> i_op ii = UNIMPL ->
  twp (normalize_one cfg k) (fun _ s' => s' = s) s.
Proof.
  intros Hk Hop. unfold normalize_one. twp_step. apply twp_get. twp_step.
  eapply twp_lift; [by rewrite Hk|]. rewrite bool_decide_eq_true_2 by done. by apply twp_ret.
Qed.
End Second.

(** * Whole programs *)

Section Whole.
Context `{Framework} `{T : AsmTarget} (cfg : EmulatorConfig).

(** The instruction memory after the cells below [n] were visited. *)
Record linked (tbl : list label_loc) (k : nat) (ds : list sinstr) (n : nat)
    (s1 s : Emulator) : Prop := {
  lk_labels : e_labels s = e_labels s1;
  lk_mem : e_mem s = e_mem s1;
  lk_length : List.length (e_imem s) = List.length (e_imem s1);
  lk_cells : forall c d, ds !! c = Some d -> (k + c < n)%nat ->
    exists i, e_imem s !! (k + c)%nat = Some i /\ instr_is tbl d i;
  lk_others : forall j, (n <= j \/ j < k \/ k + List.length ds <= j)%nat ->
    e_imem s !! j = e_imem s1 !! j;
}.

Lemma linked_cell tbl k ds n d i src t s1 s :
  linked tbl k ds n s1 s -> (k <= n)%nat -> ds !! (n - k)%nat = Some d ->
  (n < List.length (e_imem s))%nat -> instr_is tbl d i ->
  linked tbl k ds (S n) s1 (cell n i src t s).
Proof.
  intros [L1 L2 L3 L4 L5] Hkn Hd Hn Hi. pose proof (lookup_lt_Some _ _ _ Hd).
  split; cbn; [done|done|by rewrite length_insert| |].
  - intros c d' Hc Hlt. destruct (decide (k + c = n)%nat) as [<-|Hne].
    + replace (k + c - k)%nat with c in Hd by lia. simplify_eq.
      exists i. by rewrite list_lookup_insert_eq.
    + rewrite list_lookup_insert_ne by done. apply L4; [done|lia].
  - intros j Hj. rewrite list_lookup_insert_ne by lia. apply L5. lia.
Qed.

Lemma linked_free tbl k ds n s1 s :
  linked tbl k ds n s1 s -> (n < k \/ k + List.length ds <= n)%nat ->
  linked tbl k ds (S n) s1 s.
Proof.
  intros [L1 L2 L3 L4 L5] Hn. split; try done.
  - intros c d Hc Hlt. pose proof (lookup_lt_Some _ _ _ Hc). apply L4; [done|lia].
  - intros j Hj. apply L5. lia.
Qed.

Lemma code_wf p d : Forall (fun a => wf_asm a = true) (p_text p) -> d ∈ code_of (p_text p) ->
  exists a, a ∈ p_text p /\ wf_asm a = true /\ d ∈ expand a.
Proof.
  unfold code_of. intros Hw Hd. apply list_elem_of_In, in_concat in Hd as (l & Hl & Hd).
  apply in_map_iff in Hl as (a & <- & Ha). rewrite <- list_elem_of_In in Ha. rewrite <- list_elem_of_In in Hd.
  exists a. split; [done|]. split; [|done]. by eapply Forall_forall in Hw.
Qed.

(** The addresses of an instruction are labels that its element uses. *)
Lemma expand_uses a d part l : d ∈ expand a -> s_2 d = SAddr part l \/ s_3 d = SAddr part l ->
  l ∈ uses a.
Proof.
  intros Hd Hl. destruct a; cbn [expand uses] in *;
    repeat match goal with
    | Hx : _ ∈ [] |- _ => by apply not_elem_of_nil in Hx
    | Hx : _ ∈ _ :: _ |- _ => apply elem_of_cons in Hx as [->|Hx]
    end; cbn in Hl; destruct Hl as [[=]|[=]]; subst; apply list_elem_of_here.
Qed.

Lemma code_resolvable m imem p c d :
  wf_program cfg p -> fits cfg m imem p -> code_of (p_text p) !! c = Some d ->
  resolvable (label_table cfg p) (text_offset cfg + 4 * Z.of_nat c) d.
Proof.
  intros Hp Hf Hc. pose proof (list_elem_of_lookup_2 _ _ _ Hc) as Hd.
  destruct (code_wf p d (wf_text _ _ Hp) Hd) as (a & Ha & Hw & He).
  split; [by eapply expand_placed|]. split; [by apply (wf_reach _ _ Hp)|].
  intros part l Hl. destruct (wf_uses _ _ Hp a l Ha) as [x Hx]; [by eapply expand_uses|].
  exists x. split; [done|]. by eapply address_range.
Qed.

Lemma second_pass m imem p s1 :
  wf_program cfg p -> fits cfg m imem p -> Forall (ready (p_text p)) imem -> pass1_done cfg m imem p s1 ->
  twp (normalize_labels cfg) (fun _ s' =>
    linked (label_table cfg p) (Z.to_nat (text_offset cfg / 4)) (code_of (p_text p))
      (List.length imem) s1 s') s1.
Proof.
  intros Hp Hf Hclear [Pl Pm [Cl Cc Co]]. pose proof Hf as [[Fo0 Fo4] Ft Fd Fs Fi].
  pose proof (length_data _ (wf_data _ _ Hp)) as Hld.
  set (k := Z.to_nat (text_offset cfg / 4)) in *. set (ds := code_of (p_text p)) in *.
  assert (text_offset cfg = 4 * Z.of_nat k) as Hk.
  { subst k. pose proof (Z.div_mod (text_offset cfg) 4). pose proof (Z.div_pos (text_offset cfg) 4). lia. }
  assert (Z.to_nat (Z.quot (data_offset cfg) 4) = List.length imem) as HN.
  { rewrite Z.quot_div_nonneg by lia. lia. }
  unfold normalize_labels. rewrite HN.
  set (P := fun (ys : list nat) (s : Emulator) =>
    linked (label_table cfg p) k ds (List.length ys) s1 s).
  eapply twp_mono; [apply (twp_foreach _ P s1 [])|].
  - split; try done. intros c d _ Hlt. cbn in Hlt. lia.
  - intros ys n s Hpre HP. unfold P in *. cbn [app] in Hpre. clear P.
    assert (n = List.length ys /\ (n < List.length imem)%nat) as [-> Hn].
    { destruct Hpre as [zs Hz]. assert (seq 0 (List.length imem) !! List.length ys = Some n) as Hlk.
      { rewrite Hz, <- app_assoc, lookup_app_r by lia. by rewrite Nat.sub_diag. }
      apply lookup_seq in Hlk. lia. }
    rewrite length_app, Nat.add_1_r. pose proof HP as [L1 L2 L3 L4 L5].
    set (n := List.length ys) in *.
    assert (4 * Z.of_nat n < 2 ^ 21) as Hlim.
    { pose proof (Z.mul_div_le (data_offset cfg) 4). lia. }
    destruct (decide (k <= n < k + List.length ds)%nat) as [Hin|Hout].
    + destruct (lookup_lt_is_Some_2 ds (n - k)) as [d Hd]; [lia|].
      destruct (Cc _ _ Hd) as (ii & Hii & Hsym).
      replace (k + (n - k))%nat with n in Hii by lia.
      assert (e_imem s !! n = Some ii) as Hsn by (rewrite L5; [done|lia]).
      eapply twp_mono.
      { apply (normalize_code cfg (label_table cfg p) n d ii); [done|done|congruence| |done].
        pose proof (code_resolvable m imem p (n - k) d Hp Hf Hd) as Hr. rewrite Hk in Hr.
        by replace (4 * Z.of_nat n) with (4 * Z.of_nat k + 4 * Z.of_nat (n - k)) by lia. }
      intros u s' (i' & src & -> & Hi'). eapply linked_cell; [done|lia|exact Hd| |exact Hi'].
      by eapply lookup_lt_Some.
    + assert (e_imem s !! n = imem !! n) as Hsn by (rewrite L5, Co; [done|lia|lia]).
      destruct (lookup_lt_is_Some_2 imem n Hn) as [ii Hii].
      eapply twp_mono.
      { apply (normalize_free cfg n ii); [congruence|].
        by destruct (Forall_lookup_1 _ _ _ _ Hclear Hii) as [[]]. }
      intros u s' ->. apply linked_free; [done|lia].
  - intros u s' HP. unfold P in HP. cbn [app] in HP. by rewrite length_seq in HP.
Qed.

(** What both passes leave. *)
Record assembled (m : mem) (imem : list instr) (p : program) (s' : Emulator) : Prop := {
  as_labels : e_labels s' = label_table cfg p;
  as_mem : e_mem s' = image cfg p m;
  as_length : List.length (e_imem s') = List.length imem;
  as_code : forall c d, code_of (p_text p) !! c = Some d ->
    exists i, e_imem s' !! (Z.to_nat (text_offset cfg / 4) + c)%nat = Some i
      /\ instr_is (label_table cfg p) d i;
  as_others : forall n, (n < Z.to_nat (text_offset cfg / 4)
      \/ Z.to_nat (text_offset cfg / 4) + text_size (p_text p) <= n)%nat ->
    e_imem s' !! n = imem !! n;
}.

Lemma assemble_ok m imem p :
  wf_program cfg p -> fits cfg m imem p -> Forall (ready (p_text p)) imem ->
  exists s', outcome (assemble cfg (Some (print_program p))) (Emulator_new m imem) = Ok (s', [])
    /\ assembled m imem p s'.
Proof.
  intros Hp Hf Hclear. apply twp_outcome. unfold assemble. twp_step.
  eapply twp_mono; [by apply first_pass|]. intros u s1 P1.
  eapply twp_mono; [by apply (second_pass m imem p s1)|]. intros v s' [L1 L2 L3 L4 L5].
  destruct P1 as [Pl Pm [Cl Cc Co]]. split; [congruence|congruence|congruence| |].
  - intros c d Hc. apply L4; [done|]. destruct (Cc c d Hc) as (i & Hi & _).
    rewrite <- Cl. by eapply lookup_lt_Some.
  - intros n Hn. rewrite <- length_code_of in Hn. rewrite L5 by lia. by apply Co.
Qed.

(** * Properties *)

(** C16. The assembler is the inverse of the printer: reading the text of a
    well-formed program that fits the memories never fails, leaves in the
    instruction memory, word by word, the instructions of the program with
    every label replaced by its address, forward references included, in the
    label table the address of every label, and in the data memory the values
    of the data section; all other cells are as they were. The instruction
    memory is as the processor's start leaves it; if the program has jumps, the
    field of its cells that the second pass tests for a jump and that nothing
    initialises holds a value in [jump_field]. *)
Theorem assemble_correct m imem p :
  wf_program cfg p -> fits cfg m imem p -> Forall (ready (p_text p)) imem ->
  exists s', outcome (assemble cfg (Some (print_program p))) (Emulator_new m imem) = Ok (s', [])
    /\ e_labels s' = label_table cfg p
    /\ e_mem s' = image cfg p m
    /\ (forall c d, code_of (p_text p) !! c = Some d ->
          exists i, e_imem s' !! (Z.to_nat (text_offset cfg / 4) + c)%nat = Some i
            /\ instr_is (label_table cfg p) d i)
    /\ (forall n, (n < Z.to_nat (text_offset cfg / 4)
                   \/ Z.to_nat (text_offset cfg / 4) + text_size (p_text p) <= n)%nat ->
          e_imem s' !! n = imem !! n).
Proof.
  intros Hp Hf Hclear. destruct (assemble_ok m imem p Hp Hf Hclear) as (s' & E & [A1 A2 A3 A4 A5]).
  by exists s'.
Qed.
End Whole.

(** * Witness *)

(** A program with both sections, forward and backward references and
    pseudo-instructions. *)
Definition w_program : program := Program
  [DLabel "data"; DVals 4 [1; -2; 300]; DVals 1 [7]]
  [ALabel "main"; ALa 5 "data"; AMem LW 6 4 5; ALi 7 (-5); ABeqz 6 "end";
   AImm ADDI 6 6 (-1); AJ "main"; ALabel "end"; ARegs ADD 8 6 7; AHcf].
Definition w_config : EmulatorConfig := EmuConfig 128 64 0 8 1024.
Definition w_operand : operand := Operand OPTYPE_NONE "" 0 0.
Definition w_cleared : instr := Instr UNIMPL w_operand w_operand w_operand None (-1) false.
Definition w_mem : mem := replicate 128 0.
Definition w_imem : list instr := replicate 16 w_cleared.

Lemma w_program_wf T : T = soc_assembler \/ T = riscv_assembler ->
  @wf_program T w_config w_program.
Proof.
  intros HT. assert (forallb (@wf_asm T) (p_text w_program) = true) as Ht.
  { by destruct HT as [->| ->]; vm_compute. }
  split.
  - repeat constructor.
  - apply Forall_forall. intros a Ha%list_elem_of_In. by apply (proj1 (forallb_forall _ _) Ht).
  - intros a l Ha Hl. cbn [w_program p_text] in Ha.
    repeat (apply elem_of_cons in Ha as [->|Ha];
      [cbn [uses] in Hl; first [ by apply not_elem_of_nil in Hl
        | apply list_elem_of_singleton in Hl as ->; by vm_compute; eexists ]|]).
    by apply not_elem_of_nil in Ha.
  - vm_compute. congruence.
  - intros k s Hk.
    do 10 (destruct k as [|k]; [injection Hk as <-; cbn; try exact I;
      first [by left | right; intros a; vm_compute; by intros [= <-]]|]).
    done.
Qed.

Lemma w_program_fits : fits w_config w_mem w_imem w_program.
Proof. by split; [split| | | |]; vm_compute. Qed.

Lemma w_imem_ready : Forall (ready (p_text w_program)) w_imem.
Proof. by apply Forall_replicate; repeat split. Qed.

Lemma assemble_correct_witness :
  (exists s', outcome (@assemble printing_framework soc_assembler w_config
      (Some (print_program w_program))) (Emulator_new w_mem w_imem) = Ok (s', [])
    /\ e_labels s' = [LabelLoc "data" 64; LabelLoc "main" 0; LabelLoc "end" 32]
    /\ take 13 (drop 64 (e_mem s')) = [1; 0; 0; 0; 254; 255; 255; 255; 44; 1; 0; 0; 7]
    /\ exists i, e_imem s' !! 5%nat = Some i /\ i_op i = BEQ /\ o_reg (i_a1 i) = 6
         /\ o_imm (i_a3 i) = 32)
  /\ exists s', outcome (@assemble printing_framework riscv_assembler w_config
      (Some (print_program w_program))) (Emulator_new w_mem w_imem) = Ok (s', []).
Proof.
  split.
  - destruct (@assemble_correct printing_framework soc_assembler w_config w_mem w_imem w_program
      (w_program_wf _ (or_introl eq_refl)) w_program_fits w_imem_ready)
      as (s' & E & Hl & Hm & Hc & _).
    exists s'. split; [exact E|]. split; [rewrite Hl; reflexivity|].
    split; [rewrite Hm; vm_compute; reflexivity|].
    destruct (Hc 5%nat (SInstr BEQ (SReg 6) (SReg 0) (SAddr id "end")) eq_refl)
      as (i & Hi & Ho & H1 & _ & a & Ha & H3).
    exists i. split; [exact Hi|]. split; [exact Ho|]. split; [exact H1|].
    rewrite H3. vm_compute in Ha. injection Ha as <-. reflexivity.
  - destruct (@assemble_correct printing_framework riscv_assembler w_config w_mem w_imem w_program
      (w_program_wf _ (or_intror eq_refl)) w_program_fits w_imem_ready) as (s' & E & _).
    exists s'. exact E.
Defined.
