(* ===== verification/AsmSource.v ===== *)
(** Programs as a machine sees them: the instructions that the text of a
    program ([Asm]) stands for, at their addresses, and what the assembler
    puts in their place, which means the same. *)
From Stdlib Require Import Ascii String.
From S2P Require Import Prelude Machine DataStruct Memory Isa Reference.
From S2P Require Import CString Emulator Asm Assembler AsmPass AsmLink AsmCorrect.
Local Open Scope string_scope.
Local Open Scope list_scope.
Local Open Scope Z_scope.

(** * Instructions that mean the same

    They agree in the operation and in the fields that it uses. *)

Record same_fields (i j : instr) : Prop := {
  sf_op : i_op i = i_op j;
  sf_rd : writes_rd (i_op j) = true -> o_reg (i_a1 i) = o_reg (i_a1 j);
  sf_src : sources i = sources j;
  sf_imm2 : uses_imm2 (i_op j) = true -> o_imm (i_a2 i) = o_imm (i_a2 j);
  sf_imm3 : uses_imm3 (i_op j) = true -> o_imm (i_a3 i) = o_imm (i_a3 j);
}.

(** The fields of two instructions with the same operation. *)
Ltac same_cases i j :=
  let Eo := fresh "Eo" in let Er := fresh "Er" in let Es := fresh "Es" in
  let E2 := fresh "E2" in let E3 := fresh "E3" in
  intros [Eo Er Es E2 E3]; unfold sources in *; rewrite ?Eo in *;
  destruct (i_op j); cbn in *;
  try (injection Es; clear Es; intros);
  repeat match goal with E : o_reg _ = o_reg _ |- _ => rewrite E; clear E end;
  rewrite ?Er, ?E2, ?E3 by done; done.

Lemma mstep_same i j rf pc m : same_fields i j -> rv32_mstep i rf pc m = rv32_mstep j rf pc m.
Proof. unfold rv32_mstep, rv32_step. same_cases i j. Qed.

Lemma conforms_same c i j rf : same_fields i j -> conforms c i rf = conforms c j rf.
Proof.
  intros Hs. pose proof Hs as [Eo _ Es _ _]. unfold conforms. rewrite Es. clear Es. revert Hs.
  same_cases i j.
Qed.

Lemma clean_same c i j : same_fields i j -> clean_after c i = clean_after c j.
Proof. unfold clean_after, is_nop. same_cases i j. Qed.

Lemma used_same i j : same_fields i j -> wf_used j -> wf_used i.
Proof.
  intros [Eo Er Es E2 E3] [W1 W2 W3 W4]. split; rewrite ?Eo, ?Es; try done; intros Hw.
  - rewrite Er by done. by apply W1.
  - rewrite E2 by done. by apply W3.
  - rewrite E3 by done. by apply W4.
Qed.

(** * Programs as the reference machine sees them *)

(** The instruction that an element of the text stands for, its label replaced
    by the address in the table. *)
Definition resolve (tbl : list label_loc) (o : soperand) : operand :=
  match o with
  | SNone => Operand OPTYPE_NONE "" 0 0
  | SReg r => Operand OPTYPE_REG "" r 0
  | SImm v => Operand OPTYPE_IMM "" 0 v
  | SAddr part l =>
      Operand OPTYPE_IMM "" 0 (match address tbl l with Some a => part (u32 a) | None => 0 end)
  end.

Definition source_instr (tbl : list label_loc) (d : sinstr) : instr :=
  Instr (s_op d) (resolve tbl (s_1 d)) (resolve tbl (s_2 d)) (resolve tbl (s_3 d)) None 0 false.

(** The text begins at [text_offset]. *)
Definition source_fetch (cfg : EmulatorConfig) (p : program) (pc : Z) : option instr :=
  if text_offset cfg <=? pc then
    source_instr (label_table cfg p) <$> code_of (p_text p) !! Z.to_nat ((pc - text_offset cfg) / 4)
  else None.

(** The start: registers zero, the program in a memory of zeros. *)
Definition source_start (cfg : EmulatorConfig) (p : program) : rv_state :=
  RvState (replicate 32 0) 0 (image cfg p (BaseMemory_new (Z.to_nat (memory_size cfg)))) true.

(** ** What the assembler writes means what the program says *)

(** An operand that is an immediate, or the part of an address. *)
Definition word_operand (o : soperand) : Prop :=
  match o with
  | SImm v => is_u 32 v
  | SAddr part _ => forall a, is_u 32 a -> is_u 32 (part a)
  | _ => False
  end.

(** The operands that an instruction uses are there. *)
Record typed (d : sinstr) : Prop := {
  ty_1 : writes_rd (s_op d) || is_branch (s_op d) || is_store (s_op d) = true -> printable (s_1 d);
  ty_2 : is_rr (s_op d) || is_simd (s_op d) || is_ri (s_op d) || is_load (s_op d)
         || bool_decide (s_op d = JALR) || is_branch (s_op d) || is_store (s_op d) = true ->
         printable (s_2 d);
  ty_3 : is_rr (s_op d) || is_simd (s_op d) = true -> printable (s_3 d);
  ty_imm2 : uses_imm2 (s_op d) = true -> word_operand (s_2 d);
  ty_imm3 : uses_imm3 (s_op d) = true -> word_operand (s_3 d);
}.

Lemma hi20_word a : is_u 32 a -> is_u 32 (hi20 a).
Proof.
  unfold is_u, hi20. intros Ha. rewrite Z.shiftr_div_pow2 by lia.
  split; [apply Z.div_pos; lia|]. pose proof (Z.div_le_upper_bound a (2 ^ 12) (2 ^ 32 - 1)). lia.
Qed.
Lemma lo12_word a : is_u 32 a -> is_u 32 (lo12 a).
Proof.
  unfold is_u, lo12. intros Ha. change 0xfff with (Z.ones 12). rewrite Z.land_ones by lia.
  pose proof (Z.mod_pos_bound a (2 ^ 12)). lia.
Qed.

Lemma expand_typed `{AsmTarget} a d : wf_asm a = true -> d ∈ expand a -> typed d.
Proof.
  intros Hw Hd.
  assert (U : forall z, is_u 32 (u32 z)) by (intros; by apply uint_range).
  destruct a; cbn [expand wf_asm] in *; wf_split;
    repeat match goal with
    | H : _ ∈ [] |- _ => by apply not_elem_of_nil in H
    | H : _ ∈ _ :: _ |- _ => apply elem_of_cons in H as [->|H]
    | H : shape_is _ _ = true |- _ => apply shape_is_eq in H as [? _]
    end;
    (split; cbn; intros Hk;
      first [ eexists; split; [reflexivity|done] | by apply U | by apply hi20_word | by apply lo12_word | done
            | intros ? ?; by apply hi20_word | intros ? ?; by apply lo12_word
            | exfalso; revert Hk; by destruct op ]).
Qed.


Lemma operand_reg tbl s o : printable s -> operand_is tbl s o -> o_reg o = o_reg (resolve tbl s).
Proof. by intros (r & -> & _). Qed.
Lemma operand_word tbl s o : word_operand s -> operand_is tbl s o -> o_imm o = o_imm (resolve tbl s).
Proof. destruct s as [| |v|part l]; try done. intros _ (a & Ha & ->). cbn. by rewrite Ha. Qed.
Lemma resolve_reg tbl s : printable s -> in_rf (o_reg (resolve tbl s)) = true.
Proof. by intros (r & -> & Hr). Qed.
Lemma resolve_word tbl s : word_operand s -> is_u 32 (o_imm (resolve tbl s)).
Proof.
  destruct s as [| |v|part l]; try done. intros Hp. cbn.
  destruct (address tbl l); [by apply Hp, uint_range|]. unfold is_u. lia.
Qed.

Lemma source_same tbl d i : typed d -> instr_is tbl d i -> same_fields i (source_instr tbl d).
Proof.
  intros [T1 T2 T3 U2 U3] (Eo & E1 & E2 & E3). split; cbn; [done|..].
  - intros Hk. apply operand_reg; [|done]. apply T1. by rewrite Hk.
  - unfold sources. cbn. rewrite Eo. destruct (is_rr (s_op d) || is_simd (s_op d)) eqn:Hrr.
    { by rewrite (operand_reg tbl (s_2 d) (i_a2 i)), (operand_reg tbl (s_3 d) (i_a3 i)) by auto. }
    cbn [orb] in T2. case_match eqn:H1.
    { rewrite (operand_reg tbl (s_2 d) (i_a2 i)); [done|by apply T2; rewrite ?H1|done]. }
    case_match eqn:H2; [|done].
    rewrite (operand_reg tbl (s_1 d) (i_a1 i)), (operand_reg tbl (s_2 d) (i_a2 i)); try done.
    + by apply T2; rewrite ?H1, ?H2.
    + by apply T1; rewrite <- orb_assoc, ?H2, orb_true_r.
  - intros Hk. by apply operand_word; [apply U2|].
  - intros Hk. by apply operand_word; [apply U3|].
Qed.

Lemma source_used tbl d : typed d -> wf_used (source_instr tbl d).
Proof.
  intros [T1 T2 T3 U2 U3]. split; cbn.
  - intros Hk. apply resolve_reg, T1. by rewrite Hk.
  - unfold sources. cbn. intros r. destruct (is_rr (s_op d) || is_simd (s_op d)) eqn:Hrr; [|case_match eqn:H1; [|case_match eqn:H2]];
      rewrite ?elem_of_cons, elem_of_nil; intuition subst; apply resolve_reg; auto.
    + apply T2. cbn [orb]. by rewrite H1.
    + by apply T1; rewrite <- orb_assoc, ?H2, orb_true_r.
    + apply T2. cbn [orb]. rewrite H1. exact H2.
  - intros Hk. by apply resolve_word, U2.
  - intros Hk. by apply resolve_word, U3.
Qed.

Section Assembled.
Context `{Framework} `{T : AsmTarget} (cfg : EmulatorConfig) (m : mem) (imem : list instr) (p : program).
Context (Hp : wf_program cfg p) (Hf : fits cfg m imem p).

Lemma code_typed c d : code_of (p_text p) !! c = Some d -> typed d.
Proof.
  intros Hc%list_elem_of_lookup_2.
  destruct (code_wf p d (wf_text _ _ Hp) Hc) as (a & _ & Hw & He). by eapply expand_typed.
Qed.

(** Where the reference finds an instruction, the processor finds what the
    assembler made of it. *)
Lemma source_fetched e pc j : assembled cfg m imem p e -> source_fetch cfg p pc = Some j ->
  exists i, fetch_imem (e_imem e) pc = Some i /\ same_fields i j.
Proof.
  intros A. unfold source_fetch. destruct (Z.leb_spec (text_offset cfg) pc) as [Hle|]; [|done].
  intros (d & Hd & ->)%fmap_Some. destruct (as_code _ _ _ _ _ A _ _ Hd) as (i & Hi & Hid).
  exists i. split; [|by eapply source_same; [eapply code_typed|]].
  rewrite <- Hi. unfold fetch_imem. f_equal.
  destruct (fit_text_offset _ _ _ _ Hf) as [H0 H4].
  pose proof (Z.div_mod (text_offset cfg) 4 ltac:(lia)) as Hdm. rewrite H4, Z.add_0_r in Hdm.
  set (k := text_offset cfg / 4) in *.
  replace pc with (pc - text_offset cfg + k * 4) at 1 by lia. rewrite Z.div_add by lia.
  assert (0 <= (pc - text_offset cfg) / 4) by (apply Z.div_pos; lia). lia.
Qed.

Lemma assembled_used e : Forall (ready (p_text p)) imem -> assembled cfg m imem p e -> Forall wf_used (e_imem e).
Proof.
  intros Hcl A. apply Forall_lookup_2. intros n i Hi.
  set (k := Z.to_nat (text_offset cfg / 4)) in *.
  destruct (decide (n < k \/ k + text_size (p_text p) <= n)%nat) as [Hout|Hin].
  - rewrite (as_others _ _ _ _ _ A) in Hi by done.
    destruct (Forall_lookup_1 _ _ _ _ Hcl Hi) as ((Eo & _) & _).
    split; unfold sources; rewrite Eo; try done. by intros r Hr%elem_of_nil.
  - destruct (lookup_lt_is_Some_2 (code_of (p_text p)) (n - k)) as [d Hd].
    { rewrite length_code_of. lia. }
    destruct (as_code _ _ _ _ _ A _ _ Hd) as (i' & Hi' & Hid). fold k in Hi'.
    replace (k + (n - k))%nat with n in Hi' by lia. simplify_eq.
    pose proof (code_typed _ _ Hd) as Hty.
    eapply used_same; [by eapply source_same|by apply source_used].
Qed.

Lemma image_wf : wf_mem m -> wf_mem (image cfg p m).
Proof.
  intros Hm. unfold image, wf_mem, data_bytes. repeat apply Forall_splice; try done.
  - apply Forall_concat, Forall_replicate, le_bytes_range.
  - apply Forall_concat, Forall_map, Forall_true. intros [l|size vs]; cbn; [constructor|].
    apply Forall_concat, Forall_map, Forall_true. intros v. apply le_bytes_range.
Qed.
End Assembled.
