(* ===== verification/AsmRun.v ===== *)
(** Assembled programs on the processor: the constants that [li] and [la]
    load when [CPU::execOneInstr] runs what the assembler wrote. *)
From Stdlib Require Import Ascii String.
From S2P Require Import Prelude Machine DataStruct Memory Bus Isa Cpu.
From S2P Require Import CString Emulator Asm Assembler AsmPass AsmLink AsmCorrect.
Local Open Scope string_scope.
Local Open Scope list_scope.
Local Open Scope Z_scope.

(** * The two halves of a constant *)

Lemma hi_lo x : is_u 32 x -> add32 (u32 (Z.shiftl (hi20 x) 12)) (lo12 x) = x.
Proof.
  intros Hx. unfold is_u in Hx. unfold hi20, lo12, add32.
  change 0xfff with (Z.ones 12). rewrite Z.land_ones by lia.
  rewrite Z.shiftl_mul_pow2, Z.shiftr_div_pow2 by lia.
  pose proof (Z.div_mod x (2 ^ 12) ltac:(lia)) as Hd.
  pose proof (Z.mod_pos_bound x (2 ^ 12) ltac:(lia)).
  rewrite (uint_id 32 (x / 2 ^ 12 * 2 ^ 12)) by (unfold is_u; lia).
  rewrite uint_id by (unfold is_u; lia). lia.
Qed.

Section Run.
Context `{Framework} `{PR : PipeRegister} `{T : AsmTarget} (cfg : EmulatorConfig).

(** The register and the constant of a loading pseudo-instruction. *)
Definition loads (tbl : list label_loc) (a : asm) : option (Z * Z) :=
  match a with
  | ALi rd v => Some (rd, u32 v)
  | ALa rd l => (fun x => (rd, u32 x)) <$> address tbl l
  | _ => None
  end.

(** The state after two instructions that write [rd] last. *)
Definition loaded (rd x : Z) (s : CPU) : CPU :=
  MkCPU (<[Z.to_nat rd := x]> (c_rf s)) (add32 (c_pc s) 8) (c_inst_cnt s + 2) (c_imem s)
    (c_queue s) (c_reg s) (c_ctr s).

Lemma execOneInstr_at now s i k :
  c_pc s = 4 * Z.of_nat k -> c_imem s !! k = Some i ->
  outcome (execOneInstr now) s = outcome (processInstr now i) s.
Proof.
  intros Hpc Hi. assert (fetchInstr (c_pc s) s = Ok i) as Hf.
  { unfold fetchInstr. rewrite Hpc, Z.mul_comm, Z.div_mul by lia. by rewrite Nat2Z.id, Hi. }
  unfold execOneInstr, outcome. erewrite M_bind_silent by reflexivity.
  by erewrite M_bind_silent by (unfold lift; rewrite Hf; reflexivity).
Qed.

(** The pair [lui], [addi] on the processor. *)
Lemma lui_addi_run t1 t2 s k rd x i1 i2 :
  is_u 32 x -> wf_rf (c_rf s) -> in_rf rd = true -> c_inst_cnt s < 2 ^ 31 - 2 ->
  c_pc s = 4 * Z.of_nat k -> 4 * Z.of_nat k + 8 < 2 ^ 32 ->
  c_imem s !! k = Some i1 -> c_imem s !! S k = Some i2 ->
  i_op i1 = LUI -> o_reg (i_a1 i1) = rd -> o_imm (i_a2 i1) = hi20 x ->
  i_op i2 = ADDI -> o_reg (i_a1 i2) = rd -> o_reg (i_a2 i2) = rd -> o_imm (i_a3 i2) = lo12 x ->
  run_all [execOneInstr t1; execOneInstr t2] s =
  Ok (loaded rd x s, [ExecOneInstrEvent (t1 + 1) (c_inst_cnt s + 1);
                      ExecOneInstrEvent (t2 + 1) (c_inst_cnt s + 2)]).
Proof.
  intros Hx [Hlen Hrf] Hrd Hcnt Hpc Hlim H1 H2 O1 R1 I1 O2 R21 R22 I2.
  set (y := u32 (Z.shiftl (hi20 x) 12)).
  assert (forall v l, List.length l = 32%nat ->
    rf_set rd v l = Ok (<[Z.to_nat rd := v]> l)) as Hset by (intros; unfold rf_set; by rewrite Hrd).
  assert (add32 (c_pc s) 4 = 4 * Z.of_nat (S k)) as Hpc4
    by (unfold add32; rewrite uint_id; [lia|unfold is_u; lia]).
  rewrite run_all_cons, (execOneInstr_at t1 s i1 k) by done.
  pose proof (processInstr_link t1 i1 s (<[Z.to_nat rd := y]> (c_rf s))) as E1.
  rewrite O1, R1, I1 in E1. cbv zeta in E1. rewrite E1; [|lia|by apply Hset]. clear E1.
  set (s1 := retire _ _ s). rewrite run_all_cons.
  rewrite (execOneInstr_at t2 s1 i2 (S k)) by done.
  assert (rf_get rd (c_rf s1) = Ok y) as Hget.
  { unfold rf_get. rewrite Hrd. cbn. unfold in_rf in Hrd.
    rewrite list_lookup_insert_eq by lia. done. }
  pose proof (processInstr_ri t2 i2 s1 y x (<[Z.to_nat rd := x]> (c_rf s1))) as E2.
  rewrite O2, R21, R22, I2 in E2. rewrite E2; [|done|cbn; lia|done| |].
  - assert (retire (<[Z.to_nat rd := x]> (c_rf s1)) (add32 (c_pc s1) 4) s1 = loaded rd x s) as ->.
    { subst s1. unfold loaded, retire. cbn. f_equal; [by rewrite list_insert_insert_eq| |lia].
      rewrite Hpc4. unfold add32. f_equal. lia. }
    cbn. do 5 f_equal. lia.
  - cbn. f_equal. by apply hi_lo.
  - apply Hset. cbn. by rewrite length_insert.
Qed.

(** Where an element of the program is. *)
Lemma code_of_at pre a post j : (j < List.length (expand a))%nat ->
  code_of (pre ++ a :: post) !! (text_size pre + j)%nat = expand a !! j.
Proof.
  intros Hj. unfold code_of. rewrite map_app, concat_app. simpl.
  pose proof (length_code_of pre) as Hl. unfold code_of in Hl.
  rewrite lookup_app_r by lia. rewrite Hl.
  replace (text_size pre + j - text_size pre)%nat with j by lia.
  by apply lookup_app_l.
Qed.

(** * Properties *)

(** C17. What the assembler makes of [li] and [la] does on the processor what
    they mean: for a well-formed program, after assembly, a processor that
    holds the instruction memory and has reached the element executes two
    instructions, after which the register holds exactly the constant, or the
    address of the label, for every 32-bit value, and nothing else changed.
    The instruction memory before assembly is [Asm.ready]. *)
Theorem pseudo_load_runs m imem p pre a post rd x s' t1 t2 (s : CPU) :
  wf_program cfg p -> fits cfg m imem p -> Forall (ready (p_text p)) imem ->
  outcome (assemble cfg (Some (print_program p))) (Emulator_new m imem) = Ok (s', []) ->
  p_text p = pre ++ a :: post -> loads (label_table cfg p) a = Some (rd, x) ->
  c_imem s = e_imem s' -> c_pc s = text_offset cfg + 4 * Z.of_nat (text_size pre) ->
  wf_rf (c_rf s) -> c_inst_cnt s < 2 ^ 31 - 2 ->
  run_all [execOneInstr t1; execOneInstr t2] s =
  Ok (loaded rd x s, [ExecOneInstrEvent (t1 + 1) (c_inst_cnt s + 1);
                      ExecOneInstrEvent (t2 + 1) (c_inst_cnt s + 2)]).
Proof.
  intros Hp Hf Hclear Hrun Htext Hload Him Hpc Hrf Hcnt.
  destruct (assemble_ok cfg m imem p Hp Hf Hclear) as (s1 & E & [Al Am Alen Ac Ao]).
  rewrite E in Hrun. injection Hrun as ->.
  pose proof Hf as [[Fo0 Fo4] Ft Fd Fs Fi]. pose proof (length_data _ (wf_data _ _ Hp)).
  assert (text_offset cfg = 4 * Z.of_nat (Z.to_nat (text_offset cfg / 4))) as Hk.
  { pose proof (Z.div_mod (text_offset cfg) 4). pose proof (Z.div_pos (text_offset cfg) 4). lia. }
  set (k := Z.to_nat (text_offset cfg / 4)) in *.
  assert (wf_asm a = true) as Hwa.
  { apply (proj1 (Forall_forall _ _) (wf_text _ _ Hp)). rewrite Htext.
    apply elem_of_app. right. apply list_elem_of_here. }
  assert (text_size (p_text p) >= text_size pre + asm_size a)%nat as Hsz.
  { rewrite <- !length_code_of, Htext. unfold code_of. rewrite map_app, concat_app. simpl.
    rewrite !length_app, length_expand. lia. }
  assert (is_reg rd = true /\ is_u 32 x /\ exists o2 o3,
    expand a = [SInstr LUI (SReg rd) o2 SNone; SInstr ADDI (SReg rd) (SReg rd) o3]
    /\ forall i1 i2, operand_is (label_table cfg p) o2 (i_a2 i1) ->
         operand_is (label_table cfg p) o3 (i_a3 i2) ->
         o_imm (i_a2 i1) = hi20 x /\ o_imm (i_a3 i2) = lo12 x) as (Hrd & Hx & o2 & o3 & Hexp & Hops).
  { destruct a; cbn in Hload; try done; cbn in Hwa; wf_split.
    - injection Hload as <- <-. split; [done|]. split; [by apply uint_range|].
      by do 2 eexists.
    - apply fmap_Some in Hload as (y & Hy & [= <- ->]). split; [done|].
      split; [by apply uint_range|]. do 2 eexists. split; [reflexivity|].
      intros i1 i2 (b1 & Hb1 & ->) (b2 & Hb2 & ->). by simplify_eq. }
  pose proof (code_of_at pre a post 0) as C0. pose proof (code_of_at pre a post 1) as C1.
  rewrite <- Htext, Hexp in C0, C1. cbn in C0, C1.
  destruct (Ac _ _ (C0 ltac:(lia))) as (i1 & L1 & O1 & R1 & I1 & _).
  destruct (Ac _ _ (C1 ltac:(lia))) as (i2 & L2 & O2 & R21 & R22 & I2).
  destruct (Hops i1 i2 I1 I2) as [V1 V2]. cbn in R1, R21, R22.
  assert (asm_size a = 2%nat) as Ha2 by (rewrite <- length_expand, Hexp; done).
  apply (lui_addi_run t1 t2 s (k + text_size pre)%nat rd x i1 i2); try done.
  - rewrite Hpc. lia.
  - lia.
  - rewrite Him, <- L1. f_equal. lia.
  - rewrite Him, <- L2. f_equal. lia.
Qed.
End Run.

(** * Witness *)

(** The [la] and the [li] of the program, run on a processor. *)
Definition w_state (pc : Z) (l : list instr) : @CPU SlotRegister :=
  @MkCPU SlotRegister (replicate 32 0) pc 0 l [] empty_slot 0.

Lemma pseudo_load_runs_witness :
  exists s', outcome (@assemble printing_framework soc_assembler w_config (Some (print_program w_program)))
      (Emulator_new w_mem w_imem) = Ok (s', [])
    /\ run_all [execOneInstr 1; execOneInstr 2] (w_state 12 (e_imem s')) =
       Ok (loaded 7 (2 ^ 32 - 5) (w_state 12 (e_imem s')),
           [ExecOneInstrEvent 2 1; ExecOneInstrEvent 3 2]).
Proof.
  destruct (@assemble_ok printing_framework soc_assembler w_config w_mem w_imem w_program
    (w_program_wf _ (or_introl eq_refl)) w_program_fits w_imem_ready) as (s' & E & _).
  exists s'. split; [exact E|].
  apply (@pseudo_load_runs printing_framework SlotRegister soc_assembler w_config w_mem w_imem w_program
    [ALabel "main"; ALa 5 "data"; AMem LW 6 4 5] (ALi 7 (-5))
    [ABeqz 6 "end"; AImm ADDI 6 6 (-1); AJ "main"; ALabel "end"; ARegs ADD 8 6 7; AHcf]
    7 (2 ^ 32 - 5) s' 1 2 (w_state 12 (e_imem s'))).
  - exact (w_program_wf _ (or_introl eq_refl)).
  - exact w_program_fits.
  - exact w_imem_ready.
  - exact E.
  - reflexivity.
  - reflexivity.
  - reflexivity.
  - reflexivity.
  - split; [reflexivity|]. apply Forall_replicate. unfold is_u. lia.
  - vm_compute. reflexivity.
Defined.
