(* ===== verification/AsmErrors.v ===== *)
(** The assembler on any input: it always ends, what it refuses, and what it
    accepts that it should not. *)
From Stdlib Require Import Ascii String.
From S2P Require Import Prelude Machine DataStruct Memory Bus Isa Cpu.
From S2P Require Import CString Emulator Asm Assembler AsmPass AsmLink AsmCorrect.
Local Open Scope string_scope.
Local Open Scope list_scope.
Local Open Scope Z_scope.

(** * Termination

    The only loop that is not over a list runs over the tokens of a data
    directive: its fuel is never used up. *)

Definition out_of_fuel : fault := Undefined "fuel".

(** The computation does not stop for lack of fuel. *)
Definition fueled {S W A} (m : M S W A) (s : S) : Prop := m s <> Err out_of_fuel.

Section Fueled.
Context {S W : Type}.
Implicit Types s : S.

Lemma fueled_bind {A B} (m : M S W A) (k : A -> M S W B) s :
  fueled m s -> (forall a s1 w1, m s = Ok (a, s1, w1) -> fueled (k a) s1) -> fueled (m ≫= k) s.
Proof.
  unfold fueled, mbind, M_bind. intros Hm Hk. destruct (m s) as [[[a s1] w1]|f] eqn:E.
  - specialize (Hk a s1 w1 eq_refl). destruct (k a s1) as [[[b s2] w2]|f]; [done|].
    intros [=]. subst. done.
  - intros [=]. by subst.
Qed.
Lemma fueled_ret {A} (a : A) s : fueled (mret a : M S W A) s.
Proof. done. Qed.
Lemma fueled_get s : fueled (get : M S W S) s.
Proof. done. Qed.
Lemma fueled_put s s' : fueled (put s' : M S W unit) s.
Proof. done. Qed.
Lemma fueled_modify f s : fueled (modify f : M S W unit) s.
Proof. done. Qed.
Lemma fueled_fail {A} f s : f <> out_of_fuel -> fueled (fail f : M S W A) s.
Proof. intros Hf [=]. done. Qed.
Lemma fueled_lift {A} (r : result A) s : r <> Err out_of_fuel -> fueled (lift r : M S W A) s.
Proof. unfold fueled, lift. destruct r; [done|]. by intros Hr [= ->]. Qed.
Lemma fueled_when b (m : M S W unit) s : fueled m s -> fueled (when b m) s.
Proof. by destruct b. Qed.
Lemma fueled_foreach {A} (xs : list A) (f : A -> M S W unit) s :
  (forall x s, fueled (f x) s) -> fueled (foreach xs f) s.
Proof.
  intros Hf. revert s. induction xs as [|x xs IH]; intros s; simpl; [done|].
  apply fueled_bind; [apply Hf|]. intros a s1 w1 _. apply IH.
Qed.
End Fueled.

Lemma result_bind_fuel {A B} (r : result A) (k : A -> result B) :
  r <> Err out_of_fuel -> (forall a, k a <> Err out_of_fuel) -> (r ≫= k) <> Err out_of_fuel.
Proof. destruct r; simpl; [auto|]. by intros Hr _ [= ->]. Qed.

(** Walk through a computation; what is left are its calls. *)
Ltac fueled_step :=
  match goal with
  | |- fueled (_ ≫= _) _ => apply fueled_bind; [|intros ? ? ? _]
  | |- fueled (mret _) _ => apply fueled_ret
  | |- fueled get _ => apply fueled_get
  | |- fueled (put _) _ => apply fueled_put
  | |- fueled (modify _) _ => apply fueled_modify
  | |- fueled (fail _) _ => apply fueled_fail; discriminate
  | |- fueled (when _ _) _ => apply fueled_when
  | |- fueled (foreach _ _) _ => apply fueled_foreach; intros ? ?
  | |- fueled (let '(_, _) := ?e in _) _ => destruct e
  | |- fueled (if ?b then _ else _) _ => destruct b
  | |- fueled (match ?e with _ => _ end) _ => destruct e
  end; cbn beta iota.
Ltac fueled_steps := repeat fueled_step; auto with fuel.

Create HintDb fuel.

Lemma skip_length p s : (String.length (skip p s) <= String.length s)%nat.
Proof. induction s as [|c s IH]; simpl; [done|]. case_match; simpl; lia. Qed.

Lemma split_length p s t r : split_at p s = (t, r) -> (String.length r <= String.length s)%nat.
Proof.
  revert t r. induction s as [|c s IH]; intros t r; simpl; [by intros [= <- <-]|].
  destruct (p c); [intros [= <- <-]; lia|].
  destruct (split_at p s) as [t' r'] eqn:E. intros [= <- <-]. specialize (IH _ _ eq_refl). lia.
Qed.

(** A token uses up at least one character. *)
Lemma strtok_length d s t r : strtok d s = (Some t, r) -> (String.length r < String.length s)%nat.
Proof.
  unfold strtok. pose proof (skip_length (one_of d) s) as Hs.
  destruct (skip (one_of d) s) as [|c s'] eqn:E; [done|].
  assert (one_of d c = false) as Hc.
  { clear Hs. revert E. induction s as [|x s IH]; simpl; [done|].
    destruct (one_of d x) eqn:Ex; [done|]. by intros [= <- <-]. }
  cbn [split_at]. rewrite Hc. destruct (split_at (one_of d) s') as [t' r'] eqn:E'.
  intros [= <- <-]. apply split_length in E'. simpl in Hs. lia.
Qed.

Section Termination.
Context `{Framework} `{T : AsmTarget} (cfg : EmulatorConfig).

Lemma log_error_fuel msg : log_error msg <> Err out_of_fuel.
Proof. unfold log_error. by case_match. Qed.
Lemma token_fuel t : token t <> Err out_of_fuel.
Proof. by destruct t. Qed.
Lemma atoi_fuel t : atoi t <> Err out_of_fuel.
Proof. unfold atoi. destruct (strtol 10 t). by case_match. Qed.
Lemma memcmp_fuel a b : memcmp_is a b <> Err out_of_fuel.
Proof. unfold memcmp_is. by repeat case_match. Qed.

Lemma parse_reg_fuel t line b : parse_reg t line b <> Err out_of_fuel.
Proof.
  unfold parse_reg. apply result_bind_fuel; [apply token_fuel|]. intros x.
  assert (forall y : Z, ((if b then print_syntax_error line "Malformed register name" else Ok tt)
    ≫= fun _ => Ok y) <> Err out_of_fuel) as Hm.
  { intros y. apply result_bind_fuel; [destruct b; [apply log_error_fuel|done]|done]. }
  repeat case_match; subst; try (by apply Hm); try done;
    (apply result_bind_fuel; [apply atoi_fuel|]; intros ri; case_match; [apply Hm|done]).
Qed.

Lemma parse_imm_fuel t bits line b : parse_imm t bits line b <> Err out_of_fuel.
Proof.
  unfold parse_imm. apply result_bind_fuel; [apply token_fuel|]. intros x.
  apply result_bind_fuel; [case_match; [apply log_error_fuel|done]|]. intros _.
  by case_match.
Qed.

Lemma lift_fuel {A} (r : result A) (s : Emulator) :
  r <> Err out_of_fuel -> fueled (lift r : M Emulator Empty_set A) s.
Proof. apply fueled_lift. Qed.
#[local] Hint Resolve lift_fuel log_error_fuel token_fuel atoi_fuel memcmp_fuel parse_reg_fuel
  parse_imm_fuel : fuel.

Lemma strtok_next_fuel o d s : fueled (strtok_next o d) s.
Proof. unfold strtok_next. fueled_steps. Qed.
Lemma poke_fuel off bs s : fueled (poke off bs) s.
Proof. unfold poke. fueled_steps. Qed.
Lemma with_instr_fuel k f s : fueled (with_instr k f) s.
Proof. unfold with_instr. fueled_steps. Qed.
#[local] Hint Resolve strtok_next_fuel poke_fuel with_instr_fuel : fuel.

Lemma append_source_fuel o a1 a2 a3 k s : fueled (append_source cfg o a1 a2 a3 k) s.
Proof. unfold append_source. fueled_steps. Qed.
Lemma invalid_format_fuel b line s : fueled (invalid_format b line) s.
Proof. unfold invalid_format. fueled_steps. apply lift_fuel, log_error_fuel. Qed.
Lemma copy_label_fuel k on o s : fueled (copy_label k on o) s.
Proof. unfold copy_label. fueled_steps. Qed.
Lemma reg_operand_fuel k on o line s : fueled (reg_operand k on o line) s.
Proof. unfold reg_operand. fueled_steps. Qed.
Lemma parse_mem_fuel o bits line s : fueled (parse_mem o bits line) s.
Proof. unfold parse_mem. fueled_steps. Qed.
Lemma sprint_reg_fuel r : sprint_reg r <> Err out_of_fuel.
Proof. unfold sprint_reg. by case_match. Qed.
#[local] Hint Resolve append_source_fuel invalid_format_fuel copy_label_fuel reg_operand_fuel
  parse_mem_fuel sprint_reg_fuel : fuel.

Lemma mem_operands_fuel k o line s : fueled (mem_operands k o line) s.
Proof. unfold mem_operands. fueled_steps. Qed.
#[local] Hint Resolve mem_operands_fuel : fuel.

Lemma pseudo_fuel line t k o1 o2 o3 o4 s :
  fueled (parse_pseudoinstructions cfg line t k o1 o2 o3 o4) s.
Proof. unfold parse_pseudoinstructions. cbv zeta. fueled_steps. Qed.
Lemma operands_fuel line op k o1 o2 o3 o4 s : fueled (parse_operands line op k o1 o2 o3 o4) s.
Proof. unfold parse_operands. cbv zeta. fueled_steps. Qed.
#[local] Hint Resolve pseudo_fuel operands_fuel : fuel.

Lemma parse_instr_fuel line t off s : fueled (parse_instr cfg line t off) s.
Proof. unfold parse_instr. cbv zeta. fueled_steps. Qed.

Lemma data_loop_fuel fuel line size off s : (String.length (e_tok s) < fuel)%nat ->
  fueled (data_loop fuel line size off) s.
Proof.
  revert off s. induction fuel as [|fuel IH]; intros off s Hl; [lia|]. cbn [data_loop].
  apply fueled_bind; [apply strtok_next_fuel|]. intros t s1 w1 E1.
  unfold strtok_next, mbind, M_bind, get, put, mret, M_ret in E1. destruct (strtok blanks (e_tok s)) as [t' r] eqn:Et.
  cbn in E1. rewrite Et in E1. injection E1 as <- <- <-. destruct t' as [t'|]; [|fueled_steps].
  apply strtok_length in Et. destruct (strtol 0 t') as [v er].
  destruct (er || _); [fueled_steps|].
  apply fueled_bind; [apply poke_fuel|]. intros [] s2 w2 E2. apply IH.
  unfold poke, mbind, M_bind, get, put, fail in E2. cbn in E2. destruct (_ && _); [|done].
  injection E2 as <- <-. cbn. lia.
Qed.

Lemma data_element_fuel line size off s : fueled (parse_data_element line size off) s.
Proof.
  unfold parse_data_element. apply fueled_bind; [apply fueled_get|].
  intros s0 s1 w1 [= <- <- _]. apply data_loop_fuel. lia.
Qed.
#[local] Hint Resolve parse_instr_fuel data_element_fuel : fuel.

Lemma directive_fuel line t off s : fueled (parse_assembler_directive cfg line t off) s.
Proof.
  unfold parse_assembler_directive. fueled_steps.
  apply lift_fuel. case_match; [apply log_error_fuel|done].
Qed.
#[local] Hint Resolve directive_fuel : fuel.

Lemma instr_line_fuel line t s : fueled (instr_line cfg line t) s.
Proof. unfold instr_line. fueled_steps. Qed.
Lemma directive_line_fuel line t s : fueled (directive_line cfg line t) s.
Proof. unfold directive_line. fueled_steps. Qed.
#[local] Hint Resolve instr_line_fuel directive_line_fuel : fuel.
Lemma label_line_fuel line l s : fueled (label_line cfg line l) s.
Proof. unfold label_line. fueled_steps. Qed.
#[local] Hint Resolve label_line_fuel : fuel.

Lemma lower_fuel x : lower x <> Err out_of_fuel.
Proof.
  induction x as [|c x IH]; [done|]. simpl. apply result_bind_fuel.
  - unfold tolower. by repeat case_match.
  - intros c'. by apply result_bind_fuel.
Qed.
#[local] Hint Resolve lower_fuel : fuel.

Lemma parse_line_fuel line x s : fueled (parse_line cfg line x) s.
Proof. unfold parse_line. fueled_steps. Qed.
#[local] Hint Resolve parse_line_fuel : fuel.

Lemma label_addr_fuel l tbl line : label_addr l tbl line <> Err out_of_fuel.
Proof.
  unfold label_addr. destruct (list_find _ tbl) as [[]|]; [done|].
  apply result_bind_fuel; [apply log_error_fuel|done].
Qed.
Lemma distance_fuel a b : distance a b <> Err out_of_fuel.
Proof. unfold distance. by case_match. Qed.
#[local] Hint Resolve label_addr_fuel distance_fuel : fuel.

Lemma normalize_fuel k s : fueled (normalize_one cfg k) s.
Proof.
  unfold normalize_one, resolve_a1, resolve_a2, resolve_a3. cbv zeta. fueled_steps.
  apply lift_fuel. by destruct (_ !! k).
Qed.
#[local] Hint Resolve normalize_fuel : fuel.

(** C25. The assembler ends on every file and from every state, with a result
    or with one of the faults of the code: the loop over the values of a data
    directive never runs out of the fuel it is given. *)
Theorem assemble_terminates file s : outcome (assemble cfg file) s <> Err (Undefined "fuel").
Proof.
  assert (fueled (assemble cfg file) s) as Hf.
  { unfold assemble, parse, parse_pieces, normalize_labels. fueled_steps. }
  unfold fueled in Hf. unfold outcome.
  destruct (assemble cfg file s) as [[[a s1] w1]|f]; [done|]. intros [= ->]. by apply Hf.
Qed.
End Termination.

(** * What is refused, and what is not *)

Section Bounds.
Context `{Framework} `{T : AsmTarget} (cfg : EmulatorConfig).

Lemma shiftr_positive v n : 0 <= n -> (0 <? Z.shiftr v n) = (2 ^ n <=? v).
Proof.
  intros Hn. rewrite Z.shiftr_div_pow2 by done. pose proof (Z.pow_pos_nonneg 2 n).
  destruct (Z.leb_spec (2 ^ n) v).
  - apply Z.ltb_lt. assert (1 <= v / 2 ^ n) by (apply Z.div_le_lower_bound; lia). lia.
  - apply Z.ltb_ge. assert (v / 2 ^ n < 1) by (apply Z.div_lt_upper_bound; lia). lia.
Qed.

Lemma poke_eq off bs s : poke off bs s =
  if (0 <=? off) && (off + Z.of_nat (List.length bs) <=? getSize (e_mem s))
  then Ok (tt, set_emem (splice (Z.to_nat off) bs (e_mem s)) s, [])
  else Err (Undefined "_mem").
Proof. unfold poke. erewrite M_bind_silent by reflexivity. by case_match. Qed.

(** The last value of a data directive. *)
Lemma data_last fuel line size off t s : 0 < size <= 4 ->
  word blanks t = true -> e_tok s = t +:+ nl ->
  data_loop (S (S fuel)) line size off s =
  (let '(v, erange) := strtol 0 t in
   if erange || (2 ^ (8 * size) <=? v) then Err (Exited 2)
   else if (0 <=? off) && (off + size <=? getSize (e_mem s))
   then Ok (off + size, set_tok "" (set_emem
     (splice (Z.to_nat off) (le_bytes (Z.to_nat size) v) (e_mem s)) s), [])
   else Err (Undefined "_mem")).
Proof.
  intros Hsz Ht Hs. cbn [data_loop].
  assert (strtok blanks (e_tok s) = (Some t, "")) as Htok
    by (rewrite Hs; by apply (strtok_word blanks t (char_of 10) "")).
  erewrite M_bind_silent.
  2:{ unfold strtok_next. erewrite M_bind_silent by reflexivity. cbn [default]. rewrite Htok.
      erewrite M_bind_silent by reflexivity. reflexivity. }
  cbv beta iota zeta. destruct (strtol 0 t) as [v er]. rewrite shiftr_positive by lia. rewrite (Z.mul_comm size).
  assert (er || (2 ^ (8 * size) <=? v) && negb (Z.shiftr v (8 * size) =? -1)
    = er || (2 ^ (8 * size) <=? v)) as ->.
  { f_equal. destruct (Z.leb_spec (2 ^ (8 * size)) v); [|done].
    pose proof (shiftr_positive v (8 * size) ltac:(lia)) as Hp.
    rewrite (proj2 (Z.leb_le _ _)) in Hp by done. by destruct (Z.eqb_spec (Z.shiftr v (8 * size)) (-1)); lia. }
  destruct (er || _); [done|].
  unfold mbind at 1, M_bind at 1. rewrite poke_eq. cbn [set_tok e_mem].
  rewrite length_le_bytes, Z2Nat.id by lia. by destruct ((0 <=? off) && _).
Qed.


(** One branch or jump, with its label found. *)
Definition targeted (ii : instr) (l : string) : Prop :=
  o_type (i_a1 ii) <> OPTYPE_LABEL
  /\ if bool_decide (i_op ii = JAL)
     then o_type (i_a2 ii) = OPTYPE_LABEL /\ o_label (i_a2 ii) = l
          /\ o_type (i_a3 ii) <> OPTYPE_LABEL
     else o_type (i_a2 ii) <> OPTYPE_LABEL /\ o_type (i_a3 ii) = OPTYPE_LABEL
          /\ o_label (i_a3 ii) = l.

Lemma with_instr_eq k i f s : e_imem s !! k = Some i ->
  with_instr (Z.of_nat k) f s = Ok (tt, set_imem (<[k := f i]> (e_imem s)) s, []).
Proof.
  intros Hk. pose proof (lookup_lt_Some _ _ _ Hk). unfold with_instr.
  erewrite M_bind_silent by reflexivity.
  rewrite (proj2 (Z.leb_le _ _)), (proj2 (Z.ltb_lt _ _)) by lia. cbn [andb].
  unfold put. rewrite Nat2Z.id. do 4 f_equal. apply list_eq. intros j.
  destruct (decide (j = k)) as [->|].
  - by rewrite list_lookup_alter_eq, Hk, list_lookup_insert_eq.
  - by rewrite list_lookup_alter_ne, list_lookup_insert_ne.
Qed.

(** C26. The second pass ends the run with status 3 for a branch whose label
    is 8 KiB away or farther, and resolves every nearer one to its address.
    For a jump the distance that is tested is not that of its label but that
    of the immediate of its third operand, which a jump does not have and which
    nothing has initialised: whatever its label is, near or far, the jump is
    resolved if that field happens to hold a number less than 2 MiB away, and
    otherwise the run ends, with status 3 or in an overflow. *)
Theorem branch_and_jump_range k ii l a s :
  e_imem s !! k = Some ii -> 4 * Z.of_nat k < 2 ^ 21 ->
  is_branch_op (i_op ii) = true \/ i_op ii = JAL -> targeted ii l ->
  address (e_labels s) l = Some a -> 0 <= a < 2 ^ 31 ->
  outcome (normalize_one cfg k) s =
  if bool_decide (i_op ii = JAL)
  then
    let diff := 4 * Z.of_nat k - s32 (o_imm (i_a3 ii)) in
    if diff <? 2 ^ 31 then
      if Z.abs diff <? 2 ^ 21
      then Ok (set_imem (<[k := on_a2 (typed_imm a) ii]> (e_imem s)) s, [])
      else Err (Exited 3)
    else Err (Undefined "overflow")
  else if Z.abs (4 * Z.of_nat k - a) <? 2 ^ 13
  then Ok (set_imem (<[k := on_a3 (typed_imm a) ii]> (e_imem s)) s, [])
  else Err (Exited 3).
Proof.
  intros Hk Hpc Hop [T1 Tg] Ha Har.
  assert (u32 a = a) as Hu by (apply uint_id; unfold is_u; lia).
  assert (forall v, distance (Z.of_nat k * 4) v =
    if 4 * Z.of_nat k - s32 v <? 2 ^ 31 then Ok (Z.abs (4 * Z.of_nat k - s32 v))
    else Err (Undefined "overflow")) as Hdist.
  { intros v. unfold distance. rewrite (Z.mul_comm _ 4).
    pose proof (sint_range 32 v ltac:(lia)). by rewrite (proj2 (Z.ltb_lt (- _) _)) by lia. }
  assert (i_op ii <> UNIMPL) as Hun by (intros E; rewrite E in Hop; by destruct Hop).
  pose proof (label_addr_ok (e_labels s) l a (i_orig_line ii) Ha) as Hl. rewrite Hu in Hl.
  unfold outcome, normalize_one. erewrite M_bind_silent by reflexivity. rewrite Hk.
  erewrite M_bind_silent by reflexivity. rewrite bool_decide_eq_false_2 by done.
  erewrite M_bind_silent.
  2:{ unfold resolve_a1. rewrite bool_decide_eq_false_2 by done. reflexivity. }
  destruct (decide (i_op ii = JAL)) as [E|E].
  - rewrite bool_decide_eq_true_2 in Tg |- * by done. destruct Tg as (T2 & <- & T3).
    assert (Ha2 : resolve_a2 cfg (Z.of_nat k) ii s =
      (diff ← lift (distance (Z.of_nat k * 4) (o_imm (i_a3 ii)));
       when (2 ^ 21 <=? diff) (fail (Exited 3)) : M Emulator Empty_set unit)
      (set_imem (<[k := on_a2 (typed_imm a) ii]> (e_imem s)) s)).
    { unfold resolve_a2. rewrite bool_decide_eq_true_2 by done. cbn [when].
      erewrite M_bind_silent by reflexivity. rewrite Hl. erewrite M_bind_silent by reflexivity.
      erewrite M_bind_silent by (by apply with_instr_eq). by rewrite E. }
    unfold resolve_a3. rewrite (bool_decide_eq_false_2 (o_type (i_a3 ii) = _)) by done. cbn [when].
    unfold mbind at 1, M_bind. rewrite Ha2, Hdist. cbv zeta. destruct (_ <? 2 ^ 31); [|done].
    erewrite M_bind_silent by reflexivity. rewrite Z.leb_antisym. by destruct (_ <? 2 ^ 21).
  - rewrite bool_decide_eq_false_2 in Tg |- * by done. destruct Tg as (T2 & T3 & <-).
    destruct Hop as [Hop|]; [|done].
    erewrite M_bind_silent.
    2:{ unfold resolve_a2. rewrite bool_decide_eq_false_2 by done. reflexivity. }
    unfold resolve_a3. rewrite bool_decide_eq_true_2 by done. cbn [when].
    erewrite M_bind_silent by reflexivity. rewrite Hl. erewrite M_bind_silent by reflexivity.
    erewrite M_bind_silent by (by apply with_instr_eq).
    assert ((diff ← lift (distance (Z.of_nat k * 4) a);
             when (2 ^ 13 <=? diff) (fail (Exited 3)) : M Emulator Empty_set unit)
      (set_imem (<[k := on_a3 (typed_imm a) ii]> (e_imem s)) s) =
      if Z.abs (4 * Z.of_nat k - a) <? 2 ^ 13
      then Ok (tt, set_imem (<[k := on_a3 (typed_imm a) ii]> (e_imem s)) s, []) else Err (Exited 3))
      as Hbr.
    { rewrite Hdist, (sint_id 32 a), (proj2 (Z.ltb_lt _ (2 ^ 31))) by lia. erewrite M_bind_silent by reflexivity.
      rewrite Z.leb_antisym. by destruct (_ <? 2 ^ 13). }
    destruct (i_op ii); try discriminate; rewrite Hbr; by destruct (_ <? 2 ^ 13).
Qed.
End Bounds.

(** * Registers *)

Section Registers.
Context `{Framework} `{PR : PipeRegister}.

(** C28. The assembler takes the registers x0 to x32, one more than there
    are, and reports any other number; an instruction that reads x32 is
    undefined behaviour of the processor. *)
Theorem register_32 r line now i (c : CPU) :
  - 2 ^ 31 <= r < 2 ^ 31 -> is_rr (i_op i) = true -> o_reg (i_a2 i) = 32 ->
  c_inst_cnt c < 2 ^ 31 - 1 ->
  parse_reg (Some (reg r)) line true =
    (if (0 <=? r) && (r <=? 32) then Ok r
     else print_syntax_error line "Malformed register name" ≫= fun _ => Ok (-1))
  /\ outcome (processInstr now i) c = Err (Undefined "rf").
Proof.
  intros Hr Hop H32 Hcnt. split.
  - change (reg r) with (String "x" (dec r)). unfold parse_reg. cbn [token from_opt].
    unfold mbind at 1, result_bind at 1. rewrite atoi_dec by lia.
    unfold mbind at 1, result_bind at 1. rewrite Z.ltb_antisym, (Z.ltb_antisym r 32).
    by destruct (0 <=? r), (r <=? 32).
  - unfold processInstr.
    assert (forall s, read_rf 32 s = Err (Undefined "rf")) as Hrd by done.
    unfold outcome. erewrite M_bind_silent.
    2:{ unfold incrementInstCount. erewrite M_bind_silent by reflexivity.
        rewrite (proj2 (Z.ltb_lt _ _)) by done. reflexivity. }
    erewrite M_bind_silent by reflexivity. rewrite H32.
    destruct (i_op i); try discriminate; unfold mbind, M_bind; by rewrite Hrd.
Qed.
End Registers.

(** * The end of the instruction memory *)

Section Overrun.
Context `{Framework} `{T : AsmTarget} (cfg : EmulatorConfig).

Lemma strtok_next_eq o d s t r : strtok d (default (e_tok s) o) = (t, r) ->
  strtok_next o d s = Ok (t, set_tok r s, []).
Proof. intros E. unfold strtok_next. erewrite M_bind_silent by reflexivity. by rewrite E. Qed.

Lemma with_instr_out k f s : (List.length (e_imem s) <= k)%nat ->
  with_instr (Z.of_nat k) f s = Err (Undefined "_imem").
Proof.
  intros Hk. unfold with_instr. erewrite M_bind_silent by reflexivity.
  rewrite (proj2 (Z.ltb_ge _ _)) by lia. by rewrite andb_false_r.
Qed.

(** The operands of an [li] that is well-formed. *)
Lemma li_in_range rd v : is_reg rd = true -> - 2 ^ 31 <= v < 2 ^ 32 ->
  (rd <? 0) || (2 ^ 32 - 1 <? v) || (v <? - 2 ^ 31) = false.
Proof.
  unfold is_reg. intros Hrd Hv. rewrite (proj2 (Z.ltb_ge rd 0)), (proj2 (Z.ltb_ge _ v)),
    (proj2 (Z.ltb_ge v _)) by lia. done.
Qed.

Lemma li_tokens rd v (s : Emulator) : wf_asm (ALi rd v) = true ->
  e_tok s = after_name (words_of (ALi rd v)).2 ->
  strtok_next None seps s = Ok (Some (reg rd), set_tok (" " +:+ dec v +:+ nl) s, []) /\
  forall s', e_tok s' = " " +:+ dec v +:+ nl ->
    strtok_next None seps s' = Ok (Some (dec v), set_tok "" s', []).
Proof.
  intros Hw Ht. cbn [wf_asm] in Hw. wf_split. split; [|intros s' Hs'].
  - apply strtok_next_eq. cbn. rewrite Ht.
    apply (strtok_word seps (reg rd) "," (" " +:+ dec v +:+ nl)); [by apply reg_word|done].
  - apply strtok_next_eq. cbn [default]. rewrite Hs'. etrans; [by apply strtok_delim|].
    apply (strtok_word seps (dec v) (char_of 10) ""); [apply dec_word; lia|done].
Qed.

(** C29. The test for the end of the instruction memory counts one word: [li]
    in the last word passes it, writes its second instruction behind the
    array and is undefined behaviour. *)
Theorem li_overruns rd v line k s :
  wf_asm (ALi rd v) = true -> e_tok s = after_name (words_of (ALi rd v)).2 ->
  List.length (e_imem s) = S k -> data_offset cfg = 4 * Z.of_nat (S k) ->
  parse_instr cfg line "li" (4 * Z.of_nat k) s = Err (Undefined "_imem").
Proof.
  intros Hw Ht Hlen Hoff. destruct (li_tokens _ _ _ Hw Ht) as [T1 T2].
  cbn [wf_asm] in Hw. wf_split. destruct (sprint_reg_ok rd) as (areg & Ha & Hal); [done|].
  unfold parse_instr. rewrite (proj2 (Z.ltb_ge _ _)) by lia.
  erewrite M_bind_silent by exact T1. erewrite M_bind_silent by (by apply T2).
  erewrite M_bind_silent by reflexivity. erewrite M_bind_silent by reflexivity.
  rewrite Z.mul_comm, Z.quot_mul by lia.
  destruct (lookup_lt_is_Some_2 (e_imem s) k) as [i Hi]; [lia|].
  set (s0 := set_tok _ _).
  assert (s0 = cell k i (e_src s) "" s) as ->.
  { subst s0. unfold cell. rewrite list_insert_id by done. done. }
  unfold parse_pseudoinstructions. cbn [String.eqb Ascii.eqb Bool.eqb].
  unfold mbind at 1, M_bind at 1.
  match goal with |- match ?m ?s1 with _ => _ end = _ =>
    assert (m s1 = Err (Undefined "_imem")) as ->; [|done] end.
  erewrite M_bind_silent by reflexivity.
  erewrite M_bind_silent by (unfold lift; by rewrite parse_reg_reg).
  erewrite M_bind_silent by reflexivity. rewrite strtol_dec by lia. cbn [fst].
  rewrite li_in_range by (done || lia).
  erewrite M_bind_silent by (unfold lift; by rewrite Ha).
  assert (k < List.length (e_imem s))%nat as Hlt by lia.
  match goal with |- (with_instr _ ?f ≫= _) _ = _ =>
    destruct (cell_instr k i (e_src s) "" s f (fun _ s' => s' = cell k (f i) (e_src s) "" s)
      Hlt eq_refl) as ([] & s1 & E1 & ->) end.
  erewrite M_bind_silent by exact E1.
  match goal with |- (append_source _ (Some ?o) (Some ?x) (Some ?y) None _ ≫= _) (cell k ?j ?sr ?t _) = _ =>
    destruct (cell_source cfg o (Some x) (Some y) None k j sr t s
      (fun _ s' => List.length (e_imem s') = S k) Hlt) as ([] & s2 & E2 & L2) end.
  - cbn. lia.
  - intros y [[= <-]|[[= <-]|[=]]]; [lia|].
    pose proof (length_sprint_imm (Z.shiftr (u32 v) 12)). lia.
  - intros i' src' _. cbn. by rewrite length_insert.
  - erewrite M_bind_silent by exact E2. unfold mbind, M_bind.
    replace (Z.of_nat k + 1) with (Z.of_nat (S k)) by lia. by rewrite with_instr_out by lia.
Qed.
End Overrun.

(** * Witnesses *)

Definition w_line_state (tok : string) (imem : list instr) : Emulator :=
  set_tok tok (Emulator_new w_mem imem).


(** A jump to the label, in a cell whose third operand holds [v]. *)
Definition w_jump (v : Z) : instr :=
  Instr JAL (Operand OPTYPE_REG "" 1 0) (Operand OPTYPE_LABEL "there" 0 0) (set_imm v w_operand) None 1 false.
Definition w_jump_state (a v : Z) : Emulator :=
  Emu [LabelLoc "there" a] 0 (Source [] 0) "" w_mem [w_jump v].

(** A jump of one gigabyte is accepted; one of eight bytes is not, if the
    memory that holds it was not zero. *)
Lemma branch_and_jump_range_witness :
  outcome (@normalize_one printing_framework w_config 0) (w_jump_state (2 ^ 30) 0) =
    Ok (set_imem [on_a2 (typed_imm (2 ^ 30)) (w_jump 0)] (w_jump_state (2 ^ 30) 0), [])
  /\ outcome (@normalize_one printing_framework w_config 0) (w_jump_state 8 (2 ^ 22)) = Err (Exited 3).
Proof.
  split.
  - rewrite (@branch_and_jump_range printing_framework w_config 0 (w_jump 0) "there" (2 ^ 30));
      [reflexivity|reflexivity|vm_compute; reflexivity|by right
      |split; [discriminate|split_and!; (reflexivity || discriminate)]
      |reflexivity|split; vm_compute; congruence].
  - rewrite (@branch_and_jump_range printing_framework w_config 0 (w_jump (2 ^ 22)) "there" 8);
      [reflexivity|reflexivity|vm_compute; reflexivity|by right
      |split; [discriminate|split_and!; (reflexivity || discriminate)]
      |reflexivity|split; vm_compute; congruence].
Defined.

Lemma register_32_witness :
  parse_reg (H := printing_framework) (Some "x32") 7 true = Ok 32
  /\ outcome (@processInstr SlotRegister 5
       (Instr ADD (Operand OPTYPE_REG "" 1 0) (Operand OPTYPE_REG "" 32 0) w_operand None 1 false))
       (@MkCPU SlotRegister (replicate 32 0) 0 0 [] [] empty_slot 0)
     = Err (Undefined "rf").
Proof.
  apply (@register_32 printing_framework SlotRegister 32 7 5
    (Instr ADD (Operand OPTYPE_REG "" 1 0) (Operand OPTYPE_REG "" 32 0) w_operand None 1 false)
    (@MkCPU SlotRegister (replicate 32 0) 0 0 [] [] empty_slot 0));
    [split; vm_compute; congruence|reflexivity|reflexivity|vm_compute; reflexivity].
Defined.

Lemma li_overruns_witness :
  @parse_instr printing_framework soc_assembler w_config 9 "li" 60
    (w_line_state ("x5, 1000000" +:+ nl) w_imem) = Err (Undefined "_imem").
Proof.
  apply (@li_overruns printing_framework soc_assembler w_config 5 1000000 9 15); reflexivity.
Defined.
