(* ===== verification/RvSource.v ===== *)
(** Programs on the pipelined simulator, from their text to the packets that
    leave the pipeline: the reference machine runs the instructions that the
    text of a program stands for ([Asm]); [SOC::init]
    ([src/riscv/include/SOC.hh], [src/riscv/libs/SOC.cc]) assembles the text
    and starts the processor. *)
From Stdlib Require Import Ascii String.
From S2P Require Import Prelude Machine DataStruct Memory Isa Reference MemPacket RvCpu Pipeline RvSystem RvProgress.
From S2P Require Import CString Emulator RvEmulator Asm Assembler AsmPass AsmLink AsmCorrect AsmSource.
Local Open Scope string_scope.
Local Open Scope list_scope.
Local Open Scope Z_scope.

(** * Traces that mean the same *)

Lemma rv_conforming_same c i j rf : same_fields i j -> rv_conforming c i rf = rv_conforming c j rf.
Proof.
  intros Hs. unfold rv_conforming. by rewrite (sf_op _ _ Hs), (conforms_same c i j rf Hs).
Qed.

(** Packets that describe the same step. *)
Definition same_packet (k l : InstPacket) : Prop :=
  same_fields (ip_inst k) (ip_inst l) /\ ip_pc k = ip_pc l /\ ip_taken k = ip_taken l.

(** The reference machine on two programs that mean the same. *)
Lemma ref_run_same (f g : Z -> option instr) n x x' tr :
  (forall pc j, g pc = Some j -> exists i, f pc = Some i /\ same_fields i j) ->
  ref_run n g x = Some (x', tr) ->
  exists tr', ref_run n f x = Some (x', tr') /\ Forall2 same_packet tr' tr.
Proof.
  intros Hfg. revert x tr. induction n as [|n IH]; intros x tr.
  - intros [= <- <-]. by exists [].
  - intros (x1 & k & tr1 & Hs & Hr & ->)%ref_run_S.
    destruct (IH x1 tr1 Hr) as (tr' & Hr' & Htr).
    apply rv32_next_inv in Hs as (j & Hj & Hc & Hm & Ecl & ->).
    destruct (Hfg _ _ Hj) as (i & Hi & Hsame).
    exists (trace_packet i (x_pc x) (x_pc x1) :: tr'). split; [|by constructor].
    cbn. unfold rv32_next. rewrite Hi. cbn.
    rewrite (rv_conforming_same _ _ _ _ Hsame), Hc, (mstep_same _ _ _ _ _ Hsame), Hm. cbn.
    rewrite (clean_same _ _ _ Hsame), <- Ecl. destruct x1 as [rf1 pc1 m1 c1]. cbn in *.
    by rewrite Hr'.
Qed.

Lemma same_hcf k l : same_packet k l -> is_hcf k = is_hcf l.
Proof. intros [[Eo _ _ _ _] _]. unfold is_hcf. by rewrite Eo. Qed.
Lemma same_no_hcf l1 l2 : Forall2 same_packet l1 l2 -> existsb is_hcf l1 = existsb is_hcf l2.
Proof. induction 1 as [|k1 k2 l1 l2 Hk _ IH]; [done|]. cbn. by rewrite (same_hcf k1 k2), IH. Qed.

Lemma ends_same (f g : Z -> option instr) x0 x tr k :
  (forall pc j, g pc = Some j -> exists i, f pc = Some i /\ same_fields i j) ->
  ends g x0 x tr k ->
  exists tr' k', ends f x0 x tr' k' /\ Forall2 same_packet (tr' ++ [k']) (tr ++ [k]).
Proof.
  intros Hfg [Hr Hk Hb]. destruct (ref_run_same f g _ _ _ _ Hfg Hr) as (l & Hl & Hs).
  pose proof Hs as Hs'. apply Forall2_app_inv_r in Hs as (tr' & l2 & Ht & Hk2 & ->).
  apply Forall2_cons_inv_r in Hk2 as (k' & l3 & Hkk & ->%Forall2_nil_inv_r & ->).
  exists tr', k'. split; [|done]. split.
  - by rewrite (Forall2_length _ _ _ Ht).
  - by rewrite (same_hcf _ _ Hkk).
  - by rewrite (same_no_hcf _ _ Ht).
Qed.

(** * The start of the simulation *)

Section Boot.
Context `{Framework} `{RC : RecycleContainer} `{SR : StageRegister} (cfg : EmulatorConfig).

(** The instruction memory of [CPU::CPU]: the loop sets the operation and the
    types of the operands; the rest is as the allocator left it. *)
Definition rv_cell : instr :=
  on_a3 (op_type OPTYPE_NONE) (on_a2 (op_type OPTYPE_NONE)
    (on_a1 (op_type OPTYPE_NONE) (with_op UNIMPL auto_instr))).
Definition rv_imem : list instr := replicate (Z.to_nat (Z.quot (data_offset cfg) 4)) rv_cell.

(** [SOC::registerModules] constructs the data memory and the processor. *)
Definition SOC_registerModules (l : pool) (q : mport) : result RvCPU :=
  check (0 <=? memory_size cfg) (Undefined "BaseMemory of negative size") ≫= fun _ =>
  check (0 <=? Z.quot (data_offset cfg) 4) (Undefined "new instr[n] with negative n") ≫= fun _ =>
  Ok (RvCPU_new rv_imem (BaseMemory_new (Z.to_nat (memory_size cfg))) l q).

(** [SOC::simInit]: the assembler writes both memories through the pointers it
    is given; the modules have no [init] of their own. *)
Definition SOC_simInit (now : Z) (file : option string) (s : RvCPU)
    : result (RvCPU * list rv_effect) :=
  '(e, _) ← outcome (rv_assemble cfg file) (Emulator_new (v_dmem s) (v_imem s));
  Ok (MkRv (v_rf s) (v_pc s) (v_inst_cnt s) (e_imem e) (e_mem e) (v_heap s) (v_pool s) (v_port s)
        (v_pending s), [first_event now]).

(** [SOC::init] *)
Definition SOC_init (now : Z) (file : option string) (l : pool) (q : mport)
    : result (RvCPU * list rv_effect) :=
  s ← SOC_registerModules l q; SOC_simInit now file s.

(** [SOCTop::registerSimulators] and [registerPipeRegisters] connect the SoC,
    the stages and four registers that are empty; then [SOC] is initialised. *)
Definition SOCTop_boot (now : Z) (file : option string) (l : pool) (q : sreg) : result SOCTop :=
  '(s, evs) ← SOC_init now file l q;
  Ok (MkTop s evs (set_p_port (v_port s) (empty_pipeline q)) [] []).
End Boot.

(** * A program from its text *)

Section Program.
Context `{Framework} `{RC : RecycleContainer} {RL : RecycleContainerLaws RC}.
Context `{SR : StageRegister} {SL : StageRegisterLaws SR}.
#[local] Existing Instance riscv_assembler.
Context (cfg : EmulatorConfig) (p : program).

(** A well-formed program, of the size of the memories. What the fields of a
    cell hold that the constructor does not set matters only if the program has
    jumps: the assembler then tests one of them. *)
Record bootable : Prop := {
  bo_size : 0 <= memory_size cfg;
  bo_wf : wf_program cfg p;
  bo_fits : fits cfg (BaseMemory_new (Z.to_nat (memory_size cfg))) (rv_imem cfg) p;
  bo_jumps : jumps (p_text p) = true -> jump_field indet_int;
}.

Lemma boot_starts now l q : bootable -> sr_in q = [] ->
  exists s, SOCTop_boot cfg now (Some (print_program p)) l q = Ok (top_start s (now + 1))
    /\ v_port s = q /\ v_pending s = None /\ v_heap s = ∅ /\ v_inst_cnt s = 0
    /\ simulates (source_start cfg p) s
    /\ forall pc j, source_fetch cfg p pc = Some j ->
         exists i, fetch_imem (v_imem s) pc = Some i /\ same_fields i j.
Proof.
  intros [Hm Hp Hf Hz] Hq. set (m := BaseMemory_new (Z.to_nat (memory_size cfg))) in *.
  assert (Hcl : Forall (ready (p_text p)) (rv_imem cfg)) by (apply Forall_replicate; by split).
  destruct (assemble_ok cfg m (rv_imem cfg) p Hp Hf Hcl) as (e & E & A).
  pose proof Hf as [[F1 F2] F3 F4 F5 F6].
  assert (Hd : 0 <= data_offset cfg) by lia.
  exists (MkRv (MP := stage_port) (replicate 32 0) 0 0 (e_imem e) (e_mem e) ∅ l q None).
  split_and!; try done.
  - unfold SOCTop_boot, SOC_init, SOC_registerModules, check. rewrite Z.quot_div_nonneg by lia.
    rewrite (proj2 (Z.leb_le 0 (memory_size cfg))) by done.
    rewrite (proj2 (Z.leb_le 0 (data_offset cfg / 4))) by (apply Z.div_pos; lia).
    cbn [mbind result_bind]. unfold SOC_simInit. cbn [RvCPU_new v_dmem v_imem]. fold m.
    unfold rv_assemble. by rewrite E.
  - assert (Hwm : wf_mem (image cfg p m)).
    { apply image_wf, Forall_replicate. unfold is_u. lia. }
    pose proof (as_mem _ _ _ _ _ A) as Em.
    split; cbn; rewrite ?Em; try done; [split; try done|].
    + split; [done|]. by repeat constructor.
    + by eapply assembled_used.
  - intros pc j. by apply (source_fetched cfg m (rv_imem cfg) p Hp Hf).
Qed.

(** C1. The pipelined simulator runs the program that the text says. Booted
    from the text of a well-formed program, in every order in which the
    framework can run the processor, the retries and the stages: the packets
    of the executed instructions are those of the reference machine on the
    program, instruction by instruction and in order, the registers, the
    memory and the program counter are those of the reference, and what has
    left the pipeline is a beginning of that sequence. *)
Theorem rv_program_followed now l q :
  bootable -> sr_in q = [] ->
  exists y0, SOCTop_boot cfg now (Some (print_program p)) l q = Ok y0
    /\ forall y, rtc top_step y0 y ->
         t_retired y `prefix_of` t_executed y
         /\ forall x tr,
              ref_run (List.length (t_executed y)) (source_fetch cfg p) (source_start cfg p)
                = Some (x, tr) ->
              Forall2 same_packet (t_executed y) tr /\ simulates x (t_cpu y).
Proof.
  intros Hb Hq. destruct (boot_starts now l q Hb Hq) as (s & E & Ep & En & Eh & _ & Hsim & Hfetch).
  exists (top_start s (now + 1)). split; [done|]. intros y Hy. rewrite <- Ep in Hq.
  pose proof (running_reach _ _ _ _ Hy (running_start _ s (now + 1) Hsim Hq En Eh)) as [I _ F].
  split; [rewrite (ti_packets y I); by apply prefix_app_r|]. intros x tr Hr.
  destruct (ref_run_same _ _ _ _ _ _ Hfetch Hr) as (tr' & Hr' & Hs).
  by destruct (fo_ref _ _ _ _ F _ _ Hr') as [-> ?].
Qed.

(** C2. A program that ends is run to its end, and not beyond. Whatever the
    framework has run so far, the executed instructions are a beginning of
    the trace of the program, and the simulator can go on until the whole
    trace, [hcf] included, has been executed and has left the pipeline in
    order, nothing is scheduled or in flight, and registers and memory are
    those with which the reference machine ends: no order of steps leads to a
    deadlock, loses or repeats an instruction. *)
Theorem rv_program_completes {LV : StageRegisterLive SR} now l q x tr k :
  bootable -> sr_in q = [] ->
  ends (source_fetch cfg p) (source_start cfg p) x tr k ->
  Z.of_nat (List.length tr) + 1 <= 2 ^ 31 - 1 ->
  exists y0, SOCTop_boot cfg now (Some (print_program p)) l q = Ok y0
    /\ forall y, rtc top_step y0 y ->
         Forall2 same_packet (t_executed y) (take (List.length (t_executed y)) (tr ++ [k]))
         /\ exists y', rtc top_step y y' /\ Forall2 same_packet (t_retired y') (tr ++ [k])
              /\ t_events y' = [] /\ in_flight y' = [] /\ simulates x (t_cpu y').
Proof.
  intros Hb Hq He Hlen.
  destruct (boot_starts now l q Hb Hq) as (s & E & Ep & En & Eh & Ec & Hsim & Hfetch).
  exists (top_start s (now + 1)). split; [done|]. intros y Hy. rewrite <- Ep in Hq.
  destruct (ends_same _ _ _ _ _ _ Hfetch He) as (tr' & k' & He' & Hsame).
  pose proof (Forall2_length _ _ _ Hsame) as Hl. rewrite !length_app in Hl. cbn in Hl.
  pose proof (running_start _ s (now + 1) Hsim Hq En Eh) as R0.
  pose proof (running_reach _ _ _ _ Hy R0) as R.
  assert (Hcnt : v_inst_cnt s + Z.of_nat (List.length tr') + 1 <= 2 ^ 31 - 1) by lia.
  assert (Hle : (List.length (t_executed y) <= List.length tr' + 1)%nat).
  { eapply bounded_reach; [done..|cbn; lia]. }
  split.
  - destruct (ref_run_take _ (List.length (t_executed y)) _ _ _ _ (en_run _ _ _ _ _ He') Hle) as [x1 H1].
    destruct (fo_ref _ _ _ _ (rn_follows _ _ _ R) _ _ H1) as [Ex _]. rewrite Ex at 1.
    by apply Forall2_take.
  - destruct (completes _ _ _ _ _ He' Hcnt y R Hle) as (y' & Hy' & _ & Er & Hev & Hfl & Hs).
    exists y'. by rewrite Er.
Qed.
End Program.

(** * Witnesses *)

#[export] Instance FlowSlotLive : StageRegisterLive FlowSlotRegister.
Proof.
  split; intros [d [|r q] v]; cbn; rewrite ?app_nil_r; try done. intros E.
  by apply (f_equal List.length) in E; rewrite length_app in E; cbn in E; lia.
Qed.

#[local] Existing Instance printing_framework.
#[local] Existing Instance riscv_assembler.

(** [for (x6 = n; x6 != 0; x6--); n = x6; hcf], with [n] two. *)
Definition w_countdown : program := Program
  [DLabel "n"; DVals 4 [2]]
  [ALa 5 "n"; AMem LW 6 0 5; ALabel "loop"; AImm ADDI 6 6 (-1); ABnez 6 "loop";
   AMem SW 6 0 5; AHcf].

Lemma w_countdown_bootable : bootable w_config w_countdown.
Proof.
  split; [done|split|by split; [split| | | |]; vm_compute|done].
  - by repeat constructor.
  - assert (forallb wf_asm (p_text w_countdown) = true) as Ht by by vm_compute.
    apply Forall_forall. intros a Ha%list_elem_of_In. by apply (proj1 (forallb_forall _ _) Ht).
  - intros a l Ha Hl. cbn [w_countdown p_text] in Ha.
    repeat (apply elem_of_cons in Ha as [->|Ha];
      [cbn [uses] in Hl; first [ by apply not_elem_of_nil in Hl
        | apply list_elem_of_singleton in Hl as ->; by vm_compute; eexists ]|]).
    by apply not_elem_of_nil in Ha.
  - vm_compute. congruence.
  - intros k s Hk.
    do 7 (destruct k as [|k]; [injection Hk as <-; cbn; try exact I;
      first [by left | right; intros a; vm_compute; by intros [= <-]]|]).
    done.
Qed.

(** The reference machine on the program. *)
Definition w_reference (n : nat) : option (rv_state * list InstPacket) :=
  ref_run n (source_fetch w_config w_countdown) (source_start w_config w_countdown).

Definition w_source_end : rv_state * list InstPacket :=
  Eval vm_compute in default (source_start w_config w_countdown, []) (w_reference 9).

Lemma w_countdown_ends :
  ends (source_fetch w_config w_countdown) (source_start w_config w_countdown) w_source_end.1
    (take 8 w_source_end.2) (trace_packet (source_instr [] (SInstr HCF SNone SNone SNone)) 24 28).
Proof. split; by vm_compute. Qed.

(** Once the nine instructions were executed, the counter in memory is 0. *)
Lemma rv_program_followed_witness :
  exists y0, SOCTop_boot (RC := FreshContainer) (SR := FlowSlotRegister) w_config 0
      (Some (print_program w_countdown)) [] wq_empty = Ok y0
    /\ forall y, rtc top_step y0 y -> List.length (t_executed y) = 9%nat ->
         map ip_pc (t_executed y) = [0; 4; 8; 12; 16; 12; 16; 20; 24]
         /\ take 4 (drop 64 (v_dmem (t_cpu y))) = [0; 0; 0; 0].
Proof.
  destruct (rv_program_followed (RC := FreshContainer) (SL := FlowSlotLaws) w_config w_countdown 0 [] wq_empty
    w_countdown_bootable eq_refl) as (y0 & E & Hy0).
  exists y0. split; [exact E|]. intros y Hy Hlen.
  destruct (Hy0 y Hy) as [_ Href].
  destruct (Href w_source_end.1 w_source_end.2) as [Hs [_ _ Sm _ _ _]].
  { rewrite Hlen. by vm_compute. }
  split; [|by rewrite Sm].
  clear -Hs. revert Hs. generalize (t_executed y). intros ex Hs.
  assert (map ip_pc ex = map ip_pc w_source_end.2) as ->; [|reflexivity].
  induction Hs as [|a b l1 l2 (_ & Hab & _) _ IH]; cbn; [done|]. by rewrite Hab, IH.
Defined.

Lemma rv_program_completes_witness :
  exists y0, SOCTop_boot (RC := FreshContainer) (SR := FlowSlotRegister) w_config 0
      (Some (print_program w_countdown)) [] wq_empty = Ok y0
    /\ exists y, rtc top_step y0 y /\ List.length (t_retired y) = 9%nat
         /\ take 4 (drop 64 (v_dmem (t_cpu y))) = [0; 0; 0; 0].
Proof.
  destruct (rv_program_completes (RC := FreshContainer) (SL := FlowSlotLaws) w_config w_countdown 0 [] wq_empty
    _ _ _ w_countdown_bootable eq_refl w_countdown_ends) as (y0 & E & Hy0); [by vm_compute|].
  exists y0. split; [exact E|].
  destruct (Hy0 y0 (rtc_refl _ _)) as (_ & y & Hy & Hr & _ & _ & [_ _ Sm _ _ _]).
  exists y. split; [exact Hy|]. split; [|by rewrite Sm].
  rewrite (Forall2_length _ _ _ Hr). reflexivity.
Defined.
