(* ===== verification/Device.v ===== *)
(** The devices of a crossbar, seen from the bus. [BusDevice] is what a module
    of the SoC offers to the framework and what of its state the bus can see;
    [BusDeviceLaws] is what the devices promise to one another: every request
    is numbered and addressed by its maker, every response answers requests
    that were received. The lemmas at the end are for proving the promises. *)
From S2P Require Import Prelude Machine DataStruct Bus.
Local Open Scope Z_scope.

(** * Beats of requests and of responses *)

Inductive beat : Type :=
  | RBeat (p : XBarMemReadReqPayload)
  | WBeat (p : XBarMemWriteReqPayload).

Inductive answer : Type :=
  | RAns (p : XBarMemReadRespPayload)
  | WAns (p : XBarMemWriteRespPayload).

Definition beat_caller (b : beat) : string :=
  match b with RBeat p => rq_caller p | WBeat p => wq_caller p end.
Definition beat_tid (b : beat) : Z :=
  match b with RBeat p => rq_tid p | WBeat p => wq_tid p end.
Definition beat_addr (b : beat) : Z :=
  match b with RBeat p => rq_addr p | WBeat p => wq_addr p end.

(** An answer repeats the transaction, the instruction, the operation and the
    operand of its request; only the data are its own. *)
Definition answers (b : beat) (a : answer) : Prop :=
  match b, a with
  | RBeat p, RAns r =>
      rr_tid r = rq_tid p /\ rr_i r = rq_i p /\ rr_op r = rq_op p /\ rr_a1 r = rq_a1 p
  | WBeat p, WAns r => wr_tid r = wq_tid p /\ wr_i r = wq_i p
  | _, _ => False
  end.

Definition packet_beats (k : packet) : list beat :=
  match k with
  | ReadReq p => map RBeat (pk_payloads p)
  | WriteReq p => map WBeat (pk_payloads p)
  | _ => []
  end.

Definition packet_answers (k : packet) : list answer :=
  match k with
  | ReadResp p => map RAns (pk_payloads p)
  | WriteResp p => map WAns (pk_payloads p)
  | _ => []
  end.

Definition packet_src (k : packet) : nat :=
  match k with
  | ReadReq p => pk_src p | WriteReq p => pk_src p
  | ReadResp p => pk_src p | WriteResp p => pk_src p
  end.

Definition packet_dst (k : packet) : nat :=
  match k with
  | ReadReq p => pk_dst p | WriteReq p => pk_dst p
  | ReadResp p => pk_dst p | WriteResp p => pk_dst p
  end.

(** * Well-formed requests and responses *)

(** A request that a device called [name] makes as transaction [tid]. *)
Record wf_request (name : string) (tid : Z) (q : packet) : Prop := {
  wr_kind : packet_answers q = [];
  wr_source : packet_src q = getIndex name;
  wr_id : packet_tid q = tid;
  wr_some : exists b, head (packet_beats q) = Some b
    /\ packet_dst q = slaveIndex (beat_addr b);
  wr_beats : Forall (fun b => beat_caller b = name /\ beat_tid b = tid) (packet_beats q);
}.

(** From the requests [sent] and [waiting] to those with a prime, the requests
    [new] were made, with the next values of the counter, which was [s32 n]
    before and is [c] now. *)
Record makes (name : string) (n : Z) (sent waiting sent' waiting' : list packet) (c : Z)
    (new : list packet) : Prop := {
  mk_requests : forall q, q ∈ sent' ++ waiting' -> q ∈ sent ++ waiting \/ q ∈ new;
  mk_new : forall i q, new !! i = Some q -> wf_request name (s32 (n + Z.of_nat i)) q;
  mk_ctr : c = s32 (n + Z.of_nat (length new));
  mk_sent : forall q, q ∈ sent -> q ∈ sent';
}.

(** A response to some beat that satisfies [P]: it goes to the caller of that
    beat, and each of its answers answers a beat of the same transaction. *)
Record answered (P : beat -> Prop) (me : nat) (r : packet) : Prop := {
  an_kind : packet_beats r = [];
  an_some : packet_answers r <> [];
  an_source : packet_src r = me;
  an_caller : exists b0, P b0 /\ packet_dst r = getIndex (beat_caller b0)
    /\ Forall (fun a => exists b, P b /\ beat_tid b = beat_tid b0 /\ answers b a)
         (packet_answers r);
}.

(** * The interface of a device *)

(** What the framework calls: [step] with the packets popped from the slave
    ports, an event that the device has scheduled, or [masterPortRetry]. *)
Inductive call (Ev : Type) : Type :=
  | CStep (now delay : Z) (popped : list packet)
  | CFire (now delay : Z) (e : Ev)
  | CRetry (now : Z).
Arguments CStep {Ev}. Arguments CFire {Ev}. Arguments CRetry {Ev}.

(** [bd_run c] runs a call while the transaction counter of [XBarPacket.hh]
    is [c], and also gives the value it leaves in the counter. [bd_ports] is
    what the crossbar may do to the registers of the device: drain or stall
    them. *)
Class BusDevice (St Ev : Type) : Type := {
  bd_name : string;
  bd_run : Z -> call Ev -> St -> result (St * list Ev * Z);
  bd_ports : St -> St -> Prop;
  bd_sent : St -> list packet;
  bd_waiting : St -> list packet;
  bd_replied : St -> list packet;
  bd_owed : St -> list packet;
  bd_partial : St -> Z -> answer -> Prop;
  bd_beats : Ev -> list beat;
  bd_ok : St -> Prop;
}.

Section Promises.
Context `{BD : BusDevice St Ev}.

Definition bd_requests (s : St) : list packet := bd_sent s ++ bd_waiting s.
Definition bd_responses (s : St) : list packet := bd_replied s ++ bd_owed s.

(** The device has only answered beats that satisfy [P]. *)
Record serving (P : beat -> Prop) (s : St) : Prop := {
  sv_responses : forall r, r ∈ bd_responses s -> answered P (getIndex bd_name) r;
  sv_partial : forall t a, bd_partial s t a -> exists b, P b /\ beat_tid b = t /\ answers b a;
}.

Definition call_beats (c : call Ev) : list beat :=
  match c with
  | CStep _ _ popped => flat_map packet_beats popped
  | CFire _ _ e => bd_beats e
  | CRetry _ => []
  end.

(** The number of slave ports of a device: the crossbar has three masters on
    each of its two channels, and a port yields one packet in a step. *)
Definition slave_ports : nat := 6.

Definition call_size (c : call Ev) : nat :=
  match c with CStep _ _ popped => length popped | _ => 0 end.

(** What a device promises of every call. *)
Class BusDeviceLaws : Type := {
  bd_run_ok P n c s s' es ctr :
    bd_ok s -> serving P s -> (forall b, b ∈ call_beats c -> P b) ->
    (call_size c <= slave_ports)%nat -> bd_run (s32 n) c s = Ok (s', es, ctr) ->
    bd_ok s' /\ serving P s' /\ (forall e b, e ∈ es -> b ∈ bd_beats e -> P b)
    /\ exists new, makes bd_name n (bd_sent s) (bd_waiting s) (bd_sent s') (bd_waiting s') ctr new
       /\ Z.of_nat (length new) < 2 ^ 32;
  bd_ports_same s s' : bd_ports s s' ->
    bd_sent s' = bd_sent s /\ bd_waiting s' = bd_waiting s
    /\ bd_replied s' = bd_replied s /\ bd_owed s' = bd_owed s
    /\ (forall t a, bd_partial s' t a -> bd_partial s t a) /\ (bd_ok s -> bd_ok s');
}.
End Promises.
Arguments BusDeviceLaws : clear implicits.
Arguments BusDeviceLaws St Ev {BD}.

(** * Proving the promises *)

Lemma answered_mono (P Q : beat -> Prop) me r :
  (forall b, P b -> Q b) -> answered P me r -> answered Q me r.
Proof.
  intros HPQ [H1 H2 H3 (b0 & Hb & Hd & Ha)]. split; try done. exists b0. split; [by apply HPQ|].
  split; [done|]. eapply Forall_impl; [exact Ha|]. intros a (b & ? & ? & ?). eauto.
Qed.

Lemma answered_kind P me r : answered P me r -> packet_beats r = [].
Proof. by intros []. Qed.

(** ** Requests *)

Section Made.
Context (name : string) (n : Z) (sent0 waiting0 : list packet).

(** At most [B] requests have been made since [sent0] and [waiting0]. *)
Definition made (B : nat) (sent waiting : list packet) (c : Z) : Prop :=
  exists new, makes name n sent0 waiting0 sent waiting c new /\ (length new <= B)%nat.

Lemma made_none c : c = s32 n -> made 0 sent0 waiting0 c.
Proof.
  intros ->. exists []. split; [|done]. split; [by left|done|by rewrite Z.add_0_r|done].
Qed.

Lemma made_keep B B' sent waiting sent' waiting' c :
  made B sent waiting c -> (B <= B')%nat ->
  (forall q, q ∈ sent' ++ waiting' -> q ∈ sent ++ waiting) ->
  (forall q, q ∈ sent -> q ∈ sent') -> made B' sent' waiting' c.
Proof.
  intros (new & [M1 M2 M3 M4] & Hl) HB Hr Hs. exists new. split; [|lia]. split; auto.
Qed.

Lemma s32_succ x : s32 (s32 x + 1) = s32 (x + 1).
Proof.
  rewrite <- (sint_uint 32 (s32 x + 1)), <- (sint_uint 32 (x + 1)) by lia. f_equal.
  rewrite <- uint_add_l, uint_sint by lia. apply uint_add_l.
Qed.

Lemma made_new B sent waiting sent' waiting' c q :
  made B sent waiting c -> wf_request name c q ->
  (forall q', q' ∈ sent' ++ waiting' -> q' ∈ sent ++ waiting \/ q' = q) ->
  (forall q', q' ∈ sent -> q' ∈ sent') -> made (S B) sent' waiting' (s32 (c + 1)).
Proof.
  intros (new & [M1 M2 -> M4] & Hl) Hq Hr Hs. exists (new ++ [q]).
  split; [|rewrite length_app; simpl; lia]. split.
  - intros q' [H| ->]%Hr; [|right; apply elem_of_app; right; apply list_elem_of_here].
    apply M1 in H as [H|H]; [by left|right; apply elem_of_app; by left].
  - intros i q' [Hi|[Hi Hi2]]%lookup_app_Some; [by apply M2|].
    apply list_lookup_singleton_Some in Hi2 as [Hi2 <-].
    by replace i with (length new) by lia.
  - rewrite s32_succ, length_app. f_equal. simpl. lia.
  - auto.
Qed.
End Made.

(** ** Registers *)

Section Registers.
Context `{PR : PipeRegister} {PL : PipeRegisterLaws PR}.

(** A packet that is pushed, or queued if the register refuses it. *)
Lemma pushed r k ok r' : try_push r k = (ok, r') ->
  (forall q, q ∈ accepted r -> q ∈ accepted r') /\
  (forall w q, q ∈ accepted r' ++ (if ok then w else w ++ [k]) -> q ∈ accepted r ++ w \/ q = k).
Proof.
  intros E. destruct ok.
  - apply try_push_true in E as ->. split; set_solver.
  - apply try_push_false in E as ->. split; set_solver.
Qed.

(** The head of a queue that is pushed, and stays if it is refused. *)
Lemma popped r k ok r' : try_push r k = (ok, r') ->
  (forall q, q ∈ accepted r -> q ∈ accepted r') /\
  (forall w q, q ∈ accepted r' ++ (if ok then w else k :: w) -> q ∈ accepted r ++ k :: w).
Proof.
  intros E. destruct ok.
  - apply try_push_true in E as ->. split; set_solver.
  - apply try_push_false in E as ->. split; set_solver.
Qed.

Lemma push_grows r k : 
  (forall q, q ∈ accepted r -> q ∈ accepted (push r k).2) /\
  (forall q, q ∈ accepted (push r k).2 -> q ∈ accepted r \/ q = k).
Proof.
  destruct (push r k) as [[] r'] eqn:E; simpl.
  - apply push_true in E as ->. set_solver.
  - apply push_false in E as ->. auto.
Qed.
End Registers.

(** ** Packets *)

Lemma wf_read_single ctr i op addr a1 name :
  wf_request name ctr (ReadReq (Construct_MemReadpkt_non_burst ctr i op addr a1 name).1).
Proof.
  split; try done; [|by repeat constructor]. by eexists.
Qed.

Lemma wf_write_single ctr i op addr data name :
  wf_request name ctr (WriteReq (Construct_MemWritepkt_non_burst ctr i op addr data name).1).
Proof.
  split; try done; [|by repeat constructor]. by eexists.
Qed.

Lemma wf_read_burst ctr name ps k ctr' :
  Construct_MemReadpkt_burst ctr name ps = Ok (k, ctr') ->
  wf_request name ctr (ReadReq (setTID (pk_tid k) k)) /\ ctr' = s32 (ctr + 1).
Proof.
  intros E. destruct ps as [|p ps]; [done|].
  erewrite Construct_MemReadpkt_burst_ok in E by done. injection E as <- <-. split; [|done].
  split; try done; [by eexists|]. cbn. apply Forall_forall. intros b Hb.
  cbn in Hb. apply elem_of_cons in Hb as [->|Hb]; [done|].
  rewrite map_map in Hb. apply list_elem_of_In, in_map_iff in Hb as (p' & <- & _). done.
Qed.

Lemma wf_write_burst ctr name ps k ctr' :
  Construct_MemWritepkt_burst ctr name ps = Ok (k, ctr') ->
  wf_request name ctr (WriteReq (setTID (pk_tid k) k)) /\ ctr' = s32 (ctr + 1).
Proof.
  intros E. destruct ps as [|p ps]; [done|].
  erewrite Construct_MemWritepkt_burst_ok in E by done. injection E as <- <-. split; [|done].
  split; try done; [by eexists|]. cbn. apply Forall_forall. intros b Hb.
  cbn in Hb. apply elem_of_cons in Hb as [->|Hb]; [done|].
  rewrite map_map in Hb. apply list_elem_of_In, in_map_iff in Hb as (p' & <- & _). done.
Qed.

Section Answers.
Context `{Framework} (P : beat -> Prop).

(** The answers in [l] all answer beats of transaction [t]. *)
Definition all_answer (t : Z) (l : list answer) : Prop :=
  forall a, a ∈ l -> exists b, P b /\ beat_tid b = t /\ answers b a.

Lemma read_answered name beats p k t : beats <> [] -> P (RBeat p) ->
  all_answer (rq_tid p) (map RAns beats) ->
  Construct_MemReadRespPkt beats name (rq_caller p) = Ok k ->
  answered P (getIndex name) (ReadResp k) /\ answered P (getIndex name) (ReadResp (setTID t k)).
Proof.
  intros Hne Hp Ha. rewrite Construct_MemReadRespPkt_ok by done. intros [= <-].
  split; (split; [done|by destruct beats|done|]; exists (RBeat p); split; [done|]; split; [done|]).
  all: apply Forall_forall; intros a Hin; by apply Ha.
Qed.

Lemma write_answered name beats p k t : beats <> [] -> P (WBeat p) ->
  all_answer (wq_tid p) (map WAns beats) ->
  Construct_MemWriteRespPkt beats name (wq_caller p) = Ok k ->
  answered P (getIndex name) (WriteResp k) /\ answered P (getIndex name) (WriteResp (setTID t k)).
Proof.
  intros Hne Hp Ha. rewrite Construct_MemWriteRespPkt_ok by done. intros [= <-].
  split; (split; [done|by destruct beats|done|]; exists (WBeat p); split; [done|]; split; [done|]).
  all: apply Forall_forall; intros a Hin; by apply Ha.
Qed.

Lemma all_answer_one t b a : P b -> beat_tid b = t -> answers b a -> all_answer t [a].
Proof. intros ???? ->%list_elem_of_singleton. by exists b. Qed.

(** Accesses of one beat. *)
Lemma read_one_answered name p v k : P (RBeat p) ->
  Construct_MemReadRespPkt [ReadRespPayload (rq_tid p) (rq_i p) (rq_op p) v (rq_a1 p)]
    name (rq_caller p) = Ok k -> answered P (getIndex name) (ReadResp k).
Proof.
  intros Hp Hk. eapply (read_answered name) in Hk as [Hk _]; [exact Hk|done|done|].
  by apply (all_answer_one _ (RBeat p)).
Unshelve. exact 0.
Qed.

Lemma write_one_answered name p k : P (WBeat p) ->
  Construct_MemWriteRespPkt [WriteRespPayload (wq_tid p) (wq_i p)] name (wq_caller p) = Ok k ->
  answered P (getIndex name) (WriteResp k).
Proof.
  intros Hp Hk. eapply (write_answered name) in Hk as [Hk _]; [exact Hk|done|done|].
  by apply (all_answer_one _ (WBeat p)).
Unshelve. exact 0.
Qed.

Lemma all_answer_app t l l' : all_answer t l -> all_answer t l' -> all_answer t (l ++ l').
Proof. intros H1 H2 a [Ha|Ha]%elem_of_app; auto. Qed.
End Answers.
