(* ===== verification/Network.v ===== *)
(** Devices wired to the two channels of a crossbar, as a step relation, and
    what holds of its reachable states, proved from the interface of [Device]
    alone: a response that reaches a device answers a request that this device
    has sent, beat for beat. *)
From S2P Require Import Prelude Machine DataStruct Bus Device.
Local Open Scope Z_scope.

(** * The crossbar and its wiring *)

Inductive channel : Type := Req | Resp.

#[export] Instance channel_eq_dec : EqDecision channel.
Proof. solve_decision. Defined.

(** The crossbar belongs to the framework: from a master port of a channel it
    hands a packet to a slave port. *)
Class CrossBar : Type := { xb_out : channel -> nat -> packet -> nat }.
Class CrossBarLaws `(CrossBar) : Prop := {
  xb_routes : forall ch i k, xb_out ch i k = packet_dst k;
}.

(** Which device the ports of the crossbar are connected to. *)
Class Wiring (D : Type) : Type := {
  master_port : channel -> D -> option nat;
  slave_device : channel -> nat -> option D;
}.

(** The request port of a device carries its number, and what is sent to that
    number on the response channel comes back to the device. *)
Class WiringLaws (D : Type) `{Wiring D} (name : D -> string) : Prop := {
  wl_name : forall d i, master_port Req d = Some i -> i = getIndex (name d);
  wl_back : forall d i, master_port Req d = Some i -> slave_device Resp i = Some d;
}.

(** * The network *)

Section Network.
Context {D : Type} `{EqDecision D} (St Ev : D -> Type) `{DV : forall d, BusDevice (St d) (Ev d)}.
Context `{W : Wiring D} `{X : CrossBar}.

(** [n_taken ch d] packets of the register of [d] on channel [ch] have left it;
    [n_count] transactions have been numbered. *)
Record net : Type := Net {
  n_dev : forall d, St d;
  n_pend : forall d, list (Ev d);
  n_taken : channel -> D -> nat;
  n_count : Z;
}.

Definition issued (Y : net) (ch : channel) (d : D) : list packet :=
  match ch with
  | Req => bd_sent (n_dev Y d)
  | Resp => bd_replied (n_dev Y d)
  end.

(** The crossbar hands packet [k] of device [m] to device [d]. *)
Definition routed (ch : channel) (m : D) (k : packet) (d : D) : Prop :=
  exists i, master_port ch m = Some i /\ slave_device ch (xb_out ch i k) = Some d.

(** Popping packets at the slave ports of [d], each register in order. *)
Inductive pops (Y : net) (d : D) :
    (channel -> D -> nat) -> list packet -> (channel -> D -> nat) -> Prop :=
  | pops_nil t : pops Y d t [] t
  | pops_cons t t1 t' ch m k ks :
      issued Y ch m !! t ch m = Some k -> routed ch m k d ->
      t1 ch m = S (t ch m) ->
      (forall ch' m', (ch', m') <> (ch, m) -> t1 ch' m' = t ch' m') ->
      pops Y d t1 ks t' -> pops Y d t (k :: ks) t'.

(** The calls that the framework can make to [d]; what is still pending and
    what has been taken afterwards. Events fire in any order, which covers the
    order of their ticks. *)
Inductive offers (Y : net) (d : D) :
    call (Ev d) -> list (Ev d) -> (channel -> D -> nat) -> Prop :=
  | offers_retry now : offers Y d (CRetry now) (n_pend Y d) (n_taken Y)
  | offers_fire now delay e l1 l2 :
      n_pend Y d = l1 ++ e :: l2 -> offers Y d (CFire now delay e) (l1 ++ l2) (n_taken Y)
  | offers_step now delay ks t :
      pops Y d (n_taken Y) ks t -> (length ks <= slave_ports)%nat ->
      offers Y d (CStep now delay ks) (n_pend Y d) t.

Definition others_same (d : D) (Y Y' : net) : Prop :=
  forall d', d' <> d -> n_dev Y' d' = n_dev Y d' /\ n_pend Y' d' = n_pend Y d'.

(** What a call of [d] leaves. *)
Inductive called (Y : net) (d : D) (c : call (Ev d)) (Y' : net) : Prop :=
  | Called pend es ctr :
      offers Y d c pend (n_taken Y') ->
      bd_run (s32 (n_count Y)) c (n_dev Y d) = Ok (n_dev Y' d, es, ctr) ->
      n_pend Y' d = pend ++ es -> others_same d Y Y' ->
      n_count Y' = n_count Y + uint 32 (ctr - s32 (n_count Y)) ->
      called Y d c Y'.

(** The crossbar drains or stalls the registers of [d]. *)
Record moved (Y : net) (d : D) (Y' : net) : Prop := {
  mv_ports : bd_ports (n_dev Y d) (n_dev Y' d);
  mv_pend : n_pend Y' d = n_pend Y d;
  mv_others : others_same d Y Y';
  mv_taken : n_taken Y' = n_taken Y;
  mv_count : n_count Y' = n_count Y;
}.

Inductive net_step (Y Y' : net) : Prop :=
  | net_call d c : called Y d c Y' -> net_step Y Y'
  | net_ports d : moved Y d Y' -> net_step Y Y'.

(** Before the first call: nothing has been sent, and no pending event is of
    a request. *)
Record booted (Y : net) : Prop := {
  bt_ok : forall d, bd_ok (n_dev Y d);
  bt_requests : forall d, bd_requests (n_dev Y d) = [];
  bt_responses : forall d, bd_responses (n_dev Y d) = [];
  bt_partial : forall d t a, ~ bd_partial (n_dev Y d) t a;
  bt_pend : forall d e, e ∈ n_pend Y d -> bd_beats e = [];
  bt_count : n_count Y = 0;
}.

Definition reachable (Y : net) : Prop := exists Y0, booted Y0 /\ rtc net_step Y0 Y.

(** * What is popped *)

(** A device to which one register leads pops from that one, in order. *)
Lemma pops_one Y d ch m t ks t' : pops Y d t ks t' ->
  (forall ch' m' k, k ∈ drop (t ch' m') (issued Y ch' m') -> routed ch' m' k d -> ch' = ch /\ m' = m) ->
  ks `prefix_of` drop (t ch m) (issued Y ch m) /\ t' ch m = (t ch m + length ks)%nat
  /\ forall ch' m', (ch', m') <> (ch, m) -> t' ch' m' = t ch' m'.
Proof.
  intros Hp. induction Hp as [t|t t1 t' ch1 m1 k ks Hk Hr H1 Hoth _ IH]; intros Honly.
  - split; [apply prefix_nil|]. split; [cbn; lia|done].
  - destruct (Honly ch1 m1 k) as [-> ->]; [rewrite (drop_S _ _ _ Hk); left|done|].
    destruct IH as (IH1 & IH2 & IH3).
    { intros ch' m' k' Hk'. apply Honly. destruct (decide ((ch', m') = (ch, m))) as [[= -> ->]|Hne].
      - rewrite H1 in Hk'. rewrite (drop_S _ _ _ Hk). by right.
      - by rewrite Hoth in Hk'. }
    rewrite H1 in *. split_and!.
    + rewrite (drop_S _ _ _ Hk). by apply prefix_cons.
    + rewrite IH2. cbn. lia.
    + intros ch' m' Hne. rewrite IH3, Hoth by done. done.
Qed.

(** A device to which no register leads pops nothing. *)
Lemma pops_nothing Y d t ks t' : pops Y d t ks t' ->
  (forall ch' m' k, k ∈ drop (t ch' m') (issued Y ch' m') -> ~ routed ch' m' k d) -> ks = [] /\ t' = t.
Proof.
  intros Hp Hno. destruct Hp as [t|t t1 t' ch m k ks Hk Hr _ _ _]; [done|].
  destruct (Hno ch m k); [rewrite (drop_S _ _ _ Hk); left|done].
Qed.

(** What a register holds can be popped. *)
Lemma pops_exist Y d ch m ks : forall t, ks `prefix_of` drop (t ch m) (issued Y ch m) ->
  Forall (fun k => routed ch m k d) ks ->
  exists t', pops Y d t ks t' /\ t' ch m = (t ch m + length ks)%nat
    /\ forall ch' m', (ch', m') <> (ch, m) -> t' ch' m' = t ch' m'.
Proof.
  induction ks as [|k ks IH]; intros t [rest Hd] Hf.
  - exists t. split; [constructor|]. split; [cbn; lia|done].
  - apply Forall_cons in Hf as [Hr Hf]. cbn [app] in Hd.
    set (t1 := fun ch' m' => if decide ((ch', m') = (ch, m)) then S (t ch m) else t ch' m').
    assert (E1 : t1 ch m = S (t ch m)) by (unfold t1; by rewrite decide_True).
    assert (Hoth : forall ch' m', (ch', m') <> (ch, m) -> t1 ch' m' = t ch' m')
      by (intros ch' m' Hne; unfold t1; by rewrite decide_False).
    destruct (IH t1) as (t' & Hp & E' & Hoth'); [|done|].
    { exists rest. rewrite E1, <- Nat.add_1_r, <- drop_drop, Hd. done. }
    exists t'. split; [|split; [rewrite E', E1; cbn; lia|intros ch' m' Hne; by rewrite Hoth', Hoth]].
    eapply pops_cons; [|exact Hr|exact E1|exact Hoth|exact Hp].
    apply (f_equal head) in Hd. rewrite <- (Nat.add_0_r (t ch m)), <- lookup_drop. by rewrite head_lookup in Hd.
Qed.

(** * The invariant *)

Context {DL : forall d, BusDeviceLaws (St d) (Ev d)}.

(** The beats that may have reached [d]. *)
Definition delivered (Y : net) (d : D) (b : beat) : Prop :=
  exists m q, q ∈ bd_sent (n_dev Y m) /\ routed Req m q d /\ b ∈ packet_beats q.

(** [log] are the requests ever made, in the order of their numbers. *)
Record sound (Y : net) (log : list (D * packet)) : Prop := {
  so_ok : forall d, bd_ok (n_dev Y d);
  so_count : n_count Y = Z.of_nat (length log);
  so_log : forall d q, q ∈ bd_requests (n_dev Y d) -> (d, q) ∈ log;
  so_wf : forall i d q, log !! i = Some (d, q) ->
    wf_request (bd_name (BusDevice := DV d)) (s32 (Z.of_nat i)) q;
  so_serving : forall d, serving (delivered Y d) (n_dev Y d);
  so_pend : forall d e b, e ∈ n_pend Y d -> b ∈ bd_beats e -> delivered Y d b;
}.

Lemma serving_mono d (P Q : beat -> Prop) (s : St d) :
  (forall b, P b -> Q b) -> serving P s -> serving Q s.
Proof.
  intros HPQ [H1 H2]. split.
  - intros r Hr. eapply answered_mono; [done|]. by apply H1.
  - intros t a Ha. destruct (H2 t a Ha) as (b & ? & ? & ?). eauto.
Qed.

(** The counter, an [int], tells the number of requests made in a call. *)
Lemma count_made n k : 0 <= k < 2 ^ 32 -> uint 32 (s32 (n + k) - s32 n) = k.
Proof.
  intros Hk. rewrite <- uint_sub_l, <- uint_sub_r. rewrite !uint_sint by lia.
  rewrite uint_sub_l, uint_sub_r. rewrite uint_id; [lia|]. unfold is_u. lia.
Qed.

Lemma pops_delivered Y d t ks t' : pops Y d t ks t' ->
  forall b, b ∈ flat_map packet_beats ks ->
  (forall m r, r ∈ bd_replied (n_dev Y m) -> packet_beats r = []) -> delivered Y d b.
Proof.
  induction 1 as [|t t1 t' ch m k ks Hk Hr _ _ Hp IH]; intros b Hb Hresp;
    [by apply not_elem_of_nil in Hb|].
  cbn [flat_map] in Hb. apply elem_of_app in Hb as [Hb|Hb]; [|by apply IH].
  apply list_elem_of_lookup_2 in Hk. destruct ch; cbn in Hk.
  - by exists m, k.
  - rewrite (Hresp _ _ Hk) in Hb. by apply not_elem_of_nil in Hb.
Qed.

Lemma delivered_mono Y Y' d b :
  (forall m q, q ∈ bd_sent (n_dev Y m) -> q ∈ bd_sent (n_dev Y' m)) ->
  delivered Y d b -> delivered Y' d b.
Proof. intros Hs (m & q & Hq & Hr & Hb). exists m, q. auto. Qed.

Lemma call_delivered Y log d c pend taken : sound Y log -> offers Y d c pend taken ->
  (forall b, b ∈ call_beats c -> delivered Y d b) /\ (call_size c <= slave_ports)%nat
  /\ forall e, e ∈ pend -> e ∈ n_pend Y d.
Proof.
  intros HS Ho. destruct Ho as [now|now delay e l1 l2 He|now delay ks t Hp Hk]; cbn.
  - split; [|split; [lia|done]]. intros b Hb. by apply not_elem_of_nil in Hb.
  - rewrite He. split; [|split; [lia|]].
    + intros b. eapply so_pend; [done|]. rewrite He. apply elem_of_app. right. apply list_elem_of_here.
    + intros e' [?|?]%elem_of_app; apply elem_of_app; [by left|right; by apply list_elem_of_further].
  - split; [|done]. intros b Hb. eapply pops_delivered; [exact Hp|done|].
    intros m r Hr. destruct (so_serving _ _ HS m) as [H1 _].
    destruct (H1 r) as [Hk1 _ _ _]; [|done]. apply elem_of_app. by left.
Qed.

Lemma sound_call Y Y' log d c pend es ctr :
  sound Y log -> offers Y d c pend (n_taken Y') ->
  bd_run (s32 (n_count Y)) c (n_dev Y d) = Ok (n_dev Y' d, es, ctr) ->
  n_pend Y' d = pend ++ es -> others_same d Y Y' ->
  n_count Y' = n_count Y + uint 32 (ctr - s32 (n_count Y)) ->
  exists log', sound Y' log'.
Proof.
  intros HS Ho Hrun Hpend Hoth Hcnt. destruct (call_delivered _ _ _ _ _ _ HS Ho) as (Hb & Hsz & Hp).
  destruct (bd_run_ok _ _ _ _ _ _ _ (so_ok _ _ HS d) (so_serving _ _ HS d) Hb Hsz Hrun)
    as (Hok & Hsv & Hes & new & [M1 M2 -> M4] & Hnew).
  rewrite count_made in Hcnt by lia.
  assert (forall d' b, delivered Y d' b -> delivered Y' d' b) as Hmono.
  { intros d' b. apply delivered_mono. intros m q Hq. destruct (decide (m = d)) as [->|Hm].
    - by apply M4.
    - by destruct (Hoth m Hm) as [-> _]. }
  exists (log ++ map (pair d) new). split.
  - intros d'. destruct (decide (d' = d)) as [->|Hd]; [done|].
    destruct (Hoth d' Hd) as [-> _]. by apply so_ok with log.
  - rewrite Hcnt, (so_count _ _ HS), length_app, length_map. lia.
  - intros d' q Hq. apply elem_of_app. destruct (decide (d' = d)) as [->|Hd].
    + apply M1 in Hq as [Hq|Hq]; [left; by apply (so_log _ _ HS)|right].
      apply list_elem_of_fmap. by exists q.
    + left. destruct (Hoth d' Hd) as [E _]. apply (so_log _ _ HS). by rewrite <- E.
  - intros i d' q [Hi|[Hi Hi2]]%lookup_app_Some; [by apply (so_wf _ _ HS)|].
    change (map (pair d) new) with (pair d <$> new) in Hi2.
    apply list_lookup_fmap_Some in Hi2 as (q' & [= -> ->] & Hq'). rewrite (so_count _ _ HS) in M2.
    replace (Z.of_nat i) with (Z.of_nat (length log) + Z.of_nat (i - length log)) by lia. by apply M2.
  - intros d'. destruct (decide (d' = d)) as [->|Hd].
    + eapply serving_mono; [by apply Hmono|done].
    + destruct (Hoth d' Hd) as [-> _]. eapply serving_mono; [by apply Hmono|by apply so_serving with log].
  - intros d' e b He Hbe. apply Hmono. destruct (decide (d' = d)) as [->|Hd].
    + rewrite Hpend in He. apply elem_of_app in He as [He|He]; [|by eapply Hes].
      eapply so_pend; [done|by apply Hp|done].
    + destruct (Hoth d' Hd) as [_ E]. rewrite E in He. by eapply so_pend.
Qed.

Lemma sound_ports Y Y' log d : sound Y log ->
  bd_ports (n_dev Y d) (n_dev Y' d) -> n_pend Y' d = n_pend Y d -> others_same d Y Y' ->
  n_count Y' = n_count Y -> sound Y' log.
Proof.
  intros HS Hp Hpend Hoth Hcnt.
  destruct (bd_ports_same _ _ Hp) as (E1 & E2 & E3 & E4 & Hpart & Hok).
  assert (forall d' b, delivered Y d' b -> delivered Y' d' b) as Hmono.
  { intros d' b. apply delivered_mono. intros m q Hq. destruct (decide (m = d)) as [->|Hm].
    - by rewrite E1.
    - by destruct (Hoth m Hm) as [-> _]. }
  split.
  - intros d'. destruct (decide (d' = d)) as [->|Hd]; [by apply Hok, (so_ok _ _ HS)|].
    destruct (Hoth d' Hd) as [-> _]. by apply so_ok with log.
  - rewrite Hcnt. by apply (so_count _ _ HS).
  - intros d' q Hq. apply (so_log _ _ HS). destruct (decide (d' = d)) as [->|Hd].
    + unfold bd_requests in *. by rewrite <- E1, <- E2.
    + by destruct (Hoth d' Hd) as [<- _].
  - by apply (so_wf _ _ HS).
  - intros d'. eapply serving_mono; [by apply Hmono|]. destruct (decide (d' = d)) as [->|Hd].
    + destruct (so_serving _ _ HS d) as [H1 H2]. split; [|intros t a Ha; by apply H2, Hpart].
      intros r Hr. apply H1. unfold bd_responses in *. by rewrite <- E3, <- E4.
    + destruct (Hoth d' Hd) as [-> _]. by apply so_serving with log.
  - intros d' e b He Hb. apply Hmono. eapply so_pend; [done| |done].
    destruct (decide (d' = d)) as [->|Hd]; [by rewrite <- Hpend|].
    by destruct (Hoth d' Hd) as [_ <-].
Qed.

Lemma booted_sound Y : booted Y -> sound Y [].
Proof.
  intros [B1 B2 B3 B4 B5 B6]. split; try done.
  - intros d q. rewrite B2. by intros ?%not_elem_of_nil.
  - intros d. split; [intros r; rewrite B3; by intros ?%not_elem_of_nil|].
    intros t a Ha. by destruct (B4 d t a).
  - intros d e b He. rewrite (B5 d e He). by intros ?%not_elem_of_nil.
Qed.

Lemma reachable_sound Y : reachable Y -> exists log, sound Y log.
Proof.
  intros (Y0 & HB & Hsteps).
  assert (exists log, sound Y0 log) as Hs by (exists []; by apply booted_sound). clear HB.
  induction Hsteps as [Y|Y0 Y1 Y Hst _ IH]; [done|]. apply IH. destruct Hs as [log Hs].
  destruct Hst as [d c [pend es ctr Ho Hrun Hp Hoth Hc]|d [Hp Hpend Hoth _ Hc]].
  - by eapply sound_call.
  - exists log. by eapply sound_ports.
Qed.

(** * What the invariant gives *)

Lemma sound_request Y log d q : sound Y log -> q ∈ bd_requests (n_dev Y d) ->
  exists i, (i < length log)%nat /\ log !! i = Some (d, q)
    /\ wf_request (bd_name (BusDevice := DV d)) (s32 (Z.of_nat i)) q.
Proof.
  intros HS Hq. apply (so_log _ _ HS), list_elem_of_lookup_1 in Hq as [i Hi].
  exists i. split; [by eapply lookup_lt_Some|]. split; [done|]. by apply (so_wf _ _ HS).
Qed.

Lemma s32_inj i j : 0 <= i < 2 ^ 32 -> 0 <= j < 2 ^ 32 -> s32 i = s32 j -> i = j.
Proof.
  intros Hi Hj E. assert (u32 (s32 i) = u32 (s32 j)) as Hu by congruence.
  rewrite !uint_sint, !uint_id in Hu by (unfold is_u; lia). done.
Qed.

(** While the counter has not come around, a number belongs to one request. *)
Lemma sound_unique Y log d d' q q' : sound Y log -> n_count Y <= 2 ^ 32 ->
  q ∈ bd_requests (n_dev Y d) -> q' ∈ bd_requests (n_dev Y d') ->
  packet_tid q = packet_tid q' -> d = d' /\ q = q'.
Proof.
  intros HS Hn Hq Hq' Ht.
  destruct (sound_request _ _ _ _ HS Hq) as (i & Hi & L & [_ _ T _ _]).
  destruct (sound_request _ _ _ _ HS Hq') as (j & Hj & L' & [_ _ T' _ _]).
  pose proof (so_count _ _ HS) as Hc.
  assert (Z.of_nat i = Z.of_nat j) as E by (apply s32_inj; [lia|lia|congruence]).
  apply Nat2Z.inj in E as ->. rewrite L in L'. by injection L' as -> ->.
Qed.

Context {XL : CrossBarLaws X} {WL : WiringLaws D (fun d => bd_name (BusDevice := DV d))}.

Lemma routed_unique ch m k d d' : routed ch m k d -> routed ch m k d' -> d = d'.
Proof. intros (i & Hi & Hd) (j & Hj & Hd'). congruence. Qed.

(** A response is handed to a device that has sent a request to the one that
    responds, and answers this request beat for beat. *)
Lemma response_answers_request Y k j r :
  reachable Y -> n_count Y <= 2 ^ 32 ->
  r ∈ bd_replied (n_dev Y k) -> master_port Resp k = Some j ->
  packet_answers r <> [] /\
  exists m q, routed Resp k r m /\ q ∈ bd_sent (n_dev Y m) /\ routed Req m q k
    /\ Forall (fun a => exists b, b ∈ packet_beats q /\ answers b a) (packet_answers r).
Proof.
  intros Hreach Hn Hr Hj. destruct (reachable_sound _ Hreach) as [log HS].
  destruct (sv_responses _ _ (so_serving _ _ HS k) r) as [_ Hne _ (b0 & (m & q0 & Hq0 & Hr0 & Hb0) & Hdst & Ha)].
  { apply elem_of_app. by left. }
  assert (forall d q, q ∈ bd_sent (n_dev Y d) -> q ∈ bd_requests (n_dev Y d)) as Hsub.
  { intros d q Hq. apply elem_of_app. by left. }
  destruct (sound_request _ _ _ _ HS (Hsub _ _ Hq0)) as (i0 & _ & _ & [_ _ T0 _ B0]).
  rewrite Forall_forall in B0. pose proof (B0 b0 Hb0) as [Hc0 Ht0].
  split; [done|]. exists m, q0. split.
  { pose proof Hr0 as (i & Hi & _). exists j. split; [done|]. rewrite xb_routes, Hdst, Hc0.
    pose proof (wl_name (D := D) _ _ Hi) as Hname. cbn in Hname. rewrite <- Hname. by apply wl_back. }
  split; [done|]. split; [done|].
  eapply Forall_impl; [exact Ha|]. intros a (b & (m1 & q1 & Hq1 & Hr1 & Hb1) & Ht & Hans).
  exists b. split; [|done].
  destruct (sound_request _ _ _ _ HS (Hsub _ _ Hq1)) as (i1 & _ & _ & [_ _ T1 _ B1]).
  rewrite Forall_forall in B1. pose proof (B1 b Hb1) as [_ Ht1].
  destruct (sound_unique _ _ _ _ _ _ HS Hn (Hsub _ _ Hq1) (Hsub _ _ Hq0)) as [_ ->]; [congruence|done].
Qed.

(** What is on the request channel is a request, numbered and addressed by its
    sender. *)
Lemma sent_wf Y m q : reachable Y -> q ∈ bd_sent (n_dev Y m) ->
  exists tid, wf_request (bd_name (BusDevice := DV m)) tid q.
Proof.
  intros Hreach Hq. destruct (reachable_sound _ Hreach) as [log HS].
  destruct (sound_request Y log m q HS) as (i & _ & _ & Hw); [|eauto].
  apply elem_of_app. by left.
Qed.
End Network.
