(* ===== verification/SocDevices.v ===== *)
(** The processor with its function unit, and the data memory, as devices of
    the crossbar ([Device]): their calls are those of [Cpu], [Cfu] and
    [DataMemory], and they keep the promises. *)
From S2P Require Import Prelude Machine DataStruct Memory Bus DataMemory Cfu Isa Cpu Device.
Local Open Scope Z_scope.

(** * The processor and the function unit *)

(** What is pending between the two: the next instruction, and a packet on
    either of the channels that connect them. *)
Inductive core_event : Type :=
  | CoreExec (tick : Z)
  | CoreToCfu (p : CFUReqPacket)
  | CoreFromCfu (p : CFURespPacket).

Definition core_event_of (w : cpu_effect) : core_event :=
  match w with
  | ExecOneInstrEvent t _ => CoreExec t
  | ToCFU p => CoreToCfu p
  end.

Section Core.
Context `{Framework} {PR : PipeRegister} {PL : PipeRegisterLaws PR}.

Definition Core : Type := CPU * CFU.

Definition on_cpu (c : Z) (m : M CPU cpu_effect unit) (s : Core) : result (Core * list core_event * Z) :=
  '(s1, w) ← outcome m (set_bus (c_queue s.1) (c_reg s.1) c s.1);
  Ok ((s1, s.2), map core_event_of w, c_ctr s1).

Definition core_run (c : Z) (k : call core_event) (s : Core) : result (Core * list core_event * Z) :=
  match k with
  | CStep now _ popped => on_cpu c (Cpu.step now (map BusItem popped)) s
  | CFire _ _ (CoreExec t) => on_cpu c (execOneInstr t) s
  | CFire now _ (CoreFromCfu p) => on_cpu c (CFURespHandler now p) s
  | CFire _ _ (CoreToCfu p) =>
      '(u, w) ← outcome (cfu_step [p]) s.2; Ok ((s.1, u), map CoreFromCfu w, c)
  | CRetry now => on_cpu c (Cpu.masterPortRetry now) s
  end.

#[export] Instance core_device : BusDevice Core core_event := {
  bd_name := "cpu";
  bd_run := core_run;
  bd_ports s s' := s'.2 = s.2 /\ exists r, accepted r = accepted (c_reg s.1)
    /\ s'.1 = set_bus (c_queue s.1) r (c_ctr s.1) s.1;
  bd_sent s := accepted (c_reg s.1);
  bd_waiting s := c_queue s.1;
  bd_replied _ := [];
  bd_owed _ := [];
  bd_partial _ _ _ := False;
  bd_beats _ := [];
  bd_ok _ := True;
}.

(** At most [B] requests since the state [s0]. *)
Definition cpu_made (n : Z) (s0 : CPU) (B : nat) (s : CPU) : Prop :=
  made "cpu" n (accepted (c_reg s0)) (c_queue s0) B (accepted (c_reg s)) (c_queue s) (c_ctr s).

Lemma cpu_made_mono n s0 B B' (s : CPU) : (B <= B')%nat -> cpu_made n s0 B s -> cpu_made n s0 B' s.
Proof. intros HB Hs. by eapply made_keep. Qed.

Lemma read_sends n s0 B i op addr a1 s : cpu_made n s0 B s ->
  wp (BusMemRead i op addr a1) (fun _ s' _ => cpu_made n s0 (S B) s') s.
Proof.
  intros Hs. unfold BusMemRead. wp_step. wp_step. cbn beta zeta.
  destruct (Construct_MemReadpkt_non_burst (c_ctr s) i op addr a1 "cpu") as [pkt ctr] eqn:Hk.
  pose proof (wf_read_single (c_ctr s) i op addr a1 "cpu") as Hwf. rewrite Hk in Hwf.
  assert (ctr = s32 (c_ctr s + 1)) as -> by (by injection Hk).
  destruct (try_push (c_reg s) (ReadReq pkt)) as [ok r] eqn:Hp. apply pushed in Hp as [G1 G2].
  wp_steps. eapply made_new; [exact Hs|exact Hwf| |exact G1]. intros q'. apply G2.
Qed.

Lemma write_sends n s0 B i op addr v s : cpu_made n s0 B s ->
  wp (BusmemWrite i op addr v) (fun _ s' _ => cpu_made n s0 (S B) s') s.
Proof.
  intros Hs. unfold BusmemWrite. wp_step. wp_step. cbn beta zeta.
  destruct (Construct_MemWritepkt_non_burst (c_ctr s) i op addr v "cpu") as [pkt ctr] eqn:Hk.
  pose proof (wf_write_single (c_ctr s) i op addr v "cpu") as Hwf. rewrite Hk in Hwf.
  assert (ctr = s32 (c_ctr s + 1)) as -> by (by injection Hk).
  destruct (try_push (c_reg s) (WriteReq pkt)) as [ok r] eqn:Hp. apply pushed in Hp as [G1 G2].
  wp_steps. eapply made_new; [exact Hs|exact Hwf| |exact G1]. intros q'. apply G2.
Qed.

(** Walk through a handler that does not touch the bus. *)
Ltac off_bus :=
  repeat first
    [ wp_step
    | progress unfold read_rf, write_rf, finish, commitInstr, advance_pc, CFUReq ];
  try done.

Lemma process_made now i n s0 s : cpu_made n s0 0 s ->
  wp (processInstr now i) (fun _ s' _ => cpu_made n s0 1 s') s.
Proof.
  intros Hs. unfold processInstr, incrementInstCount. wp_steps; cbn zeta.
  all: assert (cpu_made n s0 1 s) as Hs1 by (eapply cpu_made_mono; [|exact Hs]; lia).
  all: try (off_bus; fail).
  all: unfold read_rf; wp_steps.
  all: try (eapply wp_mono; [first [apply read_sends | apply write_sends]; exact Hs|]).
  all: intros b s1 w1 Hs2; off_bus.
Qed.

Lemma retry_push n s0 s k q ok r : cpu_made n s0 0 s ->
  c_queue s = k :: q -> push (c_reg s) k = (ok, r) ->
  cpu_made n s0 0 (set_bus (if ok then q else k :: q) r (c_ctr s) s) /\
  cpu_made n s0 0 (set_bus (k :: q) r (c_ctr s) s).
Proof.
  intros Hs Hq Hp. destruct ok.
  - apply push_true in Hp.
    split; (eapply made_keep; [exact Hs|done|..]); cbn; rewrite ?Hq, Hp; set_solver.
  - apply push_false in Hp as ->.
    split; (eapply made_keep; [exact Hs|done|..]); cbn; rewrite ?Hq; set_solver.
Qed.

Lemma retry_made now n s0 s : cpu_made n s0 0 s ->
  wp (Cpu.masterPortRetry now) (fun _ s' _ => cpu_made n s0 0 s') s.
Proof.
  intros Hs. unfold Cpu.masterPortRetry. off_bus.
  all: match goal with Hq : c_queue _ = _, Hp : push _ _ = _ |- _ =>
    by destruct (retry_push _ _ _ _ _ _ _ Hs Hq Hp) end.
Qed.

Lemma respond_made now r v i n s0 s : cpu_made n s0 0 s ->
  wp (write_rf r v;; commitInstr now i;; advance_pc) (fun _ s' _ => cpu_made n s0 0 s') s.
Proof. intros Hs. off_bus. Qed.

Lemma item_made now it n s0 s : cpu_made n s0 0 s ->
  wp (Cpu.step_item now it) (fun _ s' _ => cpu_made n s0 0 s') s.
Proof.
  intros Hs. unfold Cpu.step_item, memWriteXBarRespHandler. wp_steps; try done.
  apply (wp_foreach _ _ (cpu_made n s0 0)); [done|]. intros b s1 _ Hs1. by apply respond_made.
Qed.

Lemma on_cpu_ok n c m s s' es ctr : c = s32 n ->
  (forall s0, c_reg s0 = c_reg s.1 -> c_queue s0 = c_queue s.1 -> cpu_made n s0 0 s0 ->
     wp m (fun _ s1 _ => cpu_made n s0 1 s1) s0) ->
  on_cpu c m s = Ok (s', es, ctr) ->
  exists new, makes "cpu" n (bd_sent s) (bd_waiting s) (bd_sent s') (bd_waiting s') ctr new
    /\ Z.of_nat (length new) < 2 ^ 32.
Proof.
  intros -> Hm. unfold on_cpu. intros ([s1 w] & E & [= <- <- <-])%bind_ok.
  set (s0 := set_bus _ _ _ _) in E.
  assert (cpu_made n s0 1 s1) as (new & Hnew & Hl).
  { apply (wp_outcome _ (fun s _ => cpu_made n s0 1 s) _ _ _ (Hm s0 eq_refl eq_refl
      (made_none _ _ _ _ _ eq_refl)) E). }
  exists new. split; [exact Hnew|lia].
Qed.

#[export] Instance core_laws : BusDeviceLaws Core core_event.
Proof.
  split.
  - intros P n c s s' es ctr _ _ _ _ Hrun. split; [done|].
    split; [split; [by intros ? ?%not_elem_of_nil|done]|].
    split; [by intros ? ? _ ?%not_elem_of_nil|].
    destruct c as [now delay popped|now delay [t|p|p]|now]; cbn in Hrun.
    3: { apply bind_ok in Hrun as ([u w] & _ & [= <- <- <-]).
         exists []. split; [split; [by left|done|by rewrite Z.add_0_r|done]|cbn; lia]. }
    all: eapply on_cpu_ok; [reflexivity| |exact Hrun]; intros s0 _ _ Hs0.
    + eapply wp_mono; [apply (wp_foreach _ _ (cpu_made n s0 0)); [done|]|].
      * intros it s1 _ Hs1. by apply item_made.
      * intros ? ? ?. apply cpu_made_mono. lia.
    + unfold execOneInstr. wp_steps. by apply process_made.
    + unfold CFURespHandler. eapply wp_mono; [by apply respond_made|].
      intros ? ? ?. apply cpu_made_mono. lia.
    + eapply wp_mono; [by apply retry_made|]. intros ? ? ?. apply cpu_made_mono. lia.
  - intros [s u] [s' u'] (E & r & Hr & E2). cbn in *. subst. by cbn.
Qed.
End Core.

(** * Trackers of bursts *)

Section Trackers.
Context (P : beat -> Prop).

Definition tracker_answers (tk : BurstTracker) : list answer :=
  map RAns (rbeats tk) ++ map WAns (wbeats tk).

Definition in_tracker (m : gmap Z BurstTracker) (t : Z) (a : answer) : Prop :=
  exists tk, m !! t = Some tk /\ a ∈ tracker_answers tk.

(** What the trackers hold answers beats of their transactions. *)
Definition tracked (m : gmap Z BurstTracker) : Prop :=
  forall t tk, m !! t = Some tk -> all_answer P t (tracker_answers tk).

Lemma tracked_default m t : tracked m -> all_answer P t (tracker_answers (default no_tracker (m !! t))).
Proof.
  intros Hm. destruct (m !! t) as [tk|] eqn:E; [by apply Hm|].
  by intros a ?%not_elem_of_nil.
Qed.

Lemma tracked_delete m t : tracked m -> tracked (delete t m).
Proof. intros Hm t' tk [_ Ht]%lookup_delete_Some. by apply Hm. Qed.

Lemma tracked_insert m t tk : tracked m -> all_answer P t (tracker_answers tk) ->
  tracked (<[t := tk]> m).
Proof. intros Hm Ht t' tk' [[<- <-]|[_ H]]%lookup_insert_Some; [done|by apply Hm]. Qed.

(** One more beat is answered. *)
Lemma tracked_read m p r : tracked m -> P (RBeat p) -> answers (RBeat p) (RAns r) ->
  let tk := default no_tracker (m !! rq_tid p) in
  all_answer P (rq_tid p) (map RAns (rbeats tk ++ [r])) /\
  forall n, tracked (<[rq_tid p := Tracker n (rbeats tk ++ [r]) (wbeats tk)]> m).
Proof.
  intros Hm Hp Ha tk. pose proof (tracked_default m (rq_tid p) Hm) as Ht. fold tk in Ht.
  assert (all_answer P (rq_tid p) (map RAns (rbeats tk ++ [r]))) as Hr.
  { rewrite map_app. apply all_answer_app; [|by eapply all_answer_one].
    intros a Hin. apply Ht, elem_of_app. by left. }
  split; [done|]. intros n. apply tracked_insert; [done|]. apply all_answer_app; [done|].
  intros a Hin. apply Ht, elem_of_app. by right.
Qed.

Lemma tracked_write m p r : tracked m -> P (WBeat p) -> answers (WBeat p) (WAns r) ->
  let tk := default no_tracker (m !! wq_tid p) in
  all_answer P (wq_tid p) (map WAns (wbeats tk ++ [r])) /\
  forall n, tracked (<[wq_tid p := Tracker n (rbeats tk) (wbeats tk ++ [r])]> m).
Proof.
  intros Hm Hp Ha tk. pose proof (tracked_default m (wq_tid p) Hm) as Ht. fold tk in Ht.
  assert (all_answer P (wq_tid p) (map WAns (wbeats tk ++ [r]))) as Hw.
  { rewrite map_app. apply all_answer_app; [|by eapply all_answer_one].
    intros a Hin. apply Ht, elem_of_app. by right. }
  split; [done|]. intros n. apply tracked_insert; [done|]. apply all_answer_app; [|done].
  intros a Hin. apply Ht, elem_of_app. by left.
Qed.
End Trackers.

(** * The data memory *)

Definition dm_beats (e : dm_event) : list beat :=
  match e with DmRead p => [RBeat p] | DmWrite p => [WBeat p] | DmTrySend => [] end.

Section Dm.
Context `{Framework} {PR : PipeRegister} {PL : PipeRegisterLaws PR}.

Definition dm_run (c : Z) (k : call (Z * dm_event)) (d : DataMemory)
    : result (DataMemory * list (Z * dm_event) * Z) :=
  '(d1, w) ← outcome
    (match k with
     | CStep now delay popped => DataMemory.step now delay popped
     | CFire _ _ e => DataMemory.dm_fire e.2
     | CRetry _ => DataMemory.masterPortRetry
     end) d;
  Ok (d1, w, c).

#[export] Instance dm_device : BusDevice DataMemory (Z * dm_event) := {
  bd_name := "dm";
  bd_run := dm_run;
  bd_ports d d' := exists r, accepted r = accepted (dm_reg d)
    /\ d' = DMem (dm_mem d) (dm_pending d) (dm_respQ d) r;
  bd_sent _ := [];
  bd_waiting _ := [];
  bd_replied d := accepted (dm_reg d);
  bd_owed := dm_respQ;
  bd_partial d := in_tracker (dm_pending d);
  bd_beats e := dm_beats e.2;
  bd_ok _ := True;
}.

Context (P : beat -> Prop).

Record dm_serves (d : DataMemory) : Prop := {
  ds_responses : forall r, r ∈ accepted (dm_reg d) ++ dm_respQ d -> answered P 0 r;
  ds_tracked : tracked P (dm_pending d);
}.

Lemma dm_serving d : dm_serves d <-> serving P d.
Proof.
  split.
  - intros [H1 H2]. split; [exact H1|]. intros t a (tk & Ht & Ha). by apply (H2 t tk).
  - intros [H1 H2]. split; [exact H1|]. intros t tk Ht a Ha. apply H2. by exists tk.
Qed.

Definition asked (e : Z * dm_event) : Prop := forall b, b ∈ dm_beats e.2 -> P b.

(** What every handler keeps. *)
Notation keeps m d := (wp m (fun _ d' w => dm_serves d' /\ Forall asked w) d).

Lemma dm_serves_push d r : dm_serves d -> answered P 0 r -> dm_serves (push_respQ r d).
Proof.
  intros [H1 H2] Hr. split; [|done]. cbn. intros r'. rewrite app_assoc.
  intros [H'|H']%elem_of_app; [by apply H1|]. by apply list_elem_of_singleton in H' as ->.
Qed.

Lemma dm_serves_pending d f : dm_serves d -> tracked P (f (dm_pending d)) ->
  dm_serves (set_pending f d).
Proof. by intros [H1 H2] Hf. Qed.

Lemma dm_read_keeps p d : P (RBeat p) -> dm_serves d -> keeps (memReadReqHandler p) d.
Proof.
  intros Hp Hd. unfold memReadReqHandler. wp_step. wp_step. wp_step. wp_step.
  set (r := ReadRespPayload _ _ _ _ _).
  destruct (tracked_read P (dm_pending d) p r) as [Ha Ht]; [by destruct Hd|done|done|].
  fold (tracker (rq_tid p) d) in Ha, Ht.
  wp_steps; (split; [|repeat constructor]).
  - apply dm_serves_push; [by apply dm_serves_pending, tracked_delete; [|destruct Hd]|].
    by eapply (read_answered P "dm"); [|exact Hp|exact Ha|]; [by destruct (rbeats _)|].
  - by apply dm_serves_pending.
Qed.

Lemma dm_write_keeps p d : P (WBeat p) -> dm_serves d -> keeps (memWriteReqHandler p) d.
Proof.
  intros Hp Hd. unfold memWriteReqHandler. wp_step. wp_step. wp_step. wp_step. wp_step. wp_step.
  set (r := WriteRespPayload _ _). set (d1 := set_mem _ d).
  assert (dm_serves d1) as Hd1 by (by destruct Hd).
  destruct (tracked_write P (dm_pending d) p r) as [Ha Ht]; [by destruct Hd|done|done|].
  fold (tracker (wq_tid p) d) in Ha, Ht.
  wp_steps; (split; [|repeat constructor]).
  - apply dm_serves_push; [by apply dm_serves_pending, tracked_delete; [|destruct Hd]|].
    by eapply (write_answered P "dm"); [|exact Hp|exact Ha|]; [by destruct (wbeats _)|].
  - by apply dm_serves_pending.
Qed.

Lemma dm_send_keeps d : dm_serves d -> keeps trySendResponse d.
Proof.
  intros [H1 H2]. unfold trySendResponse. wp_step. wp_step. destruct (dm_respQ d) as [|p q] eqn:Hq.
  - wp_step. split; [|constructor]. split; [by rewrite Hq|done].
  - destruct (try_push (dm_reg d) p) as [ok r] eqn:Hp. apply popped in Hp as [_ G]. wp_step.
    split; [|constructor]. split; [|done]. cbn. intros r' Hr'%G. by apply H1.
Qed.

Lemma dm_schedule_keeps now delay es d : dm_serves d ->
  (forall e b, e ∈ es -> b ∈ dm_beats e -> P b) -> keeps (schedule_beats now delay es) d.
Proof.
  intros Hd Hes. eapply wp_mono.
  - apply (wp_foreach_count _ _ (fun _ => dm_serves) asked 0) with (n := 0%nat); [|done].
    intros [t e] d2 _ Hin Hd2. apply elem_of_lookup_imap in Hin as (j & e' & [= -> ->] & Hj).
    unfold schedule. wp_step. split; [done|]. constructor; [|done].
    intros b. apply Hes. by eapply list_elem_of_lookup_2.
  - done.
Qed.

Lemma dm_packet_keeps now delay k d : (forall b, b ∈ packet_beats k -> P b) ->
  dm_serves d -> keeps (DataMemory.step_packet now delay k) d.
Proof.
  intros Hk Hd.
  assert (forall tid n, dm_serves (set_expected tid n d)) as Hexp.
  { intros tid n. apply dm_serves_pending; [done|]. apply tracked_insert; [by destruct Hd|].
    apply (tracked_default P). by destruct Hd. }
  assert (forall A (f : A -> dm_event) (g : A -> beat) ps, (forall x, dm_beats (f x) = [g x]) ->
    (forall b, b ∈ map g ps -> P b) -> forall e b, e ∈ map f ps -> b ∈ dm_beats e -> P b) as Hmap.
  { intros A f g ps Hfg Hg e b He Hb.
    apply list_elem_of_In, in_map_iff in He as (x & <- & Hx). rewrite Hfg in Hb.
    apply list_elem_of_singleton in Hb as ->. apply Hg, list_elem_of_In, in_map_iff. by exists x. }
  unfold DataMemory.step_packet, log_error, schedule. wp_step. destruct k as [p|p|p|p]; cbn in Hk.
  all: repeat (first [wp_step | eapply wp_mono; [apply dm_schedule_keeps; [apply Hexp|]|]]).
  all: try (by eapply Hmap).
  all: try (split; [done|by repeat constructor; intros ? ?%not_elem_of_nil]).
  all: intros ? d1 w [Hd1 Hw]; repeat wp_step; split; [done|]; cbn.
  all: rewrite ?app_nil_r; apply Forall_app; split; [done|].
  all: by repeat constructor; intros ? ?%not_elem_of_nil.
Qed.

Lemma dm_step_keeps now delay ks d : (forall b, b ∈ flat_map packet_beats ks -> P b) ->
  dm_serves d -> keeps (DataMemory.step now delay ks) d.
Proof.
  intros Hks Hd. unfold DataMemory.step. wp_step. wp_step. wp_step.
  assert (forall d, dm_serves d -> keeps (foreach ks (DataMemory.step_packet now delay)) d) as Hloop.
  { intros d1 Hd1. eapply wp_mono.
    - apply (wp_foreach_count _ _ (fun _ => dm_serves) asked 0) with (n := 0%nat); [|done].
      intros k d2 _ Hin Hd2. apply dm_packet_keeps; [|done]. intros b Hb.
      apply Hks, list_elem_of_In, in_flat_map. exists k. by rewrite <- !list_elem_of_In.
    - done. }
  wp_step.
  - eapply wp_mono; [by apply dm_send_keeps|]. intros ? d1 w1 [Hd1 Hw1]. cbn.
    eapply wp_mono; [by apply Hloop|]. intros ? d2 w2 [Hd2 Hw2]. split; [done|by apply Forall_app].
  - by apply Hloop.
Qed.
End Dm.

#[export] Instance dm_laws `{Framework} {PR : PipeRegister} {PL : PipeRegisterLaws PR} :
  BusDeviceLaws DataMemory (Z * dm_event).
Proof.
  split.
  - intros P n c d d' es ctr _ Hd%dm_serving Hb _ Hrun. split; [done|].
    apply bind_ok in Hrun as ([d1 w] & E & [= <- <- <-]).
    assert (dm_serves P d1 /\ Forall (asked P) w) as [Hd1 Hw].
    { refine (wp_outcome _ (fun d w => dm_serves P d /\ Forall (asked P) w) _ _ _ _ E).
      destruct c as [now delay ks|now delay [t [p|p|]]|now]; cbn in Hb |- *.
      - by apply dm_step_keeps.
      - apply dm_read_keeps; [|done]. apply Hb, list_elem_of_here.
      - apply dm_write_keeps; [|done]. apply Hb, list_elem_of_here.
      - by apply dm_send_keeps.
      - by apply dm_send_keeps. }
    split; [by apply dm_serving|]. split.
    + intros e b He. rewrite Forall_forall in Hw. by apply Hw.
    + exists []. split; [split; [by left|done|by rewrite Z.add_0_r|done]|cbn; lia].
  - intros d d' (r & Hr & ->). by cbn.
Qed.
