(* ===== verification/SocDma.v ===== *)
(** The DMA controller as a device of the crossbar ([Device]): the calls are
    those of [Dma]; it makes requests for its transfers and answers accesses
    to its registers. *)
From S2P Require Import Prelude Machine DataStruct Memory Bus DataMemory Dma Device.
Local Open Scope Z_scope.

Definition dma_beats (e : dma_event) : list beat :=
  match e with EvReadMMIO p => [RBeat p] | _ => [] end.

Section Dma_device.
Context `{Framework} {PR : PipeRegister} {PL : PipeRegisterLaws PR}.

Definition dma_run (c : Z) (k : call (Z * dma_event)) (d : DMAController)
    : result (DMAController * list (Z * dma_event) * Z) :=
  '(d1, w) ← outcome
    (match k with
     | CStep now delay popped => Dma.step now delay popped
     | CFire _ _ e => Dma.dma_fire e.1 e.2
     | CRetry _ => Dma.masterPortRetry
     end) (Dma.set_req (req_Q d) (m_req d) c d);
  Ok (d1, w, d_ctr d1).

(** The buffer has its capacity, and the count of its words is an [int]. *)
Definition dma_ok (d : DMAController) : Prop :=
  length (bufferMemory (d_track d)) = 256%nat /\ - 2 ^ 31 <= bufferIndex (d_track d) < 2 ^ 31.

#[export] Instance dma_device : BusDevice DMAController (Z * dma_event) := {
  bd_name := "dma";
  bd_run := dma_run;
  bd_ports d d' := exists r1 r2, accepted r1 = accepted (m_req d)
    /\ accepted r2 = accepted (m_resp d)
    /\ d' = set_resp (resp_Q d) r2 (Dma.set_req (req_Q d) r1 (d_ctr d) d);
  bd_sent d := accepted (m_req d);
  bd_waiting := req_Q;
  bd_replied d := accepted (m_resp d);
  bd_owed := resp_Q;
  bd_partial _ _ _ := False;
  bd_beats e := dma_beats e.2;
  bd_ok := dma_ok;
}.

Context (P : beat -> Prop) (n : Z) (d0 : DMAController).

Record dma_inv (B : nat) (d : DMAController) : Prop := {
  di_made : made "dma" n (accepted (m_req d0)) (req_Q d0) B (accepted (m_req d)) (req_Q d) (d_ctr d);
  di_resp : forall r, r ∈ accepted (m_resp d) ++ resp_Q d -> answered P 1 r;
  di_ok : dma_ok d;
}.

Definition dma_asked (e : Z * dma_event) : Prop := forall b, b ∈ dma_beats e.2 -> P b.

Notation keeps B m d := (wp m (fun _ d' w => dma_inv B d' /\ Forall dma_asked w) d).

Lemma dma_inv_mono B B' d : (B <= B')%nat -> dma_inv B d -> dma_inv B' d.
Proof. intros HB [H1 H2 H3]. split; [by eapply made_keep|done|done]. Qed.

(** Changes of registers, geometry and counts. *)
Lemma dma_inv_regs B f d : dma_inv B d -> dma_inv B (set_regs f d).
Proof. by intros []. Qed.
Lemma dma_inv_geo B g d : dma_inv B d -> dma_inv B (set_geo g d).
Proof. by intros []. Qed.
Lemma dma_inv_track B f d : dma_inv B d -> length (bufferMemory (f (d_track d))) = 256%nat ->
  - 2 ^ 31 <= bufferIndex (f (d_track d)) < 2 ^ 31 -> dma_inv B (set_track f d).
Proof. by intros []. Qed.

Lemma dma_inv_answer B r d : dma_inv B d -> answered P 1 r ->
  dma_inv B (set_resp (resp_Q d ++ [r]) (m_resp d) d).
Proof.
  intros [H1 H2 H3] Hr. split; try done. cbn. intros r'. rewrite app_assoc.
  intros [H'|H']%elem_of_app; [by apply H2|]. by apply list_elem_of_singleton in H' as ->.
Qed.

(** Walk through the parts of a handler that only change tracking data. *)
Ltac dma_solve :=
  first
    [ apply Forall_nil_2
    | assumption
    | apply dma_inv_regs; dma_solve
    | apply dma_inv_geo; dma_solve
    | apply dma_inv_track; [dma_solve|cbn..] ].

Lemma complete_keeps B d : dma_inv B d -> keeps B transaction_complete d.
Proof.
  intros Hd. unfold transaction_complete. wp_steps. split; [|constructor].
  destruct (di_ok _ _ Hd) as [Hl Hi]. dma_solve; done.
Qed.

Lemma send_keeps B k ctr d : dma_inv B d -> wf_request "dma" (d_ctr d) k ->
  ctr = s32 (d_ctr d + 1) -> keeps (S B) (send_req k ctr) d.
Proof.
  intros [H1 H2 H3] Hk ->. unfold send_req. wp_step. wp_step.
  destruct (try_push (m_req d) k) as [ok r] eqn:Hp. apply pushed in Hp as [G1 G2].
  wp_steps. split; [|constructor]. split; [|done|done].
  eapply made_new; [exact H1|exact Hk| |exact G1]. intros q'. apply G2.
Qed.

Lemma reads_keeps B writes d : dma_inv B d ->
  (forall d, dma_inv B d -> keeps (B + 257) writes d) -> keeps (B + 257) (reads_body writes) d.
Proof.
  intros Hd Hw. unfold reads_body. destruct (di_ok _ _ Hd) as [Hl Hi].
  assert (dma_inv (B + 257) d) as Hd' by (eapply dma_inv_mono; [|exact Hd]; lia).
  wp_step. wp_step. cbn zeta. wp_step.
  - wp_step; [by apply complete_keeps|]. wp_step. wp_step. apply Hw. dma_solve; done.
  - unfold log_error. wp_steps.
    all: match goal with Hk : Construct_MemReadpkt_burst _ _ _ = Ok _ |- _ =>
      apply wf_read_burst in Hk as [Hk ->] end.
    all: eapply wp_mono; [by eapply (send_keeps B)|].
    all: intros ok d1 w [Hd1 Hw1]; wp_step; cbn [app]; rewrite ?app_nil_r; split; [|exact Hw1].
    all: destruct (di_ok _ _ Hd1) as [? ?]; apply (dma_inv_mono (S B)); [lia|]; dma_solve; done.
Qed.

(** A chunk that becomes a packet lies in the buffer. *)
Lemma chunk_in_buffer g dst t buffer offset chunk ps ctr k :
  createWriteRequestsForChunk g dst t buffer offset chunk = Ok ps ->
  Construct_MemWritepkt_burst ctr "dma" ps = Ok k -> 0 <= offset ->
  1 <= chunk /\ offset < Z.of_nat (length buffer).
Proof.
  unfold createWriteRequestsForChunk. intros Hc Hk Ho.
  destruct (Z.to_nat chunk) as [|m] eqn:Hm.
  - injection Hc as <-. done.
  - cbn [seq foldR] in Hc. apply bind_ok in Hc as (x & Hx & _). split; [lia|].
    apply bind_ok in Hx as ([row col] & _ & Hx). apply bind_ok in Hx as (v & Hv & _).
    unfold from_opt in Hv. destruct (buffer !! _) eqn:E; [|done]. apply lookup_lt_Some in E. lia.
Qed.

(** A word of the buffer is in one packet, so there are at most as many. *)
Lemma loop_keeps fuel total : forall offset B d, 0 <= offset -> dma_inv B d ->
  keeps (B + (256 - Z.to_nat offset)) (writes_loop fuel total offset) d.
Proof.
  induction fuel as [|fuel IH]; intros offset B d Ho Hd; cbn [writes_loop]; wp_step; try wp_step.
  1, 3: split; [eapply dma_inv_mono; [|exact Hd]; lia|constructor].
  wp_step. cbn zeta. do 6 wp_step.
  match goal with Hk : Construct_MemWritepkt_burst _ _ _ = Ok ?x |- _ =>
    destruct x as [pkt ctr]; pose proof (wf_write_burst _ _ _ _ _ Hk) as [Hwf ->];
    match goal with Hc : createWriteRequestsForChunk _ _ _ _ _ _ = Ok _ |- _ =>
      destruct (chunk_in_buffer _ _ _ _ _ _ _ _ _ Hc Hk Ho) as [Hc1 Hc2] end end.
  destruct (di_ok _ _ Hd) as [Hl _]. rewrite Hl in Hc2. wp_step.
  eapply wp_mono; [by eapply (send_keeps B)|].
  intros ok d1 w [Hd1 Hw1]. destruct (di_ok _ _ Hd1) as [? ?].
  assert (forall d1, dma_inv (S B) d1 ->
    keeps (B + (256 - Z.to_nat offset)) (writes_loop fuel total (offset + a)) d1) as Hloop.
  { intros d2 Hd2. eapply wp_mono; [apply (IH (offset + a) (S B)); [lia|done]|].
    intros u d3 w3 [Hd3 Hw3]. split; [|done]. eapply dma_inv_mono; [|exact Hd3]. lia. }
  wp_step. wp_step; [wp_step|]; (eapply wp_mono; [apply Hloop; dma_solve; done|]).
  all: intros u d2 w2 [Hd2 Hw2]; split; [done|]; cbn [app]; by apply Forall_app.
Qed.

Lemma writes_keeps B reads d : dma_inv B d ->
  (forall d, dma_inv B d -> keeps (B + 257) reads d) -> keeps (B + 257) (writes_body reads) d.
Proof.
  intros Hd Hr. unfold writes_body. destruct (di_ok _ _ Hd) as [Hl Hi].
  assert (dma_inv (B + 257) d) as Hd' by (eapply dma_inv_mono; [|exact Hd]; lia).
  wp_step. wp_step. cbn zeta. wp_step.
  - wp_step; [by apply complete_keeps|]. wp_step. wp_step. apply Hr. dma_solve; done.
  - wp_step. wp_step. wp_step. eapply wp_mono.
    { apply (loop_keeps _ _ 0 B); [done|]. dma_solve; done. }
    intros u d1 w [Hd1 Hw]. wp_step. rewrite app_nil_r. split; [|done].
    destruct (di_ok _ _ Hd1) as [? ?]. apply (dma_inv_mono (B + 256)); [lia|]. dma_solve; done.
Qed.

Lemma phase_keeps fuel : forall ph B d, dma_inv B d -> keeps (B + 257) (schedule_phase fuel ph) d.
Proof.
  induction fuel as [|fuel IH]; intros ph B d Hd; cbn [schedule_phase]; [by apply wp_fail|].
  destruct ph; [apply reads_keeps|apply reads_keeps|apply writes_keeps]; try done; intros d1 Hd1;
    by apply IH.
Qed.

Lemma start_keeps B d : dma_inv B d -> keeps (B + 257) Dma.initialized_transaction d.
Proof.
  intros Hd. unfold Dma.initialized_transaction, startTransfer, scheduleReadsForBuffer.
  destruct (di_ok _ _ Hd) as [Hl Hi]. repeat wp_step.
  1, 2: split; [|constructor]; apply (dma_inv_mono B); [lia|]; dma_solve; done.
  apply phase_keeps. dma_solve; done.
Qed.

(** * Accesses to the registers *)

Lemma dma_read_keeps B p d : P (RBeat p) -> dma_inv B d -> keeps B (Dma.readMMIO p) d.
Proof.
  intros Hp Hd. unfold Dma.readMMIO, log_error. wp_steps.
  all: split; [|constructor]; apply dma_inv_answer; [done|].
  all: by eapply (read_one_answered P "dma").
Qed.

Lemma dma_write_keeps B p d : P (WBeat p) -> dma_inv B d -> keeps (B + 257) (Dma.writeMMIO p) d.
Proof.
  intros Hp Hd. unfold Dma.writeMMIO, log_error. destruct (di_ok _ _ Hd) as [Hl Hi].
  assert (dma_inv (B + 257) d) as Hd' by (eapply dma_inv_mono; [|exact Hd]; lia).
  assert (forall d, dma_inv (B + 257) d -> keeps (B + 257)
    (respPtr ← lift (Construct_MemWriteRespPkt [WriteRespPayload (wq_tid p) (wq_i p)] "dma" (wq_caller p));
     lift (check (programmed_by (wq_caller p))
       (AssertFailed "Should only be programmed by Systolic array or CPU"));;
     modify (fun d => set_resp (resp_Q d ++ [WriteResp respPtr]) (m_resp d) d)) d) as Hans.
  { intros d1 Hd1. wp_steps. split; [|constructor]. apply dma_inv_answer; [done|].
    by eapply (write_one_answered P "dma"). }
  wp_step. repeat first [apply Hans | wp_step]. all: try (dma_solve; done).
  eapply wp_mono; [apply (start_keeps B); dma_solve; done|]. intros u d1 w [Hd1 Hw].
  eapply wp_mono; [by apply Hans|]. intros u1 d2 w2 [Hd2 Hw2]. split; [done|].
  cbn [app]. by apply Forall_app.
Qed.

(** * Responses *)

Lemma store_beats_length ps buffer buffer' :
  store_beats ps buffer = Ok buffer' -> length buffer' = length buffer.
Proof.
  intros E. unfold store_beats in E.
  refine (foldR_inv (fun b => length b = length buffer) _ _ _ _ eq_refl _ E).
  intros b p b1 _ Hb. unfold log_error. destruct (_ <? _).
  - intros [= <-]. by rewrite length_insert.
  - destruct error_halts; [done|]. by intros [= <-].
Qed.

Lemma dma_response_keeps B now k d : dma_inv B d -> keeps B (Dma.handleReadResponse now k) d.
Proof.
  intros Hd. unfold Dma.handleReadResponse, Dma.schedule. destruct (di_ok _ _ Hd) as [Hl Hi].
  repeat wp_step; cbn zeta; repeat wp_step; (split; [|by repeat constructor; intros ? ?%not_elem_of_nil]).
  all: match goal with Hb : store_beats _ _ = Ok _ |- _ => apply store_beats_length in Hb end.
  all: dma_solve; try congruence; try done; try (apply (sint_range 32); lia).
Qed.

Lemma clear_length m b b' : clear_buffer m b = Ok b' -> - 2 ^ 31 <= m < 2 ^ 31 ->
  length b = 256%nat -> length b' = 256%nat.
Proof.
  unfold clear_buffer. destruct (Z.leb_spec (uint 64 m) BUFFER_CAPACITY) as [Hm|]; [|done].
  intros [= <-] Hr Hb. destruct (Z.neg_nonneg_cases m) as [Hn|Hn].
  - replace (Z.to_nat m) with 0%nat by lia. by rewrite length_splice by (simpl; lia).
  - rewrite uint_id in Hm by (unfold is_u; lia). unfold BUFFER_CAPACITY in Hm.
    rewrite length_splice; [done|]. rewrite length_replicate. lia.
Qed.

Lemma completion_keeps B d : dma_inv B d -> keeps (B + 257) Dma.handleWriteCompletion d.
Proof.
  intros Hd. unfold Dma.handleWriteCompletion, scheduleReadsForBuffer.
  destruct (di_ok _ _ Hd) as [Hl Hi].
  assert (dma_inv (B + 257) d) as Hd' by (eapply dma_inv_mono; [|exact Hd]; lia).
  assert (forall b, clear_buffer (bufferIndex (d_track d)) (bufferMemory (d_track d)) = Ok b ->
    length b = 256%nat) as Hcl by (intros b Hb; by eapply clear_length).
  repeat (wp_step; cbn zeta).
  - apply complete_keeps. dma_solve; first [done | lia | by apply Hcl].
  - apply phase_keeps. dma_solve; first [done | lia | by apply Hcl].
  - split; [|constructor]. dma_solve; done.
Qed.

(** * Ports and steps *)

Lemma dma_send_keeps B d : dma_inv B d -> keeps B Dma.trySendPacket d.
Proof.
  intros Hd. unfold Dma.trySendPacket.
  assert (forall d, dma_inv B d -> keeps B
    (d ← get;
     match resp_Q d with
     | [] => mret tt
     | p :: q => let '(ok, r) := try_push (m_resp d) p in
                 put (set_resp (if ok then q else p :: q) r d)
     end) d) as Hresp.
  { intros d1 [H1 H2 H3]. wp_step. wp_step. destruct (resp_Q d1) as [|p q] eqn:Hq.
    - wp_step. split; [|constructor]. split; [done|by rewrite Hq|done].
    - destruct (try_push (m_resp d1) p) as [ok r] eqn:Hp. apply popped in Hp as [_ G]. wp_step.
      split; [|constructor]. split; [done| |done]. cbn. intros r' Hr'%G. by apply H2. }
  wp_step. wp_step. wp_step. destruct (req_Q d) as [|p q] eqn:Hq; [wp_step; by apply Hresp|].
  destruct (try_push (m_req d) p) as [ok r] eqn:Hp. apply popped in Hp as [G1 G2]. wp_step.
  apply Hresp. destruct Hd as [H1 H2 H3]. split; [|done|done].
  eapply made_keep; [exact H1|done| |exact G1]. cbn. rewrite Hq. apply G2.
Qed.

Lemma dma_event_keeps B now e d : dma_asked (now, e) -> dma_inv B d ->
  keeps (B + 257) (Dma.dma_fire now e) d.
Proof.
  intros He Hd. destruct e as [| |p|]; cbn [dma_fire].
  - by apply phase_keeps.
  - by apply phase_keeps.
  - eapply wp_mono; [apply (dma_read_keeps B); [|done]; apply He, list_elem_of_here|].
    intros u d1 w [Hd1 Hw]. split; [|done]. eapply dma_inv_mono; [|exact Hd1]. lia.
  - eapply wp_mono; [by apply (dma_send_keeps B)|].
    intros u d1 w [Hd1 Hw]. split; [|done]. eapply dma_inv_mono; [|exact Hd1]. lia.
Qed.

Lemma head_beat {A} (f : A -> beat) l x : from_opt (Undefined "payload[0]") (head l) = Ok x ->
  (forall b, b ∈ map f l -> P b) -> P (f x).
Proof. destruct l as [|y l]; [done|]. intros [= ->] Hl. apply Hl, list_elem_of_here. Qed.

Lemma dma_packet_keeps B now delay k d : (forall b, b ∈ packet_beats k -> P b) ->
  dma_inv B d -> keeps (B + 257) (Dma.step_packet now delay k) d.
Proof.
  intros Hk Hd.
  assert (dma_inv (B + 257) d) as Hd' by (eapply dma_inv_mono; [|exact Hd]; lia).
  unfold Dma.step_packet, Dma.schedule. destruct k as [p|p|p|p]; cbn in Hk.
  - wp_steps. split; [done|]. repeat constructor; [|by intros ? ?%not_elem_of_nil].
    intros b ->%list_elem_of_singleton. by eapply (head_beat RBeat).
  - do 4 wp_step. wp_step. eapply wp_mono.
    { apply (dma_write_keeps B); [by eapply (head_beat WBeat)|done]. }
    intros u d1 w [Hd1 Hw]. wp_step. split; [done|]. cbn [app]. apply Forall_app. split; [done|].
    by repeat constructor; intros ? ?%not_elem_of_nil.
  - eapply wp_mono; [by apply (dma_response_keeps B)|].
    intros u d1 w [Hd1 Hw]. split; [|done]. eapply dma_inv_mono; [|exact Hd1]. lia.
  - by apply completion_keeps.
Qed.

Lemma dma_step_keeps B now delay ks d : (forall b, b ∈ flat_map packet_beats ks -> P b) ->
  dma_inv B d -> keeps (B + 257 * length ks) (Dma.step now delay ks) d.
Proof.
  intros Hks Hd. unfold Dma.step. wp_step. wp_step. wp_step.
  assert (forall d, dma_inv B d ->
    keeps (B + 257 * length ks) (foreach ks (Dma.step_packet now delay)) d) as Hloop.
  { intros d1 Hd1. apply (wp_foreach_count _ _ dma_inv dma_asked 257); [|done].
    intros k d2 B2 Hin Hd2. apply dma_packet_keeps; [|done]. intros b Hb.
    apply Hks, list_elem_of_In, in_flat_map. exists k. by rewrite <- !list_elem_of_In. }
  wp_step.
  - eapply wp_mono; [by apply (dma_send_keeps B)|]. intros ? d1 w1 [Hd1 Hw1]. cbn beta.
    eapply wp_mono; [by apply Hloop|]. intros ? d2 w2 [Hd2 Hw2]. split; [done|cbn [app]; by apply Forall_app].
  - by apply Hloop.
Qed.
End Dma_device.

Lemma dma_run_inv `{Framework} {PR : PipeRegister} {PL : PipeRegisterLaws PR}
    P n c (d d' : DMAController) es ctr :
  dma_ok d -> serving P d -> (forall b, b ∈ call_beats c -> P b) ->
  (call_size c <= slave_ports)%nat -> dma_run (s32 n) c d = Ok (d', es, ctr) ->
  dma_inv P n d (257 * 6) d' /\ Forall (dma_asked P) es /\ ctr = d_ctr d'.
Proof.
  intros Hok [Hr _] Hb Hsz ([d1 w] & E & [= <- <- <-])%bind_ok.
  assert (dma_inv P n d 0 (Dma.set_req (req_Q d) (m_req d) (s32 n) d)) as Hinv.
  { split; [by apply made_none|exact Hr|exact Hok]. }
  assert (dma_inv P n d (257 * 6) d1 /\ Forall (dma_asked P) w) as [? ?]; [|done].
  refine (wp_outcome _ (fun d1 w => dma_inv P n d (257 * 6) d1 /\ Forall (dma_asked P) w) _ _ _ _ E).
  assert (forall B (m : M DMAController (Z * dma_event) unit), (B <= 257 * 6)%nat ->
    wp m (fun _ d' w => dma_inv P n d B d' /\ Forall (dma_asked P) w)
      (Dma.set_req (req_Q d) (m_req d) (s32 n) d) ->
    wp m (fun _ d' w => dma_inv P n d (257 * 6) d' /\ Forall (dma_asked P) w)
      (Dma.set_req (req_Q d) (m_req d) (s32 n) d)) as Hmono.
  { intros B m HB Hm. eapply wp_mono; [exact Hm|]. intros u d2 w2 [Hd2 Hw2].
    split; [by eapply dma_inv_mono|done]. }
  destruct c as [now delay ks|now delay [t e]|now]; cbn in Hb, Hsz |- *.
  - eapply (Hmono (0 + 257 * length ks)%nat); [unfold slave_ports in Hsz; lia|].
    by apply dma_step_keeps.
  - eapply (Hmono (0 + 257)%nat); [lia|]. by apply dma_event_keeps.
  - eapply (Hmono 0%nat); [lia|]. by apply dma_send_keeps.
Qed.

#[export] Instance dma_laws `{Framework} {PR : PipeRegister} {PL : PipeRegisterLaws PR} :
  BusDeviceLaws DMAController (Z * dma_event).
Proof.
  split.
  - intros P n c d d' es ctr Hok Hsv Hb Hsz Hrun.
    destruct (dma_run_inv _ _ _ _ _ _ _ Hok Hsv Hb Hsz Hrun) as ([(new & Hm & Hl) Hresp Hok'] & Hes & ->).
    split; [done|]. split; [by split|]. split.
    + intros e b He. rewrite Forall_forall in Hes. by apply Hes.
    + exists new. split; [done|]. lia.
  - intros d d' (r1 & r2 & H1 & H2 & ->). by cbn.
Qed.
