(* ===== verification/SocSystolic.v ===== *)
(** The systolic array as a device of the crossbar ([Device]): the calls are
    those of [Systolic]; it programs the DMA controller with requests of its
    own and answers accesses to its registers and its SRAM. *)
From S2P Require Import Prelude Machine DataStruct Memory Bus DataMemory Grid SystolicPE.
From S2P Require Import Systolic Device SocDevices.
Local Open Scope Z_scope.

Definition sa_beats (e : sa_event) : list beat :=
  match e with
  | EvSramRead p | EvReadMMIO p => [RBeat p]
  | EvSramWrite p | EvWriteMMIO p => [WBeat p]
  | _ => []
  end.

Section Sa_device.
Context `{Framework} {PR : PipeRegister} {PL : PipeRegisterLaws PR}.
Context (junk : nat -> nat -> nat -> Valid8).

Definition sa_run (c : Z) (k : call (Z * sa_event)) (d : SystolicArray)
    : result (SystolicArray * list (Z * sa_event) * Z) :=
  '(d1, w) ← outcome
    (match k with
     | CStep now delay popped => Systolic.step now delay popped
     | CFire _ delay e => Systolic.sa_fire junk e.1 delay e.2
     | CRetry _ => Systolic.masterPortRetry
     end) (set_ctr c d);
  Ok (d1, w, sa_ctr d1).

#[export] Instance sa_device : BusDevice SystolicArray (Z * sa_event) := {
  bd_name := "sa";
  bd_run := sa_run;
  bd_ports d d' := exists r1 r2, accepted r1 = accepted (m_req_ d)
    /\ accepted r2 = accepted (m_resp_ d)
    /\ d' = set_answers r2 (resp_Q_ d) (set_out r1 (req_Q_ d) d);
  bd_sent d := accepted (m_req_ d);
  bd_waiting := req_Q_;
  bd_replied d := accepted (m_resp_ d);
  bd_owed := resp_Q_;
  bd_partial d := in_tracker (pending_ d);
  bd_beats e := sa_beats e.2;
  bd_ok _ := True;
}.

Context (P : beat -> Prop) (n : Z) (d0 : SystolicArray).

Record sa_inv (B : nat) (d : SystolicArray) : Prop := {
  si_made : made "sa" n (accepted (m_req_ d0)) (req_Q_ d0) B
    (accepted (m_req_ d)) (req_Q_ d) (sa_ctr d);
  si_resp : forall r, r ∈ accepted (m_resp_ d) ++ resp_Q_ d -> answered P 2 r;
  si_tracked : tracked P (pending_ d);
}.

Definition sa_asked (e : Z * sa_event) : Prop := forall b, b ∈ sa_beats e.2 -> P b.

Notation keeps B m d := (wp m (fun _ d' w => sa_inv B d' /\ Forall sa_asked w) d).

(** The registers, the matrices and the SRAM do not matter. *)
Lemma sa_inv_same B B' d d' : sa_inv B d -> (B <= B')%nat ->
  m_req_ d' = m_req_ d -> req_Q_ d' = req_Q_ d -> sa_ctr d' = sa_ctr d ->
  m_resp_ d' = m_resp_ d -> resp_Q_ d' = resp_Q_ d -> pending_ d' = pending_ d -> sa_inv B' d'.
Proof.
  intros [H1 H2 H3] HB E1 E2 E3 E4 E5 E6. split.
  - rewrite E1, E2, E3. by eapply made_keep.
  - by rewrite E4, E5.
  - by rewrite E6.
Qed.

Lemma sa_inv_mono B B' d : (B <= B')%nat -> sa_inv B d -> sa_inv B' d.
Proof. intros HB Hd. by eapply sa_inv_same. Qed.

Lemma keeps_mono B B' (m : M SystolicArray (Z * sa_event) unit) d :
  (B <= B')%nat -> keeps B m d -> keeps B' m d.
Proof.
  intros HB Hm. eapply wp_mono; [exact Hm|]. intros u d1 w [Hd1 Hw].
  split; [by eapply sa_inv_mono|done].
Qed.

Lemma keeps_bind B B1 (m1 m2 : M SystolicArray (Z * sa_event) unit) d :
  keeps B1 m1 d -> (forall d, sa_inv B1 d -> keeps B m2 d) -> keeps B (m1;; m2) d.
Proof.
  intros H1 H2. wp_step. eapply wp_mono; [exact H1|]. intros u d1 w1 [Hd1 Hw1]. cbn beta.
  eapply wp_mono; [by apply H2|]. intros u2 d2 w2 [Hd2 Hw2]. split; [done|by apply Forall_app].
Qed.

(** Walk through a handler that touches neither the queues nor the trackers. *)
Ltac sa_quiet Hd :=
  repeat (wp_step; cbn zeta);
  try (split; [by eapply sa_inv_same; [exact Hd|..]|by repeat constructor; intros ? ?%not_elem_of_nil]).

Lemma sa_inv_answer B r d : sa_inv B d -> answered P 2 r -> sa_inv B (push_resp r d).
Proof.
  intros [H1 H2 H3] Hr. split; try done. cbn. intros r'. rewrite app_assoc.
  intros [H'|H']%elem_of_app; [by apply H2|]. by apply list_elem_of_singleton in H' as ->.
Qed.

Lemma sa_inv_pending B f d : sa_inv B d -> tracked P (f (pending_ d)) ->
  sa_inv B (set_sapending f d).
Proof. by intros []. Qed.

(** * Requests to the DMA controller *)

Lemma sa_inv_request B q d : sa_inv B d -> wf_request "sa" (sa_ctr d) q ->
  sa_inv (S B) (set_ctr (s32 (sa_ctr d + 1)) (push_req q d)).
Proof.
  intros [H1 H2 H3] Hq. split; [|done|done]. cbn. eapply made_new; [exact H1|exact Hq| |done].
  intros q'. rewrite app_assoc. intros [H'|H']%elem_of_app; [by left|right].
  by apply list_elem_of_singleton in H'.
Qed.

Lemma ask_keeps B addr data d : sa_inv B d -> keeps (S B) (ask_write addr data) d.
Proof.
  intros Hd. unfold ask_write. wp_step. wp_step. cbn beta.
  change (Construct_MemWritepkt_non_burst (sa_ctr d) auto_instr SW addr data "sa") with
    ((Construct_MemWritepkt_non_burst (sa_ctr d) auto_instr SW addr data "sa").1, s32 (sa_ctr d + 1)).
  cbv beta iota. wp_step. split; [|constructor]. apply sa_inv_request; [done|]. apply wf_write_single.
Qed.

Lemma poll_keeps B d : sa_inv B d -> keeps (S B) poll d.
Proof.
  intros Hd. unfold poll. wp_step. wp_step. cbn beta.
  change (Construct_MemReadpkt_non_burst (sa_ctr d) auto_instr LW DMA_DONE
      (set_imm poll_mark auto_operand) "sa") with
    ((Construct_MemReadpkt_non_burst (sa_ctr d) auto_instr LW DMA_DONE
      (set_imm poll_mark auto_operand) "sa").1, s32 (sa_ctr d + 1)).
  cbv beta iota. wp_step. split; [|constructor]. apply sa_inv_request; [done|]. apply wf_read_single.
Qed.

Lemma ask_all_keeps B src dst cfg now delay d : sa_inv B d ->
  keeps (B + 4)
    (ask_write DMA_SRC src;; ask_write DMA_DST dst;; ask_write DMA_SIZE_CFG cfg;;
     ask_write DMA_ENABLE 1;; PokeDMAReady now delay) d.
Proof.
  intros Hd. rewrite !(Nat.add_comm B). 
  do 4 (eapply keeps_bind; [by apply ask_keeps|]; clear Hd d; intros d Hd).
  unfold PokeDMAReady, schedule. sa_quiet Hd.
Qed.

Lemma program_A_keeps B now delay d : sa_inv B d -> keeps (B + 4) (AskDMAtoWrite_matA now delay) d.
Proof. intros Hd. unfold AskDMAtoWrite_matA. wp_step. wp_step. by apply ask_all_keeps. Qed.
Lemma program_B_keeps B now delay d : sa_inv B d -> keeps (B + 4) (AskDMAtoWrite_matB now delay) d.
Proof. intros Hd. unfold AskDMAtoWrite_matB. wp_step. wp_step. by apply ask_all_keeps. Qed.

Lemma sa_start_keeps B now delay d : sa_inv B d ->
  keeps (B + 4) (Systolic.initialized_transaction now delay) d.
Proof.
  intros Hd. unfold Systolic.initialized_transaction. repeat (wp_step; cbn zeta).
  cbn [app]. apply program_A_keeps. by eapply sa_inv_same.
Qed.

(** * Computing *)

Lemma outputs_keeps B d : sa_inv B d -> keeps B writeOutputs d.
Proof. intros Hd. unfold writeOutputs. sa_quiet Hd. Qed.

Lemma tile_keeps B now d : sa_inv B d -> keeps B (ComputeTile now) d.
Proof.
  intros Hd. unfold ComputeTile. do 4 wp_step. eapply wp_mono.
  - apply (wp_foreach_count _ _ sa_inv sa_asked 0) with (n := B); [|by eapply sa_inv_same].
    intros [t e] d1 B1 Hin Hd1. unfold schedule. wp_step.
    split; [eapply sa_inv_mono; [|done]; lia|]. constructor; [|done]. intros b Hb.
    unfold tile_schedule in Hin. apply elem_of_app in Hin as [Hin|Hin].
    + apply elem_of_lookup_imap in Hin as (j & c & [= -> ->] & _). by apply not_elem_of_nil in Hb.
    + apply list_elem_of_singleton in Hin as [= -> ->]. by apply not_elem_of_nil in Hb.
  - intros u d1 w [Hd1 Hw]. split; [eapply sa_inv_mono; [|done]; lia|done].
Qed.

Lemma launch_keeps B now d : sa_inv B d -> keeps B (launchNextTile now) d.
Proof.
  intros Hd. unfold launchNextTile. do 3 wp_step.
  - do 2 wp_step. apply outputs_keeps. by eapply sa_inv_same.
  - repeat (wp_step; cbn zeta). apply tile_keeps. by eapply sa_inv_same.
Qed.

Lemma matrix_keeps B now d : sa_inv B d -> keeps B (ComputeMatrix now) d.
Proof.
  intros Hd. unfold ComputeMatrix. repeat (wp_step; cbn zeta). apply launch_keeps.
  by eapply sa_inv_same.
Qed.

Lemma cycle_keeps B j c d : sa_inv B d -> keeps B (tile_event junk j c) d.
Proof. intros Hd. unfold tile_event. sa_quiet Hd. Qed.

Lemma tile_done_keeps B now d : sa_inv B d -> keeps B (tile_done now) d.
Proof.
  intros Hd. unfold tile_done. repeat (wp_step; cbn zeta). apply launch_keeps.
  by eapply sa_inv_same.
Qed.

(** * Responses and register accesses *)

Lemma sa_response_keeps B now delay k d : sa_inv B d ->
  keeps (B + 4) (Systolic.handleReadResponse now delay k) d.
Proof.
  intros Hd. unfold Systolic.handleReadResponse, log_error, PokeDMAReady, schedule.
  assert (sa_inv (B + 4) d) as Hd' by (by eapply sa_inv_mono; [|exact Hd]; lia).
  sa_quiet Hd'.
  all: try (apply (program_B_keeps B); by eapply (sa_inv_same B)).
  all: try (apply matrix_keeps; by eapply sa_inv_same).
Qed.

Lemma sa_read_keeps B p d : P (RBeat p) -> sa_inv B d -> keeps B (Systolic.readMMIO p) d.
Proof.
  intros Hp Hd. unfold Systolic.readMMIO, log_error. wp_steps.
  all: split; [|constructor]; apply sa_inv_answer; [done|].
  all: by eapply (read_one_answered P "sa").
Qed.

Lemma sa_write_keeps B now delay p d : P (WBeat p) -> sa_inv B d ->
  keeps (B + 4) (Systolic.writeMMIO now delay p) d.
Proof.
  intros Hp Hd. unfold Systolic.writeMMIO, log_error.
  assert (sa_inv (B + 4) d) as Hd' by (eapply sa_inv_mono; [|exact Hd]; lia).
  apply keeps_bind with (B + 4)%nat.
  - repeat (wp_step; cbn zeta); try (split; [by eapply sa_inv_same|constructor]).
    by apply sa_start_keeps.
  - clear Hd Hd' d. intros d Hd. wp_steps. split; [|constructor]. apply sa_inv_answer; [done|].
    by eapply (write_one_answered P "sa").
Qed.

(** * The SRAM *)

Lemma sram_read_keeps B p d : P (RBeat p) -> sa_inv B d -> keeps B (SRAMReadReqHandler p) d.
Proof.
  intros Hp Hd. unfold SRAMReadReqHandler, log_error. wp_step. wp_step. cbn zeta.
  do 3 (wp_step; [sa_quiet Hd|]).
  set (r := ReadRespPayload _ _ _ _ _).
  destruct (tracked_read P (pending_ d) p r) as [Ha Ht]; [by destruct Hd|done|done|].
  fold (sa_tracker (rq_tid p) d) in Ha, Ht.
  wp_steps; (split; [|repeat constructor]).
  - apply sa_inv_answer; [by apply sa_inv_pending, tracked_delete; [|destruct Hd]|].
    by eapply (read_answered P "sa"); [|exact Hp|exact Ha|]; [by destruct (rbeats _)|].
  - by apply sa_inv_pending.
Qed.

Lemma sram_write_keeps B p d : P (WBeat p) -> sa_inv B d -> keeps B (SRAMWriteReqHandler p) d.
Proof.
  intros Hp Hd. unfold SRAMWriteReqHandler, log_error. do 4 wp_step. cbn zeta.
  do 3 (wp_step; [sa_quiet Hd|]). do 2 wp_step.
  set (r := WriteRespPayload _ _). set (d1 := set_sram _ d).
  assert (sa_inv B d1) as Hd1 by (by eapply sa_inv_same).
  destruct (tracked_write P (pending_ d) p r) as [Ha Ht]; [by destruct Hd|done|done|].
  fold (sa_tracker (wq_tid p) d) in Ha, Ht.
  wp_steps; (split; [|repeat constructor]).
  - apply sa_inv_answer; [by apply sa_inv_pending, tracked_delete; [|destruct Hd]|].
    by eapply (write_answered P "sa"); [|exact Hp|exact Ha|]; [by destruct (wbeats _)|].
  - by apply sa_inv_pending.
Qed.

(** * Ports, events and steps *)

Lemma sa_send_keeps B d : sa_inv B d -> keeps B Systolic.trySendPacket d.
Proof.
  intros Hd. unfold Systolic.trySendPacket. wp_step. wp_step. cbn [app].
  apply keeps_bind with B.
  - destruct (req_Q_ d) as [|p q] eqn:Hq; repeat wp_step;
      (split; [|constructor]); try done.
    destruct Hd as [H1 H2 H3]. destruct (push_grows (m_req_ d) p) as [G1 G2].
    split; [|done|done]. eapply made_keep; [exact H1|done| |exact G1]. cbn. rewrite Hq.
    intros q' [[?|?]%G2|?]%elem_of_app; set_solver.
  - clear Hd d. intros d Hd. wp_step. wp_step.
    destruct (resp_Q_ d) as [|p q] eqn:Hq; repeat wp_step; (split; [|constructor]); try done.
    destruct Hd as [H1 H2 H3]. destruct (push_grows (m_resp_ d) p) as [G1 G2].
    split; [done| |done]. cbn. intros r Hr. apply H2. rewrite Hq.
    apply elem_of_app in Hr as [[?|?]%G2|?]; set_solver.
Qed.

Lemma sa_event_keeps B now delay e d : sa_asked (now, e) -> sa_inv B d ->
  keeps (B + 4) (Systolic.sa_fire junk now delay e) d.
Proof.
  intros He Hd. unfold sa_asked in He. cbn in He.
  destruct e as [p|p|p|p| |j c|]; cbn [sa_fire]; cbn in He.
  5: apply (keeps_mono (S B)); [lia|by apply poll_keeps].
  4: apply (sa_write_keeps B); [apply He, list_elem_of_here|done].
  all: apply (keeps_mono B); [lia|].
  - apply sram_read_keeps; [|done]. apply He, list_elem_of_here.
  - apply sram_write_keeps; [|done]. apply He, list_elem_of_here.
  - apply sa_read_keeps; [|done]. apply He, list_elem_of_here.
  - by apply cycle_keeps.
  - by apply tile_done_keeps.
Qed.

Lemma access_keeps B now delay sram es e d : sa_inv B d ->
  (forall e' b, e' ∈ e :: es -> b ∈ sa_beats e' -> P b) ->
  keeps B (schedule_access now delay sram es e) d.
Proof.
  intros Hd He. unfold schedule_access, schedule. wp_step.
  - eapply wp_mono.
    + apply (wp_foreach_count _ _ sa_inv sa_asked 0) with (n := B); [|done].
      intros [t e1] d1 B1 Hin Hd1. wp_step. split; [eapply sa_inv_mono; [|done]; lia|].
      constructor; [|done]. apply elem_of_lookup_imap in Hin as (j & e2 & [= -> ->] & Hj).
      intros b. apply He. apply list_elem_of_further. by eapply list_elem_of_lookup_2.
    + intros u d1 w [Hd1 Hw]. split; [eapply sa_inv_mono; [|done]; lia|done].
  - repeat wp_step. split; [done|]. repeat constructor. intros b. apply He, list_elem_of_here.
Qed.

Lemma beats_of_events {A} (f : A -> sa_event) (g : A -> beat) (f0 : A -> sa_event) ps p0 :
  (forall x, sa_beats (f x) = [g x]) -> (forall x, sa_beats (f0 x) = [g x]) ->
  from_opt (Undefined "payload[0]") (head ps) = Ok p0 -> (forall b, b ∈ map g ps -> P b) ->
  forall e b, e ∈ f0 p0 :: map f ps -> b ∈ sa_beats e -> P b.
Proof.
  intros Hf Hf0 Hh Hg e b He Hb. apply elem_of_cons in He as [->|He].
  - rewrite Hf0 in Hb. apply list_elem_of_singleton in Hb as ->.
    destruct ps as [|x ps]; [done|]. injection Hh as ->. apply Hg, list_elem_of_here.
  - apply list_elem_of_In, in_map_iff in He as (x & <- & Hx). rewrite Hf in Hb.
    apply list_elem_of_singleton in Hb as ->. apply Hg, list_elem_of_In, in_map_iff. by exists x.
Qed.

Lemma sa_packet_keeps B now delay k d : (forall b, b ∈ packet_beats k -> P b) ->
  sa_inv B d -> keeps (B + 4) (Systolic.step_packet now delay k) d.
Proof.
  intros Hk Hd. unfold Systolic.step_packet.
  assert (forall tid m, sa_inv (B + 4) (Systolic.set_expected tid m d)) as Hexp.
  { intros tid m. unfold Systolic.set_expected. apply sa_inv_pending.
    - eapply sa_inv_mono; [|exact Hd]. lia.
    - apply tracked_insert; [by destruct Hd|]. apply (tracked_default P). by destruct Hd. }
  destruct k as [p|p|p|p]; cbn in Hk.
  - cbn zeta. repeat wp_step. cbn [app]. apply access_keeps; [apply Hexp|].
    by eapply (beats_of_events EvSramRead RBeat EvReadMMIO).
  - cbn zeta. repeat wp_step. cbn [app]. apply access_keeps; [apply Hexp|].
    by eapply (beats_of_events EvSramWrite WBeat EvWriteMMIO).
  - by apply sa_response_keeps.
  - unfold Systolic.handleWriteCompletion. sa_quiet Hd. split; [|constructor].
    eapply sa_inv_mono; [|exact Hd]. lia.
Qed.

Lemma sa_step_keeps B now delay ks d : (forall b, b ∈ flat_map packet_beats ks -> P b) ->
  sa_inv B d -> keeps (B + 4 * length ks) (Systolic.step now delay ks) d.
Proof.
  intros Hks Hd. unfold Systolic.step. wp_step. wp_step. cbn [app].
  apply (keeps_bind _ B).
  - wp_step; [by apply sa_send_keeps|by split].
  - intros d1 Hd1. apply (wp_foreach_count _ _ sa_inv sa_asked 4); [|done].
    intros k d2 B2 Hin Hd2. apply sa_packet_keeps; [|done]. intros b Hb.
    apply Hks, list_elem_of_In, in_flat_map. exists k. by rewrite <- !list_elem_of_In.
Qed.

Lemma sa_serving d : tracked P (pending_ d) <->
  forall t a, in_tracker (pending_ d) t a -> exists b, P b /\ beat_tid b = t /\ answers b a.
Proof.
  split.
  - intros Ht t a (tk & Htk & Ha). by apply (Ht t tk).
  - intros Ht t tk Htk a Ha. apply Ht. by exists tk.
Qed.
End Sa_device.

#[export] Instance sa_laws `{Framework} {PR : PipeRegister} {PL : PipeRegisterLaws PR} junk :
  @BusDeviceLaws SystolicArray (Z * sa_event) (sa_device junk).
Proof.
  split.
  - intros P n c d d' es ctr _ [Hr Hp%sa_serving] Hb Hsz ([d1 w] & E & [= <- <- <-])%bind_ok.
    split; [done|].
    assert (sa_inv P n d 0 (set_ctr (s32 n) d)) as Hinv by (split; [by apply made_none|exact Hr|exact Hp]).
    assert (sa_inv P n d (4 * 6) d1 /\ Forall (sa_asked P) w) as [[(new & Hm & Hl) Hresp Ht] Hw].
    { refine (wp_outcome _ (fun d1 w => sa_inv P n d (4 * 6) d1 /\ Forall (sa_asked P) w) _ _ _ _ E).
      destruct c as [now delay ks|now delay [t e]|now]; cbn in Hb, Hsz |- *.
      - apply (keeps_mono P n d (0 + 4 * length ks)); [unfold slave_ports in Hsz; lia|].
        by apply sa_step_keeps.
      - apply (keeps_mono P n d (0 + 4)); [lia|]. by apply sa_event_keeps.
      - apply (keeps_mono P n d 0); [lia|]. by apply sa_send_keeps. }
    split; [split; [exact Hresp|by apply sa_serving]|]. split.
    + intros e b He. rewrite Forall_forall in Hw. by apply Hw.
    + exists new. split; [done|]. lia.
  - intros d d' (r1 & r2 & H1 & H2 & ->). by cbn.
Qed.
