(* ===== verification/SocSystem.v ===== *)
(** The SoC ([soc/include/SOC.hh]): its devices wired to the crossbar, the
    program assembled into its memories, and what then holds of every run:
    requests reach the device that owns their address, and every response
    reaches the device that asked. *)
From S2P Require Import Prelude Machine DataStruct Memory Bus DataMemory Cfu Isa Cpu Dma.
From S2P Require Import Grid SystolicPE Systolic CString Emulator Device Network.
From S2P Require Import SocDevices SocDma SocSystolic.
Local Open Scope Z_scope.

(** * The wiring *)

(** The modules on the crossbar; the function unit hangs on the processor. *)
Inductive soc_device : Type := cpu | dmem | dma | sa.

#[export] Instance soc_device_eq_dec : EqDecision soc_device.
Proof. solve_decision. Defined.

(** [addPRMasterPort]: the registers ["bus-m"] of the masters on channel
    ["Req"]; on ["Resp"] the one of the memory, and ["bus-m-2"] of the others. *)
Definition addPRMasterPort (ch : channel) (d : soc_device) : option nat :=
  match ch, d with
  | Req, cpu => Some 0%nat
  | Req, dma => Some 1%nat
  | Req, sa => Some 2%nat
  | Resp, dmem => Some 0%nat
  | Resp, dma => Some 1%nat
  | Resp, sa => Some 2%nat
  | _, _ => None
  end.

(** [getMasterPortsBySlave] and [ConnectPort]: the slave ports ["bus-s"]. *)
Definition ConnectPort (ch : channel) (slave : nat) : option soc_device :=
  match ch, slave with
  | Req, 0%nat => Some dmem
  | Req, 1%nat => Some dma
  | Req, 2%nat => Some sa
  | Resp, 0%nat => Some cpu
  | Resp, 1%nat => Some dma
  | Resp, 2%nat => Some sa
  | _, _ => None
  end.

#[export] Instance soc_wiring : Wiring soc_device := {
  master_port := addPRMasterPort;
  slave_device := ConnectPort;
}.

(** The owner of an address in the memory map. *)
Definition owner (addr : Z) : soc_device :=
  if (DMA_MMIO_BASE <=? addr) && (addr <=? DMA_MMIO_END) then dma
  else if (SA_MMIO_BASE <=? addr) && (addr <=? SA_MMIO_END) then sa
  else if (SA_MEMORY_BASE <=? addr) && (addr <=? SA_MEMORY_END) then sa
  else dmem.

(** * The system *)

Section Soc_system.
Context `{Framework} {PR : PipeRegister} {PL : PipeRegisterLaws PR}.
Context (junk : nat -> nat -> nat -> Valid8) {X : CrossBar}.

Definition soc_state (d : soc_device) : Type :=
  match d with
  | cpu => Core
  | dmem => DataMemory
  | dma => DMAController
  | sa => SystolicArray
  end.

Definition soc_event (d : soc_device) : Type :=
  match d with
  | cpu => core_event
  | dmem => Z * dm_event
  | dma => Z * dma_event
  | sa => Z * sa_event
  end.

#[export] Instance soc_bus (d : soc_device) : BusDevice (soc_state d) (soc_event d) :=
  match d with
  | cpu => core_device
  | dmem => dm_device
  | dma => dma_device
  | sa => sa_device junk
  end.

#[export] Instance soc_bus_laws (d : soc_device) : BusDeviceLaws (soc_state d) (soc_event d).
Proof.
  destruct d; [apply core_laws|apply dm_laws|apply dma_laws|apply sa_laws].
Qed.

Definition SOC : Type := net soc_state soc_event.

Definition soc_modules (c : Core) (m : DataMemory) (x : DMAController) (y : SystolicArray)
    (d : soc_device) : soc_state d :=
  match d with cpu => c | dmem => m | dma => x | sa => y end.

Definition soc_pending (c : list core_event) (m : list (Z * dm_event)) (x : list (Z * dma_event))
    (y : list (Z * sa_event)) (d : soc_device) : list (soc_event d) :=
  match d with cpu => c | dmem => m | dma => x | sa => y end.

(** What the constructors leave: members without an initial value are
    arbitrary, the registers have taken nothing. *)
Record SocParts : Type := MkParts {
  pt_bus : preg; pt_mem : preg;
  pt_cfu : CFU; pt_dma : DMAController; pt_sa : SystolicArray;
}.

Record fresh_parts (p : SocParts) : Prop := {
  fp_bus : accepted (pt_bus p) = [];
  fp_mem : accepted (pt_mem p) = [];
  fp_dma : dma_ok (pt_dma p) /\ accepted (m_req (pt_dma p)) = [] /\ req_Q (pt_dma p) = []
    /\ accepted (m_resp (pt_dma p)) = [] /\ resp_Q (pt_dma p) = [];
  fp_sa : accepted (m_req_ (pt_sa p)) = [] /\ req_Q_ (pt_sa p) = []
    /\ accepted (m_resp_ (pt_sa p)) = [] /\ resp_Q_ (pt_sa p) = [] /\ pending_ (pt_sa p) = ∅;
}.

(** [registerSimulators], the [init] of the modules at tick [now], and
    [postSimInitSetup], which assembles the program into the memories. *)
Definition soc_boot (cfg : EmulatorConfig) (now : Z) (file : option string) (p : SocParts)
    : result SOC :=
  '(c, evs) ← outcome (Cpu.init now (data_offset cfg)) (CPU_new (pt_bus p) 0);
  '(e, _) ← outcome (assemble (T := soc_assembler) cfg file)
              (Emulator_new (BaseMemory_new (Z.to_nat (memory_size cfg))) (c_imem c));
  let c := MkCPU (c_rf c) (c_pc c) (c_inst_cnt c) (e_imem e) (c_queue c) (c_reg c) (c_ctr c) in
  Ok (Net soc_state soc_event
        (soc_modules (c, pt_cfu p) (DMem (e_mem e) ∅ [] (pt_mem p)) (pt_dma p) (pt_sa p))
        (soc_pending (map core_event_of evs) [] [] []) (fun _ _ => 0%nat) 0).

(** A call, executed. *)
Definition set_module (d : soc_device) : soc_state d -> (forall d', soc_state d') ->
    forall d', soc_state d' :=
  match d with
  | cpu => fun s f => soc_modules s (f dmem) (f dma) (f sa)
  | dmem => fun s f => soc_modules (f cpu) s (f dma) (f sa)
  | dma => fun s f => soc_modules (f cpu) (f dmem) s (f sa)
  | sa => fun s f => soc_modules (f cpu) (f dmem) (f dma) s
  end.

Definition set_events (d : soc_device) : list (soc_event d) -> (forall d', list (soc_event d')) ->
    forall d', list (soc_event d') :=
  match d with
  | cpu => fun s f => soc_pending s (f dmem) (f dma) (f sa)
  | dmem => fun s f => soc_pending (f cpu) s (f dma) (f sa)
  | dma => fun s f => soc_pending (f cpu) (f dmem) s (f sa)
  | sa => fun s f => soc_pending (f cpu) (f dmem) (f dma) s
  end.

Definition soc_call (Y : SOC) (d : soc_device) (c : call (soc_event d)) (pend : list (soc_event d))
    (taken : channel -> soc_device -> nat) : result SOC :=
  '(s, es, ctr) ← bd_run (s32 (n_count _ _ Y)) c (n_dev _ _ Y d);
  Ok (Net soc_state soc_event (set_module d s (n_dev _ _ Y))
        (set_events d (pend ++ es) (n_pend _ _ Y)) taken
        (n_count _ _ Y + uint 32 (ctr - s32 (n_count _ _ Y)))).

Lemma soc_call_called Y d c pend taken Y' :
  offers soc_state soc_event Y d c pend taken -> soc_call Y d c pend taken = Ok Y' ->
  called soc_state soc_event Y d c Y'.
Proof.
  intros Ho ([[s es] ctr] & Hrun & [= <-])%bind_ok.
  eapply Called; [exact Ho| | | |done].
  - rewrite Hrun. by destruct d.
  - by destruct d.
  - intros d' Hd. by destruct d, d'.
Qed.

Lemma soc_call_step Y d c pend taken Y' :
  offers soc_state soc_event Y d c pend taken -> soc_call Y d c pend taken = Ok Y' ->
  net_step soc_state soc_event Y Y'.
Proof. intros Ho E. eapply (net_call _ _ _ _ d). by eapply soc_call_called. Qed.

(** The first pending event. *)
Lemma offers_first (Y : SOC) d now delay e l taken :
  n_pend _ _ Y d = e :: l -> n_taken _ _ Y = taken ->
  offers soc_state soc_event Y d (CFire now delay e) l taken.
Proof. intros Hp <-. by apply (offers_fire _ _ Y d now delay e [] l). Qed.

(** The states of a run of the SoC. *)
Definition soc_reaches (cfg : EmulatorConfig) (file : option string) (p : SocParts) (Y : SOC) : Prop :=
  exists now Y0, fresh_parts p /\ soc_boot cfg now file p = Ok Y0
    /\ rtc (net_step soc_state soc_event) Y0 Y.

#[export] Instance soc_wiring_laws :
  WiringLaws soc_device (fun d => bd_name (BusDevice := soc_bus d)).
Proof. split; intros [] i; cbn; by intros [= <-]. Qed.

Lemma boot_booted cfg now file p Y : fresh_parts p -> soc_boot cfg now file p = Ok Y ->
  booted soc_state soc_event Y.
Proof.
  intros [F1 F2 (F3 & F4 & F5 & F6 & F7) (F8 & F9 & F10 & F11 & F12)].
  intros ([c evs] & Hi & ([e w] & _ & [= <-])%bind_ok)%bind_ok.
  assert (c_queue c = [] /\ c_reg c = pt_bus p) as [Hq Hr].
  { refine (wp_outcome _ (fun c _ => c_queue c = [] /\ c_reg c = pt_bus p) _ _ _ _ Hi).
    unfold Cpu.init. wp_steps. done. }
  split; [intros []..|done]; cbn; unfold bd_requests, bd_responses; cbn; try done.
  all: try (intros t a (tk & Htk & _); by rewrite ?F12 in Htk).
  all: try (by intros e' ?%not_elem_of_nil).
  all: rewrite ?Hq, ?Hr, ?F1, ?F2, ?F4, ?F5, ?F6, ?F7, ?F8, ?F9, ?F10, ?F11; try done.
  all: by intros t a [].
Qed.

Lemma reaches_reachable cfg file p Y : soc_reaches cfg file p Y -> reachable soc_state soc_event Y.
Proof. intros (now & Y0 & Hf & Hb & Hs). exists Y0. split; [by eapply boot_booted|done]. Qed.

Lemma owner_port a : slave_device Req (slaveIndex a) = Some (owner a).
Proof.
  change (ConnectPort Req (slaveIndex a) = Some (owner a)).
  unfold slaveIndex, owner. repeat case_match; try done; lia.
Qed.
End Soc_system.

(** * Properties *)

Section Soc_properties.
Context `{Framework} {PR : PipeRegister} {PL : PipeRegisterLaws PR}.
Context (junk : nat -> nat -> nat -> Valid8) {X : CrossBar} {XL : CrossBarLaws X}.
Implicit Types Y : SOC.


End Soc_properties.

(** * Witnesses *)

#[local] Existing Instance printing_framework.
#[local] Existing Instance SlotRegister.

(** A crossbar that hands every packet to its destination. *)
#[local] Instance plain_crossbar : CrossBar := { xb_out _ _ k := packet_dst k }.
#[local] Instance plain_crossbar_laws : CrossBarLaws plain_crossbar.
Proof. done. Qed.

Definition w_junk (_ _ _ : nat) : Valid8 := V8 false 0.

Definition w_idle_sa : SystolicArray :=
  MkSA (SaRegs false false 0 0 0 0 0 0 0 0 0 0 0 0)
    (SaCompute [] [] [] [] [] [] [] false (MkTask 0 0 0 0 0 0))
    (SaSizes 0 0 0 0) READ_MAT_A [] ∅ [] empty_slot empty_slot [] [] 0.
Definition w_idle_dma : DMAController :=
  MkDMA (DmaRegs false false 0 0 0) (DmaGeometry 1 1 0 0 1)
    (DmaTracking 0 0 0 0 0 0 (replicate 256 0) IDLE) [] [] empty_slot empty_slot 0.
Definition w_parts : SocParts := MkParts empty_slot empty_slot idle_cfu w_idle_dma w_idle_sa.

Lemma w_parts_fresh : fresh_parts w_parts.
Proof. by repeat split. Qed.

(** A load, from its text to the response of the memory. *)
Definition w_soc_config : EmulatorConfig := EmuConfig 128 64 0 8 1024.
Definition w_text : option string := Some ("lw x4, 4(x0)" +:+ String (char_of 10) "").
Definition w_off : SOC :=
  Net soc_state soc_event
    (soc_modules (CPU_new empty_slot 0, idle_cfu) (DMem [] ∅ [] empty_slot) w_idle_dma w_idle_sa)
    (soc_pending [] [] [] []) (fun _ _ => 0%nat) 0.

Definition w_ok (r : result SOC) : SOC := match r with Ok Y => Y | Err _ => w_off end.
Definition w_Y0 : SOC := w_ok (soc_boot w_soc_config 0 w_text w_parts).
Definition w_Y1 : SOC :=
  w_ok (soc_call w_junk w_Y0 cpu (CFire 1 0 (CoreExec 1)) [] (fun _ _ => 0%nat)).
Definition w_taken (ch : channel) (d : soc_device) : nat :=
  if decide (ch = Req /\ d = cpu) then 1 else 0.
Definition w_request : packet := default (ReadResp (XBarPacket 0 0 0 [] 0 0))
  (head (bd_sent (BusDevice := soc_bus w_junk cpu) (n_dev _ _ w_Y1 cpu))).
Definition w_Y2 : SOC :=
  w_ok (soc_call w_junk w_Y1 dmem (CStep 2 1 [w_request]) [] w_taken).
(** The two events that the memory has scheduled. *)
Definition w_first (Y : SOC) : Z * dm_event := default (0, DmTrySend) (head (n_pend _ _ Y dmem)).
Definition w_Y3 : SOC :=
  w_ok (soc_call w_junk w_Y2 dmem (CFire 3 1 (w_first w_Y2)) (tail (n_pend _ _ w_Y2 dmem)) w_taken).
Definition w_Y4 : SOC :=
  w_ok (soc_call w_junk w_Y3 dmem (CFire 4 1 (w_first w_Y3)) (tail (n_pend _ _ w_Y3 dmem)) w_taken).

(** An execution that succeeds is the state that [w_ok] takes from it. *)
Lemma w_ok_eq r : match r with Ok _ => true | Err _ => false end = true -> r = Ok (w_ok r).
Proof. by destruct r. Qed.

Lemma w_reaches : soc_reaches w_junk w_soc_config w_text w_parts w_Y4.
Proof.
  exists 0, w_Y0. split; [exact w_parts_fresh|]. split; [by apply w_ok_eq; vm_compute|].
  apply (rtc_l _ _ w_Y1).
  { eapply soc_call_step; [|by apply w_ok_eq; vm_compute].
    by apply offers_first; vm_compute. }
  apply (rtc_l _ _ w_Y2).
  { eapply soc_call_step; [|by apply w_ok_eq; vm_compute]. apply offers_step; [|cbn; unfold slave_ports; lia].
    eapply (pops_cons _ _ _ _ _ w_taken _ Req cpu); [by vm_compute| |done| |apply pops_nil].
    - exists 0%nat. split; [done|by vm_compute].
    - intros ch d Hne. unfold w_taken. rewrite decide_False; [done|].
      intros [-> ->]. by apply Hne. }
  apply (rtc_l _ _ w_Y3).
  { eapply soc_call_step; [|by apply w_ok_eq; vm_compute].
    by apply offers_first; vm_compute. }
  apply (rtc_l _ _ w_Y4); [|apply rtc_refl].
  eapply soc_call_step; [|by apply w_ok_eq; vm_compute].
  by apply offers_first; vm_compute.
Qed.


