(* ===== verification/SocAccess.v ===== *)
(** Single accesses of the processor at the data memory: what one call of
    [DataMemory] does with a request of one beat, and what it may do to the
    responses. *)
From S2P Require Import Prelude Machine DataStruct Memory Bus DataMemory Device SocDevices.
Local Open Scope Z_scope.

(** * Requests and responses of one beat *)

Definition beat_event (b : beat) : dm_event :=
  match b with RBeat p => DmRead p | WBeat p => DmWrite p end.

(** The access that an event performs, and its tick. *)
Definition event_access (e : Z * dm_event) : option (Z * beat) :=
  match e.2 with
  | DmRead p => Some (e.1, RBeat p)
  | DmWrite p => Some (e.1, WBeat p)
  | DmTrySend => None
  end.

Lemma event_access_beat t b : event_access (t, beat_event b) = Some (t, b).
Proof. by destruct b. Qed.

(** The packet of a single access of the processor. *)
Definition single (b : beat) (q : packet) : Prop :=
  beat_caller b = "cpu"%string /\ exists t,
  q = match b with
      | RBeat p => ReadReq (XBarPacket t 0 1 [p] 0 0)
      | WBeat p => WriteReq (XBarPacket t 0 1 [p] 0 0)
      end.

Lemma single_beats b q : single b q -> packet_beats q = [b].
Proof. destruct b; by intros (_ & t & ->). Qed.

Lemma single_dst b q : single b q -> packet_dst q = 0%nat.
Proof. destruct b; by intros (_ & t & ->). Qed.

(** A response to a single access goes to the processor. *)
Definition reply (k : packet) : Prop :=
  packet_dst k = 0%nat /\
  match k with
  | ReadResp p => exists r, pk_payloads p = [r]
  | WriteResp p => True
  | _ => False
  end.

(** The value that a response brings. *)
Definition read_reply (k : packet) : option XBarMemReadRespPayload :=
  match k with ReadResp p => head (pk_payloads p) | _ => None end.

(** * The data memory *)

Section Access.
Context `{Framework} {PR : PipeRegister} {PL : PipeRegisterLaws PR}.
Implicit Types d : DataMemory.

(** No transaction has beats that wait for others. *)
Definition plain_trackers d : Prop :=
  forall t tk, dm_pending d !! t = Some tk -> rbeats tk = [] /\ wbeats tk = [] /\ expected tk <= 1.

Lemma plain_tracker t d : plain_trackers d ->
  rbeats (tracker t d) = [] /\ wbeats (tracker t d) = [] /\ expected (tracker t d) <= 1.
Proof.
  intros Hp. unfold tracker. destruct (dm_pending d !! t) as [tk|] eqn:E; [by apply (Hp t)|].
  by cbn; repeat split.
Qed.

Lemma plain_insert t n d : plain_trackers d -> n <= 1 -> plain_trackers (set_expected t n d).
Proof.
  intros Hp Hn t' tk. unfold set_expected. cbn. intros [[<- <-]|[_ Hl]]%lookup_insert_Some.
  - cbn. by destruct (plain_tracker t d Hp) as (-> & -> & _).
  - by apply (Hp t').
Qed.

Lemma plain_delete t d : plain_trackers d -> plain_trackers (set_pending (delete t) d).
Proof. intros Hp t' tk. cbn. intros [_ Hl]%lookup_delete_Some. by apply (Hp t'). Qed.

(** Nothing but the place of the responses changes. *)
Record resent d d' : Prop := {
  rs_mem : dm_mem d' = dm_mem d;
  rs_pending : dm_pending d' = dm_pending d;
  rs_replies : exists l, accepted (dm_reg d') = accepted (dm_reg d) ++ l
    /\ dm_respQ d = l ++ dm_respQ d';
}.

Lemma resent_refl d : resent d d.
Proof. split; try done. exists []. by rewrite app_nil_r. Qed.

Lemma resent_undelivered n d d' : resent d d' -> (n <= length (accepted (dm_reg d)))%nat ->
  drop n (accepted (dm_reg d')) ++ dm_respQ d' = drop n (accepted (dm_reg d)) ++ dm_respQ d.
Proof.
  intros [_ _ (l & -> & ->)] Hn. rewrite drop_app_le by done. by rewrite <- app_assoc.
Qed.

Lemma send_resent d : exists d', trySendResponse d = Ok (tt, d', []) /\ resent d d'.
Proof.
  unfold trySendResponse. step_monad. destruct (dm_respQ d) as [|p q] eqn:Hq.
  - exists d. split; [done|apply resent_refl].
  - destruct (try_push (dm_reg d) p) as [[] r] eqn:Hp; eexists; (split; [reflexivity|]).
    + apply try_push_true in Hp. split; [done|done|]. exists [p]. by rewrite Hq.
    + apply try_push_false in Hp as ->. split; [done|done|]. exists []. cbn.
      by rewrite Hq, app_nil_r.
Qed.

(** [step] sends first, then handles what it popped. *)
Lemma first_resent d : exists d',
  when (negb (bool_decide (dm_respQ d = []))) trySendResponse d = Ok (tt, d', []) /\ resent d d'.
Proof.
  case_bool_decide; [exists d; split; [done|apply resent_refl]|apply send_resent].
Qed.

Lemma step_none now delay d :
  exists d', outcome (DataMemory.step now delay []) d = Ok (d', []) /\ resent d d'.
Proof.
  destruct (first_resent d) as (d' & E & Hr). exists d'. split; [|done].
  unfold DataMemory.step, outcome. erewrite M_bind_silent by reflexivity.
  by erewrite M_bind_silent by exact E.
Qed.

Lemma step_single now delay d b q : single b q -> plain_trackers d ->
  exists d' d1, outcome (DataMemory.step now delay [q]) d
      = Ok (d', [(now + delay, beat_event b); (now + 1 + 1 + delay, DmTrySend)])
    /\ plain_trackers d' /\ resent d d1 /\ d' = set_expected (packet_tid q) 1 d1.
Proof.
  intros Hs Hp. destruct (first_resent d) as (d1 & E & Hr).
  exists (set_expected (packet_tid q) 1 d1), d1. split_and!; try done.
  - unfold DataMemory.step, outcome. erewrite M_bind_silent by reflexivity.
    erewrite M_bind_silent by exact E.
    destruct b; destruct Hs as (_ & t & ->); cbn; by rewrite Z.add_0_r.
  - apply plain_insert; [|done]. unfold plain_trackers. by rewrite (rs_pending _ _ Hr).
Qed.

(** An access that is performed is answered at once. *)
Lemma fire_write d p m' : plain_trackers d -> wq_caller p = "cpu"%string ->
  store (dm_mem d) (wq_op p) (wq_addr p) (wq_data p) = Ok m' ->
  exists d' k, outcome (memWriteReqHandler p) d = Ok (d', []) /\ plain_trackers d'
    /\ dm_mem d' = m' /\ dm_reg d' = dm_reg d /\ dm_respQ d' = dm_respQ d ++ [k]
    /\ reply k /\ read_reply k = None.
Proof.
  intros Hp Hc Hm. destruct (plain_tracker (wq_tid p) d Hp) as (_ & Hw & He).
  rewrite (write_handler_outcome d p m') by done. cbv zeta. rewrite Hw, Z.max_r by done. cbn [app].
  eexists _, _. split; [reflexivity|]. split; [by apply plain_delete|].
  split_and!; try reflexivity. unfold reply. cbn. by rewrite Hc.
Qed.

Lemma fire_read d p v : plain_trackers d -> rq_caller p = "cpu"%string ->
  load (dm_mem d) (rq_op p) (rq_addr p) = Ok v ->
  exists d' k, outcome (memReadReqHandler p) d = Ok (d', []) /\ plain_trackers d'
    /\ dm_mem d' = dm_mem d /\ dm_reg d' = dm_reg d /\ dm_respQ d' = dm_respQ d ++ [k]
    /\ reply k /\ read_reply k = Some (ReadRespPayload (rq_tid p) (rq_i p) (rq_op p) v (rq_a1 p)).
Proof.
  intros Hp Hc Hv. destruct (plain_tracker (rq_tid p) d Hp) as (Hr & _ & He).
  rewrite read_handler_outcome by (by exists v). cbv zeta. rewrite Hr, Z.max_r by done. cbn [app].
  eexists _, _. split; [reflexivity|]. split; [by apply plain_delete|].
  split_and!; try reflexivity; unfold reply, read_beat; cbn; rewrite ?Hc, ?Hv; eauto.
Qed.
End Access.
