(* ===== verification/Transactions.v ===== *)
(** Burst transactions at the data memory. Whatever the order in which beats
    of different transactions are served, the memory is a bag of transactions,
    each of which is on its way, being served or answered; a call of the memory
    takes some of them a step further ([DataMemory] refines [serve]). *)
From S2P Require Import Prelude Machine DataStruct Memory Bus DataMemory Device SocDevices SocAccess.
Local Open Scope Z_scope.

(** * Transactions *)

(** What is left to do and what has been done of a transaction. *)
Inductive tx : Type :=
  | RSent (p : XBarMemReadReqPacket)
  | RServing (t : Z) (todo : list XBarMemReadReqPayload) (got : list XBarMemReadRespPayload)
  | RAnswered (t : Z) (got : list XBarMemReadRespPayload)
  | WSent (p : XBarMemWriteReqPacket)
  | WServing (t : Z) (todo : list XBarMemWriteReqPayload) (got : list XBarMemWriteRespPayload)
  | WAnswered (t : Z) (got : list XBarMemWriteRespPayload).

Definition is_read (x : tx) : bool :=
  match x with RSent _ | RServing _ _ _ | RAnswered _ _ => true | _ => false end.

(** The beats that have not been served. *)
Definition read_todo (x : tx) : list XBarMemReadReqPayload :=
  match x with RSent p => pk_payloads p | RServing _ todo _ => todo | _ => [] end.
Definition write_todo (x : tx) : list XBarMemWriteReqPayload :=
  match x with WSent p => pk_payloads p | WServing _ todo _ => todo | _ => [] end.

(** Its number, until it is answered. *)
Definition tx_tid (x : tx) : option Z :=
  match x with
  | RSent p => Some (pk_tid p) | WSent p => Some (pk_tid p)
  | RServing t _ _ | WServing t _ _ => Some t
  | _ => None
  end.

(** Where it is seen: as a packet, as accesses that the memory has scheduled,
    as a tracker, as a response. *)
Definition tx_request (x : tx) : option packet :=
  match x with RSent p => Some (ReadReq p) | WSent p => Some (WriteReq p) | _ => None end.
Definition tx_accesses (x : tx) : list beat :=
  match x with
  | RServing _ todo _ => map RBeat todo
  | WServing _ todo _ => map WBeat todo
  | _ => []
  end.
Definition tx_tracker (x : tx) : option (Z * BurstTracker) :=
  match x with
  | RServing t todo got => Some (t, Tracker (Z.of_nat (length got + length todo)) got [])
  | WServing t todo got => Some (t, Tracker (Z.of_nat (length got + length todo)) [] got)
  | _ => None
  end.

Section Transactions.
Context (caller : string).

Definition tx_reply (x : tx) : option packet :=
  match x with
  | RAnswered t got => Some (read_response t caller got)
  | WAnswered t got => Some (write_response t caller got)
  | _ => None
  end.

Definition good_read (t : Z) (b : XBarMemReadReqPayload) : Prop :=
  rq_tid b = t /\ rq_caller b = caller.
Definition good_write (t : Z) (b : XBarMemWriteReqPayload) : Prop :=
  wq_tid b = t /\ wq_caller b = caller.

(** A packet announces its length, and its beats carry its number. *)
Definition wf_tx (x : tx) : Prop :=
  match x with
  | RSent p => pk_payloads p <> [] /\ pk_burstSize p = Z.of_nat (length (pk_payloads p))
      /\ Forall (good_read (pk_tid p)) (pk_payloads p)
  | WSent p => pk_payloads p <> [] /\ pk_burstSize p = Z.of_nat (length (pk_payloads p))
      /\ Forall (good_write (pk_tid p)) (pk_payloads p)
  | RServing t todo _ => todo <> [] /\ Forall (good_read t) todo
  | WServing t todo _ => todo <> [] /\ Forall (good_write t) todo
  | RAnswered _ got => got <> []
  | WAnswered _ got => got <> []
  end.

(** The specification: one step of one transaction, and what it does to the
    memory. *)
Inductive serve (m : mem) : tx -> mem -> tx -> Prop :=
  | serve_read_arrives p : serve m (RSent p) m (RServing (pk_tid p) (pk_payloads p) [])
  | serve_write_arrives p : serve m (WSent p) m (WServing (pk_tid p) (pk_payloads p) [])
  | serve_read t l1 b l2 got v : load m (rq_op b) (rq_addr b) = Ok v -> l1 ++ l2 <> [] ->
      serve m (RServing t (l1 ++ b :: l2) got) m (RServing t (l1 ++ l2) (got ++ [read_beat m b]))
  | serve_read_last t b got v : load m (rq_op b) (rq_addr b) = Ok v ->
      serve m (RServing t [b] got) m (RAnswered t (got ++ [read_beat m b]))
  | serve_write t l1 b l2 got m' : store m (wq_op b) (wq_addr b) (wq_data b) = Ok m' ->
      l1 ++ l2 <> [] ->
      serve m (WServing t (l1 ++ b :: l2) got) m' (WServing t (l1 ++ l2) (got ++ [write_beat b]))
  | serve_write_last t b got m' : store m (wq_op b) (wq_addr b) (wq_data b) = Ok m' ->
      serve m (WServing t [b] got) m' (WAnswered t (got ++ [write_beat b])).

(** A step of one transaction in a bag of them. *)
Inductive bag_step : mem * list tx -> mem * list tx -> Prop :=
  | bag_serve m x m' x' xs ys ys' : serve m x m' x' -> ys ≡ₚ x :: xs -> ys' ≡ₚ x' :: xs ->
      bag_step (m, ys) (m', ys').

(** ** What is left to do *)

(** Arriving makes an event per beat and one more, so it costs more than all
    of them. *)
Definition tx_weight (x : tx) : nat :=
  match x with
  | RSent p => 3 * length (pk_payloads p) + 5
  | WSent p => 3 * length (pk_payloads p) + 5
  | RServing _ todo _ => 2 * length todo + 3
  | WServing _ todo _ => 2 * length todo + 3
  | RAnswered _ _ | WAnswered _ _ => 1
  end.

Definition weight (xs : list tx) : nat := sum_list (map tx_weight xs).

#[export] Instance weight_proper : Proper ((≡ₚ) ==> eq) weight.
Proof. unfold weight. intros xs ys Hp. induction Hp; cbn in *; lia. Qed.

Lemma bag_step_weight mx mx' : bag_step mx mx' -> (weight mx'.2 + 2 <= weight mx.2)%nat.
Proof.
  destruct 1 as [m x m' x' xs ys ys' Hs Hy Hy']. cbn [fst snd]. rewrite Hy, Hy'. unfold weight. cbn.
  enough (tx_weight x' + 2 <= tx_weight x)%nat by lia.
  destruct Hs; cbn; rewrite ?length_app; cbn; lia.
Qed.

(** * The bag that a memory holds *)

(** [T] are the request packets that it has not popped, [E] its pending events,
    [P] its trackers and [U] the responses that have not been delivered. *)
Record bag (T : list packet) (E : list (Z * dm_event)) (P : gmap Z BurstTracker) (U : list packet)
    (xs : list tx) : Prop := {
  bag_transit : T ≡ₚ omap tx_request xs;
  bag_sched : map snd (omap event_access E) ≡ₚ flat_map tx_accesses xs;
  bag_trackers : map_to_list P ≡ₚ omap tx_tracker xs;
  bag_replies : U ≡ₚ omap tx_reply xs;
  bag_tids : NoDup (omap tx_tid xs);
  bag_wf : Forall wf_tx xs;
}.

End Transactions.

(** * Bags *)

Section Bags.
Context (caller : string).
Implicit Types (T U : list packet) (E : list (Z * dm_event)) (P : gmap Z BurstTracker) (xs : list tx).

Abbreviation bag := (bag caller).

Lemma bag_perm T E P U xs T' E' U' xs' :
  T' ≡ₚ T -> E' ≡ₚ E -> U' ≡ₚ U -> xs' ≡ₚ xs -> bag T E P U xs -> bag T' E' P U' xs'.
Proof.
  intros HT HE HU Hx [B1 B2 B3 B4 B5 B6]. split.
  - by rewrite HT, Hx.
  - by rewrite HE, Hx.
  - by rewrite Hx.
  - by rewrite HU, Hx.
  - by rewrite Hx.
  - by rewrite Hx.
Qed.

Lemma bag_members T E P U xs xs' : bag T E P U xs -> xs ≡ₚ xs' -> bag T E P U xs'.
Proof. intros B H. by apply (bag_perm T E P U xs). Qed.

(** The members of a bag, by what is seen of them. *)
Lemma omap_member {A B} (f : A -> option B) (l : list A) b : b ∈ omap f l ->
  exists x rest, f x = Some b /\ l ≡ₚ x :: rest.
Proof.
  intros (x & Hx & Hf)%list_elem_of_omap. apply elem_of_Permutation in Hx as [rest Hx]. by exists x, rest.
Qed.

Lemma bag_request T E P U xs q T' : bag T E P U xs -> T ≡ₚ q :: T' ->
  exists x rest, tx_request x = Some q /\ xs ≡ₚ x :: rest.
Proof.
  intros [B1 _ _ _ _ _] HT. apply omap_member. rewrite <- B1, HT. left.
Qed.

Lemma bag_reply T E P U xs k U' : bag T E P U xs -> U ≡ₚ k :: U' ->
  exists x rest, tx_reply caller x = Some k /\ xs ≡ₚ x :: rest.
Proof.
  intros [_ _ _ B4 _ _] HU. apply omap_member. rewrite <- B4, HU. left.
Qed.

Lemma bag_access T E P U xs t b : bag T E P U xs -> (t, b) ∈ omap event_access E ->
  exists x rest, b ∈ tx_accesses x /\ xs ≡ₚ x :: rest.
Proof.
  intros [_ B2 _ _ _ _] Hb. assert (b ∈ flat_map tx_accesses xs) as Hin.
  { rewrite <- B2. apply list_elem_of_In, in_map_iff. exists (t, b). split; [done|by apply list_elem_of_In]. }
  apply list_elem_of_In, in_flat_map in Hin as (x & Hx & Hin). apply list_elem_of_In in Hx, Hin.
  apply elem_of_Permutation in Hx as [rest Hx]. by exists x, rest.
Qed.

(** The tracker of a transaction. *)
Lemma tracker_tid x t k : tx_tracker x = Some (t, k) -> tx_tid x = Some t.
Proof. destruct x; by intros [= <- _]. Qed.

Lemma bag_tracked T E P U x rest t k : bag T E P U (x :: rest) -> tx_tracker x = Some (t, k) ->
  P !! t = Some k.
Proof.
  intros [_ _ B3 _ _ _] Hx. apply elem_of_map_to_list. rewrite B3. cbn. rewrite Hx. left.
Qed.

Lemma bag_untracked T E P U x rest t : bag T E P U (x :: rest) -> tx_tid x = Some t ->
  tx_tracker x = None -> P !! t = None.
Proof.
  intros [_ _ B3 _ B5 _] Ht Hx. apply eq_None_not_Some. intros [k Hk]. cbn in B5. rewrite Ht in B5.
  apply NoDup_cons in B5 as [Hno _]. apply Hno. apply elem_of_map_to_list in Hk. rewrite B3 in Hk.
  cbn in Hk. rewrite Hx in Hk. apply list_elem_of_omap in Hk as (y & Hy & Hyk).
  apply list_elem_of_omap. exists y. split; [done|by eapply tracker_tid].
Qed.

(** ** Its steps *)

(** A transaction is replaced by its next stage. *)
Lemma bag_replace T E P U x x' rest T' E' P' U' : bag T E P U (x :: rest) -> wf_tx caller x' ->
  (T' ≡ₚ option_list (tx_request x') ++ omap tx_request rest) ->
  (map snd (omap event_access E') ≡ₚ tx_accesses x' ++ flat_map tx_accesses rest) ->
  (map_to_list P' ≡ₚ option_list (tx_tracker x') ++ omap tx_tracker rest) ->
  (U' ≡ₚ option_list (tx_reply caller x') ++ omap (tx_reply caller) rest) ->
  (tx_tid x' = tx_tid x \/ tx_tid x' = None) ->
  bag T' E' P' U' (x' :: rest).
Proof.
  intros [B1 B2 B3 B4 B5 B6] Hw H1 H2 H3 H4 H5. apply Forall_cons in B6 as [_ B6]. split; try done.
  - rewrite H1. cbn. by destruct (tx_request x').
  - rewrite H3. cbn. by destruct (tx_tracker x').
  - rewrite H4. cbn. by destruct (tx_reply caller x').
  - cbn in *. destruct H5 as [->| ->]; [done|]. destruct (tx_tid x); [by apply NoDup_cons in B5 as [_ ?]|done].
  - by constructor.
Qed.

Lemma bag_forget T E P U x rest U' : bag T E P U (x :: rest) -> tx_request x = None ->
  tx_accesses x = [] -> tx_tracker x = None -> U' ≡ₚ omap (tx_reply caller) rest -> bag T E P U' rest.
Proof.
  intros [B1 B2 B3 B4 B5 B6] H1 H2 H3 H4. apply Forall_cons in B6 as [_ B6]. cbn in *.
  rewrite H1 in B1. rewrite H2 in B2. rewrite H3 in B3. split; try done.
  destruct (tx_tid x); [by apply NoDup_cons in B5 as [_ ?]|done].
Qed.

(** A response is delivered. *)
Lemma bag_deliver T E P U xs k U' : bag T E P U xs -> U ≡ₚ k :: U' ->
  exists x rest, xs ≡ₚ x :: rest /\ tx_reply caller x = Some k /\ bag T E P U' rest.
Proof.
  intros B HU. destruct (bag_reply _ _ _ _ _ _ _ B HU) as (x & rest & Hx & Hp).
  exists x, rest. split; [done|]. split; [done|].
  assert (B' : bag T E P U (x :: rest)) by (by eapply bag_members).
  eapply bag_forget; [exact B'|by destruct x..|]. pose proof (bag_replies _ _ _ _ _ _ B') as B4.
  cbn in B4. rewrite Hx, HU in B4. by apply Permutation_cons_inv in B4.
Qed.

(** Requests are sent. *)
Lemma bag_send T E P U xs new : bag T E P U xs -> Forall (wf_tx caller) new ->
  Forall (fun x => exists q, tx_request x = Some q) new ->
  NoDup (omap tx_tid new ++ omap tx_tid xs) -> bag (T ++ omap tx_request new) E P U (xs ++ new).
Proof.
  intros [B1 B2 B3 B4 B5 B6] Hw Hs Hd.
  assert (flat_map tx_accesses new = [] /\ omap tx_tracker new = [] /\ omap (tx_reply caller) new = [])
    as (E1 & E2 & E3).
  { clear -Hs. induction Hs as [|x new [q Hq] _ (IH1 & IH2 & IH3)]; [done|]. destruct x; by cbn. }
  split.
  - by rewrite omap_app, B1.
  - by rewrite flat_map_app, E1, app_nil_r.
  - by rewrite omap_app, E2, app_nil_r.
  - by rewrite omap_app, E3, app_nil_r.
  - by rewrite omap_app, Permutation_app_comm.
  - by apply Forall_app.
Qed.
End Bags.

(** * The memory steps through bags *)

Section Memory.
Context `{Framework} {PR : PipeRegister} {PL : PipeRegisterLaws PR} (caller : string).
Implicit Types (d : DataMemory) (T : list packet) (E : list (Z * dm_event)) (xs : list tx).

Abbreviation bag := (bag caller).

(** The memory holds the bag, when [n] packets have left its register. *)
Definition mem_bag T (n : nat) d E xs : Prop :=
  bag T E (dm_pending d) (drop n (accepted (dm_reg d)) ++ dm_respQ d) xs.

Lemma replies_after n d (r : preg) new : r = dm_reg d ->
  drop n (accepted r) ++ dm_respQ d ++ new = (drop n (accepted (dm_reg d)) ++ dm_respQ d) ++ new.
Proof. intros ->. by rewrite app_assoc. Qed.

(** The transaction of a beat that is due. *)
Lemma read_due T E E' P U xs t0 b : bag T E P U xs -> E ≡ₚ (t0, DmRead b) :: E' ->
  exists t l1 l2 got rest, xs ≡ₚ RServing t (l1 ++ b :: l2) got :: rest
    /\ bag T E P U (RServing t (l1 ++ b :: l2) got :: rest)
    /\ good_read caller t b /\ Forall (good_read caller t) (l1 ++ l2)
    /\ map snd (omap event_access E') ≡ₚ map RBeat (l1 ++ l2) ++ flat_map tx_accesses rest.
Proof.
  intros B HE. destruct (bag_access _ _ _ _ _ _ t0 (RBeat b) B) as (x & rest & Hb & Hx).
  { rewrite HE. cbn. left. }
  apply (bag_members _ _ _ _ _ _ (x :: rest)) in B; [|done].
  destruct x as [p|t todo got|t got|p|t todo got|t got]; cbn [tx_accesses] in Hb;
    try (by apply elem_of_nil in Hb); apply list_elem_of_In, in_map_iff in Hb as (b' & [= ->] & Hb).
  apply list_elem_of_In, list_elem_of_split in Hb as (l1 & l2 & ->). exists t, l1, l2, got, rest.
  pose proof (bag_wf _ _ _ _ _ _ B) as [[_ Hg] _]%Forall_cons.
  apply Forall_app in Hg as [Hg1 Hg2]. apply Forall_cons in Hg2 as [Hb Hg2].
  split_and!; try done; [by apply Forall_app|].
  pose proof (bag_sched _ _ _ _ _ _ B) as Hs. rewrite HE in Hs. cbn in Hs.
  rewrite !map_app in Hs |- *. cbn in Hs. rewrite <- Permutation_middle in Hs.
  by apply Permutation_cons_inv in Hs.
Qed.

Lemma write_due T E E' P U xs t0 b : bag T E P U xs -> E ≡ₚ (t0, DmWrite b) :: E' ->
  exists t l1 l2 got rest, xs ≡ₚ WServing t (l1 ++ b :: l2) got :: rest
    /\ bag T E P U (WServing t (l1 ++ b :: l2) got :: rest)
    /\ good_write caller t b /\ Forall (good_write caller t) (l1 ++ l2)
    /\ map snd (omap event_access E') ≡ₚ map WBeat (l1 ++ l2) ++ flat_map tx_accesses rest.
Proof.
  intros B HE. destruct (bag_access _ _ _ _ _ _ t0 (WBeat b) B) as (x & rest & Hb & Hx).
  { rewrite HE. cbn. left. }
  apply (bag_members _ _ _ _ _ _ (x :: rest)) in B; [|done].
  destruct x as [p|t todo got|t got|p|t todo got|t got]; cbn [tx_accesses] in Hb;
    try (by apply elem_of_nil in Hb); apply list_elem_of_In, in_map_iff in Hb as (b' & [= ->] & Hb).
  apply list_elem_of_In, list_elem_of_split in Hb as (l1 & l2 & ->). exists t, l1, l2, got, rest.
  pose proof (bag_wf _ _ _ _ _ _ B) as [[_ Hg] _]%Forall_cons.
  apply Forall_app in Hg as [Hg1 Hg2]. apply Forall_cons in Hg2 as [Hb Hg2].
  split_and!; try done; [by apply Forall_app|].
  pose proof (bag_sched _ _ _ _ _ _ B) as Hs. rewrite HE in Hs. cbn in Hs.
  rewrite !map_app in Hs |- *. cbn in Hs. rewrite <- Permutation_middle in Hs.
  by apply Permutation_cons_inv in Hs.
Qed.

(** The trackers when a transaction is answered, and when it is not. *)
Lemma trackers_delete T E P U x rest t k : bag T E P U (x :: rest) -> tx_tracker x = Some (t, k) ->
  map_to_list (delete t P) ≡ₚ omap tx_tracker rest.
Proof.
  intros B Hx. pose proof (bag_tracked _ _ _ _ _ _ _ _ _ B Hx) as Hk.
  pose proof (bag_trackers _ _ _ _ _ _ B) as B3. cbn in B3. rewrite Hx in B3.
  eapply Permutation_cons_inv. by rewrite map_to_list_delete.
Qed.

Lemma trackers_insert T E P U x rest t k k' : bag T E P U (x :: rest) -> tx_tracker x = Some (t, k) ->
  map_to_list (<[t := k']> P) ≡ₚ (t, k') :: omap tx_tracker rest.
Proof.
  intros B Hx. rewrite <- insert_delete_eq, map_to_list_insert by apply lookup_delete_eq.
  by rewrite (trackers_delete _ _ _ _ _ _ _ _ B Hx).
Qed.

Lemma last_beat {A} (l1 l2 : list A) : l1 ++ l2 <> [] -> (1 < length l1 + S (length l2))%nat.
Proof. destruct l1, l2; cbn; try done; lia. Qed.

(** A beat of a read is served. *)
Lemma read_done T n d E E' xs t0 b : mem_bag T n d E xs -> E ≡ₚ (t0, DmRead b) :: E' ->
  loads_ok (dm_mem d) b ->
  exists d' xs', outcome (memReadReqHandler b) d = Ok (d', []) /\ dm_reg d' = dm_reg d
    /\ mem_bag T n d' E' xs' /\ bag_step (dm_mem d, xs) (dm_mem d', xs')
    /\ (length (dm_respQ d') <= S (length (dm_respQ d)))%nat.
Proof.
  intros B HE Hv. destruct (read_due _ _ _ _ _ _ _ _ B HE) as (t & l1 & l2 & got & rest & Hx & B0 & [Ht Hc] & Hg & Hs).
  pose proof (read_handler_outcome d b Hv) as Eo. cbv zeta in Eo. unfold tracker in Eo.
  rewrite Ht, (bag_tracked _ _ _ _ _ _ _ _ _ B0 eq_refl) in Eo.
  cbn in Eo. rewrite !length_app in Eo. cbn in Eo.
  destruct Hv as [v Hv]. destruct (decide (l1 ++ l2 = [])) as [Hnil|Hnil].
  - apply app_eq_nil in Hnil as [-> ->]. rewrite (proj2 (Z.eqb_eq _ _)), Hc in Eo by (cbn; lia).
    eexists _, (RAnswered t (got ++ [read_beat (dm_mem d) b]) :: rest). split; [exact Eo|]. split; [done|].
    split; [|split; [by eapply bag_serve; [by eapply serve_read_last|done|done]|cbn; rewrite length_app; cbn; lia]].
    eapply (bag_replace _ _ _ _ _ _ _ _ _ _ _ _ B0); cbn.
    + by destruct got.
    + apply B0.
    + exact Hs.
    + by eapply trackers_delete.
    + rewrite app_assoc, (bag_replies _ _ _ _ _ _ B0). by rewrite Permutation_app_comm.
    + by right.
  - pose proof (last_beat l1 l2 Hnil). rewrite (proj2 (Z.eqb_neq _ _)) in Eo by lia.
    eexists _, (RServing t (l1 ++ l2) (got ++ [read_beat (dm_mem d) b]) :: rest). split; [exact Eo|]. split; [done|].
    split; [|split; [by eapply bag_serve; [by eapply serve_read|done|done]|cbn; lia]].
    eapply (bag_replace _ _ _ _ _ _ _ _ _ _ _ _ B0); cbn; [done|apply B0|exact Hs| |apply B0|by left].
    erewrite trackers_insert by done. do 3 f_equiv. rewrite !length_app. cbn. f_equal. lia.
Qed.

Lemma write_done T n d E E' xs t0 b m' : mem_bag T n d E xs -> E ≡ₚ (t0, DmWrite b) :: E' ->
  store (dm_mem d) (wq_op b) (wq_addr b) (wq_data b) = Ok m' ->
  exists d' xs', outcome (memWriteReqHandler b) d = Ok (d', []) /\ dm_reg d' = dm_reg d
    /\ mem_bag T n d' E' xs' /\ bag_step (dm_mem d, xs) (dm_mem d', xs')
    /\ (length (dm_respQ d') <= S (length (dm_respQ d)))%nat.
Proof.
  intros B HE Hv. destruct (write_due _ _ _ _ _ _ _ _ B HE) as (t & l1 & l2 & got & rest & Hx & B0 & [Ht Hc] & Hg & Hs).
  pose proof (write_handler_outcome d b m' Hv) as Eo. cbv zeta in Eo. unfold tracker in Eo.
  rewrite Ht, (bag_tracked _ _ _ _ _ _ _ _ _ B0 eq_refl) in Eo.
  cbn in Eo. rewrite !length_app in Eo. cbn in Eo.
  destruct (decide (l1 ++ l2 = [])) as [Hnil|Hnil].
  - apply app_eq_nil in Hnil as [-> ->]. rewrite (proj2 (Z.eqb_eq _ _)), Hc in Eo by (cbn; lia).
    eexists _, (WAnswered t (got ++ [write_beat b]) :: rest). split; [exact Eo|]. split; [done|].
    split; [|split; [by eapply bag_serve; [by eapply serve_write_last|done|done]|cbn; rewrite length_app; cbn; lia]].
    eapply (bag_replace _ _ _ _ _ _ _ _ _ _ _ _ B0); cbn.
    + by destruct got.
    + apply B0.
    + exact Hs.
    + by eapply trackers_delete.
    + rewrite app_assoc, (bag_replies _ _ _ _ _ _ B0). by rewrite Permutation_app_comm.
    + by right.
  - pose proof (last_beat l1 l2 Hnil). rewrite (proj2 (Z.eqb_neq _ _)) in Eo by lia.
    eexists _, (WServing t (l1 ++ l2) (got ++ [write_beat b]) :: rest). split; [exact Eo|]. split; [done|].
    split; [|split; [by eapply bag_serve; [by eapply serve_write|done|done]|cbn; lia]].
    eapply (bag_replace _ _ _ _ _ _ _ _ _ _ _ _ B0); cbn; [done|apply B0|exact Hs| |apply B0|by left].
    erewrite trackers_insert by done. do 3 f_equiv. rewrite !length_app. cbn. f_equal. lia.
Qed.

(** Responses move towards the register. *)
Lemma resent_bag T n d d' E xs : mem_bag T n d E xs -> resent d d' ->
  (n <= length (accepted (dm_reg d)))%nat -> mem_bag T n d' E xs.
Proof.
  intros B R Hn. unfold mem_bag. by rewrite (rs_pending _ _ R), (resent_undelivered _ _ _ R).
Qed.

(** ** Requests that arrive *)

Definition arrived (x : tx) : tx :=
  match x with
  | RSent p => RServing (pk_tid p) (pk_payloads p) []
  | WSent p => WServing (pk_tid p) (pk_payloads p) []
  | _ => x
  end.

Lemma access_beats {A} (h : nat -> Z) (l : list A) (f : A -> dm_event) (g : A -> beat) :
  (forall t p, event_access (t, f p) = Some (t, g p)) ->
  map snd (omap event_access (imap (fun i e => (h i, e)) (map f l))) = map g l.
Proof.
  intros Hf. revert h. induction l as [|p l IH]; intros h; [done|].
  cbn. rewrite Hf. cbn. f_equal. apply (IH (fun i => h (S i))).
Qed.

(** A packet is popped: its transaction is being served. *)
Lemma arrives T T' n d E xs q now delay : mem_bag T n d E xs -> T ≡ₚ q :: T' ->
  exists d' es xs', DataMemory.step_packet now delay q d = Ok (tt, d', es)
    /\ dm_reg d' = dm_reg d /\ dm_respQ d' = dm_respQ d /\ dm_mem d' = dm_mem d
    /\ mem_bag T' n d' (E ++ es) xs' /\ bag_step (dm_mem d, xs) (dm_mem d, xs')
    /\ (weight xs' + length es < weight xs)%nat.
Proof.
  intros B HT. destruct (bag_request _ _ _ _ _ _ _ _ B HT) as (x & rest & Hq & Hx).
  apply (bag_members _ _ _ _ _ _ (x :: rest)) in B; [|done].
  pose proof (bag_wf _ _ _ _ _ _ B) as [Hw _]%Forall_cons.
  assert (Hstep : bag_step (dm_mem d, xs) (dm_mem d, arrived x :: rest)).
  { eapply bag_serve; [|exact Hx|done]. destruct x as [p| | |p| |]; try done; constructor. }
  pose proof B as [B1 B2 B3 B4 _ _].
  destruct x as [p| | |p| |]; try done; injection Hq as <-; destruct Hw as (Hne & Hsz & Hg).
  all: pose proof (bag_untracked _ _ _ _ _ _ _ _ B eq_refl eq_refl) as Hnone.
  all: eexists _, _, _; split;
    [ unfold DataMemory.step_packet, DataMemory.schedule; rewrite Hsz, Z.eqb_refl; step_monad;
      rewrite schedule_beats_eq; reflexivity |].
  all: split; [done|]; split; [done|]; split; [done|]; split; [|split; [exact Hstep|]].
  all: try (rewrite Hx; unfold weight; rewrite !length_app, length_imap; cbn; rewrite !length_map; lia).
  all: eapply (bag_replace _ _ _ _ _ _ _ _ _ _ _ _ B); cbn; try done; try (by left).
  all: try (rewrite B1 in HT; by apply Permutation_cons_inv in HT).
  all: try (rewrite map_to_list_insert by done; unfold tracker; rewrite Hnone, B3; done).
  all: rewrite !omap_app, !map_app, B2; cbn; rewrite !app_nil_r, Permutation_app_comm; f_equiv;
    by apply Permutation_refl', (access_beats (fun i => now + Z.of_nat i + delay)).
Qed.

Lemma all_arrive ks T T' n d E xs now delay : mem_bag T n d E xs -> T ≡ₚ ks ++ T' ->
  exists d' es xs', foreach ks (DataMemory.step_packet now delay) d = Ok (tt, d', es)
    /\ dm_reg d' = dm_reg d /\ dm_respQ d' = dm_respQ d /\ dm_mem d' = dm_mem d
    /\ mem_bag T' n d' (E ++ es) xs' /\ rtc bag_step (dm_mem d, xs) (dm_mem d, xs')
    /\ (weight xs' + length es + length ks <= weight xs)%nat.
Proof.
  revert T d E xs. induction ks as [|q ks IH]; intros T d E xs B HT.
  - exists d, [], xs. rewrite app_nil_r. split_and!; try done; [by eapply bag_perm|cbn; lia].
  - destruct (arrives T (ks ++ T') n d E xs q now delay B HT)
      as (d1 & es1 & xs1 & E1 & R1 & Q1 & M1 & B1 & S1 & L1).
    destruct (IH _ d1 _ xs1 B1) as (d2 & es2 & xs2 & E2 & R2 & Q2 & M2 & B2 & S2 & L2); [done|].
    exists d2, (es1 ++ es2), xs2. rewrite app_assoc. split_and!; try congruence.
    + cbn [foreach]. rewrite (M_bind_eval _ _ _ _ _ _ E1), E2. done.
    + rewrite M1 in S2. by eapply rtc_l.
    + rewrite length_app. cbn [length]. lia.
Qed.

(** ** The calls of the memory *)

(** What the framework may call: [ks] are the requests that are popped. *)
Inductive mem_call (E : list (Z * dm_event)) :
    call (Z * dm_event) -> list (Z * dm_event) -> list packet -> Prop :=
  | mem_call_retry t : mem_call E (CRetry t) E []
  | mem_call_fire t delay e l1 l2 : E = l1 ++ e :: l2 -> mem_call E (CFire t delay e) (l1 ++ l2) []
  | mem_call_step t delay ks : mem_call E (CStep t delay ks) E ks.

Lemma fired E l1 e l2 : E = l1 ++ e :: l2 -> E ≡ₚ e :: l1 ++ l2.
Proof. intros ->. by rewrite Permutation_middle. Qed.

(** Calls that get the work done. *)
Definition gainful {Ev} (c : call Ev) : Prop :=
  match c with CFire _ _ _ => True | CStep _ _ ks => ks <> [] | CRetry _ => False end.

Definition mem_work d E xs : nat := weight xs + length E + length (dm_respQ d).

Lemma resent_fewer d d' : resent d d' -> (length (dm_respQ d') <= length (dm_respQ d))%nat.
Proof. intros [_ _ (l & _ & ->)]. rewrite length_app. lia. Qed.

(** Whatever is called, the memory makes steps of the specification, and
    there is less to do. *)
Lemma mem_call_refines T T' n d E xs c pend ks k d' es k' : mem_bag T n d E xs ->
  (n <= length (accepted (dm_reg d)))%nat -> mem_call E c pend ks -> T ≡ₚ ks ++ T' ->
  dm_run k c d = Ok (d', es, k') ->
  accepted (dm_reg d) `prefix_of` accepted (dm_reg d')
  /\ exists xs', mem_bag T' n d' (pend ++ es) xs' /\ rtc bag_step (dm_mem d, xs) (dm_mem d', xs')
       /\ (mem_work d' (pend ++ es) xs' <= mem_work d E xs)%nat
       /\ (gainful c -> mem_work d' (pend ++ es) xs' < mem_work d E xs)%nat.
Proof.
  intros B Hn Hc HT ([d1 w] & Ed & [= <- <- <-])%bind_ok.
  destruct Hc as [t|t delay [t0 e] l1 l2 HE|t delay ks]; cbn [app] in HT.
  - destruct (send_resent d) as (d2 & E2 & R). unfold outcome, DataMemory.masterPortRetry in Ed.
    rewrite E2 in Ed. injection Ed as <- <-. rewrite app_nil_r.
    split; [destruct (rs_replies _ _ R) as (l & -> & _); by eexists|].
    pose proof (resent_fewer _ _ R). exists xs. rewrite (rs_mem _ _ R). unfold mem_work.
    split; [by eapply bag_perm, (resent_bag T)|]. split; [done|]. split; [lia|done].
  - apply fired in HE. destruct e as [b|b|]; cbn [dm_fire snd] in Ed.
    + assert (loads_ok (dm_mem d) b) as Hv.
      { unfold loads_ok. destruct (load (dm_mem d) (rq_op b) (rq_addr b)) as [v|] eqn:Hv; [by exists v|].
        unfold memReadReqHandler, outcome in Ed. erewrite M_bind_silent in Ed by reflexivity.
        rewrite Hv in Ed. done. }
      destruct (read_done _ _ _ _ _ _ _ _ B HE Hv) as (d2 & xs' & E2 & R & B' & S & Hq).
      rewrite Ed in E2. injection E2 as <- ->. rewrite app_nil_r, R. split; [done|].
      pose proof (bag_step_weight _ _ S) as Hw. apply Permutation_length in HE. cbn [fst snd length] in Hw, HE. unfold mem_work.
      exists xs'. split; [by eapply bag_perm, B'|]. split; [by apply rtc_once|]. lia.
    + assert (exists m', store (dm_mem d) (wq_op b) (wq_addr b) (wq_data b) = Ok m') as [m' Hv].
      { destruct (store _ _ _ _) as [m'|] eqn:Hv in Ed |- *; [by exists m'|].
        unfold memWriteReqHandler, outcome in Ed. erewrite M_bind_silent in Ed by reflexivity.
        rewrite Hv in Ed. done. }
      destruct (write_done _ _ _ _ _ _ _ _ _ B HE Hv) as (d2 & xs' & E2 & R & B' & S & Hq).
      rewrite Ed in E2. injection E2 as <- ->. rewrite app_nil_r, R. split; [done|].
      pose proof (bag_step_weight _ _ S) as Hw. apply Permutation_length in HE. cbn [fst snd length] in Hw, HE. unfold mem_work.
      exists xs'. split; [by eapply bag_perm, B'|]. split; [by apply rtc_once|]. lia.
    + destruct (send_resent d) as (d2 & E2 & R). unfold outcome in Ed. rewrite E2 in Ed.
      injection Ed as <- <-. rewrite app_nil_r.
      split; [destruct (rs_replies _ _ R) as (l & -> & _); by eexists|].
      pose proof (resent_fewer _ _ R). apply Permutation_length in HE as Hl. cbn [length] in Hl. unfold mem_work.
      exists xs. rewrite (rs_mem _ _ R). split; [|split; [done|lia]].
      apply (resent_bag _ n _ _ _ _ B) in R; [|done].
      destruct R as [B1 B2 B3 B4 B5 B6]. split; try done; [by rewrite <- B1|]. rewrite HE in B2. exact B2.
  - destruct (first_resent d) as (d1' & E1 & R).
    assert (B' : mem_bag T n d1' E xs) by (by eapply resent_bag).
    destruct (all_arrive ks T T' n d1' E xs t delay B' HT) as (d2 & es & xs' & E2 & R2 & Q2 & M2 & B2 & S2 & Hw).
    unfold DataMemory.step, outcome in Ed. erewrite M_bind_silent in Ed by reflexivity.
    erewrite M_bind_silent in Ed by exact E1. rewrite E2 in Ed. injection Ed as <- <-. rewrite R2.
    split; [destruct (rs_replies _ _ R) as (l & -> & _); by eexists|].
    pose proof (resent_fewer _ _ R). rewrite M2, (rs_mem _ _ R) in *. exists xs'. split; [done|]. split; [done|].
    unfold mem_work. rewrite Q2, length_app. destruct ks; cbn in *; split; try done; lia.
Qed.

(** What is left can be done. *)
Definition servable (m : mem) xs : Prop :=
  (forall b, b ∈ flat_map read_todo xs -> loads_ok m b)
  /\ forall b, b ∈ flat_map write_todo xs -> exists m', store m (wq_op b) (wq_addr b) (wq_data b) = Ok m'.

(** Beats of loads and stores inside of a memory of [n] bytes. *)
Definition beat_within (n : Z) (b : beat) : Prop :=
  match b with
  | RBeat b => is_load (rq_op b) = true /\ 0 <= rq_addr b /\ rq_addr b + load_bytes (rq_op b) <= n
  | WBeat b => is_store (wq_op b) = true /\ 0 <= wq_addr b /\ wq_addr b + store_bytes (wq_op b) <= n
  end.
Definition within (n : Z) xs : Prop :=
  (forall b, b ∈ flat_map read_todo xs -> beat_within n (RBeat b))
  /\ forall b, b ∈ flat_map write_todo xs -> beat_within n (WBeat b).

Lemma within_servable m xs : within (getSize m) xs -> servable m xs.
Proof.
  intros [Fr Fw]. split.
  - intros b (Ho & Ha & Hn)%Fr. eexists. rewrite load_unfold by done. unfold in_range.
    by apply Z.leb_le in Hn as ->.
  - intros b (Ho & Ha & Hn)%Fw. eexists. rewrite store_unfold by done. unfold in_range.
    by apply Z.leb_le in Hn as ->.
Qed.

(** What is left to do only shrinks, and a step stores at most one beat of it. *)
Lemma serve_todo m x m' x' : serve m x m' x' ->
  (forall b, b ∈ read_todo x' -> b ∈ read_todo x) /\
  (forall b, b ∈ write_todo x' -> b ∈ write_todo x) /\
  ((m' = m /\ forall b, b ∈ write_todo x -> b ∈ write_todo x') \/
   exists b, b ∈ write_todo x /\ store m (wq_op b) (wq_addr b) (wq_data b) = Ok m'
     /\ forall b', b' ∈ write_todo x -> b' = b \/ b' ∈ write_todo x').
Proof.
  destruct 1; cbn; split_and!; try done; try (left; by split); set_solver.
Qed.

Lemma bag_step_within mx mx' : bag_step mx mx' -> within (getSize mx.1) mx.2 ->
  getSize mx'.1 = getSize mx.1 /\ within (getSize mx.1) mx'.2.
Proof.
  destruct 1 as [m x m' x' xs ys ys' Hs Hy Hy']. unfold within. cbn [fst snd].
  setoid_rewrite Hy. setoid_rewrite Hy'. cbn. intros [Fr Fw].
  destruct (serve_todo _ _ _ _ Hs) as (Tr & Tw & Hm). split; [|set_solver].
  destruct Hm as [[-> _]|(b & Hb & Hst & _)]; [done|]. destruct (Fw b) as (_ & Ha & _); [set_solver|].
  unfold getSize. by rewrite (store_length _ _ _ _ _ Ha Hst).
Qed.

Lemma bag_steps_within mx mx' : rtc bag_step mx mx' -> within (getSize mx.1) mx.2 ->
  within (getSize mx'.1) mx'.2.
Proof.
  induction 1 as [|mx1 mx2 mx3 H12 _ IH]; [done|]. intros (E & F)%(bag_step_within _ _ H12).
  apply IH. by rewrite E.
Qed.

(** If what is left can be done, every call succeeds. *)
Lemma mem_call_runs T T' n d E xs c pend ks k : mem_bag T n d E xs -> mem_call E c pend ks ->
  T ≡ₚ ks ++ T' -> servable (dm_mem d) xs -> (n <= length (accepted (dm_reg d)))%nat ->
  exists d' es, dm_run k c d = Ok (d', es, k).
Proof.
  intros B Hc HT [Hr Hw] Hn. unfold dm_run. destruct Hc as [t|t delay [t0 e] l1 l2 HE|t delay ks]; cbn [app] in HT.
  - destruct (send_resent d) as (d2 & E2 & _). exists d2, []. unfold outcome, DataMemory.masterPortRetry.
    by rewrite E2.
  - apply fired in HE. destruct e as [b|b|]; cbn [dm_fire snd].
    + destruct (read_due _ _ _ _ _ _ _ _ B HE) as (t1 & l & l' & got & rest & Hx & _).
      destruct (read_done _ _ _ _ _ _ _ _ B HE) as (d2 & xs' & E2 & _); [|exists d2, []; by rewrite E2].
      apply Hr. rewrite Hx. cbn. set_solver.
    + destruct (write_due _ _ _ _ _ _ _ _ B HE) as (t1 & l & l' & got & rest & Hx & _).
      destruct (Hw b) as [m' Hm]; [rewrite Hx; cbn; set_solver|].
      destruct (write_done _ _ _ _ _ _ _ _ _ B HE Hm) as (d2 & xs' & E2 & _). exists d2, []. by rewrite E2.
    + destruct (send_resent d) as (d2 & E2 & _). exists d2, []. unfold outcome. by rewrite E2.
  - destruct (first_resent d) as (d1' & E1 & R).
    assert (B' : mem_bag T n d1' E xs) by (by eapply resent_bag).
    destruct (all_arrive ks T T' n d1' E xs t delay B' HT) as (d2 & es & xs' & E2 & _).
    exists d2, es. unfold DataMemory.step, outcome. erewrite M_bind_silent by reflexivity.
    erewrite M_bind_silent by exact E1. by rewrite E2.
Qed.
End Memory.

(** * Properties *)

Section Service.
Context `{Framework} {PR : PipeRegister} {PL : PipeRegisterLaws PR} (caller : string).
Implicit Types (d : DataMemory) (T : list packet) (E : list (Z * dm_event)) (xs : list tx).

(** A run of the memory: its pending events and the requests that it has not
    popped. Requests are popped in any order and number, events fire in any
    order, and the register is drained or stalled at any time. *)
Inductive mem_step : DataMemory * list (Z * dm_event) * list packet ->
    DataMemory * list (Z * dm_event) * list packet -> Prop :=
  | mem_step_call d E T c pend ks T' k d' es k' : mem_call E c pend ks -> T ≡ₚ ks ++ T' ->
      dm_run k c d = Ok (d', es, k') -> mem_step (d, E, T) (d', pend ++ es, T')
  | mem_step_ports d E T d' : bd_ports d d' -> mem_step (d, E, T) (d', E, T).

Definition answered_tx (x : tx) : Prop :=
  match x with RAnswered _ _ | WAnswered _ _ => True | _ => False end.

Lemma step_length mx mx' : bag_step mx mx' -> length mx'.2 = length mx.2.
Proof. destruct 1 as [m x m' x' xs ys ys' _ Hy Hy']. cbn. by rewrite Hy, Hy'. Qed.

Lemma steps_length mx mx' : rtc bag_step mx mx' -> length mx'.2 = length mx.2.
Proof. induction 1 as [|? ? ? H12 _ IH]; [done|]. by rewrite IH, (step_length _ _ H12). Qed.

Lemma all_answered T E P U xs : bag caller T E P U xs -> T = [] -> E = [] -> Forall answered_tx xs.
Proof.
  intros [B1 B2 _ _ _ B6] -> ->. apply Forall_forall. intros x Hx. rewrite Forall_forall in B6.
  pose proof (B6 x Hx) as Hw. apply elem_of_Permutation in Hx as [rest Hx]. rewrite Hx in B1, B2. cbn in B1, B2.
  destruct x as [p|t todo got|t got|p|t todo got|t got]; cbn in *; try done;
    try (by apply Permutation_length in B1);
    destruct Hw as [Hne _]; destruct todo; try done; by apply Permutation_length in B2.
Qed.

Lemma mem_run_refines n s s' : rtc mem_step s s' -> forall xs,
  mem_bag caller s.2 n s.1.1 s.1.2 xs -> (n <= length (accepted (dm_reg s.1.1)))%nat ->
  (n <= length (accepted (dm_reg s'.1.1)))%nat
  /\ exists xs', rtc bag_step (dm_mem s.1.1, xs) (dm_mem s'.1.1, xs') /\ mem_bag caller s'.2 n s'.1.1 s'.1.2 xs'.
Proof.
  induction 1 as [s|s1 s2 s3 H12 _ IH]; intros xs B Hn; [by split; [|exists xs]|].
  destruct H12 as [d E T c pend ks T' k d' es k' Hc HT Hrun|d E T d' (r & Hr & ->)]; cbn [fst snd] in *.
  - destruct (mem_call_refines caller T T' n d E xs c pend ks k d' es k' B Hn Hc HT Hrun)
      as (Hp & xs1 & B1 & S1 & _).
    apply prefix_length in Hp. destruct (IH xs1 B1) as (Hn' & xs' & S' & B'); [lia|].
    split; [done|]. exists xs'. split; [by etrans|done].
  - apply IH; [|cbn; by rewrite Hr]. unfold mem_bag in *. cbn. by rewrite Hr.
Qed.

(** As long as something is left, a call gets some of it done. *)
Lemma mem_goes_on n d E T xs : mem_bag caller T n d E xs -> (n <= length (accepted (dm_reg d)))%nat ->
  within (getSize (dm_mem d)) xs -> (E <> [] \/ T <> []) ->
  exists d' E' T' xs', mem_step (d, E, T) (d', E', T') /\ mem_bag caller T' n d' E' xs'
    /\ (n <= length (accepted (dm_reg d')))%nat /\ within (getSize (dm_mem d')) xs'
    /\ (mem_work d' E' xs' < mem_work d E xs)%nat.
Proof.
  intros B Hn F Hne.
  assert (exists c pend ks T', mem_call E c pend ks /\ T ≡ₚ ks ++ T' /\ gainful c)
    as (c & pend & ks & T' & Hc & HT & Hg).
  { destruct E as [|e E].
    - exists (CStep 0 0 T), [], T, []. destruct Hne as [|]; [done|]. split_and!; [constructor|by rewrite app_nil_r|done].
    - exists (CFire 0 0 e), E, [], T. split_and!; [by apply (mem_call_fire _ _ _ _ [])|done|done]. }
  destruct (mem_call_runs caller T T' n d E xs c pend ks 0 B Hc HT (within_servable _ _ F) Hn) as (d' & es & Hrun).
  destruct (mem_call_refines caller T T' n d E xs c pend ks 0 d' es 0 B Hn Hc HT Hrun)
    as (Hp & xs' & B' & S & _ & L). apply prefix_length in Hp.
  exists d', (pend ++ es), T', xs'. split_and!; [by econstructor|done|lia|by apply (bag_steps_within _ _ S)|by apply L].
Qed.

Lemma mem_can_finish n d E T xs : mem_bag caller T n d E xs -> (n <= length (accepted (dm_reg d)))%nat ->
  within (getSize (dm_mem d)) xs -> exists d', rtc mem_step (d, E, T) (d', [], []).
Proof.
  remember (mem_work d E xs) as k eqn:Hk. revert d E T xs Hk.
  induction k as [k IH] using lt_wf_ind; intros d E T xs -> B Hn F.
  destruct (decide (E = [] /\ T = [])) as [[-> ->]|Hne]; [by exists d|].
  destruct (mem_goes_on n d E T xs B Hn F) as (d1 & E1 & T1 & xs1 & Hs & B1 & Hn1 & F1 & L).
  { destruct E, T; auto. }
  destruct (IH _ L _ _ _ _ eq_refl B1 Hn1 F1) as [d2 Hrun]. exists d2. by eapply rtc_l.
Qed.

(** C33. The data memory serves any number of burst transactions at once. Given
    requests whose lengths are announced rightly and whose numbers differ,
    whatever the order in which requests are popped and beats are served, and
    whenever responses are refused, what the memory does is a run of the
    specification [serve] of single transactions: each beat that is served
    reads or writes memory once and belongs to its own transaction. And when
    no request and no event is left, every transaction is answered: the
    responses that have been sent or wait are one for each of the requests,
    and carry the beats of its transaction. If all accesses are loads and
    stores inside of the memory, that end can be reached from every state of
    every run. *)
Theorem mem_serves_bursts d xs d' E' T' :
  dm_pending d = ∅ -> dm_respQ d = [] -> Forall (wf_tx caller) xs ->
  Forall (fun x => exists q, tx_request x = Some q) xs -> NoDup (omap tx_tid xs) ->
  rtc mem_step (d, [], omap tx_request xs) (d', E', T') ->
  exists xs', rtc bag_step (dm_mem d, xs) (dm_mem d', xs')
    /\ drop (length (accepted (dm_reg d))) (accepted (dm_reg d')) ++ dm_respQ d' ≡ₚ omap (tx_reply caller) xs'
    /\ (E' = [] -> T' = [] -> Forall answered_tx xs' /\ length xs' = length xs)
    /\ (within (getSize (dm_mem d)) xs -> exists d'', rtc mem_step (d', E', T') (d'', [], [])).
Proof.
  intros Hp Hq Hw Hs Hd Hrun.
  assert (B : mem_bag caller (omap tx_request xs) (length (accepted (dm_reg d))) d [] xs).
  { unfold mem_bag. rewrite drop_all, Hp, Hq. apply (bag_send caller [] [] ∅ [] [] xs); try done.
    - split; try done; by constructor.
    - by rewrite app_nil_r. }
  destruct (mem_run_refines _ _ _ Hrun xs B) as (Hn' & xs' & S & B'); [done|]. cbn [fst snd] in *.
  exists xs'. split; [done|]. split; [exact (bag_replies _ _ _ _ _ _ B')|]. split.
  - intros -> ->. split; [by eapply all_answered|]. exact (steps_length _ _ S).
  - intros F%(bag_steps_within _ _ S). eapply mem_can_finish; [exact B'|exact Hn'|exact F].
Qed.
End Service.

(** * Witnesses *)

#[local] Existing Instance printing_framework.
#[local] Existing Instance SlotRegister.

(** A read of two words and a write of one of them. *)
Definition w_txs : list tx :=
  [RSent (XBarPacket 1 1 2 [ReadReqPayload "dma" 1 auto_instr LW 0 auto_operand;
                            ReadReqPayload "dma" 1 auto_instr LW 4 auto_operand] 1 0);
   WSent (XBarPacket 2 0 1 [WriteReqPayload "dma" 2 auto_instr SW 4 0x0A0B0C0D] 1 0)].
Definition w_memory : DataMemory := DMem (map Z.of_nat (seq 0 8)) ∅ [] empty_slot.

(** The event at position [i] fires. *)
Definition w_pick (s : option (DataMemory * list (Z * dm_event) * list packet)) (i : nat) :
    option (DataMemory * list (Z * dm_event) * list packet) :=
  '(d, E, T) ← s; e ← E !! i;
  match dm_run 0 (CFire 0 0 e) d with
  | Ok (d', es, _) => Some (d', (take i E ++ drop (S i) E) ++ es, T)
  | Err _ => None
  end.
Definition w_popped : option (DataMemory * list (Z * dm_event) * list packet) :=
  match dm_run 0 (CStep 0 1 (reverse (omap tx_request w_txs))) w_memory with
  | Ok (d', es, _) => Some (d', [] ++ es, [])
  | Err _ => None
  end.

Lemma w_picks_run l : forall s s', foldl w_pick (Some s) l = Some s' -> rtc mem_step s s'.
Proof.
  induction l as [|i l IH]; intros s s'; [by intros [= ->]|]. cbn. destruct s as [[d E] T]. cbn.
  destruct (E !! i) as [e|] eqn:He; cbn.
  - destruct (dm_run 0 (CFire 0 0 e) d) as [[[d' es] k]|] eqn:Hrun.
    + intros Hs. eapply rtc_l; [|by apply IH]. eapply (mem_step_call _ _ _ _ _ []); [|done|exact Hrun].
      constructor. by rewrite take_drop_middle.
    + clear. by induction l.
  - clear. by induction l.
Qed.

Lemma w_txs_within : within (getSize (dm_mem w_memory)) w_txs.
Proof.
  split; intros b Hb; cbn in Hb; repeat (apply elem_of_cons in Hb as [->|Hb]); try by apply elem_of_nil in Hb.
  all: split; [done|vm_compute; by split].
Qed.

(** The write falls between the two beats of the read; both are answered. *)
Lemma mem_serves_bursts_witness :
  exists d' xs', rtc bag_step (dm_mem w_memory, w_txs) (dm_mem d', xs')
    /\ accepted (dm_reg d') ++ dm_respQ d' ≡ₚ omap (tx_reply "dma") xs'
    /\ Forall answered_tx xs' /\ length xs' = 2%nat /\ load (dm_mem d') LW 4 = Ok 0x0A0B0C0D
    /\ exists d'', rtc mem_step (d', [], []) (d'', [], []).
Proof.
  assert (exists s, w_popped = Some s /\ mem_step (w_memory, [], omap tx_request w_txs) s) as (s & Es & Hs).
  { destruct (dm_run 0 (CStep 0 1 (reverse (omap tx_request w_txs))) w_memory) as [[[d1 es] k]|] eqn:Hrun;
      [|by vm_compute in Hrun].
    exists (d1, [] ++ es, []). unfold w_popped. rewrite Hrun. split; [done|].
    eapply mem_step_call; [constructor| |exact Hrun]. by rewrite app_nil_r, reverse_Permutation. }
  assert (exists d', foldl w_pick w_popped [2; 0; 1; 0; 0]%nat = Some (d', [], [])
    /\ load (dm_mem d') LW 4 = Ok 0x0A0B0C0D) as (d' & E & Hl).
  { eexists. split; [vm_compute; reflexivity|by vm_compute]. }
  rewrite Es in E. apply w_picks_run in E.
  destruct (mem_serves_bursts "dma" w_memory w_txs d' [] []) as (xs' & S & Hr & Hall & Hgo).
  - reflexivity.
  - reflexivity.
  - repeat constructor; by vm_compute.
  - repeat constructor; by eexists.
  - apply (bool_decide_unpack _). by vm_compute.
  - by eapply rtc_l.
  - destruct (Hall eq_refl eq_refl) as [Ha Hn]. exists d', xs'. split_and!; try done. exact (Hgo w_txs_within).
Defined.
