(* ===== verification/DmaLink.v ===== *)
(** The DMA controller and the data memory with the registers between them: a
    transfer copies its tile whatever the order in which the framework makes
    their calls. The invariant says where every word is: in memory, in the
    buffer, or in a transaction on its way. *)
From S2P Require Import Prelude Machine DataStruct Memory Bus DataMemory Dma DmaCopy.
From S2P Require Import Device SocDevices SocDma SocAccess Transactions.
Local Open Scope Z_scope.

(** * Read bursts that are answered in any order *)

(** Where a response puts a word, and the word. *)
Definition fill_of (r : XBarMemReadRespPayload) : Z * Z := (o_imm (rr_a1 r), rr_data r).

(** What a transaction brings to the buffer, when [m] is read. *)
Definition tx_fill (m : mem) (x : tx) : list (Z * Z) :=
  match x with
  | RSent p => map (fun b => fill_of (read_beat m b)) (pk_payloads p)
  | RServing _ todo got => map (fun b => fill_of (read_beat m b)) todo ++ map fill_of got
  | RAnswered _ got => map fill_of got
  | _ => []
  end.

Lemma store_beats_fills `{Framework} ps buffer : length buffer = 256%nat ->
  Forall (fun p => 0 <= o_imm (rr_a1 p) < 256) ps ->
  exists b', store_beats ps buffer = Ok b' /\ length b' = 256%nat
    /\ (forall i, 0 <= i -> (forall p, p ∈ ps -> o_imm (rr_a1 p) <> i) ->
        b' !! Z.to_nat i = buffer !! Z.to_nat i)
    /\ (forall i v, (i, v) ∈ map fill_of ps -> (forall v', (i, v') ∈ map fill_of ps -> v' = v) ->
        b' !! Z.to_nat i = Some v).
Proof.
  intros Hl Hps. revert buffer Hl. induction Hps as [|p ps Hp _ IH]; intros buffer Hl.
  - exists buffer. split_and!; try done. by intros i v ?%elem_of_nil.
  - destruct (IH (<[Z.to_nat (o_imm (rr_a1 p)) := rr_data p]> buffer)) as (b' & E & Hl' & Hout & Hin).
    { by rewrite length_insert. }
    exists b'. split_and!; [| done | |].
    + unfold store_beats. cbn [foldR]. rewrite (proj2 (Z.ltb_lt _ _)) by (unfold BUFFER_CAPACITY; lia).
      exact E.
    + intros i Hi Hne. rewrite Hout; [|done|].
      * rewrite list_lookup_insert_ne; [done|]. intros Heq. apply (Hne p); [left|lia].
      * intros q Hq. apply Hne. by right.
    + intros i v Hi Hv. destruct (decide (Exists (fun q => o_imm (rr_a1 q) = i) ps)) as [Hex|Hno].
      * apply Exists_exists in Hex as (q & Hq & Hqi).
        assert (Hqv : (i, rr_data q) ∈ map fill_of ps).
        { apply list_elem_of_In, in_map_iff. exists q. rewrite <- Hqi. split; [done|by apply list_elem_of_In]. }
        rewrite (Hin i (rr_data q)); [f_equal; apply Hv; by right|done|].
        intros v' Hv'. rewrite (Hv v') by (by right). symmetry. apply Hv. by right.
      * cbn in Hi. apply elem_of_cons in Hi as [[= -> ->]|Hi].
        2: { apply list_elem_of_In, in_map_iff in Hi as (q & [= Hqi _] & Hq%list_elem_of_In).
             destruct Hno. apply Exists_exists. by exists q. }
        rewrite Hout; [|lia|].
        -- apply list_lookup_insert_eq. lia.
        -- intros q Hq Heq. apply Hno, Exists_exists. by exists q.
Qed.

Section Response.
Context `{Framework} {PR : PipeRegister} {PL : PipeRegisterLaws PR}.
Implicit Types d : DMAController.

(** What the burst that is being read brings. *)
Definition burst_fill (m : mem) d : list (Z * Z) :=
  map (fun i => (bufferIndex (d_track d) + Z.of_nat i,
    word_of m (src_word d (wordsTransferred (d_track d) + bufferIndex (d_track d) + Z.of_nat i))))
    (seq 0 (Z.to_nat (read_chunk (room d)))).

Lemma burst_fill_elem m d i v : (i, v) ∈ burst_fill m d <->
  (bufferIndex (d_track d) <= i < bufferIndex (d_track d) + Z.of_nat (Z.to_nat (read_chunk (room d)))
   /\ v = word_of m (src_word d (wordsTransferred (d_track d) + i))).
Proof.
  unfold burst_fill. rewrite list_elem_of_In, in_map_iff. split.
  - intros (j & [= <- <-] & Hj%in_seq). split; [lia|]. by rewrite Z.add_assoc.
  - intros [Hi ->]. exists (Z.to_nat (i - bufferIndex (d_track d))). split; [|apply in_seq; lia].
    rewrite Z2Nat.id by lia. f_equal; [lia|]. do 2 f_equal. lia.
Qed.

(** The next burst brings the next words. *)
Lemma next_burst_fill m d : reading d -> 1 <= room d ->
  tx_fill m (RSent (next_burst d)) = burst_fill m d.
Proof.
  intros Hr Hroom. pose proof (reading_bounds d Hr). pose proof (room_le d).
  pose proof (read_chunk_valid (room d) Hroom).
  unfold tx_fill, burst_fill, next_burst, read_packet. cbn [pk_payloads]. rewrite !map_map.
  apply map_ext_in. intros i Hi%in_seq. unfold fill_of, read_beat, nth_request, word_of. cbn.
  f_equal. apply uint_id. unfold is_u. lia.
Qed.

(** The response fills the buffer, whatever the order of its beats. *)
Lemma any_response_ok m now d k : reading d -> 1 <= room d -> holds m d ->
  map fill_of (pk_payloads k) ≡ₚ burst_fill m d ->
  exists d2, outcome (handleReadResponse now k) d =
      Ok (d2, [(now + 1, if 1 <=? room d2 then EvScheduleReads else EvScheduleWrites)])
    /\ reading d2 /\ holds m d2 /\ d_regs d2 = d_regs d /\ d_geo d2 = d_geo d
    /\ wordsTransferred (d_track d2) = wordsTransferred (d_track d)
    /\ totalWords (d_track d2) = totalWords (d_track d)
    /\ bufferIndex (d_track d2) = bufferIndex (d_track d) + read_chunk (room d)
    /\ pendingBusWriteResponses (d_track d2) = pendingBusWriteResponses (d_track d)
    /\ m_req d2 = m_req d /\ req_Q d2 = req_Q d /\ m_resp d2 = m_resp d /\ resp_Q d2 = resp_Q d
    /\ d_ctr d2 = d_ctr d.
Proof.
  intros Hr Hroom Hh Hk. pose proof (reading_bounds d Hr) as Hb.
  pose proof (read_chunk_valid (room d) Hroom) as [_ Hc]. pose proof (room_le d) as Hrm.
  pose proof (act_buffer d (rd_active d Hr)) as Hl.
  assert (Hlen : Z.of_nat (length (pk_payloads k)) = read_chunk (room d)).
  { apply Permutation_length in Hk. unfold burst_fill in Hk. rewrite !length_map, length_seq in Hk. lia. }
  destruct (store_beats_fills (pk_payloads k) (bufferMemory (d_track d)) Hl) as (b' & E & Hl' & Hout & Hin).
  { apply Forall_forall. intros p Hp.
    assert (fill_of p ∈ burst_fill m d) as Hf.
    { rewrite <- Hk. apply list_elem_of_In, in_map, list_elem_of_In, Hp. }
    apply burst_fill_elem in Hf. lia. }
  assert (Hbuf : forall j, 0 <= j < bufferIndex (d_track d) + read_chunk (room d) ->
    b' !! Z.to_nat j = Some (word_of m (src_word d (wordsTransferred (d_track d) + j)))).
  { intros j Hj. destruct (Z.lt_ge_cases j (bufferIndex (d_track d))) as [Hlt|Hge].
    - rewrite Hout; [apply Hh; lia|lia|]. intros p Hp Hpj.
      assert (fill_of p ∈ burst_fill m d) as Hf.
      { rewrite <- Hk. apply list_elem_of_In, in_map, list_elem_of_In, Hp. }
      apply burst_fill_elem in Hf. lia.
    - apply Hin; [rewrite Hk; apply burst_fill_elem; split; [lia|done]|].
      intros v'. rewrite Hk. by intros [_ ->]%burst_fill_elem. }
  destruct Hr as [[Hg Ht _ Hi Hw] Hcnt Hle]. unfold BUFFER_CAPACITY in Hi.
  clear Hout Hin Hk. generalize dependent (read_chunk (room d)). intros c Hc Hlen Hbuf.
  unfold handleReadResponse, schedule. step_monad. rewrite E. simpl. rewrite Hlen.
  unfold BUFFER_CAPACITY. rewrite !(sint_id 32), !uint64_small by lia.
  destruct (_ && _) eqn:Ec; cbn [when mbind]; simpl;
    match goal with |- exists d2, Ok (?x, _) = _ /\ _ => exists x end; split_and!; try reflexivity.
  all: try (split; [split|..]; cbn; unfold BUFFER_CAPACITY; rewrite ?(sint_id 32) by lia; done || lia).
  all: try (intros j; cbn; rewrite ?(sint_id 32) by lia; apply Hbuf).
  all: try (cbn; by rewrite ?(sint_id 32) by lia).
  all: unfold room; cbn; rewrite !(sint_id 32) by lia; unfold BUFFER_CAPACITY.
  - by rewrite (proj2 (Z.leb_le _ _)) by lia.
  - by rewrite (proj2 (Z.leb_gt _ _)) by lia.
Qed.
End Response.

(** * What a step of a transaction does *)

Lemma serve_kind m x m' x' : serve m x m' x' -> is_read x' = is_read x.
Proof. by destruct 1. Qed.

Lemma serve_tid m x m' x' t : serve m x m' x' -> tx_tid x' = Some t -> tx_tid x = Some t.
Proof. by destruct 1. Qed.

(** What a read brings does not depend on when it is served. *)
Lemma serve_fill m0 m x m' x' : serve m x m' x' ->
  (forall b, b ∈ read_todo x -> read_beat m b = read_beat m0 b) ->
  tx_fill m0 x' ≡ₚ tx_fill m0 x.
Proof.
  destruct 1 as [p|p|t l1 b l2 got v Hv Hne|t b got v Hv|t l1 b l2 got m' Hs Hne|t b got m' Hs];
    cbn; intros Hr; rewrite ?app_nil_r; try done.
  - rewrite !map_app. cbn. rewrite Hr by set_solver. solve_Permutation.
  - rewrite !map_app. cbn. rewrite Hr by set_solver. solve_Permutation.
Qed.

(** * Ports *)

Section Ports.
Context `{Framework} {PR : PipeRegister} {PL : PipeRegisterLaws PR}.
Implicit Types d : DMAController.

(** Packets only move from the queues to the registers. *)
Record only_ports d d' : Prop := {
  op_core : same_core d d';
  op_ctr : d_ctr d' = d_ctr d;
  op_req : accepted (m_req d') ++ req_Q d' = accepted (m_req d) ++ req_Q d;
  op_req_sent : accepted (m_req d) `prefix_of` accepted (m_req d');
  op_resp : accepted (m_resp d') ++ resp_Q d' = accepted (m_resp d) ++ resp_Q d;
  op_resp_sent : accepted (m_resp d) `prefix_of` accepted (m_resp d');
}.

Lemma only_ports_refl d : only_ports d d.
Proof. by split. Qed.

Lemma try_push_moves r k q ok r' : try_push r k = (ok, r') ->
  accepted r' ++ (if ok then q else k :: q) = accepted r ++ k :: q
  /\ accepted r `prefix_of` accepted r'.
Proof.
  intros E. destruct ok.
  - apply try_push_true in E as ->. split; [by rewrite <- app_assoc|by eexists].
  - apply try_push_false in E as ->. done.
Qed.

Lemma send_ports d : exists d', trySendPacket d = Ok (tt, d', []) /\ only_ports d d'.
Proof.
  unfold trySendPacket. erewrite M_bind_silent by reflexivity.
  assert (Hresp : forall d1, only_ports d d1 -> m_resp d1 = m_resp d -> resp_Q d1 = resp_Q d ->
    exists d', (match resp_Q d1 with
       | [] => mret tt
       | p :: q => let '(ok, r) := try_push (m_resp d1) p in
                   put (set_resp (if ok then q else p :: q) r d1)
       end : M DMAController (Z * dma_event) unit) d1 = Ok (tt, d', []) /\ only_ports d d').
  { intros d1 O Er Eq. destruct (resp_Q d1) as [|p q] eqn:Hq; [by exists d1|].
    destruct O as [O1 O2 O3 O4 O5 O6].
    destruct (try_push (m_resp d1) p) as [ok r] eqn:Hp. eexists. split; [reflexivity|].
    apply (try_push_moves _ _ q) in Hp as [G1 G2]. split; try done; cbn.
    - by rewrite G1, Er, Eq.
    - by rewrite <- Er. }
  destruct (req_Q d) as [|p q] eqn:Hq.
  - do 2 (erewrite M_bind_silent by reflexivity).
    apply (Hresp d (only_ports_refl d) eq_refl eq_refl).
  - destruct (try_push (m_req d) p) as [ok r] eqn:Hp.
    do 2 (erewrite M_bind_silent by reflexivity).
    apply (Hresp (set_req (if ok then q else p :: q) r (d_ctr d) d)); [|done..].
    apply (try_push_moves _ _ q) in Hp as [G1 G2]. split; try done. cbn. by rewrite G1, Hq.
Qed.
End Ports.

(** * The bursts of a write phase *)

Section Write_bursts.
Context `{Framework} {PR : PipeRegister} {PL : PipeRegisterLaws PR}.
Implicit Types d : DMAController.

(** Of several packets, all but the first are queued. *)
Lemma push_all_queued {PS : PipeRegisterSingle PR} ps q r q' r' n :
  push_all ps q r = (q', r', n) -> (2 <= length ps)%nat -> 1 <= n.
Proof.
  destruct ps as [|p1 [|p2 ps]]; cbn [length]; [lia..|]. intros E _. cbn [push_all] in E.
  destruct (try_push r p1) as [ok1 r1] eqn:E1. destruct (try_push r1 p2) as [ok2 r2] eqn:E2.
  destruct (push_all ps _ r2) as [[q3 r3] n3] eqn:E3. injection E as <- <- <-.
  destruct (push_all_conserves _ _ _ _ _ _ E3) as (_ & queued & _ & _ & _ & ->).
  assert (ok1 = true -> ok2 = false) as Hone.
  { intros ->. unfold try_push in E1, E2. destruct (isStalled r); [done|]. destruct (isStalled r1); [by injection E2|].
    pose proof (ps_once _ _ _ p2 E1) as Hs. by rewrite E2 in Hs. }
  destruct ok1; [rewrite Hone by done|]; destruct ok2; lia.
Qed.

Lemma write_bursts_length fuel d ctr n o : 0 <= o <= n ->
  Z.of_nat (length (write_bursts fuel d ctr n o)) <= n - o.
Proof.
  revert ctr o. induction fuel as [|fuel IH]; intros ctr o Ho; cbn [write_bursts]; [cbn; lia|].
  destruct (Z.ltb_spec o n); [|cbn; lia]. pose proof (read_chunk_valid (n - o)) as Hc.
  specialize (IH (s32 (ctr + 1)) (o + read_chunk (n - o))). cbn [length]. lia.
Qed.

Lemma write_bursts_two fuel d ctr n o : read_chunk (n - o) < n - o -> 0 <= o < n ->
  (2 <= length (write_bursts (S (S fuel)) d ctr n o))%nat.
Proof.
  intros Hlt Ho. cbn [write_bursts]. rewrite (proj2 (Z.ltb_lt o n)) by lia.
  rewrite (proj2 (Z.ltb_lt (o + read_chunk (n - o)) n)) by lia. cbn. lia.
Qed.

Lemma burst_wf p : good_burst p -> wf_tx "dma" (WSent p).
Proof.
  intros (Hv & Hs & Hf). split; [|split; [done|exact Hf]]. intros E. by rewrite E in Hv.
Qed.

(** Their numbers and destinations. *)
Lemma write_bursts_tids fuel d k n o :
  map pk_tid (write_bursts fuel d (s32 k) n o) =
  imap (fun i _ => s32 (k + Z.of_nat i)) (write_bursts fuel d (s32 k) n o).
Proof.
  revert k o. induction fuel as [|fuel IH]; intros k o; cbn [write_bursts]; [done|].
  destruct (o <? n); [|done]. rewrite s32_succ. cbn [map imap]. rewrite Z.add_0_r. f_equal.
  rewrite IH. apply imap_ext. intros i x _. cbn. f_equal. lia.
Qed.

Lemma write_bursts_dst fuel d ctr n o p : 0 <= o <= n -> p ∈ write_bursts fuel d ctr n o ->
  exists j, o <= j < n /\ pk_dst p = slaveIndex (dst_word d (wordsTransferred (d_track d) + j)).
Proof.
  revert ctr o. induction fuel as [|fuel IH]; intros ctr o Ho; cbn [write_bursts]; [by intros ?%elem_of_nil|].
  destruct (Z.ltb_spec o n); [|by intros ?%elem_of_nil]. pose proof (read_chunk_valid (n - o) ltac:(lia)) as [_ Hc].
  intros [->|Hp]%elem_of_cons; [exists o; split; [lia|done]|].
  destruct (IH (s32 (ctr + 1)) (o + read_chunk (n - o)) ltac:(lia) Hp) as (j & Hj & E). exists j. split; [lia|done].
Qed.

(** Their beats are the words of the buffer. *)
Lemma write_bursts_stores d ctr n : active d -> 1 <= n <= 256 ->
  let bs := concat (map pk_payloads (write_bursts (Z.to_nat n) d ctr n 0)) in
  let stores b i := exists v, bufferMemory (d_track d) !! Z.to_nat i = Some v
    /\ beat_of b = (SW, dst_word d (wordsTransferred (d_track d) + i), v) in
  (forall b, b ∈ bs -> exists i, 0 <= i < n /\ stores b i) /\
  (forall i, 0 <= i < n -> exists b, b ∈ bs /\ stores b i).
Proof.
  intros Ha Hn bs stores.
  pose proof (write_bursts_beats (Z.to_nat n) d ctr n 0 Ha ltac:(lia) ltac:(lia) ltac:(lia)) as Hb.
  rewrite Z.sub_0_r in Hb. fold bs in Hb. change (beat_of <$> bs = beat_of <$> buffer_writes d 0 n) in Hb.
  assert (Hlook : forall i : nat, beat_of <$> bs !! i = beat_of <$> buffer_writes d 0 n !! i).
  { intros i. by rewrite <- !list_lookup_fmap, Hb. }
  assert (Hst : forall i b q, bs !! i = Some b -> buffer_writes d 0 n !! i = Some q ->
    Z.of_nat i < n /\ stores b (Z.of_nat i)).
  { intros i b q Hi Hq. specialize (Hlook i). rewrite Hi, Hq in Hlook.
    assert (beat_of b = beat_of q) as Hbq by (cbn in Hlook; congruence).
    apply buffer_writes_lookup in Hq as (Hlt & v & Hv & ->); [|done|lia]. split; [done|].
    exists v. by rewrite Nat2Z.id. }
  split.
  - intros b [i Hi]%list_elem_of_lookup. pose proof (Hlook i) as Hl. rewrite Hi in Hl.
    destruct (buffer_writes d 0 n !! i) as [q|] eqn:Hq; [|done]. exists (Z.of_nat i).
    destruct (Hst i b q Hi Hq). split; [lia|done].
  - intros i Hi. destruct (lookup_lt_is_Some_2 (buffer_writes d 0 n) (Z.to_nat i)) as [q Hq].
    { rewrite length_buffer_writes by (done || lia). lia. }
    pose proof (Hlook (Z.to_nat i)) as Hl. rewrite Hq in Hl. destruct (bs !! Z.to_nat i) as [b|] eqn:Hb'; [|done].
    exists b. split; [by eapply list_elem_of_lookup_2|]. destruct (Hst _ _ _ Hb' Hq) as [_ Hs].
    by rewrite Z2Nat.id in Hs by lia.
Qed.
End Write_bursts.

(** * The invariant of a transfer *)

Section Transfer.
Context `{Framework} {PR : PipeRegister} {PL : PipeRegisterLaws PR}.
Context (d0 : DMAController) (m0 : mem).
Implicit Types (d : DMAController) (xs : list tx).

Abbreviation total := (totalWords (d_track d0)).
Abbreviation src := (src_word d0).
Abbreviation dst := (dst_word d0).
Abbreviation done_words d := (wordsTransferred (d_track d)).
Abbreviation pending d := (pendingBusWriteResponses (d_track d)).

(** The word that the transfer brings to [dst j]. *)
Definition word (j : Z) : Z := word_of m0 (src j).

(** The controller [d0] is about to read the first burst of a tile whose
    source and destination lie apart in the data memory. *)
Record plan : Prop := {
  pl_start : round_start d0;
  pl_first : done_words d0 = 0;
  pl_tile : tile_ok d0 m0;
  pl_separate : separate d0;
  pl_routed : forall j, 0 <= j < total -> slaveIndex (src j) = 0%nat /\ slaveIndex (dst j) = 0%nat;
  pl_running : enabled (d_regs d0) = true /\ done (d_regs d0) = false;
}.

Record same_tile d : Prop := {
  sm_src : srcAddr (d_regs d) = srcAddr (d_regs d0);
  sm_dst : dstAddr (d_regs d) = dstAddr (d_regs d0);
  sm_geo : d_geo d = d_geo d0;
  sm_total : totalWords (d_track d) = total;
}.

(** ** Memory *)

(** The first [w] words have been handed over: each is in memory or in a beat
    on its way, nothing else of memory has changed, and the reads on their way
    are of words of the source. *)
Record copying (w : Z) (m : mem) xs : Prop := {
  cp_size : getSize m = getSize m0;
  cp_wf : wf_mem m;
  cp_kept : forall a, 0 <= a -> (forall j, 0 <= j < w -> disjoint_words a (dst j)) ->
    load m LW a = load m0 LW a;
  cp_word : forall j, 0 <= j < w -> load m LW (dst j) = Ok (word j)
    \/ (load m LW (dst j) = load m0 LW (dst j)
        /\ exists b, b ∈ flat_map write_todo xs /\ beat_of b = (SW, dst j, word j));
  cp_writes : forall b, b ∈ flat_map write_todo xs ->
    exists j, 0 <= j < w /\ beat_of b = (SW, dst j, word j);
  cp_reads : forall b, b ∈ flat_map read_todo xs ->
    exists j, 0 <= j < total /\ rq_op b = LW /\ rq_addr b = src j;
}.

(** ** Transactions *)

(** The read transaction on its way, and what it brings. *)
Definition reads xs : list tx := filter (fun x => is_read x = true) xs.
Definition writes xs : list tx := filter (fun x => is_read x = false) xs.

Definition bringing (F : option (list (Z * Z))) xs : Prop :=
  match F with
  | None => reads xs = []
  | Some f => exists x, reads xs = [x] /\ tx_fill m0 x ≡ₚ f
  end.

(** Numbers from [lo] to [n]. *)
Definition numbered (lo n : Z) xs : Prop :=
  Forall (fun t => exists i, lo <= i < n /\ t = s32 i) (omap tx_tid xs).

(** ** The controller *)

Definition control (e : Z * dma_event) : option dma_event :=
  match e.2 with EvTrySendPacket => None | e => Some e end.

(** The last burst of the transfer is the only one of its write phase. *)
Definition single_burst : Prop := exists n, (n = 1 \/ n = 2 \/ n = 4) /\ total mod 256 = n.

(** [E] are its pending events, [F] what the read on its way brings. *)
Inductive stage d (E : list dma_event) (F : option (list (Z * Z))) : Prop :=
  | sg_fill : E = [EvScheduleReads] -> F = None -> reading d -> 1 <= room d -> holds m0 d ->
      done_words d mod 256 = 0 -> pending d <= 0 -> done (d_regs d) = false -> stage d E F
  | sg_wait : E = [] -> F = Some (burst_fill m0 d) -> reading d -> 1 <= room d -> holds m0 d ->
      done_words d mod 256 = 0 -> pending d <= 0 -> done (d_regs d) = false -> stage d E F
  | sg_drain : E = [EvScheduleWrites] -> F = None -> reading d -> room d <= 0 -> holds m0 d ->
      1 <= bufferIndex (d_track d) -> done_words d mod 256 = 0 -> pending d <= 0 ->
      done (d_regs d) = false -> stage d E F
  | sg_write : E = [] -> F = None -> active d -> wordsToBuffer (d_track d) = done_words d ->
      done_words d <= total -> (done_words d = total \/ done_words d mod 256 = 0) ->
      (1 <= pending d \/ done_words d = total /\ single_burst) -> done (d_regs d) = false -> stage d E F
  | sg_done : E = [] -> F = None -> active d -> wordsToBuffer (d_track d) = done_words d ->
      done_words d = total -> pending d <= 0 -> done (d_regs d) = true -> stage d E F.

(** ** Everything *)

(** The two devices and their registers: [x_req] and [x_resp] packets have
    left them, and [x_count] transactions have been numbered. *)
Record xfer : Type := Xfer {
  x_dma : DMAController; x_events : list (Z * dma_event);
  x_mem : DataMemory; x_sched : list (Z * dm_event);
  x_req : nat; x_resp : nat; x_count : Z;
}.
Implicit Types v : xfer.

Definition transit v : list packet := drop (x_req v) (accepted (m_req (x_dma v))) ++ req_Q (x_dma v).

(** The transactions that were ever made. *)
Definition made_at_most d xs : Z :=
  wordsToBuffer (d_track d) + done_words d + Z.of_nat (length (reads xs)).

(** What holds of packets and memory, whatever the stage. *)
Record carried (lo : Z) v xs : Prop := {
  ca_tile : same_tile (x_dma v);
  ca_bag : mem_bag "dma" (transit v) (x_resp v) (x_mem v) (x_sched v) xs;
  ca_req : (x_req v <= length (accepted (m_req (x_dma v))))%nat;
  ca_resp : (x_resp v <= length (accepted (dm_reg (x_mem v))))%nat;
  ca_routed : Forall (fun q => packet_dst q = 0%nat) (transit v);
  ca_copying : copying (done_words (x_dma v)) (dm_mem (x_mem v)) xs;
  ca_events : forall e p, e ∈ x_events v -> e.2 <> EvReadMMIO p;
  ca_pending : pending (x_dma v) <= Z.of_nat (length (writes xs));
  ca_numbered : numbered lo (x_count v) xs;
  ca_count : lo <= x_count v <= lo + made_at_most (x_dma v) xs;
}.

Definition staged v xs : Prop :=
  exists F, bringing F xs /\ stage (x_dma v) (omap control (x_events v)) F.

Definition transferring (lo : Z) v xs : Prop := carried lo v xs /\ staged v xs.

(** * Transactions go on *)

Lemma bringing_perm F xs xs' : xs ≡ₚ xs' -> bringing F xs -> bringing F xs'.
Proof.
  intros Hx. unfold bringing, reads. destruct F as [f|].
  - intros (x & Hr & Hf). exists x. split; [|done]. apply Permutation_singleton_r. by rewrite <- Hx, Hr.
  - intros Hr. apply Permutation_nil_r. by rewrite <- Hx, Hr.
Qed.

Lemma numbered_perm lo n xs xs' : xs ≡ₚ xs' -> numbered lo n xs -> numbered lo n xs'.
Proof. unfold numbered. by intros ->. Qed.

Lemma numbered_sub lo n n' xs xs' : n <= n' -> (forall t, t ∈ omap tx_tid xs' -> t ∈ omap tx_tid xs) ->
  numbered lo n xs -> numbered lo n' xs'.
Proof.
  unfold numbered. rewrite !Forall_forall. intros Hn Hs H0 t Ht. destruct (H0 t (Hs t Ht)) as (i & Hi & ->).
  exists i. split; [lia|done].
Qed.

Lemma copying_perm w m xs xs' : xs ≡ₚ xs' -> copying w m xs -> copying w m xs'.
Proof. intros Hx [C1 C2 C3 C4 C5 C6]. split; try done; by setoid_rewrite <- Hx. Qed.

(** The same memory, with fewer or other beats. *)
Lemma copying_todo w m xs xs' :
  (forall b, b ∈ flat_map write_todo xs <-> b ∈ flat_map write_todo xs') ->
  (forall b, b ∈ flat_map read_todo xs' -> b ∈ flat_map read_todo xs) ->
  copying w m xs -> copying w m xs'.
Proof.
  intros Hw Hr [C1 C2 C3 C4 C5 C6]. split; try done.
  - intros j Hj. destruct (C4 j Hj) as [?|(? & b & Hb & ?)]; [by left|right]. split; [done|].
    exists b. by rewrite <- Hw.
  - intros b Hb. apply C5. by rewrite Hw.
  - intros b Hb. by apply C6, Hr.
Qed.

Context (Hplan : plan).

Lemma total_range : 1 <= total <= 16384.
Proof.
  pose proof (reading_bounds _ (rs_reading _ (pl_start Hplan))). pose proof (rs_words _ (pl_start Hplan)).
  pose proof (pl_first Hplan). lia.
Qed.

Lemma src_in j : 0 <= j < total -> 0 <= src j /\ src j + 4 <= getSize m0.
Proof. apply src_word_ok; [apply Hplan|apply Hplan]. Qed.
Lemma dst_in j : 0 <= j < total -> 0 <= dst j /\ dst j + 4 <= getSize m0.
Proof. apply dst_word_ok; [apply Hplan|apply Hplan]. Qed.
Lemma dst_apart i j : 0 <= i < total -> 0 <= j < total -> i <> j -> disjoint_words (dst i) (dst j).
Proof. intros Hi Hj. by apply (dst_words_disjoint d0 m0 i j); [apply Hplan|apply Hplan|..]. Qed.

Lemma word_u32 j : u32 (word j) = word j.
Proof. apply uint_id, word_of_range, Hplan. Qed.

(** The source is as it was. *)
Lemma source_kept w m xs j : copying w m xs -> w <= total -> 0 <= j < total ->
  load m LW (src j) = Ok (word j).
Proof.
  intros C Hw Hj. rewrite (cp_kept _ _ _ C); [apply word_of_load; by apply src_in|by apply src_in|].
  intros i Hi. apply (pl_separate Hplan); lia.
Qed.

Lemma reads_same w m xs b : copying w m xs -> w <= total -> b ∈ flat_map read_todo xs ->
  read_beat m b = read_beat m0 b /\ loads_ok m b.
Proof.
  intros C Hw Hb. destruct (cp_reads _ _ _ C b Hb) as (j & Hj & Eo & Ea).
  pose proof (source_kept _ _ _ _ C Hw Hj) as Hl. split; [|exists (word j); by rewrite Eo, Ea].
  unfold read_beat. by rewrite Eo, Ea, Hl.
Qed.

(** A word is stored. *)
Lemma copying_store w m m' xs xs' b : copying w m xs -> w <= total ->
  b ∈ flat_map write_todo xs -> store m (wq_op b) (wq_addr b) (wq_data b) = Ok m' ->
  (forall b', b' ∈ flat_map write_todo xs -> b' = b \/ b' ∈ flat_map write_todo xs') ->
  (forall b', b' ∈ flat_map write_todo xs' -> b' ∈ flat_map write_todo xs) ->
  (forall b', b' ∈ flat_map read_todo xs' -> b' ∈ flat_map read_todo xs) -> copying w m' xs'.
Proof.
  intros [C1 C2 C3 C4 C5 C6] Hw Hb Hs H1 H2 H3. destruct (C5 b Hb) as (j & Hj & [= Eo Ea Ed]).
  rewrite Eo, Ea, Ed in Hs. destruct (dst_in j ltac:(lia)) as [Hd1 Hd2].
  assert (Hother : forall a, 0 <= a -> disjoint_words a (dst j) -> load m' LW a = load m LW a).
  { intros a Ha Hda. eapply load_store_disjoint; [done|exact Hd1|done|exact Hs|]. exact Hda. }
  assert (Hnow : load m' LW (dst j) = Ok (word j)).
  { destruct (load_store_same m SW (dst j) (word j) m' eq_refl Hd1 Hs) as [Hl _].
    rewrite <- (word_u32 j). exact Hl. }
  split.
  - rewrite <- C1. unfold getSize. by rewrite (store_length _ _ _ _ _ Hd1 Hs).
  - by eapply store_wf.
  - intros a Ha Hda. rewrite Hother by auto. by apply C3.
  - intros i Hi. destruct (decide (i = j)) as [->|Hij]; [by left|].
    rewrite Hother; [|by apply dst_in; lia|by apply dst_apart; lia].
    destruct (C4 i Hi) as [?|(? & b' & Hb' & Eb')]; [by left|right]. split; [done|]. exists b'. split; [|done].
    destruct (H1 b' Hb') as [->|]; [|done]. injection Eb' as _ Ea' _. rewrite Ea in Ea'.
    destruct (dst_apart i j) as [?|?]; lia.
  - intros b' Hb'. by apply C5, H2.
  - intros b' Hb'. by apply C6, H3.
Qed.

(** What holds of the transactions, as steps are made. *)
Record evolves w (mx mx' : mem * list tx) : Prop := {
  ev_copying : copying w mx.1 mx.2 -> copying w mx'.1 mx'.2;
  ev_bringing : forall F, copying w mx.1 mx.2 -> bringing F mx.2 -> bringing F mx'.2;
  ev_reads : length (reads mx'.2) = length (reads mx.2);
  ev_writes : length (writes mx'.2) = length (writes mx.2);
  ev_tids : forall t, t ∈ omap tx_tid mx'.2 -> t ∈ omap tx_tid mx.2;
}.

Lemma step_evolves w mx mx' : w <= total -> bag_step mx mx' -> evolves w mx mx'.
Proof.
  intros Hw Hst. destruct Hst as [m x m' x' rest ys ys' Hs Hx Hx'].
  pose proof (serve_kind _ _ _ _ Hs) as Hk. destruct (serve_todo _ _ _ _ Hs) as (T1 & T2 & T3).
  assert (Hcnt : forall b, length (filter (fun x => is_read x = b) ys') = length (filter (fun x => is_read x = b) ys)).
  { intros b. rewrite Hx, Hx'. rewrite !filter_cons, Hk. by case_decide. }
  split; cbn [fst snd]; [| |apply Hcnt|apply Hcnt|].
  - intros C. apply (copying_perm _ _ _ _ Hx) in C.
    apply (copying_perm _ _ (x' :: rest)); [done|]. destruct T3 as [[-> T3]|(b & Hb & Hst & T3)].
    + eapply copying_todo; [| |exact C]; cbn; set_solver.
    + eapply copying_store; [exact C|done| |exact Hst|..]; cbn; set_solver.
  - intros F C HF. apply (copying_perm _ _ _ _ Hx) in C. apply (bringing_perm _ _ _ Hx) in HF.
    apply (bringing_perm _ (x' :: rest)); [done|]. unfold bringing, reads in *.
    rewrite filter_cons, Hk in *. destruct F as [f|].
    + destruct HF as (y & Hy & Hf). case_decide as Hd; [|by exists y].
      injection Hy as -> Hy. exists x'. split; [by rewrite Hy|]. rewrite <- Hf.
      apply (serve_fill m0 m _ m'); [done|]. intros b Hb. eapply reads_same; [exact C|done|]. cbn. set_solver.
    + by case_decide.
  - intros t. rewrite Hx, Hx'. cbn. destruct (tx_tid x') as [t'|] eqn:E.
    + rewrite (serve_tid _ _ _ _ _ Hs E). done.
    + destruct (tx_tid x); set_solver.
Qed.

Lemma steps_evolve w mx mx' : w <= total -> rtc bag_step mx mx' -> evolves w mx mx'.
Proof.
  intros Hw. induction 1 as [mx|mx1 mx2 mx3 H12 _ [I1 I2 I3 I4 I5]]; [by split|].
  destruct (step_evolves w mx1 mx2 Hw H12) as [J1 J2 J3 J4 J5]. split; try congruence; auto.
Qed.

(** ** The memory is called *)

Lemma words_left v lo xs : transferring lo v xs -> done_words (x_dma v) <= total.
Proof.
  intros (T & F & _ & S). pose proof (sm_total _ (ca_tile _ _ _ T)) as Ht.
  destruct S as [_ _ R|_ _ R|_ _ R| |]; try lia.
  all: pose proof (reading_bounds _ R); pose proof (rd_count _ R); lia.
Qed.

Lemma forall_subperm {A} (P : A -> Prop) l l' k : l ≡ₚ k ++ l' -> Forall P l -> Forall P l'.
Proof. intros ->. by intros [_ ?]%Forall_app. Qed.

Lemma mem_transferring lo v xs c pend ks k mm es k' :
  transferring lo v xs -> mem_call (x_sched v) c pend ks ->
  ks `prefix_of` drop (x_req v) (accepted (m_req (x_dma v))) ->
  dm_run k c (x_mem v) = Ok (mm, es, k') ->
  exists xs', transferring lo (Xfer (x_dma v) (x_events v) mm (pend ++ es)
    (x_req v + length ks) (x_resp v) (x_count v)) xs'
    /\ length (reads xs') = length (reads xs)
    /\ (gainful c -> mem_work mm (pend ++ es) xs' < mem_work (x_mem v) (x_sched v) xs)%nat.
Proof.
  intros TS Hc [rest Hks] Hrun. pose proof (words_left _ _ _ TS) as Hw. destruct TS as (T & F & HF & S).
  assert (Hreq : transit v ≡ₚ ks ++ transit (Xfer (x_dma v) (x_events v) mm (pend ++ es)
    (x_req v + length ks) (x_resp v) (x_count v))).
  { unfold transit. cbn. rewrite <- drop_drop, Hks, drop_app_length. by rewrite app_assoc. }
  destruct (mem_call_refines "dma" _ _ _ _ _ _ _ _ _ _ _ _ _ (ca_bag _ _ _ T) (ca_resp _ _ _ T) Hc Hreq Hrun)
    as (Hp & xs' & B & Hs & _ & Hwork).
  exists xs'. destruct (steps_evolve _ _ _ Hw Hs) as [V1 V2 V3 V4 V5]. split; [|split; [exact V3|exact Hwork]].
  destruct T as [T1 T2 T3 T4 T5 T6 T7 T9 T10 T11]. cbn [fst snd] in V1, V2, V3, V4, V5.
  split; [split; cbn; try done; auto|exists F; auto].
  - apply (f_equal length) in Hks. rewrite length_drop, length_app in Hks. lia.
  - apply prefix_length in Hp. lia.
  - by eapply forall_subperm.
  - by rewrite V4.
  - by eapply numbered_sub.
  - unfold made_at_most. by rewrite V3.
Qed.

(** ** The controller is called *)

Definition with_dma d (evs : list (Z * dma_event)) (resp : nat) (n : Z) v : xfer :=
  Xfer d evs (x_mem v) (x_sched v) (x_req v) resp n.

(** While it runs, the controller has the counter. *)
Definition in_step v : Prop := d_ctr (x_dma v) = s32 (x_count v).

Lemma stage_core d d' E F : same_core d d' -> stage d E F -> stage d' E F.
Proof.
  intros Hc. pose proof Hc as (E1 & E2 & E3).
  assert (Hroom : room d' = room d) by (unfold room; by rewrite E3).
  assert (Hfill : burst_fill m0 d' = burst_fill m0 d).
  { unfold burst_fill. rewrite Hroom, E3. apply map_ext. intros i. unfold src_word. by rewrite E1, E2. }
  destruct 1; [eapply sg_fill|eapply sg_wait|eapply sg_drain|eapply sg_write|eapply sg_done];
    rewrite ?E1, ?E3, ?Hroom, ?Hfill; try done;
    first [by apply (reading_same_core d) | by apply (holds_same_core m0 d) | by apply (active_same_core d)].
Qed.

Lemma same_tile_core d d' : same_core d d' -> same_tile d -> same_tile d'.
Proof. intros (E1 & E2 & E3) [? ? ? ?]. split; by rewrite ?E1, ?E2, ?E3. Qed.

(** Packets move to the registers, and registers are drained or stalled. *)
Lemma ports_carried lo v xs d' evs : carried lo v xs -> only_ports (x_dma v) d' ->
  (forall e, e ∈ evs -> e ∈ x_events v) -> carried lo (with_dma d' evs (x_resp v) (x_count v) v) xs.
Proof.
  intros [T1 T2 T3 T4 T5 T6 T7 T9 T10 T11] O He. pose proof (op_core _ _ O) as (E1 & E2 & E3).
  assert (Ht : transit (with_dma d' evs (x_resp v) (x_count v) v) = transit v).
  { unfold transit. cbn. destruct (op_req_sent _ _ O) as [l Hl]. pose proof (op_req _ _ O) as Hq.
    rewrite Hl in *. rewrite <- app_assoc in Hq. apply (inj (app _)) in Hq as <-.
    rewrite drop_app_le by done. by rewrite <- app_assoc. }
  split; rewrite ?Ht; cbn; rewrite ?E3; try done.
  - by eapply same_tile_core; [apply O|].
  - pose proof (prefix_length _ _ (op_req_sent _ _ O)). lia.
  - intros e p Hin. by apply T7, He.
  - unfold made_at_most. by rewrite E3.
Qed.

Lemma ports_transferring lo v xs d' evs : transferring lo v xs -> only_ports (x_dma v) d' ->
  (forall e, e ∈ evs -> e ∈ x_events v) -> omap control evs = omap control (x_events v) ->
  transferring lo (with_dma d' evs (x_resp v) (x_count v) v) xs.
Proof.
  intros (T & F & HF & S) O He Hc. split; [by apply ports_carried|]. exists F. split; [done|]. cbn.
  rewrite Hc. by apply (stage_core (x_dma v)), S; apply O.
Qed.

(** *** Numbers *)

Lemma s32_near i j : s32 i = s32 j -> - 2 ^ 32 < i - j < 2 ^ 32 -> i = j.
Proof.
  intros E Hd. assert (u32 i = u32 j) as Hu by (rewrite <- (uint_sint 32 i), <- (uint_sint 32 j) by done; congruence).
  unfold uint in Hu. pose proof (Z.div_mod i (2 ^ 32)). pose proof (Z.div_mod j (2 ^ 32)). lia.
Qed.

Lemma reads_bound v lo xs : transferring lo v xs -> (length (reads xs) <= 1)%nat.
Proof.
  intros (_ & F & HF & _). unfold bringing in HF. destruct F; [destruct HF as (x & -> & _)|rewrite HF]; cbn; lia.
Qed.

Lemma few_transactions lo v xs : carried lo v xs -> (length (reads xs) <= 1)%nat ->
  done_words (x_dma v) <= total -> wordsToBuffer (d_track (x_dma v)) <= total ->
  lo <= x_count v <= lo + 2 ^ 17.
Proof.
  intros [_ _ _ _ _ _ _ _ _ Hc] Hr Hd Hb. pose proof total_range. unfold made_at_most in Hc. lia.
Qed.

Lemma numbered_new lo n k xs : numbered lo n xs -> lo <= n <= lo + 2 ^ 17 -> 0 <= k < 2 ^ 17 ->
  s32 (n + k) ∉ omap tx_tid xs.
Proof.
  unfold numbered. rewrite Forall_forall. intros H0 Hn Hk Hin. destruct (H0 _ Hin) as (i & Hi & E).
  apply s32_near in E; lia.
Qed.

(** *** Requests are sent *)

Lemma same_words d j : same_tile d -> src_word d j = src j /\ dst_word d j = dst j.
Proof. intros [E1 E2 E3 _]. unfold src_word, dst_word. by rewrite E1, E2, E3. Qed.

(** Transactions that have just been made, numbered from [n] on. *)
Record fresh (n : Z) (new : list tx) : Prop := {
  fr_wf : Forall (wf_tx "dma") new;
  fr_sent : Forall (fun x => exists q, tx_request x = Some q /\ packet_dst q = 0%nat) new;
  fr_tids : omap tx_tid new = imap (fun i _ => s32 (n + Z.of_nat i)) new;
}.

Lemma fresh_tid n new t : fresh n new -> t ∈ omap tx_tid new ->
  exists i, (i < length new)%nat /\ t = s32 (n + Z.of_nat i).
Proof.
  intros [_ _ ->] Ht. apply elem_of_lookup_imap in Ht as (i & x & -> & Hx). exists i.
  split; [by eapply lookup_lt_Some|done].
Qed.

Lemma fresh_nodup lo n new xs : fresh n new -> numbered lo n xs -> lo <= n <= lo + 2 ^ 17 ->
  Z.of_nat (length new) < 2 ^ 17 -> NoDup (omap tx_tid xs) ->
  NoDup (omap tx_tid new ++ omap tx_tid xs).
Proof.
  intros F Hn Hlo Hk HN. apply NoDup_app. split_and!; [| |].
  - rewrite (fr_tids _ _ F). apply NoDup_alt. intros i j t Hi Hj.
    rewrite list_lookup_imap in Hi, Hj.
    destruct (new !! i) as [x|] eqn:Ei; [|done]. destruct (new !! j) as [y|] eqn:Ej; [|done].
    injection Hi as <-. injection Hj as Hj. apply lookup_lt_Some in Ei, Ej. apply s32_near in Hj; lia.
  - intros t Ht Hx. destruct (fresh_tid _ _ _ F Ht) as (i & Hi & ->).
    by apply (numbered_new lo n (Z.of_nat i) xs); [..|lia|].
  - done.
Qed.

Lemma send_carried lo v xs d1 new : carried lo v xs -> same_tile d1 ->
  let n1 := x_count v + Z.of_nat (length new) in
  let v1 := with_dma d1 (x_events v) (x_resp v) n1 v in
  NoDup (omap tx_tid xs) -> fresh (x_count v) new ->
  lo <= x_count v <= lo + 2 ^ 17 -> Z.of_nat (length new) < 2 ^ 17 ->
  transit v1 ≡ₚ transit v ++ omap tx_request new -> (x_req v <= length (accepted (m_req d1)))%nat ->
  copying (done_words d1) (dm_mem (x_mem v)) (xs ++ new) ->
  pending d1 <= Z.of_nat (length (writes (xs ++ new))) ->
  n1 <= lo + made_at_most d1 (xs ++ new) -> carried lo v1 (xs ++ new).
Proof.
  intros [T1 T2 T3 T4 T5 T6 T7 T9 T10 T11] Ht1 n1 v1 Hnd F Hlo Hk Htr Hreq Hc Hp Hm.
  split; unfold v1; cbn; try done.
  - eapply (bag_perm _ (transit v ++ omap tx_request new)); [exact Htr|done..|].
    apply (bag_send "dma"); [done|exact (fr_wf _ _ F)| |by eapply fresh_nodup].
    eapply Forall_impl; [exact (fr_sent _ _ F)|]. intros x (q & Hq & _). by exists q.
  - cut (Forall (fun q => packet_dst q = 0%nat) (transit v1)); [done|]. rewrite Htr. apply Forall_app. split; [done|]. pose proof (fr_sent _ _ F) as Hs.
    clear -Hs. induction Hs as [|x new (q & Hq & Hd) _ IH]; [constructor|]. cbn. rewrite Hq. by constructor.
  - unfold numbered in *. rewrite omap_app. apply Forall_app. split.
    + eapply Forall_impl; [exact T10|]. intros t (i & Hi & ->). exists i. split; [unfold n1; lia|done].
    + apply Forall_forall. intros t Ht. destruct (fresh_tid _ _ _ F Ht) as (i & Hi & ->).
      exists (x_count v + Z.of_nat i). split; [unfold n1; lia|done].
  - unfold n1 in *. lia.
Qed.

(** *** A read burst is sent *)

Lemma next_burst_wf d : reading d -> 1 <= room d -> wf_tx "dma" (RSent (next_burst d)).
Proof.
  intros Hr Hroom. destruct (read_chunk_valid (room d) Hroom) as [Hv Hc].
  pose proof (length_next_burst d Hroom) as Hl. split_and!.
  - intros E. rewrite E in Hl. cbn in Hl. lia.
  - rewrite Hl. unfold next_burst, read_packet. cbn [pk_burstSize]. rewrite length_map, length_seq.
    apply burst_size_of. by destruct Hv as [-> |[-> | ->]].
  - cbn. rewrite map_map. apply Forall_map, Forall_forall. done.
Qed.

Lemma sent_transit v d1 q n : sends (x_dma v) d1 q -> (x_req v <= length (accepted (m_req (x_dma v))))%nat ->
  transit (with_dma d1 (x_events v) (x_resp v) n v) ≡ₚ transit v ++ [q]
  /\ (x_req v <= length (accepted (m_req d1)))%nat.
Proof.
  intros [[Hp Hq]|[Hp Hq]] Hn; unfold transit; cbn; rewrite Hq.
  - apply try_push_true in Hp. rewrite Hp, drop_app_le, length_app by done. split; [|lia].
    by rewrite <- !app_assoc, (Permutation_app_comm [q]).
  - apply try_push_false in Hp. rewrite Hp. split; [by rewrite app_assoc|done].
Qed.

(** More reads on their way. *)
Lemma copying_reads w m xs p : copying w m xs ->
  (forall b, b ∈ pk_payloads p -> exists j, 0 <= j < total /\ rq_op b = LW /\ rq_addr b = src j) ->
  copying w m (xs ++ [RSent p]).
Proof.
  intros [C1 C2 C3 C4 C5 C6] Hp. split; try done.
  - intros j Hj. rewrite flat_map_app. cbn. rewrite app_nil_r. by apply C4.
  - intros b. rewrite flat_map_app. cbn. rewrite app_nil_r. apply C5.
  - intros b. rewrite flat_map_app, elem_of_app. cbn. rewrite app_nil_r. intros [?|?]; auto.
Qed.

Lemma burst_sources d b : same_tile d -> reading d -> 1 <= room d -> b ∈ pk_payloads (next_burst d) ->
  exists j, 0 <= j < total /\ rq_op b = LW /\ rq_addr b = src j.
Proof.
  intros Ht Hr Hroom Hb. pose proof (reading_bounds d Hr). pose proof (room_le d). pose proof (rd_count d Hr).
  pose proof (sm_total _ Ht). pose proof (read_chunk_valid (room d) Hroom) as [_ ?].
  apply list_elem_of_lookup in Hb as [i Hi]. apply next_burst_lookup in Hi as (Eo & Ea & _ & Hi); [|done].
  eexists. split; [|split; [exact Eo|]]; [|rewrite Ea; by apply same_words]. lia.
Qed.

Lemma start_read lo v xs f : carried lo v xs -> in_step v -> omap control (x_events v) = [] ->
  reads xs = [] -> reading (x_dma v) -> 1 <= room (x_dma v) -> holds m0 (x_dma v) ->
  done_words (x_dma v) mod 256 = 0 -> pending (x_dma v) <= 0 -> done (d_regs (x_dma v)) = false ->
  exists d1, outcome (schedule_phase (S f) READING) (x_dma v) = Ok (d1, [])
    /\ let v1 := with_dma d1 (x_events v) (x_resp v) (x_count v + 1) v in
       transferring lo v1 (xs ++ [RSent (next_burst (x_dma v))]) /\ in_step v1
       /\ m_resp d1 = m_resp (x_dma v) /\ resp_Q d1 = resp_Q (x_dma v)
       /\ d_track d1 = set_pendingR 1 (d_track (x_dma v)).
Proof.
  intros T Hctr He Hrx Hr Hroom Hh Hm Hpend Hdone. unfold in_step in *. set (d := x_dma v) in *.
  destruct (schedule_reads_ok f d Hr Hroom) as (d1 & E & Hs & R1 & R2 & R3 & R4 & R5 & R6).
  exists d1. split; [exact E|]. cbv zeta. cbn [with_dma x_dma x_count].
  pose proof (reading_bounds d Hr) as Hb. pose proof (room_le d) as Hrm. pose proof (ca_tile _ _ _ T) as Ht.
  pose proof (sm_total _ Ht) as Htot. fold d in Ht, Htot. pose proof (rd_count d Hr) as Hcnt.
  assert (Hrd : reads (xs ++ [RSent (next_burst d)]) = [RSent (next_burst d)])
    by (unfold reads in *; rewrite filter_app, Hrx; done).
  assert (Hwr : writes (xs ++ [RSent (next_burst d)]) = writes xs)
    by (unfold writes; rewrite filter_app; by rewrite app_nil_r).
  assert (Hsame : same_tile d1) by (destruct Ht; split; by rewrite ?R1, ?R2, ?R3).
  split; [split|].
  - destruct (sent_transit v d1 _ (x_count v + 1) Hs (ca_req _ _ _ T)) as [Htr Hreq].
    assert (Hfew : lo <= x_count v <= lo + 2 ^ 17).
    { apply (few_transactions lo v xs T); fold d; [rewrite Hrx; cbn; lia|lia|lia]. }
    apply (send_carried lo v xs d1 [RSent (next_burst d)] T Hsame); try done.
    + apply (ca_bag _ _ _ T).
    + split; [by repeat constructor; apply next_burst_wf| |cbn; by rewrite Hctr, Z.add_0_r].
      repeat constructor. eexists. split; [done|]. cbn. rewrite (proj1 (same_words d _ Ht)).
      apply (pl_routed Hplan). lia.
    + rewrite R3. apply copying_reads; [apply T|]. intros b. by apply burst_sources.
    + rewrite R3, Hwr. apply T.
    + pose proof (ca_count _ _ _ T) as Hc. unfold made_at_most in *. rewrite R3, Hrd. rewrite Hrx in Hc.
      cbn in *. fold d in Hc. lia.
  - exists (Some (burst_fill m0 d1)). split.
    + exists (RSent (next_burst d)). split; [done|]. rewrite next_burst_fill by done.
      unfold burst_fill, room, src_word. by rewrite R1, R2, R3.
    + cbn. rewrite He. apply sg_wait; try done; rewrite ?R1, ?R3; try done.
      * destruct Hr as [[? ? ? ? ?] ? ?]. split; [split|..]; rewrite ?R2, ?R3; done.
      * unfold room. by rewrite R3.
      * intros j. unfold src_word. rewrite R1, R2, R3. apply Hh.
  - split; [|done]. rewrite R4, Hctr. apply s32_succ.
Qed.

(** *** The buffer is written *)

Context {PS : PipeRegisterSingle PR}.

Abbreviation bursts_of d := (write_bursts (Z.to_nat (bufferIndex (d_track d))) d (d_ctr d) (bufferIndex (d_track d)) 0).

Lemma bursts_fresh d n : active d -> same_tile d -> 1 <= bufferIndex (d_track d) <= 256 -> d_ctr d = s32 n ->
  done_words d + bufferIndex (d_track d) <= total -> fresh n (map WSent (bursts_of d)).
Proof.
  intros Ha Ht Hi Hc Hle. pose proof (act_transferred d Ha) as Hw. split.
  - apply Forall_map. pose proof (write_bursts_good (Z.to_nat (bufferIndex (d_track d))) d (d_ctr d)
      (bufferIndex (d_track d)) 0 Ha ltac:(lia) ltac:(lia)) as Hg.
    eapply Forall_impl; [exact Hg|]. intros p. apply burst_wf.
  - apply Forall_map, Forall_forall. intros p Hp. eexists. split; [done|]. cbn.
    apply write_bursts_dst in Hp as (j & Hj & ->); [|lia]. rewrite (proj2 (same_words d _ Ht)).
    apply (pl_routed Hplan). lia.
  - rewrite Hc. change (map WSent ?l) with (WSent <$> l). rewrite imap_fmap.
    rewrite <- (write_bursts_tids _ d n (bufferIndex (d_track d)) 0).
    generalize (write_bursts (Z.to_nat (bufferIndex (d_track d))) d (s32 n) (bufferIndex (d_track d)) 0). intros l.
    induction l as [|p l IH]; [done|]. cbn. by f_equal.
Qed.

(** The words of the buffer are handed over. *)
Lemma copying_writes d m xs bs : copying (done_words d) m xs -> active d -> same_tile d -> holds m0 d ->
  let n := bufferIndex (d_track d) in 1 <= n <= 256 -> done_words d + n <= total ->
  bs = write_bursts (Z.to_nat n) d (d_ctr d) n 0 ->
  copying (done_words d + n) m (xs ++ map WSent bs).
Proof.
  intros [C1 C2 C3 C4 C5 C6] Ha Ht Hh n Hn Hle ->. set (bs := write_bursts _ _ _ _ _).
  pose proof (act_transferred d Ha) as Hw.
  destruct (write_bursts_stores d (d_ctr d) n Ha Hn) as [S1 S2]. cbv zeta in S1, S2.
  assert (Hbeats : flat_map write_todo (map WSent bs) = concat (map pk_payloads bs)).
  { clear. induction bs as [|p l IH]; [done|]. cbn. by rewrite IH. }
  assert (Hreads : flat_map read_todo (map WSent bs) = []).
  { clear. induction bs as [|p l IH]; [done|]. cbn. by rewrite IH. }
  assert (Hval : forall i z, 0 <= i < n -> bufferMemory (d_track d) !! Z.to_nat i = Some z ->
    dst_word d (done_words d + i) = dst (done_words d + i) /\ z = word (done_words d + i)).
  { intros i z Hi Hv. destruct (same_words d (done_words d + i) Ht) as [Es ->]. split; [done|].
    rewrite (Hh i) in Hv by (fold n; lia). injection Hv as <-. by rewrite Es. }
  split; try done.
  - intros a Ha0 Hda. apply C3; [done|]. intros j Hj. apply Hda. lia.
  - intros j Hj. rewrite flat_map_app, Hbeats. destruct (Z.lt_ge_cases j (done_words d)) as [Hlt|Hge].
    + destruct (C4 j) as [?|(? & b & Hb & ?)]; [lia|by left|right]. split; [done|]. exists b.
      split; [|done]. apply elem_of_app. by left.
    + right. split; [apply C3; [by apply dst_in; lia|intros i Hi; by apply dst_apart; lia]|].
      destruct (S2 (j - done_words d)) as (b & Hb & v & Hv & Eb); [lia|]. exists b.
      split; [apply elem_of_app; by right|]. destruct (Hval (j - done_words d) v) as [Ed ->]; [lia|done|].
      rewrite Eb, Ed. by replace (done_words d + (j - done_words d)) with j by lia.
  - intros b. rewrite flat_map_app, Hbeats, elem_of_app. intros [Hb|Hb].
    + destruct (C5 b Hb) as (j & Hj & Eb). exists j. split; [lia|done].
    + destruct (S1 b Hb) as (i & Hi & v & Hv & Eb). exists (done_words d + i). split; [lia|].
      destruct (Hval i v Hi Hv) as [Ed ->]. by rewrite Eb, Ed.
  - intros b. rewrite flat_map_app, Hreads, app_nil_r. apply C6.
Qed.

Lemma pushed_transit v d1 ps k n :
  push_all ps (req_Q (x_dma v)) (m_req (x_dma v)) = (req_Q d1, m_req d1, k) ->
  (x_req v <= length (accepted (m_req (x_dma v))))%nat ->
  transit (with_dma d1 (x_events v) (x_resp v) n v) ≡ₚ transit v ++ ps
  /\ (x_req v <= length (accepted (m_req d1)))%nat /\ 0 <= k <= Z.of_nat (length ps).
Proof.
  intros E Hn. destruct (push_all_conserves _ _ _ _ _ _ E) as (taken & queued & Ea & Eq & Hp & ->).
  unfold transit. cbn. rewrite Ea, Eq, drop_app_le, length_app by done. split_and!; [|lia..|].
  - rewrite <- Hp. solve_Permutation.
  - apply Permutation_length in Hp. rewrite length_app in Hp. lia.
Qed.

Lemma ctr_after_s32 k n : ctr_after k (s32 n) = s32 (n + Z.of_nat k).
Proof.
  revert n. induction k as [|k IH]; intros n; [cbn; by rewrite Z.add_0_r|].
  rewrite ctr_after_S, s32_succ, IH. f_equal. lia.
Qed.

Lemma reads_writes xs bs : reads (xs ++ map WSent bs) = reads xs
  /\ length (writes (xs ++ map WSent bs)) = (length (writes xs) + length bs)%nat.
Proof.
  unfold reads, writes. rewrite !filter_app.
  assert (filter (fun x => is_read x = true) (map WSent bs) = []
    /\ length (filter (fun x => is_read x = false) (map WSent bs)) = length bs) as [-> Hl].
  { induction bs as [|p bs [IH1 IH2]]; [done|]. cbn [map].
    rewrite filter_cons_False, filter_cons_True by done. split; [exact IH1|]. cbn [length]. by rewrite IH2. }
  by rewrite app_nil_r, length_app, Hl.
Qed.

(** If only one burst is sent, it is 1, 2 or 4 words long and the last. *)
Lemma one_burst d : reading d -> totalWords (d_track d) = total -> room d <= 0 ->
  1 <= bufferIndex (d_track d) -> done_words d mod 256 = 0 -> (length (bursts_of d) < 2)%nat ->
  done_words d + bufferIndex (d_track d) = total /\ single_burst.
Proof.
  intros Hr Ht Hroom Hi Hm Hlen. pose proof (rd_count d Hr) as Hc. pose proof (reading_bounds d Hr) as Hb.
  set (n := bufferIndex (d_track d)) in *.
  assert (Hn : read_chunk n = n).
  { pose proof (read_chunk_valid n Hi) as [_ Hle]. destruct (Z.lt_ge_cases (read_chunk n) n) as [Hlt|]; [|lia].
    assert (2 <= n) by lia. replace (Z.to_nat n) with (S (S (Z.to_nat (n - 2)))) in Hlen by lia.
    pose proof (write_bursts_two (Z.to_nat (n - 2)) d (d_ctr d) n 0) as H2. rewrite Z.sub_0_r in H2. lia. }
  pose proof (read_chunk_valid n Hi) as [Hv _]. rewrite Hn in Hv.
  assert (done_words d + n = total) as Htot by (unfold room, BUFFER_CAPACITY in Hroom; fold n in Hroom; lia).
  split; [done|]. exists n. split; [done|]. rewrite <- Htot.
  pose proof (Z.div_mod (done_words d) 256). rewrite Hm in *.
  replace (done_words d + n) with (n + (done_words d / 256) * 256) by lia.
  rewrite Z.mod_add by done. apply Z.mod_small. lia.
Qed.

Lemma start_writes lo v xs f : carried lo v xs -> in_step v -> omap control (x_events v) = [] ->
  reads xs = [] -> reading (x_dma v) -> room (x_dma v) <= 0 -> holds m0 (x_dma v) ->
  1 <= bufferIndex (d_track (x_dma v)) -> done_words (x_dma v) mod 256 = 0 ->
  pending (x_dma v) <= 0 -> done (d_regs (x_dma v)) = false ->
  exists d1 bs, outcome (schedule_phase (S f) WRITING) (x_dma v) = Ok (d1, [])
    /\ let v1 := with_dma d1 (x_events v) (x_resp v) (x_count v + Z.of_nat (length bs)) v in
       transferring lo v1 (xs ++ map WSent bs) /\ in_step v1 /\ Z.of_nat (length bs) <= 256
       /\ m_resp d1 = m_resp (x_dma v) /\ resp_Q d1 = resp_Q (x_dma v)
       /\ done_words (x_dma v) < done_words d1 /\ wordsToBuffer (d_track d1) = wordsToBuffer (d_track (x_dma v)).
Proof.
  intros T Hctr He Hrx Hr Hroom Hh Hi Hm Hpend Hdone. unfold in_step in *. set (d := x_dma v) in *.
  pose proof (rd_active d Hr) as Ha. pose proof (reading_bounds d Hr) as Hb. pose proof (ca_tile _ _ _ T) as Ht.
  pose proof (sm_total _ Ht) as Htot. fold d in Ht, Htot. pose proof (rd_count d Hr) as Hcnt.
  destruct (schedule_writes_ok f d Ha Hi ltac:(lia)) as
    (d1 & E & Ep & R1 & R2 & Ha1 & _ & R4 & R5 & R6 & R7 & _ & R8 & R9 & R10).
  pose proof (one_burst d Hr Htot Hroom Hi Hm) as Hone.
  pose proof (bursts_fresh d (x_count v) Ha Ht ltac:(lia) Hctr ltac:(lia)) as Hfr.
  pose proof (copying_writes d _ xs _ (ca_copying _ _ _ T) Ha Ht Hh ltac:(lia) ltac:(lia) eq_refl) as Hcp.
  pose proof (write_bursts_length (Z.to_nat (bufferIndex (d_track d))) d (d_ctr d) (bufferIndex (d_track d)) 0 ltac:(lia)) as Hl.
  exists d1, (bursts_of d). split; [exact E|]. set (bs := bursts_of d) in *. cbv zeta. cbn [with_dma x_dma x_count].
  destruct (reads_writes xs bs) as [Hrd Hwr].
  destruct (pushed_transit v d1 _ _ (x_count v + Z.of_nat (length bs)) Ep (ca_req _ _ _ T)) as (Htr & Hreq & Hk).
  assert (Hsame : same_tile d1) by (destruct Ht; split; by rewrite ?R1, ?R2, ?R5).
  assert (Hfew : lo <= x_count v <= lo + 2 ^ 17).
  { apply (few_transactions lo v xs T); fold d; [rewrite Hrx; cbn; lia|lia|lia]. }
  assert (Hq : omap tx_request (map WSent bs) = map WriteReq bs)
    by (clear; induction bs as [|p l IH]; [done|]; cbn; by rewrite IH).
  split_and!; try done; try lia; [split|by rewrite R8, Hctr, ctr_after_s32].
  - pose proof (length_map WSent bs) as Hlen. pose proof (ca_count _ _ _ T) as Hc.
    replace (x_count v + Z.of_nat (length bs)) with (x_count v + Z.of_nat (length (map WSent bs))) by lia.
    eapply (send_carried lo v xs d1 (map WSent bs) T Hsame); [exact (bag_tids _ _ _ _ _ _ (ca_bag _ _ _ T))
      |exact Hfr|exact Hfew|lia| |exact Hreq|by rewrite R7| |].
    + rewrite Hq. exact Htr.
    + rewrite Hwr. rewrite length_map in Hk. fold d in Hpend. lia.
    + unfold made_at_most in *. rewrite Hrd, R6, R7. fold d in Hc. lia.
  - exists None. split; [unfold bringing; by rewrite Hrd|]. cbn. rewrite He.
    assert (Hw1 : wordsToBuffer (d_track d1) = done_words d1) by lia.
    apply sg_write; try done; rewrite ?R1; try done.
    + lia.
    + unfold room, BUFFER_CAPACITY in Hroom. rewrite R7.
      destruct (Z.eq_dec (bufferIndex (d_track d)) 256) as [E256|]; [right|left; lia].
      rewrite E256, <- Z.add_mod_idemp_l, Hm by done. done.
    + destruct (decide (2 <= length bs)%nat) as [Htwo|Hless].
      * left. eapply push_all_queued; [exact Ep|by rewrite length_map].
      * right. rewrite R7. apply Hone. lia.
Qed.
End Transfer.
