(* ===== verification/DmaSteps.v ===== *)
(** Every call of the DMA controller keeps the invariant of a transfer, so a
    transfer goes on correctly in whatever order the framework makes the calls
    of the controller and of the data memory ([xstep]). *)
From S2P Require Import Prelude Machine DataStruct Memory Bus DataMemory Dma DmaCopy.
From S2P Require Import Device Network SocDevices SocDma SocAccess Transactions DmaLink.
Local Open Scope Z_scope.

Section Steps.
Context `{Framework} {PR : PipeRegister} {PL : PipeRegisterLaws PR} {PS : PipeRegisterSingle PR}.
Context (d0 : DMAController) (m0 : mem) (Hplan : plan d0 m0).
Implicit Types (d : DMAController) (xs : list tx) (v : xfer).

Abbreviation total := (totalWords (d_track d0)).
Abbreviation done_words d := (wordsTransferred (d_track d)).
Abbreviation pending d := (pendingBusWriteResponses (d_track d)).
Abbreviation carried := (carried d0 m0).
Abbreviation transferring := (transferring d0 m0).
Abbreviation stage := (stage d0 m0).

(** The invariant when the controller has the counter. *)
Definition running (lo : Z) v xs : Prop := transferring lo v xs /\ in_step v.

(** Its responses to register accesses stay where they are, or are sent. *)
Record kept_replies d d' : Prop := {
  kr_all : accepted (m_resp d') ++ resp_Q d' = accepted (m_resp d) ++ resp_Q d;
  kr_sent : accepted (m_resp d) `prefix_of` accepted (m_resp d');
}.

#[export] Instance kept_replies_preorder : PreOrder kept_replies.
Proof.
  split; [by split|]. intros d1 d2 d3 [A1 A2] [B1 B2]. split; [congruence|by etrans].
Qed.

Lemma kept_same d d' : m_resp d' = m_resp d -> resp_Q d' = resp_Q d -> kept_replies d d'.
Proof. intros E1 E2. split; by rewrite E1, ?E2. Qed.

Lemma ports_kept d d' : only_ports d d' -> kept_replies d d'.
Proof. intros []. by split. Qed.

(** ** What is left to do *)

(** Words to read and to write; how far the next of them is; packets, beats
    and events. *)
Definition words_to_go v : nat :=
  Z.to_nat (2 * total - wordsToBuffer (d_track (x_dma v)) - done_words (x_dma v)).
Definition distance v xs : nat :=
  (if done (d_regs (x_dma v)) then 0 else 2) - 2 * length (reads xs)
  - length (omap control (x_events v)).
Definition work v xs : nat :=
  mem_work (x_mem v) (x_sched v) xs
  + length (req_Q (x_dma v)) + length (resp_Q (x_dma v)) + length (x_events v).

Definition less (a b : xfer * list tx) : Prop :=
  (words_to_go a.1 < words_to_go b.1)%nat \/
  words_to_go a.1 = words_to_go b.1 /\
  ((distance a.1 a.2 < distance b.1 b.2)%nat \/
   distance a.1 a.2 = distance b.1 b.2 /\ (work a.1 a.2 < work b.1 b.2)%nat).

Lemma less_wf : well_founded less.
Proof.
  intros [v xs]. remember (words_to_go v) as n eqn:En. revert v xs En.
  induction n as [n IHn] using lt_wf_ind. intros v xs En. remember (distance v xs) as k eqn:Ek.
  revert v xs En Ek. induction k as [k IHk] using lt_wf_ind. intros v xs En Ek.
  remember (work v xs) as w eqn:Ew. revert v xs En Ek Ew.
  induction w as [w IHw] using lt_wf_ind. intros v xs -> -> ->. constructor. intros [v1 xs1] Hl.
  destruct Hl as [Hl|[El [Hl|[El2 Hl]]]]; cbn [fst snd] in *.
  - by eapply IHn.
  - by eapply (IHk (distance v1 xs1)).
  - by eapply (IHw (work v1 xs1)).
Qed.

Lemma stage_words d E F : totalWords (d_track d) = total -> stage d E F ->
  wordsToBuffer (d_track d) <= total /\ done_words d <= total.
Proof.
  intros Ht S. destruct S as [_ _ R|_ _ R|_ _ R| |]; try (split; lia).
  all: pose proof (reading_bounds _ R); pose proof (rd_count _ R); split; lia.
Qed.

(** Words are read or written. *)
Lemma words_less v xs lo v1 xs1 : transferring lo v1 xs1 ->
  wordsToBuffer (d_track (x_dma v)) + done_words (x_dma v)
    < wordsToBuffer (d_track (x_dma v1)) + done_words (x_dma v1) -> less (v1, xs1) (v, xs).
Proof.
  intros (T & F & _ & S) Hlt. pose proof (stage_words _ _ _ (sm_total _ _ (ca_tile _ _ _ _ _ T)) S).
  left. unfold words_to_go. cbn. lia.
Qed.

Lemma reads_snoc x xs : is_read x = true -> length (reads (xs ++ [x])) = S (length (reads xs)).
Proof. intros Hx. unfold reads. rewrite filter_app, filter_cons_True, length_app by done. cbn. lia. Qed.

(** Packets have moved, or events are gone. *)
Lemma ports_fewer d d' : only_ports d d' ->
  (length (req_Q d') <= length (req_Q d) /\ length (resp_Q d') <= length (resp_Q d))%nat.
Proof.
  intros [_ _ E1 P1 E2 P2]. apply (f_equal length) in E1, E2. rewrite !length_app in E1, E2.
  apply prefix_length in P1, P2. lia.
Qed.

Lemma ports_less v xs d' evs : only_ports (x_dma v) d' ->
  omap control evs = omap control (x_events v) -> (length evs < length (x_events v))%nat ->
  less (with_dma d' evs (x_resp v) (x_count v) v, xs) (v, xs).
Proof.
  intros O He Hl. pose proof (ports_fewer _ _ O). destruct (op_core _ _ O) as (E1 & E2 & E3).
  right. unfold words_to_go, distance, work. cbn. rewrite E1, E3, He. split; [done|]. right.
  split; [done|]. lia.
Qed.

(** ** Events *)

Lemma fire_running lo v xs e l1 l2 : running lo v xs -> x_events v = l1 ++ e :: l2 ->
  exists d1 k xs', outcome (dma_fire e.1 e.2) (x_dma v) = Ok (d1, [])
    /\ running lo (with_dma d1 (l1 ++ l2) (x_resp v) (x_count v + k) v) xs'
    /\ kept_replies (x_dma v) d1 /\ 0 <= k <= 256
    /\ less (with_dma d1 (l1 ++ l2) (x_resp v) (x_count v + k) v, xs') (v, xs).
Proof.
  intros [[T (F & HF & S)] Hc] He. set (v1 := with_dma (x_dma v) (l1 ++ l2) (x_resp v) (x_count v) v).
  assert (Hsub : forall e', e' ∈ l1 ++ l2 -> e' ∈ x_events v) by (rewrite He; set_solver).
  assert (T1 : carried lo v1 xs) by (by apply ports_carried; [..|apply only_ports_refl|]).
  assert (Hev : omap control (x_events v) ≡ₚ option_list (control e) ++ omap control (l1 ++ l2)).
  { rewrite He, <- Permutation_middle. cbn. by destruct (control e). }
  destruct e as [t [| |p|]]; cbn [dma_fire fst snd option_list control] in *.
  - destruct S as [EE -> R Rm Hh Hm Hp Hd|EE|EE|EE|EE]; rewrite EE in Hev;
      try (by apply Permutation_length in Hev); [|by apply Permutation_singleton_l in Hev].
    apply (Permutation_cons_inv (l := [])) in Hev. symmetry in Hev. apply Permutation_nil_r in Hev.
    destruct (start_read d0 m0 Hplan lo v1 xs 2) as (d1 & E & T2 & Hc2 & G1 & G2 & G3); try done.
    exists d1, 1, (xs ++ [RSent (next_burst (x_dma v))]). split; [exact E|]. split; [by split|].
    split; [by apply kept_same|]. split; [lia|]. right. cbn [fst snd]. unfold words_to_go, distance. cbn [x_dma with_dma].
    split; [by rewrite G3|]. left. rewrite (reads_snoc (RSent _)), HF, EE, Hd by done. cbn. destruct (done (d_regs d1)); lia.
  - destruct S as [EE|EE|EE -> R Rm Hh Hi Hm Hp Hd|EE|EE]; rewrite EE in Hev;
      try (by apply Permutation_length in Hev); [by apply Permutation_singleton_l in Hev|].
    apply (Permutation_cons_inv (l := [])) in Hev. symmetry in Hev. apply Permutation_nil_r in Hev.
    destruct (start_writes d0 m0 Hplan lo v1 xs 2) as (d1 & bs & E & T2 & Hc2 & Hl & G1 & G2 & G3 & G4); try done.
    exists d1, (Z.of_nat (length bs)), (xs ++ map WSent bs). split; [exact E|]. split; [by split|].
    split; [by apply kept_same|]. split; [lia|]. apply (words_less _ _ _ _ _ T2). cbn in *. lia.
  - exfalso. apply (ca_events _ _ _ _ _ T (t, EvReadMMIO p) p); [rewrite He; set_solver|done].
  - destruct (send_ports (x_dma v)) as (d1 & E & O). exists d1, 0, xs. unfold outcome. rewrite E.
    split; [done|]. split; [|split; [by apply ports_kept|split; [lia|]]].
    2: { rewrite Z.add_0_r. apply ports_less; [done|by rewrite He, !omap_app|]. rewrite He, !length_app. cbn. lia. }
    rewrite Z.add_0_r. split.
    + apply ports_transferring; [by split; [|exists F]|done|done|]. rewrite He, !omap_app. done.
    + unfold in_step. cbn. by rewrite (op_ctr _ _ O).
Qed.

(** ** Responses *)

(** A response has left the register of the memory. *)
Lemma delivered_carried lo v xs x xs1 d1 w : carried lo v xs -> xs ≡ₚ x :: xs1 ->
  mem_bag "dma" (transit v) (S (x_resp v)) (x_mem v) (x_sched v) xs1 ->
  read_todo x = [] -> write_todo x = [] ->
  m_req d1 = m_req (x_dma v) -> req_Q d1 = req_Q (x_dma v) -> same_tile d0 d1 ->
  done_words d1 = done_words (x_dma v) -> (forall e p, e ∈ w -> e.2 <> EvReadMMIO p) ->
  pending d1 <= Z.of_nat (length (writes xs1)) ->
  made_at_most (x_dma v) xs <= made_at_most d1 xs1 ->
  (x_resp v < length (accepted (dm_reg (x_mem v))))%nat ->
  carried lo (with_dma d1 (x_events v ++ w) (S (x_resp v)) (x_count v) v) xs1.
Proof.
  intros [T1 T2 T3 T4 T5 T6 T7 T9 T10 T11] Hx B Hr Hw E1 E2 Ht Hd He Hp Hm Hl.
  split; unfold transit in *; cbn; rewrite ?E1, ?E2; try done.
  - rewrite Hd. apply (copying_perm _ _ _ _ _ _ Hx) in T6. eapply copying_todo; [| |exact T6]; cbn.
    + intros b. by rewrite Hw.
    + intros b. by rewrite Hr.
  - intros e p [Hin|Hin]%elem_of_app; [by apply T7|by apply He].
  - eapply numbered_sub; [reflexivity| |exact T10]. intros t Ht1. rewrite Hx. cbn.
    destruct (tx_tid x); [by right|done].
  - lia.
Qed.

Lemma answered_counts x xs xs1 : xs ≡ₚ x :: xs1 ->
  length (reads xs) = ((if is_read x then 1 else 0) + length (reads xs1))%nat
  /\ length (writes xs) = ((if is_read x then 0 else 1) + length (writes xs1))%nat.
Proof.
  intros Hx. unfold reads, writes. rewrite Hx, !filter_cons. by destruct (is_read x).
Qed.

Lemma less_words v xs v1 xs1 : words_to_go v1 = words_to_go v -> distance v1 xs1 = distance v xs ->
  (work v1 xs1 < work v xs)%nat -> less (v1, xs1) (v, xs).
Proof. intros E1 E2 Hw. right. split; [done|]. right. by split. Qed.

Lemma work_delivered v xs x xs1 d1 w n r : xs ≡ₚ x :: xs1 -> (length w < tx_weight x)%nat ->
  req_Q d1 = req_Q (x_dma v) -> resp_Q d1 = resp_Q (x_dma v) ->
  (work (with_dma d1 (x_events v ++ w) r n v) xs1 < work v xs)%nat.
Proof.
  intros Hx Hw E1 E2. unfold work, mem_work. rewrite Hx. unfold weight. cbn. rewrite E1, E2, length_app. lia.
Qed.

(** A completion that is not the last. *)
Lemma stage_waits d E F : stage d E F -> pending d <> 1 ->
  stage (set_track (fun k => set_pendingW (pendingBusWriteResponses k - 1) k) d) E F.
Proof.
  intros SG Hp. set (d1 := set_track _ d).
  assert (A : active d -> active d1) by (intros []; by split).
  assert (R : reading d -> reading d1) by (intros [? ? ?]; split; auto).
  assert (Hh : holds m0 d -> holds m0 d1) by done.
  destruct SG as [| | |? ? ? ? ? ? Hw|];
    [eapply sg_fill|eapply sg_wait|eapply sg_drain|eapply sg_write|eapply sg_done]; auto; try (cbn; lia).
  cbn. destruct Hw as [?|?]; [left; lia|by right].
Qed.

Lemma bringing_write F x xs xs1 : xs ≡ₚ x :: xs1 -> is_read x = false -> bringing m0 F xs -> bringing m0 F xs1.
Proof.
  intros Hx Hr HF. apply (bringing_perm _ _ _ _ Hx) in HF. unfold bringing, reads in *.
  by rewrite filter_cons_False in HF by (by rewrite Hr).
Qed.

Lemma track_tile f d : same_tile d0 d -> totalWords (f (d_track d)) = totalWords (d_track d) ->
  same_tile d0 (set_track f d).
Proof. intros [? ? ? ?] Hf. split; cbn; congruence. Qed.

Lemma not_mmio (w : list (Z * dma_event)) : Forall (fun e => forall p, e.2 <> EvReadMMIO p) w ->
  forall e p, e ∈ w -> e.2 <> EvReadMMIO p.
Proof. rewrite Forall_forall. eauto. Qed.

(** The words that were asked for. *)
Lemma deliver_read lo v xs t got rest now : running lo v xs ->
  drop (x_resp v) (accepted (dm_reg (x_mem v))) = read_response t "dma" got :: rest ->
  forall xs1 k, xs ≡ₚ RAnswered t got :: xs1 -> pk_payloads k = got ->
  mem_bag "dma" (transit v) (S (x_resp v)) (x_mem v) (x_sched v) xs1 ->
  exists d1 w, outcome (handleReadResponse now k) (x_dma v) = Ok (d1, w)
    /\ running lo (with_dma d1 (x_events v ++ w) (S (x_resp v)) (x_count v) v) xs1
    /\ kept_replies (x_dma v) d1
    /\ less (with_dma d1 (x_events v ++ w) (S (x_resp v)) (x_count v) v, xs1) (v, xs).
Proof.
  intros [[T (F & HF & SG)] Hc] Hk xs1 k Hx Hgot B.
  assert (Hlt : (x_resp v < length (accepted (dm_reg (x_mem v))))%nat).
  { apply (f_equal length) in Hk. rewrite length_drop in Hk. cbn in Hk. lia. }
  pose proof (answered_counts _ _ _ Hx) as [Hreads Hwrites]. cbn in Hreads, Hwrites.
  pose proof (bringing_perm _ _ _ _ Hx HF) as HF'.
  destruct SG as [EE ->|EE -> R Rm Hh Hm Hp Hd|EE ->|EE ->|EE ->]; try done.
  destruct HF' as (y & Hy & Hf). unfold reads in Hy. rewrite filter_cons_True in Hy by done.
  injection Hy as <- Hnone. cbn in Hf. rewrite <- Hgot in Hf.
  destruct (any_response_ok m0 now (x_dma v) k R Rm Hh Hf)
    as (d2 & E & R2 & H2 & G1 & G2 & G3 & G4 & G5 & G6 & G7 & G8 & G9 & G10 & G11).
  pose proof (read_chunk_valid _ Rm) as [Hv _]. pose proof (reading_bounds _ R) as Hb.
  pose proof (rd_count _ R) as Hcnt. pose proof (rd_count _ R2) as Hcnt2.
  eexists d2, _. split; [exact E|]. set (w := [_]).
  set (v1 := with_dma d2 _ _ _ _). assert (TS : transferring lo v1 xs1).
  { split.
    - eapply (delivered_carried lo v xs); try done; [| |rewrite G6|].
      + destruct (ca_tile _ _ _ _ _ T). split; congruence.
      + apply not_mmio. unfold w. repeat constructor. by destruct (1 <=? room d2).
      + pose proof (ca_pending _ _ _ _ _ T). lia.
      + unfold made_at_most. lia.
    - exists None. split; [exact Hnone|]. unfold v1, w. cbn. rewrite omap_app, EE.
      destruct (Z.leb_spec 1 (room d2)); [apply sg_fill|apply sg_drain]; rewrite ?G1, ?G3, ?G6; done || lia. }
  split; [split; [done|unfold in_step; cbn; by rewrite G11]|]. split; [by apply kept_same|].
  apply (words_less _ _ _ _ _ TS). cbn. lia.
Qed.

(** The last completion of a write phase. *)
Lemma deliver_last lo v xs t got rest : running lo v xs ->
  drop (x_resp v) (accepted (dm_reg (x_mem v))) = write_response t "dma" got :: rest ->
  forall xs1, xs ≡ₚ WAnswered t got :: xs1 -> pending (x_dma v) = 1 ->
  mem_bag "dma" (transit v) (S (x_resp v)) (x_mem v) (x_sched v) xs1 ->
  exists d1 n xs', outcome handleWriteCompletion (x_dma v) = Ok (d1, [])
    /\ running lo (with_dma d1 (x_events v ++ []) (S (x_resp v)) (x_count v + n) v) xs'
    /\ kept_replies (x_dma v) d1 /\ 0 <= n <= 1
    /\ less (with_dma d1 (x_events v ++ []) (S (x_resp v)) (x_count v + n) v, xs') (v, xs).
Proof.
  intros [[T (F & HF & SG)] Hc] Hk xs1 Hx Hone B.
  assert (Hlt : (x_resp v < length (accepted (dm_reg (x_mem v))))%nat).
  { apply (f_equal length) in Hk. rewrite length_drop in Hk. cbn in Hk. lia. }
  pose proof (answered_counts _ _ _ Hx) as [Hreads Hwrites]. cbn in Hreads, Hwrites.
  pose proof (bringing_write _ _ _ _ Hx eq_refl HF) as HF'.
  destruct SG as [EE ->|EE ->|EE ->|EE -> A Ew Hle Hm Hp Hd|EE ->]; try lia.
  pose proof (sm_total _ _ (ca_tile _ _ _ _ _ T)) as Htot. pose proof (total_range _ _ Hplan) as Hrange.
  assert (Ad : active (drain (x_dma v))).
  { destruct A as [? ? ? Hi ?]. unfold BUFFER_CAPACITY in Hi. split; cbn; try done.
    apply length_cleared; [done|lia]. }
  assert (Tl : same_tile d0 (drain (x_dma v))) by (apply track_tile; [apply T|done]).
  rewrite last_completion by done. destruct (Z.leb_spec (totalWords (d_track (x_dma v))) (done_words (x_dma v))).
  - eexists _, 0, xs1. split; [reflexivity|]. rewrite Z.add_0_r. split_and!; try lia.
    + split; [split|done].
      * eapply (delivered_carried lo v xs); try done; cbn; [| |lia|].
        -- destruct Tl. by split.
        -- exact (not_mmio [] (Forall_nil_2 _)).
        -- unfold made_at_most. cbn. lia.
      * exists None. split; [done|]. cbn. rewrite app_nil_r. apply sg_done; try done; [|cbn; lia].
        destruct Ad. by split.
    + by apply kept_same.
    + right. split; [done|]. left. unfold distance. cbn. rewrite Hd, HF, EE. cbn. lia.
  - set (v1 := with_dma (drain (x_dma v)) (x_events v ++ []) (S (x_resp v)) (x_count v) v).
    assert (T1 : carried lo v1 xs1).
    { eapply (delivered_carried lo v xs); try done; cbn; [|lia|unfold made_at_most; cbn; lia].
      exact (not_mmio [] (Forall_nil_2 _)). }
    assert (Rd : reading (drain (x_dma v))) by (split; [done|cbn; lia..]).
    destruct (start_read d0 m0 Hplan lo v1 xs1 2) as (d1 & E & T2 & Hc2 & G1 & G2 & G3); try done.
    + unfold v1. cbn. by rewrite app_nil_r.
    + unfold room, BUFFER_CAPACITY. cbn. lia.
    + intros j. cbn. lia.
    + cbn. lia.
    + exists d1, 1, (xs1 ++ [RSent (next_burst (x_dma v1))]). split; [exact E|]. split; [by split|].
      split; [by apply kept_same|]. split; [lia|]. right. cbn [fst snd]. unfold words_to_go, distance.
      cbn [x_dma with_dma x_events]. split; [by rewrite G3|]. left.
      rewrite (reads_snoc (RSent _)), HF, Hd by done. rewrite EE. cbn. destruct (done (d_regs d1)); lia.
Qed.

Lemma deliver_running lo v xs k rest now delay : running lo v xs ->
  drop (x_resp v) (accepted (dm_reg (x_mem v))) = k :: rest ->
  exists d1 w n xs', outcome (Dma.step_packet now delay k) (x_dma v) = Ok (d1, w)
    /\ running lo (with_dma d1 (x_events v ++ w) (S (x_resp v)) (x_count v + n) v) xs'
    /\ kept_replies (x_dma v) d1 /\ 0 <= n <= 256
    /\ less (with_dma d1 (x_events v ++ w) (S (x_resp v)) (x_count v + n) v, xs') (v, xs).
Proof.
  intros [[T (F & HF & SG)] Hc] Hk.
  assert (Hlt : (x_resp v < length (accepted (dm_reg (x_mem v))))%nat).
  { apply (f_equal length) in Hk. rewrite length_drop in Hk. cbn in Hk. lia. }
  destruct (bag_deliver "dma" _ _ _ _ _ k (rest ++ dm_respQ (x_mem v)) (ca_bag _ _ _ _ _ T))
    as (x & xs1 & Hx & Hxk & B); [by rewrite Hk|].
  replace rest with (drop (S (x_resp v)) (accepted (dm_reg (x_mem v)))) in B
    by (rewrite <- Nat.add_1_r, <- drop_drop, Hk; done).
  pose proof (answered_counts _ _ _ Hx) as [Hreads Hwrites]. pose proof (sm_total _ _ (ca_tile _ _ _ _ _ T)) as Htot.
  pose proof (stage_words _ _ _ Htot SG) as [Hw1 Hw2]. pose proof (ca_pending _ _ _ _ _ T) as Hpw.
  destruct x as [| |t got| | |t got]; try done; injection Hxk as <-; cbn [Dma.step_packet is_read read_response write_response] in *.
  - destruct (deliver_read lo v xs t got rest now) with (xs1 := xs1)
      (k := XBarPacket t (Z.log2_up (Z.of_nat (length got))) (burst_size (Z.log2_up (Z.of_nat (length got)))) got
              (getIndex "dm") (getIndex "dma")) as (d1 & w & E & R & G & L); try done; [by split; [split; [|exists F]|]|].
    exists d1, w, 0, xs1. rewrite Z.add_0_r. by split_and!.
  - destruct (decide (pending (x_dma v) = 1)) as [Hone|Hne].
    + destruct (deliver_last lo v xs t got rest) with (xs1 := xs1) as (d1 & n & xs' & E & R & G & Hn & L); try done;
        [by split; [split; [|exists F]|]|].
      exists d1, [], n, xs'. split_and!; try done; lia.
    + rewrite completion_waits by done.
      eexists _, [], 0, xs1. split; [reflexivity|]. rewrite Z.add_0_r. split_and!; try lia.
      * split; [split|done].
        -- eapply delivered_carried; try done; cbn; [by apply track_tile; [apply T|]|exact (not_mmio [] (Forall_nil_2 _))|lia|].
           unfold made_at_most. cbn. lia.
        -- exists F. split; [by eapply bringing_write|]. cbn. rewrite app_nil_r. by apply stage_waits.
      * by apply kept_same.
      * apply less_words; [done|unfold distance; cbn; rewrite app_nil_r; lia|].
        by eapply work_delivered; [exact Hx|cbn; lia|..].
Qed.

Lemma less_trans a b c : less a b -> less b c -> less a c.
Proof.
  unfold less. intros [H1|[E1 [H1|[F1 H1]]]] [H2|[E2 [H2|[F2 H2]]]]; first [left; lia|right; split; [congruence|]];
    first [left; lia|right; split; [congruence|lia]].
Qed.

Lemma deliver_all ks : forall lo v xs now delay, running lo v xs ->
  ks `prefix_of` drop (x_resp v) (accepted (dm_reg (x_mem v))) ->
  exists d1 w n xs', outcome (foreach ks (Dma.step_packet now delay)) (x_dma v) = Ok (d1, w)
    /\ running lo (with_dma d1 (x_events v ++ w) (x_resp v + length ks) (x_count v + n) v) xs'
    /\ kept_replies (x_dma v) d1 /\ 0 <= n <= 256 * Z.of_nat (length ks)
    /\ (ks = [] /\ n = 0 /\ xs' = xs \/
        less (with_dma d1 (x_events v ++ w) (x_resp v + length ks) (x_count v + n) v, xs') (v, xs)).
Proof.
  induction ks as [|k ks IH]; intros lo v xs now delay R Hp.
  - exists (x_dma v), [], 0, xs. split; [done|]. split_and!; try lia; [|done|by left].
    rewrite app_nil_r, Z.add_0_r, Nat.add_0_r. by destruct v.
  - destruct Hp as [rest Hp]. cbn [app] in Hp.
    destruct (deliver_running lo v xs k (ks ++ rest) now delay R Hp) as (d1 & w1 & n1 & xs1 & E1 & R1 & G1 & N1 & L1).
    destruct (IH lo _ xs1 now delay R1) as (d2 & w2 & n2 & xs2 & E2 & R2 & G2 & N2 & L2).
    { cbn. exists rest. rewrite <- Nat.add_1_r, <- drop_drop, Hp. done. }
    cbn [with_dma x_dma x_events x_resp x_count x_mem] in *.
    assert (Hv : with_dma d2 (x_events v ++ w1 ++ w2) (x_resp v + length (k :: ks)) (x_count v + (n1 + n2)) v
      = with_dma d2 ((x_events v ++ w1) ++ w2) (S (x_resp v) + length ks) (x_count v + n1 + n2)
          (with_dma d1 (x_events v ++ w1) (S (x_resp v)) (x_count v + n1) v)).
    { unfold with_dma. cbn. f_equal; [by rewrite app_assoc|lia|lia]. }
    exists d2, (w1 ++ w2), (n1 + n2), xs2. split; [|rewrite Hv; split_and!].
    + cbn [foreach]. unfold outcome in *. rewrite (outcome_bind _ _ _ _ _ E1).
      destruct (foreach _ _ _) as [[[[] d3] w3]|]; [|done]. by injection E2 as -> ->.
    + done.
    + by etrans.
    + lia.
    + cbn [length]. lia.
    + right. destruct L2 as [(-> & -> & ->)|L2]; [|by eapply less_trans].
      injection E2 as <- <-. rewrite app_nil_r, Z.add_0_r, Nat.add_0_r. exact L1.
Qed.

(** ** Calls *)

(** What the framework may call of the controller: [ks] have come from the
    memory. *)
Inductive dma_offers v : call (Z * dma_event) -> list (Z * dma_event) -> nat -> Prop :=
  | dma_retry now : dma_offers v (CRetry now) (x_events v) (x_resp v)
  | dma_fires now delay e l1 l2 : x_events v = l1 ++ e :: l2 ->
      dma_offers v (CFire now delay e) (l1 ++ l2) (x_resp v)
  | dma_steps now delay ks : ks `prefix_of` drop (x_resp v) (accepted (dm_reg (x_mem v))) ->
      (length ks <= slave_ports)%nat ->
      dma_offers v (CStep now delay ks) (x_events v) (x_resp v + length ks).

(** The controller is handed the counter. *)
Definition synced v : xfer :=
  with_dma (Dma.set_req (req_Q (x_dma v)) (m_req (x_dma v)) (s32 (x_count v)) (x_dma v))
    (x_events v) (x_resp v) (x_count v) v.

Lemma synced_running lo v xs : transferring lo v xs -> running lo (synced v) xs.
Proof.
  intros [[T1 T2 T3 T4 T5 T6 T7 T9 T10 T11] (F & HF & SG)]. split; [split|done].
  - split; try done. by eapply same_tile_core; [|exact T1].
  - exists F. split; [done|]. by eapply stage_core; [|exact SG].
Qed.

Lemma kept_synced v d1 : kept_replies (x_dma (synced v)) d1 -> kept_replies (x_dma v) d1.
Proof. intros []. by split. Qed.

Lemma send_running lo v xs : running lo v xs ->
  exists d1, trySendPacket (x_dma v) = Ok (tt, d1, []) /\ only_ports (x_dma v) d1
    /\ running lo (with_dma d1 (x_events v) (x_resp v) (x_count v) v) xs.
Proof.
  intros [T Hc]. destruct (send_ports (x_dma v)) as (d1 & E & O). exists d1. split; [done|]. split; [done|].
  split; [by apply ports_transferring|]. unfold in_step. cbn. by rewrite (op_ctr _ _ O).
Qed.

Lemma less_moved v xs d1 c : only_ports (x_dma v) d1 ->
  less c (with_dma d1 (x_events v) (x_resp v) (x_count v) v, xs) -> less c (v, xs).
Proof.
  intros O. pose proof (ports_fewer _ _ O). destruct (op_core _ _ O) as (E1 & E2 & E3).
  unfold less, words_to_go, distance, work. cbn. rewrite E1, E3. lia.
Qed.

(** A step first sends what waits. *)
Lemma send_when lo v xs : running lo v xs ->
  exists d1, when (negb (bool_decide (req_Q (x_dma v) = [])) || negb (bool_decide (resp_Q (x_dma v) = [])))
      trySendPacket (x_dma v) = Ok (tt, d1, []) /\ only_ports (x_dma v) d1
    /\ running lo (with_dma d1 (x_events v) (x_resp v) (x_count v) v) xs.
Proof.
  intros R. destruct (_ || _); [by apply send_running|]. exists (x_dma v). split; [done|].
  split; [apply only_ports_refl|]. by destruct v.
Qed.

(** Every call succeeds, and the invariant holds afterwards. *)
Lemma call_running lo v xs c pend resp : transferring lo v xs -> dma_offers v c pend resp ->
  exists d1 es n xs', dma_run (s32 (x_count v)) c (x_dma v) = Ok (d1, es, s32 (x_count v + n))
    /\ transferring lo (with_dma d1 (pend ++ es) resp (x_count v + n) v) xs'
    /\ kept_replies (x_dma v) d1 /\ 0 <= n < 2 ^ 32
    /\ (gainful c -> less (with_dma d1 (pend ++ es) resp (x_count v + n) v, xs') (v, xs)).
Proof.
  intros T%synced_running Hc. destruct Hc as [now|now delay e l1 l2 He|now delay ks Hks Hl]; unfold dma_run.
  - destruct (send_running _ _ _ T) as (d1 & E & O & T1 & C1). exists d1, [], 0, xs.
    unfold masterPortRetry, outcome. cbn [synced with_dma x_dma] in E. rewrite E. rewrite app_nil_r, !Z.add_0_r.
    split_and!; try done; [cbn; by rewrite C1|by apply kept_synced, ports_kept].
  - destruct (fire_running lo (synced v) xs e l1 l2 T He) as (d1 & k & xs1 & E & [T1 C1] & G & Hk & L).
    exists d1, [], k, xs1. cbn [synced with_dma x_dma] in E. rewrite E. rewrite app_nil_r.
    split_and!; try done; [by cbn; rewrite C1|by apply kept_synced|lia|lia].
  - destruct (send_when _ _ _ T) as (d1 & E & O & T1). cbn [synced with_dma x_dma] in E.
    destruct (deliver_all ks lo _ xs now delay T1) as (d2 & w & n & xs' & E2 & [T2 C2] & G & Hn & L); [done|].
    exists d2, w, n, xs'. split_and!; [|done|apply kept_synced; by etrans; [apply (ports_kept _ _ O)|]|lia|unfold slave_ports in Hl; lia|].
    + unfold Dma.step, outcome. erewrite M_bind_silent by reflexivity. erewrite M_bind_silent by exact E.
      unfold outcome in E2. destruct (foreach _ _ _) as [[[[] d3] w3]|]; [|done]. injection E2 as -> ->.
      cbn. by rewrite C2.
    + intros Hne. destruct L as [(-> & _)|L]; [done|].
      apply (less_moved (synced v) xs d1) in L; [exact L|exact O].
Qed.

(** * What the framework may do *)

Definition with_mem (m : DataMemory) (evs : list (Z * dm_event)) (req : nat) v : xfer :=
  Xfer (x_dma v) (x_events v) m evs req (x_resp v) (x_count v).

(** A call of the controller or of the memory, or a register that is drained
    or stalled. *)
Inductive xstep v : xfer -> Prop :=
  | x_call_dma c pend resp d1 es ctr : dma_offers v c pend resp ->
      dma_run (s32 (x_count v)) c (x_dma v) = Ok (d1, es, ctr) ->
      xstep v (with_dma d1 (pend ++ es) resp (x_count v + uint 32 (ctr - s32 (x_count v))) v)
  | x_ports_dma d1 : bd_ports (x_dma v) d1 -> xstep v (with_dma d1 (x_events v) (x_resp v) (x_count v) v)
  | x_call_mem c pend ks m1 es : mem_call (x_sched v) c pend ks ->
      ks `prefix_of` drop (x_req v) (accepted (m_req (x_dma v))) -> (length ks <= slave_ports)%nat ->
      dm_run (s32 (x_count v)) c (x_mem v) = Ok (m1, es, s32 (x_count v)) ->
      xstep v (with_mem m1 (pend ++ es) (x_req v + length ks) v)
  | x_ports_mem m1 : bd_ports (x_mem v) m1 -> xstep v (with_mem m1 (x_sched v) (x_req v) v).

Lemma drained_ports d d1 : bd_ports d d1 -> only_ports d d1.
Proof. intros (r1 & r2 & E1 & E2 & ->). split; cbn; by rewrite ?E1, ?E2. Qed.

Lemma drained_transferring lo v xs m1 : transferring lo v xs -> bd_ports (x_mem v) m1 ->
  transferring lo (with_mem m1 (x_sched v) (x_req v) v) xs.
Proof.
  intros [[T1 T2 T3 T4 T5 T6 T7 T9 T10 T11] SG] (r & Hr & ->). split; [|exact SG].
  split; try done; cbn; [|by rewrite Hr]. unfold mem_bag in *. cbn. by rewrite Hr.
Qed.

(** Whatever happens, the invariant is kept. *)
Lemma xstep_transferring lo v xs v' : transferring lo v xs -> xstep v v' ->
  exists xs', transferring lo v' xs' /\ kept_replies (x_dma v) (x_dma v').
Proof.
  intros T Hst. destruct Hst as [c pend resp d1 es ctr Ho E|d1 Hp|c pend ks m1 es Hc Hks _ E|m1 Hp].
  - destruct (call_running _ _ _ _ _ _ T Ho) as (d2 & es2 & n & xs' & E2 & T2 & G & Hn & _).
    rewrite E in E2. injection E2 as -> -> ->. rewrite count_made by done. by exists xs'.
  - exists xs. pose proof (drained_ports _ _ Hp) as O. split; [by apply ports_transferring|by apply ports_kept].
  - destruct (mem_transferring d0 m0 Hplan lo v xs c pend ks _ m1 es _ T Hc Hks E) as (xs' & T' & _).
    exists xs'. split; [exact T'|]. done.
  - exists xs. split; [by apply drained_transferring|done].
Qed.

(** * The end *)

(** Nothing is on its way. *)
Record quiet v : Prop := {
  qt_events : x_events v = [];
  qt_sched : x_sched v = [];
  qt_transit : transit v = [];
  qt_replies : drop (x_resp v) (accepted (dm_reg (x_mem v))) ++ dm_respQ (x_mem v) = [];
}.

Lemma quiet_bag T E P U xs : bag "dma" T E P U xs -> T = [] -> E = [] -> U = [] -> xs = [].
Proof.
  intros [B1 B2 _ B4 _ B6] -> -> ->. destruct xs as [|x xs]; [done|exfalso].
  apply Forall_cons in B6 as [Hw _]. cbn in *.
  destruct x as [p|t todo got|t got|p|t todo got|t got]; cbn in *;
    try (by apply Permutation_length in B1); try (by apply Permutation_length in B4);
    destruct Hw as [Hne _]; destruct todo; try done; by apply Permutation_length in B2.
Qed.

(** The transfer is over: every word has been copied, nothing else of memory
    has changed, and the controller says so, unless the last write phase had
    only one burst. *)
Lemma quiet_copied lo v xs : transferring lo v xs -> quiet v ->
  (forall j, 0 <= j < total -> load (dm_mem (x_mem v)) LW (dst_word d0 j) = Ok (word d0 m0 j))
  /\ (forall a, 0 <= a -> (forall j, 0 <= j < total -> disjoint_words a (dst_word d0 j)) ->
      load (dm_mem (x_mem v)) LW a = load m0 LW a)
  /\ (done (d_regs (x_dma v)) = true \/ single_burst d0).
Proof.
  intros [T (F & HF & SG)] [Q1 Q2 Q3 Q4].
  assert (xs = []) as -> by (by eapply quiet_bag; [exact (ca_bag _ _ _ _ _ T)|..]).
  pose proof (sm_total _ _ (ca_tile _ _ _ _ _ T)) as Htot. pose proof (ca_pending _ _ _ _ _ T) as Hp. cbn in Hp.
  rewrite Q1 in SG. cbn in SG.
  assert (done_words (x_dma v) = total /\ (done (d_regs (x_dma v)) = true \/ single_burst d0)) as [Hw Hd].
  { destruct SG as [? ->|? ->|? ->|? -> ? ? ? ? Hw|]; try done; [by destruct HF as (x & ? & _)| |by auto].
    destruct Hw as [?|[? ?]]; [lia|by auto]. }
  destruct (ca_copying _ _ _ _ _ T) as [C1 C2 C3 C4 _ _]. rewrite Hw in *.
  split; [|by split]. intros j Hj. destruct (C4 j Hj) as [?|(_ & b & Hb & _)]; [done|].
  by apply elem_of_nil in Hb.
Qed.

(** A memory that has nothing to do. *)
Lemma idle_memory v c pend k m1 es k' : x_sched v = [] -> dm_respQ (x_mem v) = [] ->
  mem_call (x_sched v) c pend [] -> dm_run k c (x_mem v) = Ok (m1, es, k') ->
  m1 = x_mem v /\ pend ++ es = [].
Proof.
  intros Hs Hq Hc ([d1 w] & Ed & [= <- <- <-])%bind_ok.
  assert (Hsend : trySendResponse (x_mem v) = Ok (tt, x_mem v, [])).
  { unfold trySendResponse. step_monad. by rewrite Hq. }
  inversion Hc as [t|t delay e l1 l2 He|t delay ks]; subst.
  - unfold outcome, DataMemory.masterPortRetry in Ed. rewrite Hsend in Ed. injection Ed as <- <-. by rewrite Hs.
  - rewrite Hs in He. by destruct l1.
  - unfold DataMemory.step, outcome in Ed. erewrite M_bind_silent in Ed by reflexivity. rewrite Hq in Ed. cbn in Ed.
    injection Ed as <- <-. by rewrite Hs.
Qed.

(** What is over stays over. *)
Lemma quiet_ports v d1 evs : quiet v -> only_ports (x_dma v) d1 -> evs = [] ->
  forall n, quiet (with_dma d1 evs (x_resp v) n v).
Proof.
  intros [Q1 Q2 Q3 Q4] O -> n. apply app_eq_nil in Q3 as [Q3 Q5]. pose proof (ports_fewer _ _ O) as [Hf _].
  rewrite Q5 in Hf. destruct (req_Q d1) eqn:Eq; [|cbn in Hf; lia].
  pose proof (op_req _ _ O) as Hr. rewrite Eq, Q5, !app_nil_r in Hr.
  split; try done. unfold transit. cbn. by rewrite Hr, Q3, Eq.
Qed.

Lemma quiet_xstep v v' : quiet v -> xstep v v' -> quiet v'.
Proof.
  intros Q Hst. pose proof Q as [Q1 Q2 Q3 Q4]. apply app_eq_nil in Q3 as [Q3 Q5]. apply app_eq_nil in Q4 as [Q4 Q6].
  destruct Hst as [c pend resp d1 es ctr Ho E|d1 Hp|c pend ks m1 es Hc Hks _ E|m1 (r & Hr & ->)].
  - apply bind_ok in E as ([d2 w] & E & [= -> -> <-]).
    destruct (send_ports (x_dma (synced v))) as (d2 & E2 & O2). cbn [synced with_dma x_dma] in E2.
    assert (O : resp = x_resp v /\ pend = [] /\ es = [] /\ only_ports (x_dma (synced v)) d1).
    { destruct Ho as [now|now delay e l1 l2 He|now delay ks Hks Hl].
      - unfold outcome, masterPortRetry in E. rewrite E2 in E. by injection E as <- <-.
      - rewrite Q1 in He. by destruct l1.
      - rewrite Q4 in Hks. destruct ks; [|by destruct Hks]. unfold Dma.step, outcome in E.
        erewrite M_bind_silent in E by reflexivity. rewrite Nat.add_0_r. destruct (_ || _); cbn [when] in E.
        + erewrite M_bind_silent in E by exact E2. by injection E as <- <-.
        + injection E as <- <-. by split_and!. }
    destruct O as (-> & -> & -> & O).
    assert (Qs : quiet (synced v)) by (destruct Q; by split). exact (quiet_ports (synced v) d1 _ Qs O eq_refl _).
  - apply quiet_ports; [done|by apply drained_ports|done].
  - rewrite Q3 in Hks. destruct ks; [|by destruct Hks]. destruct (idle_memory v c pend _ m1 es _ Q2 Q6 Hc E) as [-> ->].
    split; try done; unfold transit; cbn; rewrite ?Nat.add_0_r, ?Q3, ?Q4; done.
  - split; try done; unfold transit; cbn; rewrite ?Hr, ?Q3, ?Q4; done.
Qed.
End Steps.
