(* ===== verification/DmaStart.v ===== *)
(** How a transfer is started: the writes to the registers of the controller
    that describe it, and the one to ENABLE that starts its first round. *)
From S2P Require Import Prelude Machine DataStruct Memory Bus DataMemory Dma DmaCopy.
From S2P Require Import Device Network SocDevices SocDma SocAccess Transactions DmaLink DmaSteps.
Local Open Scope Z_scope.

(** * The writes *)

(** A register write of the processor, addressed to the controller. *)
Definition posts (q : packet) (w : XBarMemWriteReqPayload) : Prop :=
  wq_caller w = "cpu"%string /\
  exists p, q = WriteReq p /\ pk_payloads p = [w] /\ pk_burstSize p = 1 /\ pk_dst p = 1%nat.

(** What it does to the registers; one that starts a transfer. *)
Definition setting (w : XBarMemWriteReqPayload) : option (dma_regs -> dma_regs) :=
  let addr := Z.land (wq_addr w) 0x3F in
  if addr =? 0x4 then Some (set_srcAddr (wq_data w))
  else if addr =? 0x8 then Some (set_dstAddr (wq_data w))
  else if addr =? 0xC then Some (set_sizeCfg (wq_data w))
  else None.
Definition starting (w : XBarMemWriteReqPayload) : bool :=
  (Z.land (wq_addr w) 0x3F =? 0x0) && Z.odd (wq_data w).

(** The writes [ws] describe a transfer, whose registers are the result, and
    the last of them starts it. *)
Fixpoint programs (r : dma_regs) (ws : list XBarMemWriteReqPayload) : option dma_regs :=
  match ws with
  | [] => None
  | [w] => if starting w then Some r else None
  | w :: ws => match setting w with Some f => programs (f r) ws | None => None end
  end.

(** ** The tile that the registers describe *)

Definition tile_geometry (r : dma_regs) : dma_geometry := decode_geometry (dmaSizeCfg r).
Definition in_tile (r : dma_regs) (row col : Z) : Prop :=
  0 <= row < true_height (tile_geometry r) /\ 0 <= col < words_per_row (tile_geometry r).
Definition tile_src (r : dma_regs) (row col : Z) : Z :=
  srcAddr r + row * Source_stride (tile_geometry r) + 4 * col.
Definition tile_dst (r : dma_regs) (row col : Z) : Z :=
  dstAddr r + row * Dest_stride (tile_geometry r) + 4 * col.

(** Source and destination lie apart in the data memory, and so do the rows of
    the destination. *)
Record good_tile (r : dma_regs) (m : mem) : Prop := {
  gt_wf : wf_mem m;
  gt_size : getSize m <= 2 ^ 32;
  gt_src : fits (srcAddr r) (Source_stride (tile_geometry r)) (tile_geometry r) (getSize m);
  gt_dst : fits (dstAddr r) (Dest_stride (tile_geometry r)) (tile_geometry r) (getSize m);
  gt_rows : rows_apart (Dest_stride (tile_geometry r)) (tile_geometry r);
  gt_separate : forall row col row' col', in_tile r row col -> in_tile r row' col' ->
    disjoint_words (tile_src r row col) (tile_dst r row' col');
  gt_routed : forall row col, in_tile r row col ->
    slaveIndex (tile_src r row col) = 0%nat /\ slaveIndex (tile_dst r row col) = 0%nat;
}.

(** A response to the processor. *)
Definition to_cpu (k : packet) : Prop := exists p, k = WriteResp p /\ pk_dst p = 0%nat.

Section Start.
Context `{Framework} {PR : PipeRegister} {PL : PipeRegisterLaws PR} {PS : PipeRegisterSingle PR}.
Implicit Types (d : DMAController) (v : xfer).

(** A response is queued. *)
Definition owe (k : packet) d : DMAController := set_resp (resp_Q d ++ [k]) (m_resp d) d.

Definition ack (w : XBarMemWriteReqPayload) : packet :=
  WriteResp (XBarPacket indet_int (Z.log2_up 1) (burst_size (Z.log2_up 1))
    [WriteRespPayload (wq_tid w) (wq_i w)] (getIndex "dma") (getIndex "cpu")).

Lemma ack_to_cpu w : to_cpu (ack w).
Proof. by eexists. Qed.

Lemma answer_write (m : M DMAController (Z * dma_event) unit) w d d1 : wq_caller w = "cpu"%string ->
  outcome m d = Ok (d1, []) ->
  outcome (m;;
    let respPkt := WriteRespPayload (wq_tid w) (wq_i w) in
    respPtr ← lift (Construct_MemWriteRespPkt [respPkt] "dma" (wq_caller w));
    lift (check (programmed_by (wq_caller w))
      (AssertFailed "Should only be programmed by Systolic array or CPU"));;
    modify (fun d => set_resp (resp_Q d ++ [WriteResp respPtr]) (m_resp d) d)) d = Ok (owe (ack w) d1, []).
Proof.
  intros Hc E. unfold outcome at 1. rewrite (outcome_bind _ _ _ _ _ E), Hc. cbv zeta.
  rewrite Construct_MemWriteRespPkt_ok by done. by step_monad.
Qed.

Lemma posted_step q w now delay d d1 : posts q w -> outcome (Dma.writeMMIO w) d = Ok (d1, []) ->
  outcome (Dma.step_packet now delay q) d = Ok (d1, [(now + 1 + delay, EvTrySendPacket)]).
Proof.
  intros [_ (p & -> & Hp & Hs & _)] E. cbn [Dma.step_packet]. unfold single_beat. rewrite Hp, Hs. cbn.
  unfold outcome. do 2 (erewrite M_bind_silent by reflexivity).
  rewrite (outcome_bind _ _ _ _ _ E). by step_monad.
Qed.

(** A register is set. *)
Lemma setting_step q w f now delay d : posts q w -> setting w = Some f ->
  outcome (Dma.step_packet now delay q) d =
    Ok (owe (ack w) (set_regs f d), [(now + 1 + delay, EvTrySendPacket)]).
Proof.
  intros Hq Hf. eapply posted_step; [exact Hq|]. unfold Dma.writeMMIO. apply answer_write; [apply Hq|].
  unfold setting in Hf. destruct (Z.eqb_spec (Z.land (wq_addr w) 0x3F) 0x0) as [E0|_]; [by rewrite E0 in Hf|].
  repeat (case_match; [by injection Hf as <-|]). done.
Qed.

(** The transfer starts: [d1] is the controller about to read. *)
Lemma starting_step q w now delay d : posts q w -> starting w = true ->
  length (bufferMemory (d_track d)) = 256%nat ->
  let g := decode_geometry (dmaSizeCfg (d_regs d)) in
  exists d1, round_start d1 /\ d_regs d1 = set_done false (set_enabled true (d_regs d)) /\ d_geo d1 = g
    /\ wordsTransferred (d_track d1) = 0 /\ totalWords (d_track d1) = geometry_words g
    /\ m_req d1 = m_req d /\ req_Q d1 = req_Q d /\ m_resp d1 = m_resp d /\ resp_Q d1 = resp_Q d
    /\ d_ctr d1 = d_ctr d
    /\ pendingBusWriteResponses (d_track d1) = pendingBusWriteResponses (d_track d)
    /\ forall d2, outcome scheduleReadsForBuffer d1 = Ok (d2, []) ->
       outcome (Dma.step_packet now delay q) d = Ok (owe (ack w) d2, [(now + 1 + delay, EvTrySendPacket)]).
Proof.
  intros Hq [Ha Hodd]%andb_true_iff Hb g. destruct (enable_starts d Hb)
    as (d1 & Hs & E1 & E2 & E3 & E4 & Es & E5 & E6 & E7 & E8 & E9 & E10).
  exists d1. split_and!; try done. intros d2 E. eapply posted_step; [exact Hq|]. unfold Dma.writeMMIO.
  apply answer_write; [apply Hq|]. rewrite Ha, Hodd. cbn [when]. by rewrite Es.
Qed.

(** ** The first read burst *)

(** Nothing of an earlier transfer is on its way. *)
Record idle (m : mem) v : Prop := {
  id_buffer : length (bufferMemory (d_track (x_dma v))) = 256%nat;
  id_pending : pendingBusWriteResponses (d_track (x_dma v)) <= 0;
  id_events : Forall (fun e => e.2 = EvTrySendPacket) (x_events v);
  id_req : x_req v = length (accepted (m_req (x_dma v)));
  id_queue : req_Q (x_dma v) = [];
  id_mem : dm_mem (x_mem v) = m;
  id_trackers : dm_pending (x_mem v) = ∅;
  id_sched : x_sched v = [];
  id_resp : x_resp v = length (accepted (dm_reg (x_mem v)));
  id_respQ : dm_respQ (x_mem v) = [];
}.

Lemma idle_transit m v : idle m v -> transit v = [].
Proof. intros I. unfold transit. by rewrite (id_req _ _ I), drop_all, (id_queue _ _ I). Qed.

Lemma only_sends (E : list (Z * dma_event)) : Forall (fun e => e.2 = EvTrySendPacket) E ->
  omap control E = [] /\ forall e p, e ∈ E -> e.2 <> EvReadMMIO p.
Proof.
  rewrite Forall_forall. intros HE. split.
  - induction E as [|[t e] E IH]; [done|]. pose proof (HE (t, e) (list_elem_of_here _ _)) as He.
    cbn in He. subst e. apply IH. intros e' He'. apply HE. by right.
  - intros e p He. by rewrite (HE e He).
Qed.

Lemma idle_carried v m d1 : idle m v -> plan d1 m -> x_dma v = d1 ->
  carried d1 m (x_count v) v [].
Proof.
  intros I Hp E. pose proof (idle_transit _ _ I) as Ht. destruct (only_sends _ (id_events _ _ I)) as [_ He].
  pose proof (pl_start _ _ Hp) as Hs. pose proof (rd_count _ (rs_reading _ Hs)) as Hc. rewrite (rs_empty _ Hs) in Hc.
  split; rewrite ?Ht; try done.
  - by rewrite E.
  - split; rewrite ?Ht, ?(id_sched _ _ I), ?(id_trackers _ _ I), ?(id_resp _ _ I), ?(id_respQ _ _ I), ?drop_all; try done.
    constructor.
  - by rewrite (id_req _ _ I).
  - by rewrite (id_resp _ _ I).
  - rewrite (id_mem _ _ I), E, (pl_first _ _ Hp). split; try done; [apply Hp|lia|..]; by intros b ?%elem_of_nil.
  - by apply (id_pending _ _ I).
  - constructor.
  - unfold made_at_most. rewrite E, Hc, (pl_first _ _ Hp). cbn. lia.
Qed.

Lemma start_transfer v m d1 : idle m v -> plan d1 m -> x_dma v = d1 -> in_step v ->
  exists d2 xs, outcome scheduleReadsForBuffer d1 = Ok (d2, [])
    /\ running d1 m (x_count v) (with_dma d2 (x_events v) (x_resp v) (x_count v + 1) v) xs
    /\ m_resp d2 = m_resp d1 /\ resp_Q d2 = resp_Q d1.
Proof.
  intros I Hp E Hc. pose proof (pl_start _ _ Hp) as Hs. destruct (only_sends _ (id_events _ _ I)) as [He _].
  destruct (round_room _ Hs) as (_ & Hroom & Hh).
  destruct (start_read d1 m Hp (x_count v) v [] 2) as (d2 & E2 & T & Hc2 & G1 & G2 & _); rewrite ?E; try done.
  - by apply idle_carried.
  - by apply Hs.
  - by rewrite (pl_first _ _ Hp).
  - rewrite <- E. apply (id_pending _ _ I).
  - apply Hp.
  - rewrite E in *. eexists d2, _. split; [exact E2|]. split; [by split|done].
Qed.

(** The response and its event come on top. *)
Lemma owe_running d0 m lo v xs k t : running d0 m lo v xs ->
  running d0 m lo (with_dma (owe k (x_dma v)) (x_events v ++ [(t, EvTrySendPacket)]) (x_resp v) (x_count v) v) xs.
Proof.
  intros [[[T1 T2 T3 T4 T5 T6 T7 T9 T10 T11] (F & HF & SG)] Hc]. split; [split|done].
  - split; try done; [by eapply same_tile_core; [|exact T1]|]. cbn. intros e p [?|?]%elem_of_app; [by apply T7|].
    set_solver.
  - exists F. split; [done|]. cbn. rewrite omap_app, app_nil_r. by eapply stage_core; [|exact SG].
Qed.

(** ** The plan of a transfer *)

(** The controller that the registers [r] have started. *)
Record started (r : dma_regs) d : Prop := {
  sd_start : round_start d;
  sd_regs : d_regs d = set_done false (set_enabled true r);
  sd_geo : d_geo d = tile_geometry r;
  sd_first : wordsTransferred (d_track d) = 0;
  sd_total : totalWords (d_track d) = geometry_words (tile_geometry r);
}.

Lemma tile_words r m d : good_tile r m -> started r d ->
  (forall j, 0 <= j < totalWords (d_track d) -> exists row col, in_tile r row col
     /\ src_word d j = tile_src r row col /\ dst_word d j = tile_dst r row col)
  /\ forall row col, in_tile r row col -> exists j, 0 <= j < totalWords (d_track d)
     /\ src_word d j = tile_src r row col /\ dst_word d j = tile_dst r row col.
Proof.
  intros [G1 G2 G3 G4 G5 _ _] [S1 S2 S3 S4 S5]. set (g := tile_geometry r) in *.
  assert (Hg : wf_geometry g) by apply decode_geometry_wf.
  assert (Hwords : forall j, 0 <= j < geometry_words g ->
    src_word d j = tile_src r (j / words_per_row g) (j mod words_per_row g)
    /\ dst_word d j = tile_dst r (j / words_per_row g) (j mod words_per_row g)).
  { intros j Hj. unfold src_word, dst_word, tile_src, tile_dst. fold g. rewrite S2, S3. cbn [srcAddr dstAddr set_done set_enabled].
    destruct (word_at_eq g (srcAddr r) (Source_stride g) (getSize m) j) as [-> _]; try done; [apply Hg|].
    destruct (word_at_eq g (dstAddr r) (Dest_stride g) (getSize m) j) as [-> _]; try done; [apply Hg|]. lia. }
  rewrite S5. split.
  - intros j Hj. destruct (word_coordinates g j Hg Hj) as (Hr & Hc & _). eexists _, _. split; [|by apply Hwords]. by split.
  - intros row col [Hr Hc]. destruct (word_index g row col Hg Hr Hc) as (Hj & Ej & Ec).
    exists (row * words_per_row g + col). split; [done|]. rewrite <- Ej at 2 4. rewrite <- Ec at 3 6. by apply Hwords.
Qed.

Lemma started_plan r m d : good_tile r m -> started r d -> plan d m.
Proof.
  intros G S. destruct (tile_words r m d G S) as [W _]. pose proof G as [G1 G2 G3 G4 G5 G6 G7].
  pose proof S as [S1 S2 S3 S4 S5]. split; try done.
  - unfold tile_ok. by rewrite S2, S3.
  - intros i j Hi Hj. destruct (W i Hi) as (r1 & c1 & I1 & -> & _). destruct (W j Hj) as (r2 & c2 & I2 & _ & ->). by apply G6.
  - intros j Hj. destruct (W j Hj) as (r1 & c1 & I1 & -> & ->). by apply G7.
  - by rewrite S2.
Qed.

(** ** The controller is programmed *)

Lemma idle_ports m v d1 : idle m v -> only_ports (x_dma v) d1 ->
  idle m (with_dma d1 (x_events v) (x_resp v) (x_count v) v).
Proof.
  intros [I1 I2 I3 I4 I5 I6 I7 I8 I9 I10] O. destruct (op_core _ _ O) as (E1 & E2 & E3).
  pose proof (ports_fewer _ _ O) as [Hf _]. rewrite I5 in Hf. destruct (req_Q d1) eqn:Eq; [|cbn in Hf; lia].
  pose proof (op_req _ _ O) as Hr. rewrite Eq, I5, !app_nil_r in Hr.
  split; cbn; rewrite ?E3, ?Hr; done.
Qed.

(** The responses that it owes are those it owed and new ones to the processor. *)
Definition owes_more d d1 : Prop :=
  m_resp d1 = m_resp d /\ exists new, resp_Q d1 = resp_Q d ++ new /\ Forall to_cpu new.

Lemma owes_trans d1 d2 d3 : owes_more d1 d2 -> owes_more d2 d3 -> owes_more d1 d3.
Proof.
  intros (E1 & n1 & Q1 & F1) (E2 & n2 & Q2 & F2). split; [congruence|]. exists (n1 ++ n2).
  split; [by rewrite Q2, Q1, app_assoc|by apply Forall_app].
Qed.

Lemma owe_owes d d1 w : m_resp d1 = m_resp d -> resp_Q d1 = resp_Q d -> owes_more d (owe (ack w) d1).
Proof.
  intros E1 E2. split; [done|]. exists [ack w]. cbn. rewrite E2. split; [done|]. repeat constructor. apply ack_to_cpu.
Qed.

(** The writes that are left after some of them. *)
Definition programmed (m : mem) (r : dma_regs) (lo : Z) v (rest : list packet) : Prop :=
  (idle m v /\ exists ws, Forall2 posts rest ws /\ programs (d_regs (x_dma v)) ws = Some r) \/
  (rest = [] /\ exists d xs, started r d /\ running d m lo v xs).

Lemma program_all m r ks : forall rest ws v now delay, good_tile r m -> in_step v -> idle m v ->
  Forall2 posts (ks ++ rest) ws -> programs (d_regs (x_dma v)) ws = Some r ->
  exists d1 w n, outcome (foreach ks (Dma.step_packet now delay)) (x_dma v) = Ok (d1, w)
    /\ owes_more (x_dma v) d1 /\ 0 <= n <= 1
    /\ let v1 := with_dma d1 (x_events v ++ w) (x_resp v) (x_count v + n) v in
       in_step v1 /\ programmed m r (x_count v) v1 rest.
Proof.
  induction ks as [|k ks IH]; intros rest ws v now delay G Hc I Hp Hws.
  - exists (x_dma v), [], 0. split; [done|]. split; [split; [done|]; exists []; by rewrite app_nil_r|].
    split; [lia|]. rewrite app_nil_r, Z.add_0_r. split; [done|]. left. split; [by destruct v|]. by exists ws.
  - cbn [app] in Hp. apply Forall2_cons_inv_l in Hp as (w & ws' & Hk & Hp & ->). destruct ws' as [|w2 ws'].
    + apply Forall2_nil_inv_r in Hp. apply app_eq_nil in Hp as [-> ->]. cbn in Hws.
      destruct (starting w) eqn:Hst; [|done]. injection Hws as Hregs.
      destruct (starting_step k w now delay (x_dma v) Hk Hst (id_buffer _ _ I))
        as (d & S1 & S2 & S3 & S4 & S5 & S6 & S7 & S8 & S9 & S10 & S11 & Hstep); rewrite Hregs in *.
      assert (S : started r d) by (by split). pose proof (started_plan r m d G S) as Hplan.
      set (v0 := with_dma d (x_events v) (x_resp v) (x_count v) v).
      assert (I0 : idle m v0).
      { destruct I as [I1 I2 I3 I4 I5 I6 I7 I8 I9 I10]. split; cbn; rewrite ?S6, ?S7, ?S11; try done.
        by apply S1. }
      destruct (start_transfer v0 m d I0 Hplan eq_refl) as (d2 & xs & E2 & R & G1 & G2);
        [unfold in_step in *; cbn; by rewrite S10|].
      pose proof (Hstep d2 E2) as E. eexists _, _, 1. split.
      { cbn [foreach]. unfold outcome in *. rewrite (outcome_bind _ _ _ _ _ E). reflexivity. }
      split; [apply owe_owes; congruence|]. split; [lia|].
      apply (owe_running _ _ _ _ _ (ack w) (now + 1 + delay)) in R. split; [apply R|].
      right. split; [done|]. by exists d, xs.
    + cbn [programs] in Hws. destruct (setting w) as [f|] eqn:Hf; [|done].
      pose proof (setting_step k w f now delay (x_dma v) Hk Hf) as E.
      set (d1 := owe (ack w) (set_regs f (x_dma v))) in *. set (w1 := [_]) in E.
      set (v1 := with_dma d1 (x_events v ++ w1) (x_resp v) (x_count v) v).
      destruct (IH rest (w2 :: ws') v1 now delay G) as (d2 & w' & n & E2 & O & Hn & Hc2 & P); try done.
      { destruct I as [I1 I2 I3 I4 I5 I6 I7 I8 I9 I10]. split; try done. apply Forall_app. split; [done|].
        by repeat constructor. }
      exists d2, (w1 ++ w'), n. split.
      { cbn [foreach]. unfold outcome in E2 |- *. rewrite (outcome_bind _ _ _ _ _ E).
        cbn [v1 with_dma x_dma] in E2. destruct (foreach _ _ _) as [[[[] d3] w3]|]; [|done]. by injection E2 as -> ->. }
      split; [eapply owes_trans, O; by apply owe_owes|]. split; [done|]. rewrite app_assoc. by split.
Qed.

(** Its responses are sent, and new ones go to the processor. *)
Definition replies_grow d d1 : Prop :=
  accepted (m_resp d) `prefix_of` accepted (m_resp d1) /\
  exists new, accepted (m_resp d1) ++ resp_Q d1 = (accepted (m_resp d) ++ resp_Q d) ++ new /\ Forall to_cpu new.

Lemma kept_grow d d1 : kept_replies d d1 -> replies_grow d d1.
Proof. intros [E P]. split; [done|]. exists []. by rewrite app_nil_r. Qed.

Lemma kept_owes_grow d d1 d2 : kept_replies d d1 -> owes_more d1 d2 -> replies_grow d d2.
Proof.
  intros [E P] (Er & new & Q & F). unfold replies_grow. rewrite Er. split; [done|]. exists new. split; [|done].
  by rewrite Q, app_assoc, E.
Qed.

Lemma idle_send m v : idle m v -> in_step v ->
  exists d1, trySendPacket (x_dma v) = Ok (tt, d1, []) /\ only_ports (x_dma v) d1
    /\ let v1 := with_dma d1 (x_events v) (x_resp v) (x_count v) v in idle m v1 /\ in_step v1.
Proof.
  intros I Hc. destruct (send_ports (x_dma v)) as (d1 & E & O). exists d1. split; [done|]. split; [done|].
  split; [by apply idle_ports|]. unfold in_step. cbn. by rewrite (op_ctr _ _ O).
Qed.

Lemma idle_when m v : idle m v -> in_step v ->
  exists d1, when (negb (bool_decide (req_Q (x_dma v) = [])) || negb (bool_decide (resp_Q (x_dma v) = [])))
      trySendPacket (x_dma v) = Ok (tt, d1, []) /\ only_ports (x_dma v) d1
    /\ let v1 := with_dma d1 (x_events v) (x_resp v) (x_count v) v in idle m v1 /\ in_step v1.
Proof.
  intros I Hc. destruct (_ || _); [by apply idle_send|]. exists (x_dma v). split; [done|].
  split; [apply only_ports_refl|]. by destruct v.
Qed.

(** What the framework may call while the controller is programmed: [ks] have
    come from the processor. *)
Inductive programming v : call (Z * dma_event) -> list (Z * dma_event) -> list packet -> Prop :=
  | pg_retry now : programming v (CRetry now) (x_events v) []
  | pg_fire now delay e l1 l2 : x_events v = l1 ++ e :: l2 -> programming v (CFire now delay e) (l1 ++ l2) []
  | pg_step now delay ks : programming v (CStep now delay ks) (x_events v) ks.

Lemma programming_call m r v c pend ks rest ws : good_tile r m -> idle m v -> programming v c pend ks ->
  Forall2 posts (ks ++ rest) ws -> programs (d_regs (x_dma v)) ws = Some r ->
  exists d1 es n, dma_run (s32 (x_count v)) c (x_dma v) = Ok (d1, es, s32 (x_count v + n))
    /\ replies_grow (x_dma v) d1 /\ 0 <= n <= 1
    /\ programmed m r (x_count v) (with_dma d1 (pend ++ es) (x_resp v) (x_count v + n) v) rest.
Proof.
  intros G I Hc Hp Hws. assert (Is : idle m (synced v)) by (destruct I; by split).
  assert (Hrest : forall d1 evs, d_regs d1 = d_regs (x_dma v) -> ks = [] ->
    idle m (with_dma d1 evs (x_resp v) (x_count v) v) ->
    programmed m r (x_count v) (with_dma d1 evs (x_resp v) (x_count v) v) rest).
  { intros d1 evs E -> Hi. left. split; [done|]. exists ws. cbn. by rewrite E. }
  destruct (idle_send m (synced v) Is eq_refl) as (d1 & E & O & I1 & C1).
  pose proof (kept_synced _ _ (ports_kept _ _ O)) as K. destruct (op_core _ _ O) as (E1 & _).
  destruct Hc as [now|now delay [t e] l1 l2 He|now delay ks]; unfold dma_run.
  - exists d1, [], 0. unfold masterPortRetry, outcome. cbn [synced with_dma x_dma] in E. rewrite E.
    rewrite app_nil_r, Z.add_0_r. split_and!; try done; [cbn; by rewrite C1|by apply kept_grow|by apply Hrest].
  - pose proof (id_events _ _ I) as Hev. rewrite He in Hev. apply Forall_app in Hev as [Hl1 [Hone Hl2]%Forall_cons].
    cbn in Hone. subst e. exists d1, [], 0. cbn [dma_fire fst snd]. unfold outcome. cbn [synced with_dma x_dma] in E.
    rewrite E, app_nil_r, Z.add_0_r. split_and!; try done; [cbn; by rewrite C1|by apply kept_grow|].
    apply Hrest; [done|done|]. destruct I1. split; try done. by apply Forall_app.
  - destruct (idle_when m (synced v) Is eq_refl) as (d2 & E2 & O2 & I2 & C2).
    set (v2 := with_dma d2 _ _ _ _) in *. destruct (op_core _ _ O2) as (E3 & _).
    destruct (program_all m r ks rest ws v2 now delay G C2 I2 Hp) as (d3 & w & n & E4 & Ow & Hn & C3 & P);
      [cbn; by rewrite E3|].
    exists d3, w, n. split_and!; try done; try apply Hn; [|by eapply kept_owes_grow; [apply kept_synced, ports_kept|]].
    unfold Dma.step, outcome. erewrite M_bind_silent by reflexivity. erewrite M_bind_silent by exact E2.
    unfold outcome in E4. cbn [v2 with_dma x_dma] in E4.
    destruct (foreach _ _ _) as [[[[] d4] w4]|]; [|done]. injection E4 as -> ->. cbn. by rewrite C3.
Qed.
End Start.
