(* ===== verification/DmaProgress.v ===== *)
(** A transfer can always go on: whatever the framework has done so far, it can
    take the controller and the memory to the end of the transfer. *)
From S2P Require Import Prelude Machine DataStruct Memory Bus DataMemory Dma DmaCopy.
From S2P Require Import Device Network SocDevices SocDma SocAccess Transactions DmaLink DmaSteps.
Local Open Scope Z_scope.

Section Progress.
Context `{Framework} {PR : PipeRegister} {PL : PipeRegisterLaws PR}.
Context {PS : PipeRegisterSingle PR} {PV : PipeRegisterLive PR}.
Context (d0 : DMAController) (m0 : mem) (Hplan : plan d0 m0).
Implicit Types (d : DMAController) (xs : list tx) (v : xfer).

Abbreviation total := (totalWords (d_track d0)).
Abbreviation transferring := (transferring d0 m0).
Abbreviation less := (less d0).

(** Every beat on its way can be served. *)
Lemma transferring_servable lo v xs : transferring lo v xs -> servable (dm_mem (x_mem v)) xs.
Proof.
  intros TS. pose proof (words_left _ _ _ _ _ TS) as Hw. destruct TS as [T _].
  pose proof (ca_copying _ _ _ _ _ T) as C. split.
  - intros b Hb. by destruct (reads_same _ _ Hplan _ _ _ _ C Hw Hb).
  - intros b Hb. destruct (cp_writes _ _ _ _ _ C b Hb) as (j & Hj & [= -> -> ->]).
    destruct (dst_in _ _ Hplan j ltac:(lia)). apply store_word_ok; [done|]. by rewrite (cp_size _ _ _ _ _ C).
Qed.

(** What a state can do towards the end. *)
Definition advances lo v xs : Prop :=
  exists v' xs', rtc xstep v v' /\ transferring lo v' xs' /\ less (v', xs') (v, xs).

Lemma dma_advances lo v xs c pend resp : transferring lo v xs -> dma_offers v c pend resp ->
  gainful c -> advances lo v xs.
Proof.
  intros T Ho Hc. destruct (call_running _ _ Hplan _ _ _ _ _ _ T Ho) as (d1 & es & n & xs' & E & T' & _ & Hn & L).
  eexists _, xs'. split; [apply rtc_once; by eapply x_call_dma|]. rewrite count_made by done. by split; [|apply L].
Qed.

Lemma mem_advances lo v xs c pend ks : transferring lo v xs -> mem_call (x_sched v) c pend ks ->
  ks `prefix_of` drop (x_req v) (accepted (m_req (x_dma v))) -> (length ks <= slave_ports)%nat ->
  gainful c -> advances lo v xs.
Proof.
  intros T Hc [rest Hks] Hlen Hg. pose proof (ca_bag _ _ _ _ _ (proj1 T)) as B.
  assert (Hreq : transit v ≡ₚ ks ++ rest ++ req_Q (x_dma v)) by (unfold transit; by rewrite Hks, app_assoc).
  destruct (mem_call_runs "dma" _ _ _ _ _ _ _ _ _ (s32 (x_count v)) B Hc Hreq (transferring_servable _ _ _ T))
    as (m1 & es & E); [apply T|].
  destruct (mem_transferring _ _ Hplan lo v xs c pend ks (s32 (x_count v)) m1 es (s32 (x_count v)) T Hc) as (xs' & T' & Hr & L); [by exists rest|done|].
  exists (with_mem m1 (pend ++ es) (x_req v + length ks) v), xs'.
  split; [apply rtc_once; eapply x_call_mem; [done|by exists rest|done|done]|]. split; [exact T'|].
  apply less_words; [done|unfold distance; cbn; by rewrite Hr|]. specialize (L Hg). unfold work. cbn in *. lia.
Qed.

(** ** Packets that wait for a register *)

Lemma send_open d p q : req_Q d = p :: q -> open_reg (m_req d) ->
  exists d', trySendPacket d = Ok (tt, d', []) /\ only_ports d d' /\ (length (req_Q d') <= length q)%nat.
Proof.
  intros Hq Ho. destruct (open_push _ p Ho) as [r Hp]. destruct (send_ports d) as (d' & E & O). exists d'.
  split; [done|]. split; [done|]. unfold trySendPacket in E. erewrite M_bind_silent in E by reflexivity.
  rewrite Hq, Hp in E. do 2 (erewrite M_bind_silent in E by reflexivity). cbn [resp_Q set_req] in E.
  destruct (resp_Q d) as [|p2 q2]; [by injection E as <-|]. cbn [m_resp set_req] in E.
  destruct (try_push (m_resp d) p2) as [ok r2]. by injection E as <-.
Qed.

Lemma requests_advance lo v xs : transferring lo v xs -> req_Q (x_dma v) <> [] -> advances lo v xs.
Proof.
  intros T Hne. destruct (pl_drained (m_req (x_dma v))) as (r & Hr & Ho).
  set (d1 := set_resp (resp_Q (x_dma v)) (m_resp (x_dma v)) (set_req (req_Q (x_dma v)) r (d_ctr (x_dma v)) (x_dma v))).
  assert (Hb : bd_ports (x_dma v) d1) by (by exists r, (m_resp (x_dma v))).
  assert (T1 : transferring lo (with_dma d1 (x_events v) (x_resp v) (x_count v) v) xs)
    by (apply ports_transferring; [done|by apply drained_ports|done|done]).
  set (v1 := with_dma d1 _ _ _ _) in T1. destruct (synced_running _ _ _ _ _ T1) as [T2 C2].
  destruct (req_Q (x_dma v)) as [|p q] eqn:Eq; [done|].
  destruct (send_open (x_dma (synced v1)) p q) as (d2 & E & O & Hl); [done|done|].
  assert (Ec : d_ctr d2 = s32 (x_count v1 + 0)) by (rewrite (op_ctr _ _ O), C2, Z.add_0_r; done).
  eexists _, xs. split; [|split].
  - eapply rtc_l; [by apply x_ports_dma|]. apply rtc_once. eapply (x_call_dma v1 (CRetry 0)); [constructor|].
    unfold dma_run, outcome, masterPortRetry. change (set_req _ _ _ (x_dma v1)) with (x_dma (synced v1)).
    rewrite E. cbn. rewrite Ec. reflexivity.
  - rewrite count_made by lia. rewrite app_nil_r, Z.add_0_r.
    apply (ports_transferring d0 m0 lo (synced v1) xs d2 (x_events v1)) in T2; done.
  - pose proof (ports_fewer _ _ O) as [_ Hf]. destruct (op_core _ _ O) as (E1 & E2 & E3).
    apply less_words; unfold words_to_go, distance, work; cbn; rewrite ?E1, ?E3, ?app_nil_r; try done.
    cbn in Hf. rewrite Eq. cbn. lia.
Qed.

(** The same for the responses of the memory. *)
Lemma resent_transferring lo v xs m1 : transferring lo v xs -> resent (x_mem v) m1 ->
  transferring lo (with_mem m1 (x_sched v) (x_req v) v) xs.
Proof.
  intros [[T1 T2 T3 T4 T5 T6 T7 T9 T10 T11] SG] R. split; [|exact SG].
  split; try done; cbn; [by eapply resent_bag| |by rewrite (rs_mem _ _ R)].
  destruct (rs_replies _ _ R) as (l & -> & _). rewrite length_app. lia.
Qed.

Lemma responses_advance lo v xs : transferring lo v xs -> dm_respQ (x_mem v) <> [] -> advances lo v xs.
Proof.
  intros T Hne. destruct (pl_drained (dm_reg (x_mem v))) as (r & Hr & Ho).
  destruct (dm_respQ (x_mem v)) as [|p q] eqn:Eq; [done|].
  set (m1 := DMem (dm_mem (x_mem v)) (dm_pending (x_mem v)) (p :: q) r).
  assert (Hb : bd_ports (x_mem v) m1) by (exists r; by rewrite Eq).
  set (v1 := with_mem m1 (x_sched v) (x_req v) v).
  assert (T1 : transferring lo v1 xs) by (by apply drained_transferring).
  destruct (open_push _ p Ho) as [r' Hp].
  set (m2 := DMem (dm_mem (x_mem v)) (dm_pending (x_mem v)) q r').
  assert (E : trySendResponse m1 = Ok (tt, m2, [])).
  { unfold trySendResponse. step_monad. rewrite Hp. done. }
  assert (R : resent m1 m2).
  { split; try done. exists [p]. cbn. by rewrite (try_push_true _ _ _ Hp). }
  exists (with_mem m2 (x_sched v) (x_req v) v), xs. split; [|split].
  - eapply rtc_l; [by apply x_ports_mem|]. apply rtc_once.
    replace (with_mem m2 (x_sched v) (x_req v) v)
      with (with_mem m2 (x_sched v1 ++ []) (x_req v1 + length (@nil packet)) v1)
      by (unfold v1, with_mem; cbn; by rewrite app_nil_r, Nat.add_0_r).
    apply (x_call_mem v1 (CRetry 0)); [constructor|apply prefix_nil|cbn; lia|].
    unfold dm_run, outcome, DataMemory.masterPortRetry. cbn [x_mem v1 with_mem]. by rewrite E.
  - by apply (resent_transferring lo v1 xs m2).
  - apply less_words; try done. unfold work, mem_work. cbn. rewrite Eq. cbn. lia.
Qed.

(** ** The end is reached *)

Lemma goes_on lo v xs : transferring lo v xs -> quiet v \/ advances lo v xs.
Proof.
  intros T. destruct (x_events v) as [|e l] eqn:Ee.
  2: { right. eapply dma_advances; [done|by apply (dma_fires _ 0 0 e [])|done]. }
  destruct (x_sched v) as [|e l] eqn:Es.
  2: { right. apply (mem_advances lo v xs (CFire 0 0 e) l [] T); [|apply prefix_nil|cbn; lia|done].
       by apply (mem_call_fire _ 0 0 e [] l). }
  destruct (req_Q (x_dma v)) as [|q l] eqn:Eq; [|right; apply requests_advance; [done|by rewrite Eq]].
  destruct (dm_respQ (x_mem v)) as [|q l] eqn:Er; [|right; apply responses_advance; [done|by rewrite Er]].
  destruct (drop (x_req v) (accepted (m_req (x_dma v)))) as [|k rest] eqn:Et.
  2: { right. apply (mem_advances lo v xs (CStep 0 0 [k]) (x_sched v) [k] T); [constructor| |cbn; unfold slave_ports; lia|done].
       rewrite Et. by exists rest. }
  destruct (drop (x_resp v) (accepted (dm_reg (x_mem v)))) as [|k rest] eqn:Ed.
  2: { right. eapply dma_advances; [done|apply (dma_steps _ 0 0 [k])|done]; [|cbn; unfold slave_ports; lia].
       rewrite Ed. by exists rest. }
  left. split; [done|done|unfold transit; by rewrite Et, Eq|by rewrite Ed, Er].
Qed.

(** From every state of a transfer its end can be reached. *)
Lemma transfer_can_end lo v xs : transferring lo v xs ->
  exists v' xs', rtc xstep v v' /\ transferring lo v' xs' /\ quiet v'.
Proof.
  remember (v, xs) as a eqn:Ea. revert v xs Ea. induction (less_wf d0 a) as [a _ IH]. intros v xs -> T.
  destruct (goes_on lo v xs T) as [Hq|(v1 & xs1 & Hs & T1 & L)]; [by exists v, xs|].
  destruct (IH _ L v1 xs1 eq_refl T1) as (v' & xs' & Hs' & T' & Hq). exists v', xs'.
  split; [by etrans|done].
Qed.
End Progress.
