(* ===== verification/SocTransfer.v ===== *)
(** A DMA transfer on the SoC. The processor has written the registers of the
    controller and does nothing more; what the framework then does, in whatever
    order, is a run of the controller and the memory ([DmaSteps.xstep]), and
    such a run is one of the SoC. *)
From S2P Require Import Prelude Machine DataStruct Memory Bus DataMemory Cfu Isa Cpu Dma DmaCopy.
From S2P Require Import Grid SystolicPE Systolic CString Emulator Device Network.
From S2P Require Import SocDevices SocDma SocSystolic SocSystem SocAccess Transactions.
From S2P Require Import DmaLink DmaSteps DmaStart DmaProgress.
Local Open Scope Z_scope.

Section Soc_transfer.
Context `{Framework} {PR : PipeRegister} {PL : PipeRegisterLaws PR}.
Context (junk : nat -> nat -> nat -> Valid8) {X : CrossBar} {XL : CrossBarLaws X}.
Implicit Types Y : SOC.

Abbreviation dev Y := (n_dev soc_state soc_event Y).
Abbreviation pend Y := (n_pend soc_state soc_event Y).
Abbreviation taken Y := (n_taken soc_state soc_event Y).

Abbreviation offers := (offers soc_state soc_event (DV := soc_bus junk)).
Abbreviation called := (called soc_state soc_event (DV := soc_bus junk)).
Abbreviation moved := (moved soc_state soc_event (DV := soc_bus junk)).
Abbreviation soc_step := (net_step soc_state soc_event (DV := soc_bus junk)).

(** The controller and the memory of the SoC. *)
Definition dma_view Y : xfer :=
  Xfer (dev Y dma) (pend Y dma) (dev Y dmem) (pend Y dmem) (taken Y Req dma) (taken Y Resp dmem)
    (n_count _ _ Y).

(** What a register has taken and not handed over. *)
Definition waiting Y (ch : channel) (m : soc_device) : list packet :=
  drop (taken Y ch m) (issued soc_state soc_event (DV := soc_bus junk) Y ch m).

(** The processor and the systolic array do nothing, and the controller owes
    responses to the processor only. *)
Record still Y : Prop := {
  sl_cpu : pend Y cpu = [] /\ c_queue (dev Y cpu).1 = [];
  sl_sa : pend Y sa = [] /\ req_Q_ (dev Y sa) = [] /\ resp_Q_ (dev Y sa) = [];
  sl_sa_sent : waiting Y Req sa = [] /\ waiting Y Resp sa = [];
  sl_replies : Forall to_cpu (waiting Y Resp dma ++ resp_Q (dev Y dma));
}.

(** Where what waits in the registers goes. *)
Record addressed Y : Prop := {
  ad_cpu : Forall (fun k => packet_dst k = 1%nat) (waiting Y Req cpu);
  ad_dma : Forall (fun k => packet_dst k = 0%nat) (waiting Y Req dma);
  ad_mem : Forall (fun k => packet_dst k = 1%nat) (waiting Y Resp dmem);
}.

Lemma leads Y ch m k d : still Y -> addressed Y -> k ∈ waiting Y ch m -> routed ch m k d ->
  (ch, m, d) = (Req, cpu, dma) \/ (ch, m, d) = (Req, dma, dmem)
  \/ (ch, m, d) = (Resp, dmem, dma) \/ (ch, m, d) = (Resp, dma, cpu).
Proof.
  intros [_ _ [S1 S2] S3] [A1 A2 A3] Hk (i & Hi & Hd). rewrite xb_routes in Hd.
  rewrite Forall_forall in A1, A2, A3. apply Forall_app in S3 as [S3 _]. rewrite Forall_forall in S3.
  destruct ch, m; try done; rewrite ?S1, ?S2 in Hk; try (by apply elem_of_nil in Hk).
  - rewrite (A1 k Hk) in Hd. injection Hd as <-. by left.
  - rewrite (A2 k Hk) in Hd. injection Hd as <-. right. by left.
  - rewrite (A3 k Hk) in Hd. injection Hd as <-. do 2 right. by left.
  - destruct (S3 k Hk) as (p & -> & Hp). cbn in Hd. rewrite Hp in Hd. injection Hd as <-. by do 3 right.
Qed.

(** ** The processor and the systolic array *)

Lemma same_count n : n + uint 32 (s32 n - s32 n) = n.
Proof. rewrite Z.sub_diag. change (uint 32 0) with 0. lia. Qed.

(** What does not concern the controller and the memory. *)
Record aside Y Y' : Prop := {
  as_view : dma_view Y' = dma_view Y;
  as_still : still Y';
  as_waiting : waiting Y' Req cpu = waiting Y Req cpu;
}.

Lemma items_ignored now ks s : Forall to_cpu ks -> Cpu.step now (map BusItem ks) s = Ok (tt, s, []).
Proof.
  intros Hks. unfold Cpu.step. induction Hks as [|k ks (p & -> & _) _ IH]; [done|]. cbn [map foreach].
  erewrite M_bind_silent by reflexivity. exact IH.
Qed.

Lemma cpu_run_still c n s s' es ctr : c_queue s.1 = [] ->
  match c with CStep _ _ ks => Forall to_cpu ks | CFire _ _ _ => False | CRetry _ => True end ->
  core_run n c s = Ok (s', es, ctr) ->
  c_queue s'.1 = [] /\ accepted (c_reg s'.1) = accepted (c_reg s.1) /\ es = [] /\ ctr = n.
Proof.
  destruct s as [s u]. cbn [fst]. intros Hq Hc E. destruct c as [now delay ks|now delay e|now]; [|done|]; cbn [core_run] in E.
  - unfold on_cpu, outcome in E. rewrite items_ignored in E by done. by injection E as <- <- <-.
  - unfold on_cpu, outcome in E. unfold Cpu.masterPortRetry in E. erewrite M_bind_silent in E by reflexivity.
    cbn [fst c_reg c_queue set_bus] in E. rewrite Hq in E.
    destruct (isStalled (c_reg s)); cbn in E; [by injection E as <- <- <-|done].
Qed.

Lemma cpu_call_aside Y c Y' : still Y -> addressed Y ->
  called Y cpu c Y' -> aside Y Y'.
Proof.
  intros S A [pd es ctr Ho Hrun Hpd Hoth Hn]. pose proof S as [[S1 S2] S3 [S4 S5] S6].
  destruct (Hoth dma) as [E1 E2]; [done|]. destruct (Hoth dmem) as [E3 E4]; [done|].
  destruct (Hoth sa) as [E5 E6]; [done|].
  assert (Hc : match c with CStep _ _ ks => Forall to_cpu ks | CFire _ _ _ => False | CRetry _ => True end
    /\ pd = [] /\ (forall ch m, (ch, m) <> (Resp, dma) -> taken Y' ch m = taken Y ch m)
    /\ exists n, taken Y' Resp dma = (taken Y Resp dma + n)%nat).
  { revert Ho. generalize (taken Y'). intros t Ho.
    destruct Ho as [now|now delay e l1 l2 He|now delay ks t Hp Hl]; [|by rewrite S1 in He; destruct l1|].
    - split_and!; try done. exists 0%nat. lia.
    - destruct (pops_one _ _ Y cpu Resp dma _ _ _ Hp) as (H1 & H2 & H3).
      { intros ch m k Hk Hr. destruct (leads Y ch m k cpu S A Hk Hr) as [[=]|[[=]|[[=]|[= -> ->]]]]. done. }
      split_and!; [|done|intros; by apply H3|by eexists].
      apply Forall_app in S6 as [S6 _]. destruct H1 as [rest H1]. unfold waiting in S6. rewrite H1 in S6.
      by apply Forall_app in S6 as [? _]. }
  destruct Hc as (Hc & -> & Ht & n & Htn).
  destruct (cpu_run_still c _ _ _ _ _ S2 Hc Hrun) as (Q1 & Q2 & -> & ->). rewrite same_count in Hn.
  assert (Hw : forall ch m, (ch, m) <> (Resp, dma) -> waiting Y' ch m = waiting Y ch m).
  { intros ch m Hne. unfold waiting. rewrite Ht by done. f_equal.
    destruct ch, m; cbn; try done; by rewrite ?E1, ?E3, ?E5. }
  split.
  - unfold dma_view. by rewrite E1, E2, E3, E4, !Ht, Hn.
  - split.
    + split; [exact Hpd|exact Q1].
    + by rewrite E5, E6.
    + by rewrite !Hw.
    + rewrite E1. apply Forall_app in S6 as [S6 S7]. apply Forall_app. split; [|done].
      unfold waiting in *. cbn [issued] in *. rewrite Htn, E1, <- drop_drop.
      by apply Forall_drop.
  - by apply Hw.
Qed.

Lemma sa_run_still c n s s' es ctr : req_Q_ s = [] -> resp_Q_ s = [] ->
  match c with CStep _ _ ks => ks = [] | CFire _ _ _ => False | CRetry _ => True end ->
  sa_run junk n c s = Ok (s', es, ctr) ->
  req_Q_ s' = [] /\ resp_Q_ s' = [] /\ m_req_ s' = m_req_ s /\ m_resp_ s' = m_resp_ s /\ es = [] /\ ctr = n.
Proof.
  intros Hq Hr Hc E. unfold sa_run in E. destruct c as [now delay ks|now delay e|now]; [subst ks|done|].
  - unfold Systolic.step, outcome in E. erewrite M_bind_silent in E by reflexivity. cbn [req_Q_ resp_Q_ set_ctr] in E.
    rewrite Hq, Hr in E. cbn in E. by injection E as <- <- <-.
  - unfold Systolic.masterPortRetry, Systolic.trySendPacket, outcome in E.
    erewrite M_bind_silent in E by reflexivity. cbn [req_Q_ set_ctr] in E. rewrite Hq in E.
    do 2 (erewrite M_bind_silent in E by reflexivity). cbn [resp_Q_ set_ctr] in E. rewrite Hr in E. cbn in E.
    by injection E as <- <- <-.
Qed.

Lemma sa_call_aside Y c Y' : still Y -> addressed Y ->
  called Y sa c Y' -> aside Y Y'.
Proof.
  intros S A [pd es ctr Ho Hrun Hpd Hoth Hn]. pose proof S as [S1 (S2 & S3 & S4) [S5 S6] S7].
  destruct (Hoth dma) as [E1 E2]; [done|]. destruct (Hoth dmem) as [E3 E4]; [done|].
  destruct (Hoth cpu) as [E5 E6]; [done|].
  assert (Hc : match c with CStep _ _ ks => ks = [] | CFire _ _ _ => False | CRetry _ => True end
    /\ pd = [] /\ taken Y' = taken Y).
  { revert Ho. generalize (taken Y'). intros t Ho.
    destruct Ho as [now|now delay e l1 l2 He|now delay ks t Hp Hl]; [|by rewrite S2 in He; destruct l1|].
    - by split_and!.
    - destruct (pops_nothing _ _ Y sa _ _ _ Hp) as [-> ->]; [|by split_and!].
      intros ch m k Hk Hr. by destruct (leads Y ch m k sa S A Hk Hr) as [[=]|[[=]|[[=]|[=]]]]. }
  destruct Hc as (Hc & -> & Ht).
  destruct (sa_run_still c _ _ _ _ _ S3 S4 Hc Hrun) as (Q1 & Q2 & Q3 & Q4 & -> & ->). rewrite same_count in Hn.
  assert (Hw : forall ch m, waiting Y' ch m = waiting Y ch m).
  { intros ch m. unfold waiting. rewrite Ht by done. f_equal.
    destruct ch, m; cbn; rewrite ?E1, ?E3, ?E5, ?Q3, ?Q4; done. }
  split.
  - unfold dma_view. by rewrite E1, E2, E3, E4, !Ht, Hn.
  - by split; rewrite ?E5, ?E6, ?E1, ?Hw.
  - by apply Hw.
Qed.

(** Registers of the two that are drained or stalled. *)
Lemma ports_aside Y m Y' : still Y -> m = cpu \/ m = sa ->
  moved Y m Y' -> aside Y Y'.
Proof.
  intros S Hm [Hp Hpd Hoth Ht Hn]. pose proof S as [[S1 S2] (S3 & S4 & S5) [S6 S7] S8].
  destruct (Hoth dma) as [E1 E2]; [by destruct Hm as [-> | ->]|].
  destruct (Hoth dmem) as [E3 E4]; [by destruct Hm as [-> | ->]|].
  assert (Hacc : (forall ch m', waiting Y' ch m' = waiting Y ch m') /\ pend Y' cpu = [] /\ pend Y' sa = []
    /\ c_queue (dev Y' cpu).1 = [] /\ req_Q_ (dev Y' sa) = [] /\ resp_Q_ (dev Y' sa) = []).
  { destruct Hm as [-> | ->]; [destruct (Hoth sa) as [E5 E6]; [done|] | destruct (Hoth cpu) as [E5 E6]; [done|]].
    - destruct Hp as (_ & r & Hr & Hs). rewrite E5, E6, Hpd, Hs. split_and!; try done. intros ch m'.
      unfold waiting. rewrite Ht. f_equal. destruct ch, m'; cbn; rewrite ?E1, ?E3, ?E5, ?Hs; done.
    - destruct Hp as (r1 & r2 & Hr1 & Hr2 & Hs). rewrite E5, E6, Hpd, Hs. split_and!; try done. intros ch m'.
      unfold waiting. rewrite Ht. f_equal. destruct ch, m'; cbn; rewrite ?E1, ?E3, ?E5, ?Hs; done. }
  destruct Hacc as (Hw & ? & ? & ? & ? & ?). split; [|split|by rewrite Hw]; rewrite ?Hw, ?E1; try done.
  unfold dma_view. by rewrite E1, E2, E3, E4, Ht, Hn.
Qed.

(** ** The two phases *)

Context {PS : PipeRegisterSingle PR}.

(** The registers are being written, or the transfer that they describe is
    under way. *)
Inductive phase (m0 : mem) (r : dma_regs) Y : Prop :=
  | ph_armed ws : still Y -> idle m0 (dma_view Y) -> Forall2 posts (waiting Y Req cpu) ws ->
      programs (d_regs (dev Y dma)) ws = Some r -> phase m0 r Y
  | ph_running d lo xs : still Y -> waiting Y Req cpu = [] -> started r d ->
      transferring d m0 lo (dma_view Y) xs -> phase m0 r Y.

Lemma phase_still m0 r Y : phase m0 r Y -> still Y.
Proof. by destruct 1. Qed.

Lemma posts_dst ks ws : Forall2 posts ks ws -> Forall (fun k => packet_dst k = 1%nat) ks.
Proof. induction 1 as [|k w ks ws (_ & p & -> & _ & _ & Hd) _ IH]; by constructor. Qed.

Lemma bag_replies_dst T E P U xs : bag "dma" T E P U xs -> Forall (fun k => packet_dst k = 1%nat) U.
Proof.
  intros [_ _ _ B _ _]. rewrite B. apply Forall_forall. intros k Hk.
  apply list_elem_of_omap in Hk as (x & _ & Hx). by destruct x; try done; injection Hx as <-.
Qed.

Lemma phase_addressed m0 r Y : phase m0 r Y -> addressed Y.
Proof.
  destruct 1 as [ws S I Hp Hws|d lo xs S Hw Hs T].
  - split; [by eapply posts_dst| |].
    + unfold waiting. cbn. pose proof (id_req _ _ I) as E. cbn in E. by rewrite E, drop_all.
    + unfold waiting. cbn. pose proof (id_resp _ _ I) as E. cbn in E. by rewrite E, drop_all.
  - pose proof (proj1 T) as C. split; [by rewrite Hw| |].
    + pose proof (ca_routed _ _ _ _ _ C) as Hr. by apply Forall_app in Hr as [Hr _].
    + pose proof (bag_replies_dst _ _ _ _ _ (ca_bag _ _ _ _ _ C)) as Hr. by apply Forall_app in Hr as [Hr _].
Qed.

Lemma aside_phase m0 r Y Y' : phase m0 r Y -> aside Y Y' -> phase m0 r Y'.
Proof.
  intros P [A1 A2 A3].
  destruct P as [ws S I Hp Hws|d lo xs S Hw Hs T].
  - apply (ph_armed _ _ _ ws); rewrite ?A1, ?A3; try done.
    change (programs (d_regs (x_dma (dma_view Y'))) ws = Some r). by rewrite A1.
  - apply (ph_running _ _ _ d lo xs); rewrite ?A1, ?A3; done.
Qed.

(** ** The memory *)

Lemma still_others Y Y' : still Y -> dev Y' cpu = dev Y cpu -> pend Y' cpu = pend Y cpu ->
  dev Y' sa = dev Y sa -> pend Y' sa = pend Y sa ->
  (forall ch, taken Y' ch sa = taken Y ch sa) -> Forall to_cpu (waiting Y' Resp dma ++ resp_Q (dev Y' dma)) ->
  still Y'.
Proof.
  intros [S1 S2 S3 S4] E1 E2 E3 E4 Ht Hr. split; rewrite ?E1, ?E2, ?E3, ?E4; try done.
  unfold waiting in *. cbn in *. by rewrite !Ht, E3.
Qed.

Lemma mem_offers Y c pd t : still Y -> addressed Y -> offers Y dmem c pd t ->
  exists ks, mem_call (pend Y dmem) c pd ks /\ ks `prefix_of` waiting Y Req dma /\ (length ks <= slave_ports)%nat
    /\ t Req dma = (taken Y Req dma + length ks)%nat
    /\ forall ch m, (ch, m) <> (Req, dma) -> t ch m = taken Y ch m.
Proof.
  intros S A Ho. destruct Ho as [now|now delay e l1 l2 He|now delay ks t Hp Hl].
  - exists []. split; [exact (mem_call_retry _ now)|]. split; [apply prefix_nil|]. split; [cbn; lia|]. split; [cbn; lia|done].
  - exists []. split; [exact (mem_call_fire _ now delay e l1 l2 He)|]. split; [apply prefix_nil|].
    split; [cbn; lia|]. split; [cbn; lia|done].
  - destruct (pops_one _ _ Y dmem Req dma _ _ _ Hp) as (H1 & H2 & H3).
    { intros ch m k Hk Hr. by destruct (leads Y ch m k dmem S A Hk Hr) as [[=]|[[= -> ->]|[[=]|[=]]]]. }
    exists ks. split; [exact (mem_call_step _ now delay ks)|]. do 3 (split; [done|]). intros. by apply H3.
Qed.

Lemma dm_run_count c k d d' es k' : dm_run c k d = Ok (d', es, k') -> k' = c.
Proof. by intros ([d1 w] & _ & [= _ _ <-])%bind_ok. Qed.

(** What a call of the memory does to the view of the two devices. *)
Lemma mem_called_view Y c Y' : still Y -> addressed Y -> called Y dmem c Y' ->
  still Y' /\ waiting Y' Req cpu = waiting Y Req cpu /\ dev Y' dma = dev Y dma /\
  exists pd ks m1 es, mem_call (x_sched (dma_view Y)) c pd ks /\ ks `prefix_of` waiting Y Req dma
    /\ (length ks <= slave_ports)%nat
    /\ dm_run (s32 (x_count (dma_view Y))) c (x_mem (dma_view Y)) = Ok (m1, es, s32 (x_count (dma_view Y)))
    /\ dma_view Y' = with_mem m1 (pd ++ es) (x_req (dma_view Y) + length ks) (dma_view Y).
Proof.
  intros S A [pd es ctr Ho Hrun Hpd Hoth Hn].
  destruct (mem_offers Y c pd _ S A Ho) as (ks & Hc & Hks & Hlen & Ht & Hto).
  destruct (Hoth cpu) as [E1 E2]; [done|]. destruct (Hoth dma) as [E3 E4]; [done|].
  destruct (Hoth sa) as [E5 E6]; [done|].
  pose proof (dm_run_count _ _ _ _ _ _ Hrun) as ->. rewrite same_count in Hn.
  split_and!; [|unfold waiting; cbn; by rewrite Hto, E1|done|].
  { apply (still_others Y); rewrite ?E1, ?E2, ?E5, ?E6; try done; [intros ch; by apply Hto|].
    pose proof (sl_replies _ S) as Hr. unfold waiting in *. cbn in *. by rewrite Hto, E3. }
  exists pd, ks, (dev Y' dmem), es. do 4 (split; [done|]).
  unfold dma_view, with_mem. cbn. by rewrite E3, E4, Hpd, Ht, Hto, Hn.
Qed.

Lemma mem_moved_view Y Y' : still Y -> moved Y dmem Y' ->
  still Y' /\ waiting Y' Req cpu = waiting Y Req cpu /\ dev Y' dma = dev Y dma /\
  exists m1, bd_ports (x_mem (dma_view Y)) m1
    /\ dma_view Y' = with_mem m1 (x_sched (dma_view Y)) (x_req (dma_view Y)) (dma_view Y).
Proof.
  intros S [Hp Hpd Hoth Ht Hn]. destruct (Hoth cpu) as [E1 E2]; [done|].
  destruct (Hoth dma) as [E3 E4]; [done|]. destruct (Hoth sa) as [E5 E6]; [done|].
  split_and!; [|unfold waiting; cbn; by rewrite Ht, E1|done|].
  { apply (still_others Y); rewrite ?E1, ?E2, ?E5, ?E6, ?Ht; try done.
    pose proof (sl_replies _ S) as Hr. unfold waiting in *. cbn in *. by rewrite Ht, E3. }
  exists (dev Y' dmem). split; [exact Hp|]. unfold dma_view, with_mem. cbn. by rewrite E3, E4, Hpd, Ht, Hn.
Qed.

Lemma mem_called_phase m0 r Y c Y' : good_tile r m0 -> phase m0 r Y -> called Y dmem c Y' -> phase m0 r Y'.
Proof.
  intros G P Hcall. destruct (mem_called_view Y c Y' (phase_still _ _ _ P) (phase_addressed _ _ _ P) Hcall)
    as (S' & Hw & E3 & pd & ks & m1 & es & Hc & Hks & Hlen & Hrun & Hv).
  destruct P as [ws _ I Hp Hws|d lo xs _ Hw0 Hs T].
  - assert (ks = []) as ->.
    { destruct Hks as [l Hks]. unfold waiting in Hks. cbn in Hks. pose proof (id_req _ _ I) as E. cbn in E.
      rewrite E, drop_all in Hks. by destruct ks. }
    destruct (idle_memory (dma_view Y) c pd _ _ es _ (id_sched _ _ I) (id_respQ _ _ I) Hc Hrun) as [-> Ep].
    apply (ph_armed _ _ _ ws); rewrite ?Hw, ?E3; try done. rewrite Hv, Ep.
    destruct I as [I1 I2 I3 I4 I5 I6 I7 I8 I9 I10]. rewrite Nat.add_0_r. by split.
  - destruct (xstep_transferring d m0 (started_plan _ _ _ G Hs) lo (dma_view Y) xs (dma_view Y') T) as (xs' & T' & _).
    { rewrite Hv. by eapply x_call_mem. }
    apply (ph_running _ _ _ d lo xs'); try done. by rewrite Hw.
Qed.

Lemma mem_moved_phase m0 r Y Y' : good_tile r m0 -> phase m0 r Y -> moved Y dmem Y' -> phase m0 r Y'.
Proof.
  intros G P Hmv. destruct (mem_moved_view Y Y' (phase_still _ _ _ P) Hmv) as (S' & Hw & E3 & m1 & Hp & Hv).
  destruct P as [ws _ I Hpo Hws|d lo xs _ Hw0 Hs T].
  - apply (ph_armed _ _ _ ws); rewrite ?Hw, ?E3; try done. rewrite Hv. destruct Hp as (r' & Hr & ->).
    destruct I as [I1 I2 I3 I4 I5 I6 I7 I8 I9 I10]. cbn in *. split; try done. cbn. by rewrite Hr.
  - destruct (xstep_transferring d m0 (started_plan _ _ _ G Hs) lo (dma_view Y) xs (dma_view Y') T) as (xs' & T' & _).
    { rewrite Hv. by eapply x_ports_mem. }
    apply (ph_running _ _ _ d lo xs'); try done. by rewrite Hw.
Qed.

(** ** The controller *)

Lemma programming_offers Y c pd t : still Y -> addressed Y -> waiting Y Resp dmem = [] -> offers Y dma c pd t ->
  exists ks, programming (dma_view Y) c pd ks /\ ks `prefix_of` waiting Y Req cpu
    /\ t Req cpu = (taken Y Req cpu + length ks)%nat
    /\ forall ch m, (ch, m) <> (Req, cpu) -> t ch m = taken Y ch m.
Proof.
  intros S A Hnone Ho. destruct Ho as [now|now delay e l1 l2 He|now delay ks t Hp Hl].
  - exists []. split; [exact (pg_retry (dma_view Y) now)|]. split; [apply prefix_nil|]. split; [cbn; lia|done].
  - exists []. split; [exact (pg_fire (dma_view Y) now delay e l1 l2 He)|]. split; [apply prefix_nil|].
    split; [cbn; lia|done].
  - destruct (pops_one _ _ Y dma Req cpu _ _ _ Hp) as (H1 & H2 & H3).
    { intros ch m k Hk Hr. destruct (leads Y ch m k dma S A Hk Hr) as [[= -> ->]|[[=]|[[= -> ->]|[=]]]]; [done|].
      unfold waiting in Hnone. rewrite Hnone in Hk. by apply elem_of_nil in Hk. }
    exists ks. split; [exact (pg_step (dma_view Y) now delay ks)|]. split; [done|]. split; [done|].
    intros. by apply H3.
Qed.

Lemma running_offers Y c pd t : still Y -> addressed Y -> waiting Y Req cpu = [] -> offers Y dma c pd t ->
  dma_offers (dma_view Y) c pd (t Resp dmem)
  /\ forall ch m, (ch, m) <> (Resp, dmem) -> t ch m = taken Y ch m.
Proof.
  intros S A Hnone Ho. destruct Ho as [now|now delay e l1 l2 He|now delay ks t Hp Hl].
  - split; [exact (dma_retry (dma_view Y) now)|done].
  - split; [exact (dma_fires (dma_view Y) now delay e l1 l2 He)|done].
  - destruct (pops_one _ _ Y dma Resp dmem _ _ _ Hp) as (H1 & H2 & H3).
    { intros ch m k Hk Hr. destruct (leads Y ch m k dma S A Hk Hr) as [[= -> ->]|[[=]|[[= -> ->]|[=]]]]; [|done].
      unfold waiting in Hnone. rewrite Hnone in Hk. by apply elem_of_nil in Hk. }
    rewrite H2. split; [exact (dma_steps (dma_view Y) now delay ks H1 Hl)|]. intros. by apply H3.
Qed.

(** What it owes still goes to the processor. *)
Lemma replies_to_cpu d d1 n : Forall to_cpu (drop n (accepted (m_resp d)) ++ resp_Q d) ->
  replies_grow d d1 -> Forall to_cpu (drop n (accepted (m_resp d1)) ++ resp_Q d1).
Proof.
  intros Hf ((l & Hl) & new & E & Hn). destruct (decide (n <= length (accepted (m_resp d)))%nat) as [Hle|Hgt].
  - assert (E2 : drop n (accepted (m_resp d1)) ++ resp_Q d1 = (drop n (accepted (m_resp d)) ++ resp_Q d) ++ new).
    { rewrite Hl, <- !app_assoc in E. apply (inj (app _)) in E. rewrite Hl, drop_app_le, <- !app_assoc by done.
      by rewrite E. }
    rewrite E2. by apply Forall_app.
  - rewrite Hl, <- !app_assoc in E. apply (inj (app _)) in E.
    rewrite drop_ge in Hf by lia. cbn in Hf.
    assert (Hall : Forall to_cpu (l ++ resp_Q d1)) by (rewrite E; by apply Forall_app).
    apply Forall_app in Hall as [H1 H2]. apply Forall_app. split; [|done].
    rewrite Hl, drop_app. apply Forall_app. split; [|by apply Forall_drop]. rewrite drop_ge by lia. constructor.
Qed.

(** What stays when the controller is called. *)
Lemma dma_still Y Y' : still Y -> others_same _ _ dma Y Y' -> (forall ch, taken Y' ch sa = taken Y ch sa) ->
  taken Y' Resp dma = taken Y Resp dma -> replies_grow (dev Y dma) (dev Y' dma) -> still Y'.
Proof.
  intros S Hoth Ht Hd Hr. destruct (Hoth cpu) as [E1 E2]; [done|]. destruct (Hoth sa) as [E5 E6]; [done|].
  apply (still_others Y); try done. pose proof (sl_replies _ S) as Hf. unfold waiting in *. cbn in *.
  rewrite Hd. by eapply replies_to_cpu.
Qed.

(** When it is no longer programmed. *)
Lemma dma_called_view Y c Y' : still Y -> addressed Y -> waiting Y Req cpu = [] -> called Y dma c Y' ->
  (kept_replies (dev Y dma) (dev Y' dma) -> still Y') /\ waiting Y' Req cpu = []
  /\ xstep (dma_view Y) (dma_view Y').
Proof.
  intros S A Hw0 [pd es ctr Ho Hrun Hpd Hoth Hn]. destruct (Hoth cpu) as [E1 _]; [done|].
  destruct (Hoth dmem) as [E3 E4]; [done|]. destruct (running_offers Y c pd _ S A Hw0 Ho) as [Ho' Ht].
  split_and!.
  - intros K. apply (dma_still Y); try done; [intros ch; by apply Ht|by apply Ht|by apply kept_grow].
  - unfold waiting in *. cbn in *. by rewrite Ht, E1.
  - assert (dma_view Y' = with_dma (dev Y' dma) (pd ++ es) (taken Y' Resp dmem)
      (x_count (dma_view Y) + uint 32 (ctr - s32 (x_count (dma_view Y)))) (dma_view Y)) as ->.
    { unfold dma_view, with_dma. cbn. rewrite E3, E4, Hpd, Hn. by rewrite (Ht Req dma). }
    by eapply x_call_dma.
Qed.

Lemma dma_moved_view Y Y' : still Y -> moved Y dma Y' ->
  still Y' /\ waiting Y' Req cpu = waiting Y Req cpu /\ bd_ports (x_dma (dma_view Y)) (dev Y' dma)
  /\ dma_view Y' = with_dma (dev Y' dma) (x_events (dma_view Y)) (x_resp (dma_view Y))
       (x_count (dma_view Y)) (dma_view Y).
Proof.
  intros S [Hp Hpd Hoth Ht Hn]. destruct (Hoth cpu) as [E1 _]; [done|]. destruct (Hoth dmem) as [E3 E4]; [done|].
  split_and!; [|unfold waiting; cbn; by rewrite Ht, E1|exact Hp|].
  - apply (dma_still Y); rewrite ?Ht; try done. by apply kept_grow, ports_kept, drained_ports.
  - unfold dma_view, with_dma. cbn. by rewrite E3, E4, Hpd, Ht, Hn.
Qed.

(** While it is programmed. *)
Lemma dma_called_armed m0 r Y c Y' ws : good_tile r m0 -> still Y -> addressed Y -> idle m0 (dma_view Y) ->
  Forall2 posts (waiting Y Req cpu) ws -> programs (d_regs (dev Y dma)) ws = Some r ->
  called Y dma c Y' -> phase m0 r Y'.
Proof.
  intros G S A I Hp Hws [pd es ctr Ho Hrun Hpd Hoth Hn].
  destruct (Hoth cpu) as [E1 _]; [done|]. destruct (Hoth dmem) as [E3 E4]; [done|].
  assert (Hnone : waiting Y Resp dmem = []).
  { unfold waiting. cbn. pose proof (id_resp _ _ I) as E. cbn in E. by rewrite E, drop_all. }
  destruct (programming_offers Y c pd _ S A Hnone Ho) as (ks & Hc & [rest Hrest] & Ht & Hto).
  rewrite Hrest in Hp.
  destruct (programming_call m0 r (dma_view Y) c pd ks rest ws G I Hc Hp Hws) as (d1 & es' & n & E & Hg & Hn1 & Hpr).
  pose proof (eq_trans (eq_sym Hrun) E) as Heq. injection Heq as <- <- ->.
  assert (Hv : dma_view Y' = with_dma (dev Y' dma) (pd ++ es) (x_resp (dma_view Y)) (x_count (dma_view Y) + n) (dma_view Y)).
  { unfold dma_view, with_dma. cbn. rewrite E3, E4, Hpd, Hn, count_made by (cbn; lia). by rewrite !Hto. }
  assert (Hw : waiting Y' Req cpu = rest).
  { unfold waiting in *. cbn in *. rewrite Ht, E1, <- drop_drop, Hrest, drop_app_length. done. }
  assert (Hpr' : programmed m0 r (x_count (dma_view Y)) (dma_view Y') (waiting Y' Req cpu))
    by (rewrite Hv, Hw; exact Hpr). clear Hpr.
  assert (S1 : still Y') by (apply (dma_still Y); try done; [intros ch; by apply Hto|by apply Hto]).
  destruct Hpr' as [(I1 & ws2 & Hp2 & Hws2)|(Hw0 & d & xs & Hs & [T _])].
  + by apply (ph_armed _ _ _ ws2).
  + by eapply ph_running.
Qed.

Lemma dma_called_phase m0 r Y c Y' : good_tile r m0 -> phase m0 r Y -> called Y dma c Y' -> phase m0 r Y'.
Proof.
  intros G P Hcall. pose proof (phase_addressed _ _ _ P) as A. destruct P as [ws S I Hp Hws|d lo xs S Hw0 Hs T].
  - by eapply dma_called_armed.
  - destruct (dma_called_view Y c Y' S A Hw0 Hcall) as (HS & Hw & Hst).
    destruct (xstep_transferring d m0 (started_plan _ _ _ G Hs) lo _ xs _ T Hst) as (xs' & T' & K).
    apply (ph_running _ _ _ d lo xs'); try done. by apply HS.
Qed.

Lemma dma_moved_phase m0 r Y Y' : good_tile r m0 -> phase m0 r Y -> moved Y dma Y' -> phase m0 r Y'.
Proof.
  intros G P Hmv. destruct (dma_moved_view Y Y' (phase_still _ _ _ P) Hmv) as (S' & Hw & Hp & Hv).
  destruct P as [ws _ I Hpo Hws|d lo xs _ Hw0 Hs T].
  - pose proof (drained_ports _ _ Hp) as O. apply (ph_armed _ _ _ ws); rewrite ?Hw; try done.
    + rewrite Hv. by apply idle_ports.
    + destruct (op_core _ _ O) as (-> & _). done.
  - destruct (xstep_transferring d m0 (started_plan _ _ _ G Hs) lo (dma_view Y) xs (dma_view Y') T) as (xs' & T' & _).
    { rewrite Hv. by eapply x_ports_dma. }
    apply (ph_running _ _ _ d lo xs'); try done. by rewrite Hw.
Qed.

(** Every step of the SoC. *)
Lemma soc_step_phase m0 r Y Y' : good_tile r m0 -> phase m0 r Y -> soc_step Y Y' -> phase m0 r Y'.
Proof.
  intros G P Hst. pose proof (phase_still _ _ _ P) as S. pose proof (phase_addressed _ _ _ P) as A.
  destruct Hst as [[] c Hc|[] Hm].
  - by eapply aside_phase, cpu_call_aside.
  - by eapply mem_called_phase.
  - by eapply dma_called_phase.
  - by eapply aside_phase, sa_call_aside.
  - by eapply aside_phase, ports_aside; [..|left|].
  - by eapply mem_moved_phase.
  - by eapply dma_moved_phase.
  - by eapply aside_phase, ports_aside; [..|right|].
Qed.

Lemma soc_run_phase m0 r Y Y' : good_tile r m0 -> rtc soc_step Y Y' -> phase m0 r Y -> phase m0 r Y'.
Proof. intros G. induction 1 as [|Y1 Y2 Y3 Hst _ IH]; [done|]. intros P. by eapply IH, soc_step_phase. Qed.


(** ** What the controller and the memory can do, the SoC can do *)

Lemma routed_to (ch : channel) m i k d : addPRMasterPort ch m = Some i -> ConnectPort ch (packet_dst k) = Some d ->
  routed ch m k d.
Proof. intros Hm Hd. exists i. split; [exact Hm|]. by rewrite xb_routes. Qed.

(** A call of a device, and what it leaves of the others. *)
Lemma soc_calls Y d c pd t s es ctr : offers Y d c pd t ->
  bd_run (BusDevice := soc_bus junk d) (s32 (n_count _ _ Y)) c (dev Y d) = Ok (s, es, ctr) ->
  soc_step Y (Net _ _ (set_module d s (dev Y)) (set_events d (pd ++ es) (pend Y)) t
    (n_count _ _ Y + uint 32 (ctr - s32 (n_count _ _ Y)))).
Proof.
  intros Ho E. eapply soc_call_step; [exact Ho|]. unfold soc_call. by rewrite E.
Qed.

Lemma dma_offers_soc Y c pd resp : addressed Y -> dma_offers (dma_view Y) c pd resp ->
  exists t, offers Y dma c pd t /\ t Resp dmem = resp
    /\ forall ch m, (ch, m) <> (Resp, dmem) -> t ch m = taken Y ch m.
Proof.
  intros A Ho. destruct Ho as [now|now delay e l1 l2 He|now delay ks Hks Hl].
  - exists (taken Y). split; [exact (offers_retry _ _ Y dma now)|done].
  - exists (taken Y). split; [exact (offers_fire _ _ Y dma now delay e l1 l2 He)|done].
  - destruct (pops_exist _ _ (DV := soc_bus junk) Y dma Resp dmem ks (taken Y) Hks) as (t & Hp & Ht & Hto).
    { destruct Hks as [rest Hks]. pose proof (ad_mem _ A) as Hd. unfold waiting in Hd. cbn in Hd, Hks. rewrite Hks in Hd.
      apply Forall_app in Hd as [Hd _]. eapply Forall_impl; [exact Hd|]. intros k Hk.
      eapply (routed_to Resp dmem 0); [done|]. by rewrite Hk. }
    exists t. split; [exact (offers_step _ _ Y dma now delay ks t Hp Hl)|done].
Qed.

Lemma mem_offers_soc Y c pd ks : addressed Y -> mem_call (pend Y dmem) c pd ks ->
  ks `prefix_of` waiting Y Req dma -> (length ks <= slave_ports)%nat ->
  exists t, offers Y dmem c pd t /\ t Req dma = (taken Y Req dma + length ks)%nat
    /\ forall ch m, (ch, m) <> (Req, dma) -> t ch m = taken Y ch m.
Proof.
  intros A Hc Hks Hl. destruct Hc as [now|now delay e l1 l2 He|now delay ks].
  - exists (taken Y). split; [exact (offers_retry _ _ Y dmem now)|]. split; [cbn; lia|done].
  - exists (taken Y). split; [exact (offers_fire _ _ Y dmem now delay e l1 l2 He)|]. split; [cbn; lia|done].
  - destruct (pops_exist _ _ (DV := soc_bus junk) Y dmem Req dma ks (taken Y) Hks) as (t & Hp & Ht & Hto).
    { destruct Hks as [rest Hks]. pose proof (ad_dma _ A) as Hd. rewrite Hks in Hd.
      apply Forall_app in Hd as [Hd _]. eapply Forall_impl; [exact Hd|]. intros k Hk.
      eapply (routed_to Req dma 1); [done|]. by rewrite Hk. }
    exists t. split; [exact (offers_step _ _ Y dmem now delay ks t Hp Hl)|done].
Qed.

Lemma xstep_soc Y v' : addressed Y -> xstep (dma_view Y) v' ->
  exists Y', soc_step Y Y' /\ dma_view Y' = v' /\ waiting Y' Req cpu = waiting Y Req cpu.
Proof.
  intros A Hst. destruct Hst as [c pd resp d1 es ctr Ho E|d1 Hp|c pd ks m1 es Hc Hks Hl E|m1 Hp].
  - destruct (dma_offers_soc _ _ _ _ A Ho) as (t & Ho' & Ht & Hto). eexists. split; [by eapply (soc_calls Y dma)|].
    split; [|unfold waiting; cbn; by rewrite Hto]. unfold dma_view, with_dma. cbn. by rewrite Ht, Hto.
  - exists (Net _ _ (set_module dma d1 (dev Y)) (pend Y) (taken Y) (n_count _ _ Y)). split; [|done].
    apply (net_ports _ _ _ _ dma). split; try done. intros d' Hd. by destruct d'.
  - destruct (mem_offers_soc _ _ _ _ A Hc Hks Hl) as (t & Ho' & Ht & Hto). eexists.
    split; [by eapply (soc_calls Y dmem)|]. split; [|unfold waiting; cbn; by rewrite Hto].
    unfold dma_view, with_mem. cbn. by rewrite Ht, Hto, same_count.
  - exists (Net _ _ (set_module dmem m1 (dev Y)) (pend Y) (taken Y) (n_count _ _ Y)). split; [|done].
    apply (net_ports _ _ _ _ dmem). split; try done. intros d' Hd. by destruct d'.
Qed.

(** ** The whole transfer *)

(** The processor has put the writes that describe a transfer by the registers
    [r] into its request register, and nothing else is going on. *)
Definition armed (m0 : mem) (r : dma_regs) Y : Prop :=
  still Y /\ idle m0 (dma_view Y) /\
  exists ws, Forall2 posts (waiting Y Req cpu) ws /\ programs (d_regs (dev Y dma)) ws = Some r.

(** All writes have been taken, and nothing of the transfer is pending, in a
    queue, or in a register. *)
Definition transfer_over Y : Prop := waiting Y Req cpu = [] /\ quiet (dma_view Y).

Lemma armed_phase m0 r Y : armed m0 r Y -> phase m0 r Y.
Proof. intros (S & I & ws & Hp & Hws). by eapply ph_armed. Qed.

(** The controller takes the next write. *)
Lemma next_write m0 r Y k rest : good_tile r m0 -> armed m0 r Y -> waiting Y Req cpu = k :: rest ->
  exists Y', soc_step Y Y' /\ waiting Y' Req cpu = rest.
Proof.
  intros G Ha Hk. pose proof (phase_addressed _ _ _ (armed_phase _ _ _ Ha)) as A.
  destruct Ha as (S & I & ws & Hp & Hws). rewrite Hk in Hp.
  destruct (programming_call m0 r (dma_view Y) (CStep 0 0 [k]) (pend Y dma) [k] rest ws G I
    (pg_step (dma_view Y) 0 0 [k]) Hp Hws) as (d1 & es & n & E & _).
  destruct (pops_exist _ _ (DV := soc_bus junk) Y dma Req cpu [k] (taken Y)) as (t & Hpop & Ht & Hto).
  { exists rest. exact Hk. }
  { repeat constructor. eapply (routed_to Req cpu 0); [done|].
    pose proof (ad_cpu _ A) as Hd. rewrite Hk in Hd. apply Forall_cons in Hd as [-> _]. done. }
  eexists. split; [eapply (soc_calls Y dma)|].
  - apply (offers_step _ _ Y dma 0 0 [k] t Hpop). cbn. unfold slave_ports. lia.
  - exact E.
  - unfold waiting in *. cbn in *. by rewrite Ht, <- drop_drop, Hk.
Qed.

Context {PV : PipeRegisterLive PR}.

(** A run of the controller and the memory is one of the SoC. *)
Lemma xrun_soc m0 r v v' : good_tile r m0 -> rtc xstep v v' -> forall Y, phase m0 r Y -> dma_view Y = v ->
  exists Y', rtc soc_step Y Y' /\ dma_view Y' = v' /\ waiting Y' Req cpu = waiting Y Req cpu.
Proof.
  intros G. induction 1 as [v|v1 v2 v3 H12 _ IH]; intros Y P E; [by exists Y|]. subst v1.
  destruct (xstep_soc Y v2 (phase_addressed _ _ _ P) H12) as (Y1 & Hst & E1 & W1).
  destruct (IH Y1 (soc_step_phase _ _ _ _ G P Hst) E1) as (Y' & Hs & E' & W').
  exists Y'. split; [by eapply rtc_l|]. split; [done|congruence].
Qed.

Lemma phase_can_end m0 r Y : good_tile r m0 -> phase m0 r Y ->
  exists Y', rtc soc_step Y Y' /\ transfer_over Y'.
Proof.
  intros G. remember (waiting Y Req cpu) as ks eqn:Ek. revert Y Ek.
  induction ks as [|k ks IH]; intros Y Ek P.
  - destruct P as [ws S I Hp Hws|d lo xs S Hw Hs T].
    + rewrite <- Ek in Hp. by apply Forall2_nil_inv_l in Hp as ->.
    + destruct (transfer_can_end d m0 (started_plan _ _ _ G Hs) lo _ xs T) as (v' & xs' & Hrun & _ & Hq).
      destruct (xrun_soc m0 r _ _ G Hrun Y (ph_running _ _ _ d lo xs S Hw Hs T) eq_refl) as (Y' & Hst & <- & Hw').
      exists Y'. split; [done|]. split; [congruence|done].
  - destruct (P) as [ws S I Hp Hws|d lo xs S Hw Hs T]; [|congruence].
    destruct (next_write m0 r Y k ks G) as (Y1 & Hst & Hk); [split_and!; eauto|done|].
    destruct (IH Y1) as (Y' & Hrun & Ho); [done|by eapply soc_step_phase|]. exists Y'. split; [by eapply rtc_l|done].
Qed.

(** The end is final. *)
Lemma over_stays m0 r Y Y' : phase m0 r Y -> transfer_over Y -> soc_step Y Y' -> transfer_over Y'.
Proof.
  intros P [Hw Q] Hst. pose proof (phase_still _ _ _ P) as S. pose proof (phase_addressed _ _ _ P) as A.
  assert (Has : aside Y Y' -> transfer_over Y') by (intros [E _ E2]; split; [congruence|by rewrite E]).
  destruct Hst as [[] c Hc|[] Hm].
  - by eapply Has, cpu_call_aside.
  - destruct (mem_called_view Y c Y' S A Hc) as (_ & Hw' & _ & pd & ks & m1 & es & H1 & H2 & H3 & H4 & Hv).
    split; [congruence|]. eapply quiet_xstep; [exact Q|]. rewrite Hv. by eapply x_call_mem.
  - destruct (dma_called_view Y c Y' S A Hw Hc) as (_ & Hw' & Hx). split; [done|]. by eapply quiet_xstep.
  - by eapply Has, sa_call_aside.
  - by eapply Has, ports_aside; [..|left|].
  - destruct (mem_moved_view Y Y' S Hm) as (_ & Hw' & _ & m1 & Hp & Hv).
    split; [congruence|]. eapply quiet_xstep; [exact Q|]. rewrite Hv. by eapply x_ports_mem.
  - destruct (dma_moved_view Y Y' S Hm) as (_ & Hw' & Hp & Hv).
    split; [congruence|]. eapply quiet_xstep; [exact Q|]. rewrite Hv. by eapply x_ports_dma.
  - by eapply Has, ports_aside; [..|right|].
Qed.

Lemma over_final m0 r Y Y' : good_tile r m0 -> rtc soc_step Y Y' -> phase m0 r Y -> transfer_over Y ->
  transfer_over Y'.
Proof.
  intros G. induction 1 as [|Y1 Y2 Y3 Hst _ IH]; [done|]. intros P Ho.
  apply IH; [by eapply soc_step_phase|by eapply over_stays].
Qed.

(** What holds of memory, whatever the phase. *)
Lemma phase_memory m0 r Y : good_tile r m0 -> phase m0 r Y ->
  let m := dm_mem (dev Y dmem) in
  (forall a, 0 <= a -> (forall row col, in_tile r row col -> disjoint_words a (tile_dst r row col)) ->
     load m LW a = load m0 LW a)
  /\ (forall row col, in_tile r row col ->
     load m LW (tile_dst r row col) = load m0 LW (tile_dst r row col)
     \/ load m LW (tile_dst r row col) = load m0 LW (tile_src r row col))
  /\ (transfer_over Y ->
     (forall row col, in_tile r row col -> load m LW (tile_dst r row col) = load m0 LW (tile_src r row col))
     /\ (done (d_regs (dev Y dma)) = true
         \/ exists n, (n = 1 \/ n = 2 \/ n = 4) /\ geometry_words (tile_geometry r) mod 256 = n)).
Proof.
  intros G P m. destruct P as [ws S I Hp Hws|d lo xs S Hw Hs T].
  - unfold m. change (dm_mem (dev Y dmem)) with (dm_mem (x_mem (dma_view Y))). rewrite (id_mem _ _ I).
    split; [done|]. split; [by left|]. intros [Hw _]. rewrite Hw in Hp.
    by apply Forall2_nil_inv_l in Hp as ->.
  - pose proof (started_plan _ _ _ G Hs) as Hplan. destruct (tile_words r m0 d G Hs) as [W1 W2].
    pose proof (words_left _ _ _ _ _ T) as Hle. pose proof (ca_copying _ _ _ _ _ (proj1 T)) as [_ _ C3 C4 _ _].
    change (dm_mem (x_mem (dma_view Y))) with m in *.
    assert (Hsrc : forall j, 0 <= j < totalWords (d_track d) -> load m0 LW (src_word d j) = Ok (word d m0 j)).
    { intros j Hj. destruct (src_in _ _ Hplan j Hj). by apply word_of_load. }
    split_and!.
    + intros a Ha Hda. apply C3; [done|]. intros j Hj. destruct (W1 j) as (row & col & It & _ & ->); [lia|]. by apply Hda.
    + intros row col It. destruct (W2 row col It) as (j & Hj & Es & <-). rewrite <- Es, Hsrc by done.
      destruct (Z.lt_ge_cases j (wordsTransferred (d_track (x_dma (dma_view Y))))) as [Hlt|Hge].
      * destruct (C4 j) as [?|[? _]]; [lia|by right|by left].
      * left. apply C3; [by apply (dst_in _ _ Hplan)|]. intros i Hi. apply (dst_apart _ _ Hplan); lia.
    + intros [_ Hq]. destruct (quiet_copied d m0 lo _ xs T Hq) as (Q1 & _ & Q3). split.
      * intros row col It. destruct (W2 row col It) as (j & Hj & <- & <-). by rewrite Hsrc, <- Q1.
      * destruct Q3 as [?|(n & Hn & En)]; [by left|right]. exists n. split; [done|]. by rewrite <- (sd_total _ _ Hs).
Qed.
End Soc_transfer.

(** * Properties *)

Section Properties.
Context `{Framework} {PR : PipeRegister} {PL : PipeRegisterLaws PR} {PS : PipeRegisterSingle PR}.
Context (junk : nat -> nat -> nat -> Valid8) {X : CrossBar} {XL : CrossBarLaws X}.
Implicit Types Y : SOC.

(** C10. The processor has written source, destination and size of a tile that
    lies apart from its destination in the data memory, in any order, and
    then ENABLE. Whatever the framework then does, in whatever order packets
    are delivered, events fire, and registers are stalled and drained: outside
    the destination the data memory is as it was; every word of the
    destination is still the old one or already the word of the source, for
    tiles of up to the 16384 words that a size register can encode; and when
    nothing is pending, queued or on its way any more, every word has been
    copied and DONE is set, unless the number of words is 1, 2 or 4 modulo
    256. *)
Theorem soc_transfer_copies m0 r (Y0 Y : SOC) : good_tile r m0 -> armed junk m0 r Y0 ->
  rtc (net_step soc_state soc_event (DV := soc_bus junk)) Y0 Y ->
  let m := dm_mem (n_dev _ _ Y dmem) in
  (forall a, 0 <= a -> (forall row col, in_tile r row col -> disjoint_words a (tile_dst r row col)) ->
     load m LW a = load m0 LW a)
  /\ (forall row col, in_tile r row col ->
     load m LW (tile_dst r row col) = load m0 LW (tile_dst r row col)
     \/ load m LW (tile_dst r row col) = load m0 LW (tile_src r row col))
  /\ (transfer_over junk Y ->
     (forall row col, in_tile r row col -> load m LW (tile_dst r row col) = load m0 LW (tile_src r row col))
     /\ (done (d_regs (n_dev _ _ Y dma)) = true
         \/ exists n, (n = 1 \/ n = 2 \/ n = 4) /\ geometry_words (tile_geometry r) mod 256 = n)).
Proof. intros G A Hrun. apply (phase_memory junk m0 r Y G). by eapply soc_run_phase, armed_phase. Qed.

(** C11. Such a transfer cannot get stuck, and it ends once: from every state
    that the SoC can reach, whatever happened before, the framework can go on
    until all writes have been taken and nothing of the transfer is pending,
    queued or on its way; and then, whatever it does, nothing of the transfer
    comes back, and every word is and stays copied. *)
Theorem soc_transfer_completes {PV : PipeRegisterLive PR} m0 r (Y0 Y : SOC) :
  good_tile r m0 -> armed junk m0 r Y0 ->
  rtc (net_step soc_state soc_event (DV := soc_bus junk)) Y0 Y ->
  exists Y', rtc (net_step soc_state soc_event (DV := soc_bus junk)) Y Y'
    /\ forall Y'', rtc (net_step soc_state soc_event (DV := soc_bus junk)) Y' Y'' ->
         transfer_over junk Y'' /\
         forall row col, in_tile r row col ->
           load (dm_mem (n_dev _ _ Y'' dmem)) LW (tile_dst r row col) = load m0 LW (tile_src r row col).
Proof.
  intros G A Hrun. pose proof (soc_run_phase junk m0 r Y0 Y G Hrun (armed_phase junk m0 r Y0 A)) as P.
  destruct (phase_can_end junk m0 r Y G P) as (Y' & Hrun' & Ho). exists Y'. split; [done|]. intros Y'' Hrun2.
  pose proof (soc_run_phase junk m0 r Y Y' G Hrun' P) as P'.
  pose proof (over_final junk m0 r Y' Y'' G Hrun2 P' Ho) as Ho'. split; [done|].
  by destruct (phase_memory junk m0 r Y'' G (soc_run_phase junk m0 r Y' Y'' G Hrun2 P')) as (_ & _ & [? _]).
Qed.
End Properties.

(** * Witnesses *)

#[local] Existing Instance printing_framework.
#[local] Existing Instance SlotRegister.
#[local] Existing Instance plain_crossbar.

(** The processor asks for two rows of 7 bytes, from 0 to 16. *)
Definition w_write (ctr addr data : Z) : packet :=
  WriteReq (Construct_MemWritepkt_non_burst ctr auto_instr SW addr data "cpu").1.
Definition w_posts : list packet :=
  [w_write 0 DMA_SRC 0; w_write 1 DMA_SIZE_CFG w_cfg; w_write 2 DMA_DST 16; w_write 3 DMA_ENABLE 1].
Definition w_programmer : CPU := CPU_new (SlotReg false false w_posts) 4.
Definition w_tile : dma_regs := DmaRegs false false 0 16 w_cfg.
Definition w_armed : SOC :=
  Net soc_state soc_event
    (soc_modules (w_programmer, idle_cfu) (DMem w_bytes ∅ [] empty_slot) w_idle_dma w_idle_sa)
    (soc_pending [] [] [] []) (fun _ _ => 0%nat) 4.

Lemma w_tile_good : good_tile w_tile w_bytes.
Proof.
  split; [apply w_bytes_wf|by vm_compute|by vm_compute|by vm_compute|right; by vm_compute|..].
  - unfold in_tile, tile_src, tile_dst, disjoint_words.
    change (tile_geometry w_tile) with (DmaGeometry 7 2 8 12 14).
    change (words_per_row (DmaGeometry 7 2 8 12 14)) with 2. cbn. lia.
  - unfold in_tile, tile_src, tile_dst. change (tile_geometry w_tile) with (DmaGeometry 7 2 8 12 14).
    change (words_per_row (DmaGeometry 7 2 8 12 14)) with 2. cbn [true_height Source_stride Dest_stride srcAddr dstAddr w_tile].
    intros row col [Hr Hc]. assert (row = 0 \/ row = 1) as [-> | ->] by lia;
      assert (col = 0 \/ col = 1) as [-> | ->] by lia; by vm_compute.
Qed.

Lemma w_armed_armed : armed w_junk w_bytes w_tile w_armed.
Proof.
  split; [by repeat split|]. split; [by split|].
  exists (flat_map (fun q => match q with WriteReq p => pk_payloads p | _ => [] end) w_posts).
  split; [|by vm_compute].
  change (waiting w_junk w_armed Req cpu) with w_posts. repeat constructor; by eexists.
Qed.

(** The transfer runs to its end, and the last word of the tile has arrived. *)
Lemma soc_transfer_copies_witness :
  exists Y, rtc (net_step soc_state soc_event (DV := soc_bus w_junk)) w_armed Y
    /\ load (dm_mem (n_dev _ _ Y dmem)) LW 32 = Ok 0x0F0E0D0C
    /\ load (dm_mem (n_dev _ _ Y dmem)) LW 24 = load w_bytes LW 24.
Proof.
  destruct (phase_can_end (XL := plain_crossbar_laws) (PV := SlotRegisterLive) w_junk w_bytes w_tile w_armed
    w_tile_good (armed_phase w_junk _ _ _ w_armed_armed)) as (Y & Hrun & Ho).
  destruct (soc_transfer_copies (XL := plain_crossbar_laws) w_junk w_bytes w_tile w_armed Y
    w_tile_good w_armed_armed Hrun) as (Hkept & _ & Hend).
  exists Y. split; [exact Hrun|]. split.
  - etrans; [exact (proj1 (Hend Ho) 1 1 ltac:(by vm_compute))|by vm_compute].
  - apply Hkept; [done|]. unfold in_tile, tile_dst, disjoint_words.
    change (tile_geometry w_tile) with (DmaGeometry 7 2 8 12 14).
    change (words_per_row (DmaGeometry 7 2 8 12 14)) with 2. cbn. lia.
Defined.

Lemma soc_transfer_completes_witness :
  exists Y, rtc (net_step soc_state soc_event (DV := soc_bus w_junk)) w_armed Y /\ transfer_over w_junk Y
    /\ load (dm_mem (n_dev _ _ Y dmem)) LW 32 = Ok 0x0F0E0D0C.
Proof.
  destruct (soc_transfer_completes (XL := plain_crossbar_laws) (PV := SlotRegisterLive) w_junk w_bytes w_tile
    w_armed w_armed w_tile_good w_armed_armed (rtc_refl _ _)) as (Y & Hrun & Hend).
  destruct (Hend Y (rtc_refl _ _)) as [Ho Hw]. exists Y. split; [exact Hrun|]. split; [exact Ho|].
  etrans; [exact (Hw 1 1 ltac:(by vm_compute))|by vm_compute].
Defined.
