(* ===== verification/Timed.v ===== *)
(** The network of [Network] in time: an event fires in its tick, the clock
    does not pass a pending event, and a register hands over at most one
    packet in a tick. *)
From S2P Require Import Prelude Machine DataStruct Bus Device Network.
Local Open Scope Z_scope.

Section Timed.
Context {D : Type} `{EqDecision D} (St Ev : D -> Type) `{DV : forall d, BusDevice (St d) (Ev d)}.
Context `{W : Wiring D} `{X : CrossBar}.

(** The tick of an event; [None] for a packet on its way. *)
Context (event_tick : forall d, Ev d -> option Z) (delay : Z).

Abbreviation net := (net St Ev).

(** [tm_base]: what had been taken from the registers when the tick began. *)
Record timed : Type := Timed {
  tm_now : Z;
  tm_base : channel -> D -> nat;
  tm_net : net;
}.

Definition on_time (now : Z) (d : D) (c : call (Ev d)) : Prop :=
  match c with
  | CStep t l _ => t = now /\ l = delay
  | CFire t l e => t = now /\ l = delay /\ forall t', event_tick d e = Some t' -> t' = now
  | CRetry t => t = now
  end.

Inductive timed_step : timed -> timed -> Prop :=
  | timed_call now base Y d c Y' :
      called St Ev Y d c Y' -> on_time now d c ->
      (forall ch m, n_taken _ _ Y' ch m <= S (base ch m))%nat ->
      timed_step (Timed now base Y) (Timed now base Y')
  | timed_ports now base Y d Y' :
      moved St Ev Y d Y' -> timed_step (Timed now base Y) (Timed now base Y')
  | timed_tick now base Y :
      (forall d e t, e ∈ n_pend _ _ Y d -> event_tick d e = Some t -> now < t) ->
      timed_step (Timed now base Y) (Timed (now + 1) (n_taken _ _ Y) Y).

(** It is a run of the network. *)
Lemma timed_run y y' : rtc timed_step y y' -> rtc (net_step St Ev) (tm_net y) (tm_net y').
Proof.
  induction 1 as [|y1 y2 y3 H12 _ IH]; [done|]. etrans; [|exact IH].
  destruct H12 as [now base Y d c Y' Hc _ _|now base Y d Y' Hm|now base Y _]; cbn.
  - by eapply rtc_once, net_call.
  - by eapply rtc_once, net_ports.
  - done.
Qed.

End Timed.
