(* ===== verification/SocExec.v ===== *)
(** One execution of the processor of the SoC against one step of the
    reference machine: what it leaves in the processor, which request it
    sends, and how a response completes it. *)
From S2P Require Import Prelude Machine DataStruct Memory Bus DataMemory Cfu Isa Reference Cpu CpuRef.
From S2P Require Import Soc Device SocDevices SocAccess.
Local Open Scope Z_scope.

Section Execution.
Context `{Framework} {PR : PipeRegister} {PL : PipeRegisterLaws PR}.
Context (imem : list instr) (Himem : Forall wf_used imem).
Implicit Types (x : rv_state) (s : CPU).

(** * One execution *)

(** Registers, program counter and instruction memory are those of the
    reference. *)
Record matches x s : Prop := {
  ma_view : x0_view (x_clean x) (c_rf s) (x_rf x);
  ma_pc : c_pc s = x_pc x;
  ma_mem : wf_mem (x_mem x);
  ma_imem : c_imem s = imem;
}.

(** Nothing of the bus changes but the counter of transactions. *)
Definition same_bus s s' : Prop := c_reg s' = c_reg s /\ c_queue s' = c_queue s.

(** One request was sent, or waits. *)
Definition sent (b : beat) s s' : Prop :=
  exists q, single b q /\ accepted (c_reg s) `prefix_of` accepted (c_reg s')
    /\ accepted (c_reg s') ++ c_queue s' = accepted (c_reg s) ++ [q].

(** What an execution of [i], which takes the reference from [x] to [x'], does
    in tick [t] to the processor and which events it schedules. *)
Inductive executes (x x' : rv_state) (i : instr) (t : Z) (s s' : CPU) : list core_event -> Prop :=
  | ex_retired : matches x' s' -> x_mem x' = x_mem x -> same_bus s s' ->
      executes x x' i t s s' (if decide (i_op i = HCF) then [] else [CoreExec (t + 1)])
  | ex_loading p : is_load (i_op i) = true -> matches x s' -> sent (RBeat p) s s' ->
      rq_i p = i -> rq_op p = i_op i -> rq_addr p = access_addr i (x_rf x) -> rq_a1 p = i_a1 i ->
      executes x x' i t s s' []
  | ex_stored p : is_store (i_op i) = true -> matches x' s' -> sent (WBeat p) s s' ->
      store (x_mem x) (wq_op p) (wq_addr p) (wq_data p) = Ok (x_mem x') ->
      executes x x' i t s s' [CoreExec (t + 1)]
  | ex_refused q : WriteReq q ∈ c_queue s' -> executes x x' i t s s' []
  | ex_simd : is_simd (i_op i) = true -> matches x s' -> same_bus s s' ->
      executes x x' i t s s'
        [CoreToCfu (Cfu.CFUReq i (xget (x_rf x) (o_reg (i_a2 i))) (xget (x_rf x) (o_reg (i_a3 i))))].

(** The next step of the reference. *)
Abbreviation next x x' i := (soc_next (fetch_imem imem) x = Some (x', i)).

Lemma matches_next x x' i s v s' : matches x s -> next x x' i ->
  x0_view (clean_after (x_clean x) i) v (x_rf x') -> c_rf s' = v -> c_pc s' = x_pc x' ->
  c_imem s' = c_imem s -> matches x' s'.
Proof.
  intros M (Hi & _ & _ & Hs & Ecl)%soc_next_inv Hv <- Hpc Him.
  split; try done; [by rewrite Ecl| |by rewrite Him, (ma_imem _ _ M)].
  eapply soc_mstep_wf; [apply (ma_mem _ _ M)|exact Hs].
Qed.

Lemma next_used x x' i : next x x' i -> wf_used i.
Proof. intros (Hi & _)%soc_next_inv. by apply (Forall_lookup_1 _ _ _ _ Himem Hi). Qed.

Lemma writes_none_clean c i : writes_rd (i_op i) = false -> clean_after c i = c.
Proof. unfold clean_after. intros ->. by rewrite andb_true_r. Qed.

(** A request that is handed over. *)
Lemma try_push_sent b q s s' ok r : single b q -> c_queue s = [] -> try_push (c_reg s) q = (ok, r) ->
  c_reg s' = r -> c_queue s' = (if ok then [] else [q]) -> sent b s s'.
Proof.
  intros Hq Hs Hp <- Hq'. exists q. rewrite Hq'. destruct ok.
  - apply try_push_true in Hp. rewrite Hp. split_and!; [done|by eexists|by rewrite app_nil_r].
  - by apply try_push_false in Hp as ->.
Qed.

(** Only an execution begins an instruction. *)
Lemma increments t s s' w : outcome (execOneInstr t) s = Ok (s', w) -> c_inst_cnt s < 2 ^ 31 - 1.
Proof.
  destruct (Z.ltb_spec (c_inst_cnt s) (2 ^ 31 - 1)) as [|Hge]; [done|].
  unfold outcome, execOneInstr. step_monad. destruct (fetchInstr _ _); [|done]. cbn.
  unfold processInstr, incrementInstCount. step_monad.
  by rewrite (proj2 (Z.ltb_ge _ _)) by exact Hge.
Qed.

Ltac count_steps :=
  repeat first
    [ wp_step
    | progress unfold read_rf, write_rf, finish, commitInstr, advance_pc, CFUReq, BusMemRead, BusmemWrite ];
  cbn; try lia.

Lemma exec_counts t s : wp (execOneInstr t) (fun _ s' _ => c_inst_cnt s' = c_inst_cnt s + 1) s.
Proof. unfold execOneInstr, processInstr, incrementInstCount. count_steps. Qed.

Lemma retry_counts t s : wp (Cpu.masterPortRetry t) (fun _ s' _ => c_inst_cnt s' = c_inst_cnt s) s.
Proof. unfold Cpu.masterPortRetry. count_steps. Qed.

Lemma resp_counts t r v i s :
  wp (write_rf r v;; commitInstr t i;; advance_pc) (fun _ s' _ => c_inst_cnt s' = c_inst_cnt s) s.
Proof. count_steps. Qed.

Lemma item_counts t it c s : c_inst_cnt s = c ->
  wp (Cpu.step_item t it) (fun _ s' _ => c_inst_cnt s' = c) s.
Proof.
  intros <-. unfold Cpu.step_item, memWriteXBarRespHandler. wp_steps; try done.
  apply (wp_foreach _ _ (fun s' => c_inst_cnt s' = c_inst_cnt s)); [done|].
  intros b s1 _ <-. apply resp_counts.
Qed.

(** Only an execution begins an instruction. *)
Lemma core_begins c k (s u s' u' : _) es c' : core_run c k (s, u) = Ok ((s', u'), es, c') ->
  c_inst_cnt s' = c_inst_cnt s
  \/ c_inst_cnt s' = c_inst_cnt s + 1 /\ exists now delay t, k = CFire now delay (CoreExec t).
Proof.
  destruct k as [now delay popped|now delay [t|p|p]|now]; cbn.
  3: by intros ([? ?] & _ & [= <- <- <- <-])%bind_ok; left.
  all: intros ([s1 w] & E & [= <- <- <- <-])%bind_ok.
  2: { right. split; [|by eexists _, _, _].
       refine (wp_outcome _ (fun s1 _ => c_inst_cnt s1 = c_inst_cnt s + 1) _ _ _ _ E).
       apply (exec_counts t (set_bus (c_queue s) (c_reg s) c s)). }
  all: left; refine (wp_outcome _ (fun s1 _ => c_inst_cnt s1 = c_inst_cnt s) _ _ _ _ E).
  - apply (wp_foreach _ _ (fun s' => c_inst_cnt s' = c_inst_cnt s)); [done|].
    intros it s2 _ Hs. by apply item_counts.
  - apply (resp_counts _ _ _ _ (set_bus (c_queue s) (c_reg s) c s)).
  - apply (retry_counts _ (set_bus (c_queue s) (c_reg s) c s)).
Qed.

Lemma core_counts c k (s u s' u' : _) es c' : core_run c k (s, u) = Ok ((s', u'), es, c') ->
  c_inst_cnt s <= c_inst_cnt s'.
Proof. intros [->|[-> _]]%core_begins; lia. Qed.

Section Succeeds.
Context (x x' : rv_state) (i : instr) (t : Z) (s : CPU) (M : matches x s) (Hn : next x x' i) (Hq : c_queue s = []).
Context (Hcnt : c_inst_cnt s < 2 ^ 31 - 1).

Definition succeeds (m : Prelude.M CPU cpu_effect unit) : Prop :=
  exists s' w, outcome m s = Ok (s', w) /\ executes x x' i t s s' (map core_event_of w)
    /\ (open_reg (c_reg s) -> c_queue s' = []).

Lemma next_source r : r ∈ sources i -> rf_get r (c_rf s) = Ok (xget (x_rf x) r).
Proof.
  apply (src_get i s _ _ (ma_view _ _ M) (next_used _ _ _ Hn)).
  by pose proof (soc_next_inv _ _ _ _ Hn) as (_ & ? & _).
Qed.

(** The access goes to the data memory. *)
Lemma next_slave : is_load (i_op i) || is_store (i_op i) = true ->
  slaveIndex (add32 (xget (x_rf x) (o_reg (i_a2 i))) (o_imm (i_a3 i))) = 0%nat.
Proof.
  intros Hk. pose proof (soc_next_inv _ _ _ _ Hn) as (_ & _ & Hto & _).
  unfold to_memory in Hto. rewrite Hk in Hto. by apply bool_decide_eq_true in Hto.
Qed.

Lemma simd_succeeds : is_simd (i_op i) = true -> succeeds (processInstr t i).
Proof.
  intros Hk. pose proof (sources_rr i ltac:(by rewrite Hk, orb_true_r)) as Es.
  eexists _, _. split.
  { apply (processInstr_simd t i s (xget (x_rf x) (o_reg (i_a2 i))) (xget (x_rf x) (o_reg (i_a3 i))) Hk Hcnt);
      apply next_source; rewrite Es; [left|right; left]. }
  split; [by apply ex_simd; [|destruct M; split|]|done].
Qed.

Lemma load_succeeds : is_load (i_op i) = true -> succeeds (processInstr t i).
Proof.
  intros Hk. pose proof (sources_one i ltac:(by rewrite Hk, orb_true_r)) as Es. unfold succeeds.
  rewrite (processInstr_load t i s (xget (x_rf x) (o_reg (i_a2 i))) Hk Hcnt), load_request_eq
    by (apply next_source; rewrite Es; left).
  destruct (try_push _ _) as [ok r] eqn:Hp. eexists _, _. split; [reflexivity|]. split.
  - eapply (ex_loading _ _ _ _ _ _ (ReadReqPayload "cpu" (c_ctr s) i (i_op i) (access_addr i (x_rf x)) (i_a1 i)));
      try done; [by destruct M; split|].
    eapply try_push_sent; [|exact Hq|exact Hp|done|by cbn; destruct ok; rewrite Hq].
    split; [done|]. exists (c_ctr s). unfold load_request. by rewrite next_slave by (by rewrite Hk).
  - intros Ho. eapply open_push in Ho as [r' E]. rewrite E in Hp. by injection Hp as <- _.
Qed.

Lemma store_succeeds : is_load (i_op i) = false -> is_simd (i_op i) = false ->
  is_store (i_op i) = true -> succeeds (processInstr t i).
Proof.
  intros Hl Hsi Hk. pose proof (sources_two i ltac:(by rewrite Hk, orb_true_r)) as Es.
  pose proof (soc_next_inv _ _ _ _ Hn) as (_ & _ & _ & Hs & _).
  unfold soc_mstep, rv32_mstep in Hs. rewrite Hsi, Hl, Hk in Hs.
  destruct (store _ _ _ _) as [m'|] eqn:Hst; [|done]. injection Hs as Hrf Hm Hpc. unfold succeeds.
  rewrite (processInstr_store t i s (xget (x_rf x) (o_reg (i_a2 i))) (xget (x_rf x) (o_reg (i_a1 i))) Hk Hcnt),
    store_request_eq by (apply next_source; rewrite Es; first [right; left | left]).
  destruct (try_push _ _) as [[] r] eqn:Hp; (eexists _, _; split; [reflexivity|]; split).
  - eapply (ex_stored _ _ _ _ _ _ (WriteReqPayload "cpu" (c_ctr s) i (i_op i) (access_addr i (x_rf x))
      (xget (x_rf x) (o_reg (i_a1 i))))); [done|..|by rewrite <- Hm].
    + eapply matches_next; [done..| |done| |done].
      * rewrite <- Hrf, writes_none_clean by (by destruct (i_op i)). apply (ma_view _ _ M).
      * by rewrite <- Hpc, <- (ma_pc _ _ M).
    + eapply try_push_sent; [|exact Hq|exact Hp|done|done]. split; [done|]. exists (c_ctr s).
      unfold store_request. by rewrite next_slave by (by rewrite Hk, orb_true_r).
  - done.
  - eapply ex_refused. cbn. apply elem_of_app. right. apply list_elem_of_here.
  - intros Ho. eapply open_push in Ho as [r' E]. rewrite E in Hp. done.
Qed.

Lemma other_succeeds : is_load (i_op i) = false -> is_simd (i_op i) = false ->
  is_store (i_op i) = false -> succeeds (processInstr t i).
Proof.
  intros Hl Hsi Hk. pose proof (soc_next_inv _ _ _ _ Hn) as (_ & Hc & _ & Hs & _).
  rewrite <- (ma_pc _ _ M) in Hs.
  destruct (process_retires t i s (x_clean x) (x_rf x) (x_mem x) (ma_view _ _ M) (next_used _ _ _ Hn)
    Hc Hcnt _ _ _ Hl Hk Hsi Hs) as (Hm & v & E & Hv).
  eexists _, _. split; [exact E|]. split; [|done].
  assert (Hev : forall e : cpu_effect, map core_event_of (if decide (i_op i = HCF) then [] else [e])
    = if decide (i_op i = HCF) then [] else [core_event_of e]) by (intros; by case_decide).
  rewrite Hev. apply ex_retired; [|done|done]. by eapply matches_next.
Qed.

(** An execution that the reference can follow succeeds. *)
Lemma exec_succeeds : succeeds (execOneInstr t).
Proof.
  pose proof (soc_next_inv _ _ _ _ Hn) as (Hi & _).
  assert (Hex : outcome (execOneInstr t) s = outcome (processInstr t i) s).
  { unfold outcome, execOneInstr. step_monad. unfold fetchInstr. unfold fetch_imem in Hi.
    rewrite (ma_imem _ _ M), (ma_pc _ _ M), Hi. cbn. by destruct (processInstr t i s) as [[[]]|]. }
  unfold succeeds. rewrite Hex. destruct (is_simd (i_op i)) eqn:Hsi; [by apply simd_succeeds|].
  destruct (is_load (i_op i)) eqn:Hl; [by apply load_succeeds|].
  destruct (is_store (i_op i)) eqn:Hk; [by apply store_succeeds|by apply other_succeeds].
Qed.
End Succeeds.

Lemma exec_executes x x' i t s s' w : matches x s -> next x x' i -> c_queue s = [] ->
  outcome (execOneInstr t) s = Ok (s', w) -> executes x x' i t s s' (map core_event_of w).
Proof.
  intros M Hn Hq E. destruct (exec_succeeds x x' i t s M Hn Hq (increments _ _ _ _ E)) as (s1 & w1 & E1 & He & _).
  rewrite E in E1. by injection E1 as -> ->.
Qed.

(** The value of a load, or of the function unit, completes the step. *)
Definition completed x' s s' : Prop :=
  matches x' s' /\ same_bus s s' /\ c_inst_cnt s' = c_inst_cnt s.

Lemma value_completes x x' i s v : matches x s -> next x x' i -> is_u 32 v ->
  writes_rd (i_op i) = true -> is_nop i = false ->
  x_rf x' = xset (o_reg (i_a1 i)) v (x_rf x) -> x_pc x' = add32 (x_pc x) 4 ->
  exists rf, rf_set (o_reg (i_a1 i)) v (c_rf s) = Ok rf
    /\ completed x' s (set_pc (add32 (c_pc s) 4) (set_rf rf s)).
Proof.
  intros M Hn Hv Hw Hnop Hrf Hpc.
  destruct (view_write (x_clean x) i (c_rf s) (x_rf x) v) as (rf & E & Hrf'); try done;
    [apply (ma_view _ _ M)|by eapply next_used|by rewrite Hnop|].
  exists rf. split; [exact E|]. split; [|done]. rewrite <- Hrf in Hrf'.
  eapply matches_next; [done..| |done]. cbn. by rewrite Hpc, (ma_pc _ _ M).
Qed.

Lemma load_completes x x' i s t r : matches x s -> next x x' i -> is_load (i_op i) = true ->
  rr_i r = i -> rr_a1 r = i_a1 i ->
  load (x_mem x) (i_op i) (access_addr i (x_rf x)) = Ok (rr_data r) ->
  x_mem x' = x_mem x /\ exists s', memReadRespHandler t r s
    = Ok (tt, s', [ExecOneInstrEvent (t + 1) (c_inst_cnt s)]) /\ completed x' s s'.
Proof.
  intros M Hn Hl Hi Ha Hv. pose proof (soc_next_inv _ _ _ _ Hn) as (_ & _ & _ & Hs & _).
  assert (is_simd (i_op i) = false) as Hsi by (by destruct (i_op i)).
  unfold soc_mstep, rv32_mstep in Hs. rewrite Hsi, Hl in Hs.
  change (load _ _ _) with (load (x_mem x) (i_op i) (access_addr i (x_rf x))) in Hs. rewrite Hv in Hs. injection Hs as Hrf Hm Hpc.
  split; [done|].
  destruct (value_completes x x' i s (rr_data r) M Hn) as (rf & E & Hc); try done.
  - by eapply load_range, Hv; apply (ma_mem _ _ M).
  - unfold writes_rd. by rewrite Hl, !orb_true_r.
  - unfold is_nop. by destruct (i_op i).
  - rewrite <- Ha in E. rewrite (memReadRespHandler_ok t r s rf E) by (rewrite Hi; by destruct (i_op i)).
    by eexists.
Qed.

Lemma simd_completes x x' i s t v : matches x s -> next x x' i -> is_simd (i_op i) = true ->
  simd_spec (i_op i) (xget (x_rf x) (o_reg (i_a2 i))) (xget (x_rf x) (o_reg (i_a3 i))) = Some v ->
  x_mem x' = x_mem x /\ exists s', CFURespHandler t (CFUResp i v) s
    = Ok (tt, s', [ExecOneInstrEvent (t + 1) (c_inst_cnt s)]) /\ completed x' s s'.
Proof.
  intros M Hn Hk Hv. pose proof (soc_next_inv _ _ _ _ Hn) as (_ & _ & _ & Hs & _).
  unfold soc_mstep in Hs. rewrite Hk, Hv in Hs. apply (inj Some) in Hs as [= Hrf Hm Hpc].
  split; [done|].
  destruct (value_completes x x' i s v M Hn) as (rf & E & Hc); try done.
  - by eapply simd_range.
  - unfold writes_rd. by rewrite Hk, !orb_true_r.
  - unfold is_nop. by destruct (i_op i).
  - rewrite (CFURespHandler_ok t (CFUResp i v) s rf E) by (cbn; by destruct (i_op i)). by eexists.
Qed.
End Execution.
