(* ===== verification/SocLink.v ===== *)
(** The processor, the data memory and the two registers of the bus between
    them, in time, and the reference machine: what the processor waits for,
    the accesses and the values that are on their way are, at every moment,
    those of the reference. *)
From S2P Require Import Prelude Machine DataStruct Memory Bus DataMemory Cfu Isa Reference Cpu CpuRef.
From stdpp Require Import sorting.
From S2P Require Import Device SocDevices SocAccess SocExec.
Local Open Scope Z_scope.

Section Link.
Context `{Framework} {PR : PipeRegister} {PL : PipeRegisterLaws PR}.
Context (delay : Z) (Hdelay : 0 <= delay).

(** * The processor and the memory, in time *)

(** [l_req] and [l_resp] packets have left the registers, [l_req0] and
    [l_resp0] of them before tick [l_now] began. *)
Record link : Type := Link {
  l_now : Z;
  l_cpu : CPU; l_events : list core_event;
  l_mem : DataMemory; l_sched : list (Z * dm_event);
  l_req : nat; l_resp : nat; l_req0 : nat; l_resp0 : nat;
}.
Implicit Types v : link.

Definition on_core (s : CPU) (evs : list core_event) (resp : nat) v : link :=
  Link (l_now v) s evs (l_mem v) (l_sched v) (l_req v) resp (l_req0 v) (l_resp0 v).
Definition on_mem (d : DataMemory) (evs : list (Z * dm_event)) (req : nat) v : link :=
  Link (l_now v) (l_cpu v) (l_events v) d evs req (l_resp v) (l_req0 v) (l_resp0 v).
Definition next_tick v : link :=
  Link (l_now v + 1) (l_cpu v) (l_events v) (l_mem v) (l_sched v) (l_req v) (l_resp v) (l_req v) (l_resp v).

Definition core_tick (e : core_event) : option Z :=
  match e with CoreExec t => Some t | _ => None end.

(** The calls of the processor in this tick, the events that remain and what
    has then left the register of the memory. *)
Inductive core_offer v : call core_event -> list core_event -> nat -> Prop :=
  | core_retry : core_offer v (CRetry (l_now v)) (l_events v) (l_resp v)
  | core_fire e l1 l2 : l_events v = l1 ++ e :: l2 ->
      (forall t, core_tick e = Some t -> t = l_now v) ->
      core_offer v (CFire (l_now v) delay e) (l1 ++ l2) (l_resp v)
  | core_step ks : ks `prefix_of` drop (l_resp v) (accepted (dm_reg (l_mem v))) ->
      (l_resp v + length ks <= S (l_resp0 v))%nat ->
      core_offer v (CStep (l_now v) delay ks) (l_events v) (l_resp v + length ks).

Inductive mem_offer v : call (Z * dm_event) -> list (Z * dm_event) -> nat -> Prop :=
  | mem_retry : mem_offer v (CRetry (l_now v)) (l_sched v) (l_req v)
  | mem_fire e l1 l2 : l_sched v = l1 ++ e :: l2 -> e.1 = l_now v ->
      mem_offer v (CFire (l_now v) delay e) (l1 ++ l2) (l_req v)
  | mem_step ks : ks `prefix_of` drop (l_req v) (accepted (c_reg (l_cpu v))) ->
      (l_req v + length ks <= S (l_req0 v))%nat ->
      mem_offer v (CStep (l_now v) delay ks) (l_sched v) (l_req v + length ks).

Inductive link_step v : link -> Prop :=
  | link_core n c pend resp u s u' es n' :
      core_offer v c pend resp -> core_run n c (l_cpu v, u) = Ok ((s, u'), es, n') ->
      link_step v (on_core s (pend ++ es) resp v)
  | link_mem n c pend req d es n' :
      mem_offer v c pend req -> dm_run n c (l_mem v) = Ok (d, es, n') ->
      link_step v (on_mem d (pend ++ es) req v)
  | link_core_port r : accepted r = accepted (c_reg (l_cpu v)) ->
      link_step v (on_core (set_bus (c_queue (l_cpu v)) r (c_ctr (l_cpu v)) (l_cpu v))
        (l_events v) (l_resp v) v)
  | link_mem_port r : accepted r = accepted (dm_reg (l_mem v)) ->
      link_step v (on_mem (DMem (dm_mem (l_mem v)) (dm_pending (l_mem v)) (dm_respQ (l_mem v)) r)
        (l_sched v) (l_req v) v)
  | link_tick :
      (forall e t, e ∈ l_events v -> core_tick e = Some t -> l_now v < t) ->
      Forall (fun e => l_now v < e.1) (l_sched v) ->
      link_step v (next_tick v).

(** ** What is on its way *)

(** The accesses: scheduled at the memory, or in packets that have not been
    popped. *)
Definition scheduled v : list (Z * beat) := omap event_access (l_sched v).
Definition requests v : list packet :=
  drop (l_req v) (accepted (c_reg (l_cpu v))) ++ c_queue (l_cpu v).
Definition accesses v : list beat := map snd (scheduled v) ++ flat_map packet_beats (requests v).

(** The responses that have not reached the processor, and the values of the
    loads among them. *)
Definition undelivered v : list packet :=
  drop (l_resp v) (accepted (dm_reg (l_mem v))) ++ dm_respQ (l_mem v).
Definition values v : list XBarMemReadRespPayload := omap read_reply (undelivered v).

(** Every request and every response is of one access of the processor, and
    the accesses at the memory are due in the order of their requests. *)
Record frame v : Prop := {
  fr_requests : Forall (fun q => exists b, single b q) (accepted (c_reg (l_cpu v)) ++ c_queue (l_cpu v));
  fr_req : (l_req0 v <= l_req v <= length (accepted (c_reg (l_cpu v))))%nat;
  fr_callers : Forall (fun tb => beat_caller tb.2 = "cpu"%string) (scheduled v);
  fr_replies : Forall reply (accepted (dm_reg (l_mem v)) ++ dm_respQ (l_mem v));
  fr_resp : (l_resp0 v <= l_resp v <= length (accepted (dm_reg (l_mem v))))%nat;
  fr_trackers : plain_trackers (l_mem v);
  fr_exec_due : forall e t, e ∈ l_events v -> core_tick e = Some t -> l_now v <= t;
  fr_mem_due : Forall (fun e => l_now v <= e.1) (l_sched v);
  fr_sorted : StronglySorted Z.lt (map fst (scheduled v));
  fr_horizon : Forall (fun tb => tb.1 <= l_now v + delay) (scheduled v);
  fr_fresh : l_req v = l_req0 v -> Forall (fun tb => tb.1 < l_now v + delay) (scheduled v);
}.

(** * The invariant *)

Context (imem : list instr) (Himem : Forall wf_used imem) (x0 : rv_state).
Abbreviation next x x' i := (soc_next (fetch_imem imem) x = Some (x', i)).

(** What the processor waits for: [E] are its events, [A] the accesses and
    [R] the loaded values on their way, [m] is the memory, [cnt] the number of
    instructions that were begun and [tr] those that the reference has
    executed, no [hcf] among them until the end. The stores on their way lead to
    the memory of the reference. *)
Definition live (tr : list instr) : Prop := Forall (fun i => i_op i <> HCF) tr.

Inductive phase (E : list core_event) (A : list beat) (R : list XBarMemReadRespPayload) (m : mem)
    (cnt : Z) (x : rv_state) (tr : list instr) : Prop :=
  | ph_ready t ws :
      E = [CoreExec t] -> A = map WBeat ws -> R = [] -> store_all ws m = Ok (x_mem x) ->
      cnt = Z.of_nat (length tr) -> live tr -> phase E A R m cnt x tr
  | ph_done ws i tr' :
      E = [] -> A = map WBeat ws -> R = [] -> store_all ws m = Ok (x_mem x) ->
      cnt = Z.of_nat (length tr) -> tr = i :: tr' -> i_op i = HCF -> live tr' -> phase E A R m cnt x tr
  | ph_load ws p x' i :
      E = [] -> A = map WBeat ws ++ [RBeat p] -> R = [] -> store_all ws m = Ok (x_mem x) ->
      cnt = Z.of_nat (length tr) + 1 -> live tr -> next x x' i -> is_load (i_op i) = true ->
      rq_i p = i -> rq_op p = i_op i -> rq_addr p = access_addr i (x_rf x) -> rq_a1 p = i_a1 i ->
      phase E A R m cnt x tr
  | ph_value r x' i :
      E = [] -> A = [] -> R = [r] -> m = x_mem x ->
      cnt = Z.of_nat (length tr) + 1 -> live tr -> next x x' i -> is_load (i_op i) = true ->
      rr_i r = i -> rr_a1 r = i_a1 i ->
      load (x_mem x) (i_op i) (access_addr i (x_rf x)) = Ok (rr_data r) ->
      phase E A R m cnt x tr
  | ph_cfu ws x' i :
      E = [CoreToCfu (Cfu.CFUReq i (xget (x_rf x) (o_reg (i_a2 i))) (xget (x_rf x) (o_reg (i_a3 i))))] ->
      A = map WBeat ws -> R = [] -> store_all ws m = Ok (x_mem x) ->
      cnt = Z.of_nat (length tr) + 1 -> live tr -> next x x' i -> is_simd (i_op i) = true ->
      phase E A R m cnt x tr
  | ph_result ws x' i r :
      E = [CoreFromCfu (CFUResp i r)] ->
      A = map WBeat ws -> R = [] -> store_all ws m = Ok (x_mem x) ->
      cnt = Z.of_nat (length tr) + 1 -> live tr -> next x x' i -> is_simd (i_op i) = true ->
      simd_spec (i_op i) (xget (x_rf x) (o_reg (i_a2 i))) (xget (x_rf x) (o_reg (i_a3 i))) = Some r ->
      phase E A R m cnt x tr.

Definition in_phase v (x : rv_state) (tr : list instr) : Prop :=
  phase (l_events v) (accesses v) (values v) (dm_mem (l_mem v)) (c_inst_cnt (l_cpu v)) x tr.

(** The processor follows the reference. *)
Definition following v : Prop :=
  exists x tr, soc_ref_run (length tr) (fetch_imem imem) x0 = Some (x, tr)
    /\ matches imem x (l_cpu v) /\ in_phase v x tr.

(** Or the reference has no state for so many instructions. *)
Definition lost v : Prop :=
  soc_ref_run (Z.to_nat (c_inst_cnt (l_cpu v))) (fetch_imem imem) x0 = None.

Definition link_inv v : Prop := lost v \/ frame v /\ following v.

(** No store waits because the bus has refused it. *)
Definition calm v : Prop := forall q, WriteReq q ∉ c_queue (l_cpu v).

(** ** What does not concern the reference *)

(** Of the processor, only the place of its requests changes. *)
Record only_bus (s s' : CPU) : Prop := {
  ob_rf : c_rf s' = c_rf s; ob_pc : c_pc s' = c_pc s;
  ob_cnt : c_inst_cnt s' = c_inst_cnt s; ob_imem : c_imem s' = c_imem s;
  ob_requests : accepted (c_reg s') ++ c_queue s' = accepted (c_reg s) ++ c_queue s;
  ob_sent : accepted (c_reg s) `prefix_of` accepted (c_reg s');
}.

Lemma drop_moved {A} n (l k l' k' : list A) : l' ++ k' = l ++ k -> l `prefix_of` l' ->
  (n <= length l)%nat -> drop n l' ++ k' = drop n l ++ k.
Proof.
  intros E [l1 ->] Hn. rewrite <- app_assoc in E. apply (inj (app l)) in E as <-.
  rewrite drop_app_le by done. by rewrite <- app_assoc.
Qed.

Lemma matches_bus x s s' : matches imem x s -> only_bus s s' -> matches imem x s'.
Proof. intros [M1 M2 M3 M4] [B1 B2 B3 B4 _ _]. split; congruence. Qed.

Lemma following_keep v v' : following v -> only_bus (l_cpu v) (l_cpu v') ->
  l_events v' = l_events v -> accesses v' = accesses v -> values v' = values v ->
  dm_mem (l_mem v') = dm_mem (l_mem v) -> following v'.
Proof.
  intros (x & tr & Hr & M & P) B He Ha Hv Hm. exists x, tr. split; [done|].
  split; [by eapply matches_bus|]. unfold in_phase. by rewrite He, Ha, Hv, Hm, (ob_cnt _ _ B).
Qed.

Lemma frame_core v s evs resp : frame v ->
  Forall (fun q => exists b, single b q) (accepted (c_reg s) ++ c_queue s) ->
  accepted (c_reg (l_cpu v)) `prefix_of` accepted (c_reg s) ->
  (forall e t, e ∈ evs -> core_tick e = Some t -> l_now v <= t) ->
  (l_resp v <= resp <= length (accepted (dm_reg (l_mem v))))%nat ->
  frame (on_core s evs resp v).
Proof.
  intros [F1 F2 F3 F4 F5 F6 F7 F8 F9 F10 F11] Hs Hp%prefix_length He Hr. split; try done; cbn; lia.
Qed.

Lemma core_moves v s resp : frame v -> following v -> only_bus (l_cpu v) s ->
  (l_resp v <= resp <= length (accepted (dm_reg (l_mem v))))%nat ->
  values (on_core s (l_events v) resp v) = values v ->
  frame (on_core s (l_events v) resp v) /\ following (on_core s (l_events v) resp v).
Proof.
  intros F Hf B Hr Hv. split.
  - apply frame_core; try done; [|apply B|apply (fr_exec_due _ F)].
    rewrite (ob_requests _ _ B). apply (fr_requests _ F).
  - eapply following_keep; [exact Hf|exact B|done| |exact Hv|done].
    unfold accesses, requests. cbn. do 2 f_equal.
    apply drop_moved; [apply B..|apply (fr_req _ F)].
Qed.

(** ** The processor *)

Lemma retry_moves t s : (forall q, WriteReq q ∉ c_queue s) ->
  wp (Cpu.masterPortRetry t) (fun _ s' w => w = [] /\ only_bus s s') s.
Proof.
  intros Hcalm. assert (Hrefl : only_bus s s) by (by split).
  unfold Cpu.masterPortRetry. wp_step. wp_step. cbn beta.
  destruct (c_queue s) as [|[p|p|p|p] q] eqn:Eq; [by wp_steps| |destruct (Hcalm p); left|by wp_steps..].
  destruct (push (c_reg s) (ReadReq p)) as [ok r] eqn:Ep. wp_steps; try done. split; [done|].
  destruct ok; split; cbn; try done;
    first [apply push_true in Ep as -> | apply push_false in Ep as ->]; rewrite ?Eq; try done.
  - by rewrite <- app_assoc.
  - by eexists.
Qed.

(** A call that leaves the bus alone. *)
Lemma accesses_same v s evs resp : same_bus (l_cpu v) s -> accesses (on_core s evs resp v) = accesses v.
Proof. intros [E1 E2]. unfold accesses, requests. cbn. by rewrite E1, E2. Qed.

Lemma frame_same v s evs resp : frame v -> same_bus (l_cpu v) s ->
  (forall e t, e ∈ evs -> core_tick e = Some t -> l_now v <= t) ->
  (l_resp v <= resp <= length (accepted (dm_reg (l_mem v))))%nat ->
  frame (on_core s evs resp v).
Proof.
  intros F [E1 E2] He Hr. apply frame_core; try done; rewrite ?E1, ?E2; [apply (fr_requests _ F)|done].
Qed.

(** A call that sends a request. *)
Lemma accesses_sent v s evs resp b : frame v -> c_queue (l_cpu v) = [] -> sent b (l_cpu v) s ->
  accesses (on_core s evs resp v) = accesses v ++ [b].
Proof.
  intros F Hq (q & Hb & Hp & E). unfold accesses, requests. cbn. rewrite <- app_assoc. f_equal.
  rewrite (drop_moved (l_req v) _ [q] _ _ E Hp (proj2 (fr_req _ F))), Hq, app_nil_r, flat_map_app.
  cbn. by rewrite (single_beats _ _ Hb).
Qed.

Lemma frame_sent v s evs resp b : frame v -> c_queue (l_cpu v) = [] -> sent b (l_cpu v) s ->
  (forall e t, e ∈ evs -> core_tick e = Some t -> l_now v <= t) ->
  (l_resp v <= resp <= length (accepted (dm_reg (l_mem v))))%nat ->
  frame (on_core s evs resp v).
Proof.
  intros F Hq (q & Hb & Hp & E) He Hr. apply frame_core; try done. rewrite E.
  pose proof (fr_requests _ F) as Hs. rewrite Hq, app_nil_r in Hs.
  apply Forall_app. split; [done|]. repeat constructor. by exists b.
Qed.

(** While only stores are on their way, no request waits. *)
Lemma no_waiting v ws : frame v -> calm v -> accesses v = map WBeat ws -> c_queue (l_cpu v) = [].
Proof.
  intros F Hc Ha. destruct (c_queue (l_cpu v)) as [|q Q] eqn:Eq; [done|exfalso].
  assert (Hin : q ∈ c_queue (l_cpu v)) by (rewrite Eq; left).
  pose proof (fr_requests _ F) as Hs. rewrite Forall_forall in Hs.
  destruct (Hs q) as (b & Hb); [apply elem_of_app; by right|].
  assert (b ∈ accesses v) as Hba.
  { unfold accesses, requests. rewrite Eq. apply elem_of_app. right.
    rewrite flat_map_app. apply elem_of_app. right. cbn. rewrite (single_beats _ _ Hb). left. }
  rewrite Ha in Hba. apply list_elem_of_In, in_map_iff in Hba as (w & <- & _).
  destruct Hb as (_ & t & ->). by apply (Hc _ Hin).
Qed.

Lemma store_all_snoc ws w m m1 m2 : store_all ws m = Ok m1 ->
  store m1 (wq_op w) (wq_addr w) (wq_data w) = Ok m2 -> store_all (ws ++ [w]) m = Ok m2.
Proof.
  revert m. induction ws as [|w1 ws IH]; intros m; cbn.
  - intros [= ->] E. by rewrite E.
  - intros (m' & E1 & E2)%bind_ok E. rewrite E1. cbn. by apply IH.
Qed.

Lemma one_event {A} (l1 l2 : list A) e a : l1 ++ e :: l2 = [a] -> l1 = [] /\ l2 = [] /\ e = a.
Proof. destruct l1 as [|b [|c l1]]; cbn; naive_solver. Qed.

(** The state in which a call begins. *)
Definition begun n (s : CPU) : CPU := set_bus (c_queue s) (c_reg s) n s.

Lemma matches_begun x n s : matches imem x s -> matches imem x (begun n s).
Proof. by intros []. Qed.

(** What a call of the processor has to establish. *)
Abbreviation kept v := (lost v \/ (frame v /\ following v)).

Lemma exec_keeps v n l1 l2 t s w : frame v -> following v -> calm v ->
  l_events v = l1 ++ CoreExec t :: l2 -> t = l_now v ->
  outcome (execOneInstr t) (begun n (l_cpu v)) = Ok (s, w) ->
  (forall q, WriteReq q ∉ c_queue s) ->
  kept (on_core s ((l1 ++ l2) ++ map core_event_of w) (l_resp v) v).
Proof.
  intros F (x & tr & Hr & M & P) Hcalm He Ht E Hcalm'.
  unfold in_phase in P. rewrite He in P.
  destruct P as [t' ws PE PA PR' PM PC Hlive|ws i tr1 PE|ws p x' i PE|r x' i PE|ws x' i PE|ws x' i r PE];
    try (apply app_eq_nil in PE as [_ ?]; done); apply one_event in PE as (-> & -> & Ee); try done.
  injection Ee as <-. cbn [app].
  pose proof (no_waiting _ _ F Hcalm PA) as Hq.
  assert (c_inst_cnt s = c_inst_cnt (l_cpu v) + 1) as Hcnt.
  { refine (wp_outcome _ (fun s _ => c_inst_cnt s = c_inst_cnt (l_cpu v) + 1) _ _ _ _ E).
    apply (exec_counts t (begun n (l_cpu v))). }
  destruct (soc_next (fetch_imem imem) x) as [[x' i]|] eqn:Hn.
  2: { left. unfold lost. cbn. rewrite Hcnt, PC.
       replace (Z.to_nat _) with (S (length tr)) by lia. cbn. rewrite Hr. cbn. by rewrite Hn. }
  right. assert (Hr' : soc_ref_run (length (i :: tr)) (fetch_imem imem) x0 = Some (x', i :: tr)).
  { cbn [length soc_ref_run]. rewrite Hr. cbn. by rewrite Hn. }
  assert (Hdue : forall e t', e ∈ [CoreExec (t + 1)] -> core_tick e = Some t' -> l_now v <= t').
  { intros e t' ->%list_elem_of_singleton [= <-]. lia. }
  assert (Hresp : (l_resp v <= l_resp v <= length (accepted (dm_reg (l_mem v))))%nat).
  { split; [done|apply (fr_resp _ F)]. }
  destruct (exec_executes imem Himem x x' i t _ s w (matches_begun _ n _ M) Hn Hq E)
    as [M' Hm B|p Hl M' S E1 E2 E3 E4|p Hk M' S Hst|q Hwr|Hk M' B]; cbn [begun set_bus c_reg c_queue] in *.
  - split.
    { apply frame_same; [done|done| |done]. case_decide; [by intros ?? ?%elem_of_nil|done]. }
    exists x', (i :: tr). split; [done|]. split; [done|]. unfold in_phase.
    rewrite accesses_same by done. cbn [on_core l_cpu l_events l_mem].
    rewrite Hcnt. rewrite <- Hm in PM. case_decide.
    + eapply (ph_done _ _ _ _ _ _ _ ws i tr); try done. cbn. lia.
    + eapply (ph_ready _ _ _ _ _ _ _ (t + 1) ws); try done; [cbn; lia|by constructor].
  - split; [by eapply frame_sent; [..|intros ?? ?%elem_of_nil|]|].
    exists x, tr. split; [done|]. split; [done|]. unfold in_phase.
    rewrite (accesses_sent v s _ _ (RBeat p)) by done. cbn [on_core l_cpu l_events l_mem]. rewrite Hcnt.
    eapply (ph_load _ _ _ _ _ _ _ ws p x' i); try done; [by rewrite PA|lia].
  - split; [by eapply frame_sent|].
    exists x', (i :: tr). split; [done|]. split; [done|]. unfold in_phase.
    rewrite (accesses_sent v s _ _ (WBeat p)) by done. cbn [on_core l_cpu l_events l_mem]. rewrite Hcnt.
    eapply (ph_ready _ _ _ _ _ _ _ (t + 1) (ws ++ [p])); try done;
      [by rewrite PA, map_app|by eapply store_all_snoc|cbn; lia|].
    constructor; [|done]. by destruct (i_op i).
  - by destruct (Hcalm' q).
  - split; [apply frame_same; [done|done| |done]; by intros ?? ->%list_elem_of_singleton|].
    exists x, tr. split; [done|]. split; [done|]. unfold in_phase.
    rewrite accesses_same by done. cbn [on_core l_cpu l_events l_mem]. rewrite Hcnt.
    eapply (ph_cfu _ _ _ _ _ _ _ ws x' i); try done. lia.
Qed.

Lemma resp_now v : frame v -> (l_resp v <= l_resp v <= length (accepted (dm_reg (l_mem v))))%nat.
Proof. intros F. split; [done|apply (fr_resp _ F)]. Qed.

(** The function unit computes. *)
Lemma cfu_keeps v l1 l2 p u u' w : frame v -> following v ->
  l_events v = l1 ++ CoreToCfu p :: l2 -> outcome (cfu_step [p]) u = Ok (u', w) ->
  let v' := on_core (l_cpu v) ((l1 ++ l2) ++ map CoreFromCfu w) (l_resp v) v in frame v' /\ following v'.
Proof.
  intros F (x & tr & Hr & M & P) He E v'. unfold in_phase in P. rewrite He in P.
  destruct P as [t' ws PE|ws i tr1 PE|ws p' x' i PE|r x' i PE|ws x' i PE PA PR' PM PC Hlive PN PK|ws x' i r PE];
    try (apply app_eq_nil in PE as [_ ?]; done); apply one_event in PE as (-> & -> & Ee); try done.
  injection Ee as ->. pose proof PN as (_ & _ & _ & Hs & _)%soc_next_inv.
  unfold soc_mstep in Hs. rewrite PK in Hs.
  destruct (simd_spec _ _ _) as [r|] eqn:Hsp; [|done]. clear Hs.
  destruct (cfu_spec_run u i _ _ r Hsp) as [c' Ec].
  assert (w = [CFUResp i r]) as ->.
  { revert E. unfold cfu_step, outcome. cbn [foreach]. unfold outcome in Ec. step_monad.
    destruct (packet_handler _ _) as [[[[] ?] ?]|]; [|done]. cbn. rewrite app_nil_r.
    injection Ec as -> ->. by intros [= _ <-]. }
  split.
  - apply frame_same; [done|done|by intros ?? ->%list_elem_of_singleton|by apply resp_now].
  - exists x, tr. split; [done|]. split; [done|]. unfold in_phase, v'.
    rewrite accesses_same by done. cbn [on_core l_cpu l_events l_mem app map].
    eapply (ph_result _ _ _ _ _ _ _ ws x' i r); try done.
Qed.

(** Its result arrives. *)
Lemma result_keeps v n l1 l2 p s w : frame v -> following v ->
  l_events v = l1 ++ CoreFromCfu p :: l2 ->
  outcome (CFURespHandler (l_now v) p) (begun n (l_cpu v)) = Ok (s, w) ->
  let v' := on_core s ((l1 ++ l2) ++ map core_event_of w) (l_resp v) v in frame v' /\ following v'.
Proof.
  intros F (x & tr & Hr & M & P) He E v'. unfold in_phase in P. rewrite He in P.
  destruct P as [t' ws PE|ws i tr1 PE|ws p' x' i PE|r x' i PE|ws x' i PE|ws x' i r PE PA PR' PM PC Hlive PN PK PV];
    try (apply app_eq_nil in PE as [_ ?]; done); apply one_event in PE as (-> & -> & Ee); try done.
  injection Ee as ->.
  destruct (simd_completes imem Himem x x' i _ (l_now v) r (matches_begun _ n _ M) PN PK PV)
    as (Hm & s' & E' & M' & B & Hcnt).
  unfold outcome in E. rewrite E' in E. injection E as <- <-.
  split.
  - apply frame_same; [done|done| |by apply resp_now]. intros ?? ->%list_elem_of_singleton [= <-]. lia.
  - exists x', (i :: tr). split; [cbn [length soc_ref_run]; rewrite Hr; cbn; by rewrite PN|].
    split; [done|]. unfold in_phase, v'. rewrite accesses_same by done.
    cbn [on_core l_cpu l_events l_mem app map]. rewrite Hcnt, <- Hm in *.
    eapply (ph_ready _ _ _ _ _ _ _ (l_now v + 1) ws); try done; [cbn in *; lia|].
    constructor; [by destruct (i_op i)|done].
Qed.

(** A response arrives. *)
Lemma prefix_drop {A} (ks l : list A) n : ks `prefix_of` drop n l ->
  drop n l = ks ++ drop (n + length ks) l /\ (n + length ks <= length l \/ ks = [])%nat.
Proof.
  intros [l' E]. split.
  - rewrite <- drop_drop, E. by rewrite drop_app_length.
  - destruct ks as [|k ks]; [by right|left]. apply (f_equal length) in E.
    rewrite length_drop, length_app in E. cbn in *. lia.
Qed.

Lemma undelivered_step v s evs ks : ks `prefix_of` drop (l_resp v) (accepted (dm_reg (l_mem v))) ->
  undelivered v = ks ++ undelivered (on_core s evs (l_resp v + length ks) v).
Proof.
  intros Hp. unfold undelivered. cbn. destruct (prefix_drop _ _ _ Hp) as [-> _]. by rewrite app_assoc.
Qed.

Lemma at_most_one {A} (ks : list A) : (length ks <= 1)%nat -> ks = [] \/ exists k, ks = [k].
Proof. destruct ks as [|k [|? ?]]; cbn; [by left|right; by eexists|lia]. Qed.

Lemma only_bus_begun n s : only_bus s (begun n s).
Proof. by split. Qed.

Lemma step_keeps v n ks s w : frame v -> following v ->
  ks `prefix_of` drop (l_resp v) (accepted (dm_reg (l_mem v))) ->
  (l_resp v + length ks <= S (l_resp0 v))%nat ->
  outcome (Cpu.step (l_now v) (map BusItem ks)) (begun n (l_cpu v)) = Ok (s, w) ->
  let v' := on_core s (l_events v ++ map core_event_of w) (l_resp v + length ks) v in
  frame v' /\ following v'.
Proof.
  intros F Hf Hp Hone E v'. pose proof (fr_resp _ F) as Hresp.
  pose proof (undelivered_step v s (l_events v ++ map core_event_of w) _ Hp) as Hu. fold v' in Hu.
  assert (Hrange : (l_resp v <= l_resp v + length ks <= length (accepted (dm_reg (l_mem v))))%nat).
  { destruct (prefix_drop _ _ _ Hp) as [_ [?| ->]]; cbn; lia. }
  assert (Hquiet : (s, w) = (begun n (l_cpu v), []) -> omap read_reply ks = [] -> frame v' /\ following v').
  { intros [= -> ->] Hks. unfold v'. cbn [map]. rewrite app_nil_r.
    apply core_moves; try done. unfold values. rewrite Hu, omap_app, Hks.
    unfold v'. cbn [map]. by rewrite app_nil_r. }
  destruct (at_most_one ks) as [->|[k ->]]; [lia|apply Hquiet; [by injection E as <- <-|done]|].
  assert (Hk : reply k).
  { pose proof (fr_replies _ F) as Hall. rewrite Forall_forall in Hall. apply Hall, elem_of_app. left.
    destruct (prefix_drop _ _ _ Hp) as [Hd _]. eapply (subseteq_drop (l_resp v)). rewrite Hd. left. }
  destruct Hk as [_ Hk]. destruct k as [p|p|p|p]; try done.
  - destruct Hk as [r Hpl]. destruct Hf as (x & tr & Hr & M & P).
    assert (Hvals : values v = r :: values v') by (unfold values; rewrite Hu; cbn; by rewrite Hpl).
    unfold in_phase in P. rewrite Hvals in P.
    destruct P as [t' ws _ _ PV|ws i tr1 _ _ PV|ws p' x' i _ _ PV|r' x' i PE PA PV PM PC Hlive PN PL' Pi P1 PL2
      |ws x' i _ _ PV|ws x' i r' _ _ PV]; try done. injection PV as <- Hvals'.
    destruct (load_completes imem Himem x x' i _ (l_now v) r (matches_begun _ n _ M) PN PL' Pi P1 PL2)
      as (Hm & s' & E' & M' & B & Hcnt).
    assert (Ok (s, w) = Ok (s', [ExecOneInstrEvent (l_now v + 1) (c_inst_cnt (begun n (l_cpu v)))]))
      as [= -> ->].
    { rewrite <- E. unfold Cpu.step, outcome. cbn [map foreach step_item].
      unfold memReadXBarRespHandler. rewrite Hpl. cbn [foreach]. step_monad. by rewrite E'. }
    split.
    + apply frame_same; [done|done| |done]. rewrite PE.
      intros ?? ->%list_elem_of_singleton [= <-]. lia.
    + exists x', (i :: tr). split; [cbn [length soc_ref_run]; rewrite Hr; cbn; by rewrite PN|].
      split; [done|]. unfold in_phase. unfold v' at 2. rewrite accesses_same by done.
      rewrite Hvals'. cbn [v' on_core l_cpu l_events l_mem app map]. rewrite Hcnt, PE.
      eapply (ph_ready _ _ _ _ _ _ _ (l_now v + 1) []); try done; cbn in *; [congruence|lia|].
      constructor; [by destruct (i_op i)|done].
  - apply Hquiet; [by injection E as <- <-|done].
Qed.

Lemma core_keeps v n c pend resp u s u' es n' : frame v -> following v -> calm v ->
  (forall q, WriteReq q ∉ c_queue s) -> core_offer v c pend resp ->
  core_run n c (l_cpu v, u) = Ok ((s, u'), es, n') -> kept (on_core s (pend ++ es) resp v).
Proof.
  intros F Hf Hc Hc' Ho. destruct Ho as [|e l1 l2 He Ht|ks Hp Hone]; cbn [core_run].
  - intros ([s1 w] & E & [= <- <- <- <-])%bind_ok. right. cbn [fst snd] in E.
    destruct (wp_outcome _ (fun s1 w => w = [] /\ only_bus (begun n (l_cpu v)) s1) _ _ _
      (retry_moves (l_now v) (begun n (l_cpu v)) Hc) E) as [-> B].
    cbn [map]. rewrite app_nil_r. apply core_moves; try done; [|by apply resp_now].
    by destruct B as [B1 B2 B3 B4 B5 B6]; split.
  - destruct e as [t|p|p].
    + intros ([s1 w] & E & [= <- <- <- <-])%bind_ok. cbn [fst snd] in E.
      eapply exec_keeps; try done. by apply Ht.
    + intros ([u1 w] & E & [= <- <- <- <-])%bind_ok. right. by eapply cfu_keeps.
    + intros ([s1 w] & E & [= <- <- <- <-])%bind_ok. right. by eapply result_keeps.
  - intros ([s1 w] & E & [= <- <- <- <-])%bind_ok. right. by eapply step_keeps.
Qed.

(** ** The memory *)

Lemma frame_mem v d evs req : frame v -> plain_trackers d ->
  Forall reply (accepted (dm_reg d) ++ dm_respQ d) ->
  accepted (dm_reg (l_mem v)) `prefix_of` accepted (dm_reg d) ->
  (l_req v <= req <= length (accepted (c_reg (l_cpu v))))%nat ->
  Forall (fun e => l_now v <= e.1) evs ->
  let sched := omap event_access evs in
  Forall (fun tb => beat_caller tb.2 = "cpu"%string) sched ->
  StronglySorted Z.lt (map fst sched) -> Forall (fun tb => tb.1 <= l_now v + delay) sched ->
  (req = l_req0 v -> Forall (fun tb => tb.1 < l_now v + delay) sched) ->
  frame (on_mem d evs req v).
Proof.
  intros [F1 F2 F3 F4 F5 F6 F7 F8 F9 F10 F11] Hd Hr Hp%prefix_length Hreq He sched H1 H2 H3 H4.
  split; try done; cbn; lia.
Qed.

(** The accesses that are scheduled are a part of what was scheduled. *)
Lemma frame_mem_less v d evs : frame v -> plain_trackers d ->
  Forall reply (accepted (dm_reg d) ++ dm_respQ d) ->
  accepted (dm_reg (l_mem v)) `prefix_of` accepted (dm_reg d) ->
  Forall (fun e => l_now v <= e.1) evs -> omap event_access evs `suffix_of` scheduled v ->
  frame (on_mem d evs (l_req v) v).
Proof.
  intros F Hd Hr Hp He [k Hk]. pose proof F as [F1 F2 F3 F4 F5 F6 F7 F8 F9 F10 F11].
  rewrite Hk in *. rewrite map_app in F9. apply frame_mem; try done.
  - split; [done|apply F2].
  - by apply Forall_app in F3 as [_ ?].
  - by apply StronglySorted_app_1_r in F9.
  - by apply Forall_app in F10 as [_ ?].
  - intros E. by apply F11, Forall_app in E as [_ ?].
Qed.

(** Only responses move. *)
Lemma sends_keeps v d evs : frame v -> following v -> resent (l_mem v) d ->
  Forall (fun e => l_now v <= e.1) evs -> omap event_access evs = scheduled v ->
  let v' := on_mem d evs (l_req v) v in frame v' /\ following v'.
Proof.
  intros F Hf R He Hs v'. pose proof R as [R1 R2 (l & R3 & R4)].
  assert (Hu : undelivered v' = undelivered v).
  { apply resent_undelivered; [exact R|apply (fr_resp _ F)]. }
  split.
  - apply frame_mem_less; try done.
    + intros t tk. rewrite R2. apply (fr_trackers _ F).
    + pose proof (fr_replies _ F) as Hr. by rewrite R4, app_assoc, <- R3 in Hr.
    + rewrite R3. by eexists.
    + by rewrite Hs.
  - eapply following_keep; [exact Hf|by split|done| | |exact R1].
    + unfold accesses, scheduled at 1. cbn. by rewrite Hs.
    + unfold values. by rewrite Hu.
Qed.

(** The event of this tick is the first of the accesses. *)
Lemma fires_first v l1 l2 e tb : frame v -> l_sched v = l1 ++ e :: l2 -> e.1 = l_now v ->
  event_access e = Some tb -> scheduled v = tb :: omap event_access (l1 ++ l2).
Proof.
  intros F He Hn Htb. pose proof (fr_sorted _ F) as Hs. pose proof (fr_mem_due _ F) as Hd.
  unfold scheduled in *. rewrite He in *. rewrite !omap_app in *. cbn [omap list_omap] in *.
  rewrite Htb in *. apply Forall_app in Hd as [Hd _].
  assert (Hfst : forall e0 tb0, event_access e0 = Some tb0 -> tb0.1 = e0.1).
  { intros [t0 []] tb0; by intros [= <-]. }
  destruct (omap event_access l1) as [|tb1 r] eqn:E1; [done|exfalso].
  assert (H1 : tb1 ∈ omap event_access l1) by (rewrite E1; left).
  apply list_elem_of_omap in H1 as (e1 & H1 & E). rewrite Forall_forall in Hd. specialize (Hd _ H1).
  cbn [app map] in Hs. apply StronglySorted_cons in Hs as [Hlt _]. rewrite Forall_forall in Hlt.
  assert (tb1.1 < tb.1) as Hl.
  { apply Hlt, list_elem_of_In, in_map, list_elem_of_In, elem_of_app. right. left. }
  rewrite (Hfst _ _ E), (Hfst _ _ Htb) in Hl. lia.
Qed.

(** An access is performed and answered. *)
Record performed (d d' : DataMemory) (k : packet) : Prop := {
  pf_trackers : plain_trackers d';
  pf_reg : dm_reg d' = dm_reg d;
  pf_respQ : dm_respQ d' = dm_respQ d ++ [k];
  pf_reply : reply k;
}.

Lemma performed_frame v l1 l2 e tb d k : frame v -> l_sched v = l1 ++ e :: l2 -> e.1 = l_now v ->
  event_access e = Some tb -> performed (l_mem v) d k ->
  let v' := on_mem d (l1 ++ l2) (l_req v) v in
  frame v' /\ accesses v = tb.2 :: accesses v'
  /\ values v' = values v ++ match read_reply k with Some r => [r] | None => [] end.
Proof.
  intros F He Hn Htb [P1 P2 P3 P4] v'. pose proof (fires_first _ _ _ _ _ F He Hn Htb) as Hs. split_and!.
  - apply frame_mem_less; try done; rewrite ?P2, ?P3; try done.
    + rewrite app_assoc. apply Forall_app. split; [apply (fr_replies _ F)|by rewrite Forall_singleton].
    + pose proof (fr_mem_due _ F) as Hd. rewrite He in Hd. apply Forall_app in Hd as [Hd1 Hd2].
      apply Forall_app. split; [done|]. by apply Forall_cons in Hd2 as [_ ?].
    + rewrite Hs. by exists [tb].
  - unfold accesses. by rewrite Hs.
  - unfold values, undelivered, v'. cbn. rewrite P2, P3, app_assoc, omap_app. cbn.
    by destruct (read_reply k).
Qed.

(** The next access of a phase. *)
Lemma phase_write E p A R m cnt x tr : phase E (WBeat p :: A) R m cnt x tr ->
  exists m', store m (wq_op p) (wq_addr p) (wq_data p) = Ok m' /\ phase E A R m' cnt x tr.
Proof.
  assert (Hpop : forall ws B, WBeat p :: A = map WBeat ws ++ B -> B = [] \/ (exists r, B = [RBeat r]) ->
    store_all ws m = Ok (x_mem x) -> exists ws' m', A = map WBeat ws' ++ B
      /\ store m (wq_op p) (wq_addr p) (wq_data p) = Ok m' /\ store_all ws' m' = Ok (x_mem x)).
  { intros [|w ws] B; cbn; [by intros <- [?|[r ?]]|]. intros [= <- ->] _ (m' & E1 & E2)%bind_ok.
    by exists ws, m'. }
  intros [t ws PE PA PV PM|ws i tr1 PE PA PV PM|ws r x' i PE PA PV PM|r x' i PE PA|ws x' i PE PA PV PM
    |ws x' i r PE PA PV PM]; try done.
  all: first [ destruct (Hpop _ _ PA) as (ws' & m' & EA & Est & Hws)
             | rewrite <- (app_nil_r (map WBeat ws)) in PA;
               destruct (Hpop _ _ PA) as (ws' & m' & EA & Est & Hws) ]; eauto.
  all: rewrite ?app_nil_r in EA; exists m'; split; [done|].
  - by eapply (ph_ready _ _ _ _ _ _ _ t ws').
  - by eapply (ph_done _ _ _ _ _ _ _ ws' i tr1).
  - by eapply (ph_load _ _ _ _ _ _ _ ws' r x' i).
  - by eapply (ph_cfu _ _ _ _ _ _ _ ws' x' i).
  - by eapply (ph_result _ _ _ _ _ _ _ ws' x' i r).
Qed.

Lemma phase_read E p A R m cnt x tr : phase E (RBeat p :: A) R m cnt x tr ->
  R = [] /\ exists z, load m (rq_op p) (rq_addr p) = Ok z
    /\ forall t, phase E A [ReadRespPayload t (rq_i p) (rq_op p) z (rq_a1 p)] m cnt x tr.
Proof.
  intros [t [|w ws] PE PA PV PM|[|w ws] i tr1 PE PA PV PM|[|w ws] r x' i PE PA PV PM PC Hlive PN PK P1 P2 P3 P4
    |r x' i PE PA|[|w ws] x' i PE PA PV PM|[|w ws] x' i r PE PA PV PM]; try done.
  injection PA as <- ->. injection PM as ->. split; [done|].
  pose proof PN as (_ & _ & _ & Hs & _)%soc_next_inv. rewrite P2, P3.
  assert (is_simd (i_op i) = false) as Hsi by (by destruct (i_op i)).
  unfold soc_mstep, rv32_mstep in Hs. rewrite Hsi, PK in Hs.
  change (load _ _ _) with (load (x_mem x) (i_op i) (access_addr i (x_rf x))) in Hs.
  destruct (load _ _ _) as [z|] eqn:Hz; [|done]. exists z. split; [done|]. intros t.
  by eapply (ph_value _ _ _ _ _ _ _ _ x' i).
Qed.

(** An access that is due: it is the processor's, and the first of all. *)
Lemma access_due v l1 l2 e tb : frame v -> l_sched v = l1 ++ e :: l2 -> e.1 = l_now v ->
  event_access e = Some tb -> beat_caller tb.2 = "cpu"%string
  /\ accesses v = tb.2 :: map snd (omap event_access (l1 ++ l2)) ++ flat_map packet_beats (requests v).
Proof.
  intros F He Hn Htb. pose proof (fires_first _ _ _ _ _ F He Hn Htb) as Hs. split.
  - pose proof (fr_callers _ F) as Hc. rewrite Hs in Hc. by apply Forall_cons in Hc as [? _].
  - unfold accesses. by rewrite Hs.
Qed.

Lemma write_keeps v l1 l2 e p d w : frame v -> following v ->
  l_sched v = l1 ++ e :: l2 -> e.1 = l_now v -> e.2 = DmWrite p ->
  outcome (memWriteReqHandler p) (l_mem v) = Ok (d, w) ->
  let v' := on_mem d ((l1 ++ l2) ++ w) (l_req v) v in frame v' /\ following v'.
Proof.
  intros F (x & tr & Hr & M & P) He Hn E2 E.
  assert (Htb : event_access e = Some (e.1, WBeat p)) by (unfold event_access; by rewrite E2).
  destruct (access_due _ _ _ _ _ F He Hn Htb) as [Hcall Ha].
  unfold in_phase in P. rewrite Ha in P. apply phase_write in P as (m' & Hm & P).
  destruct (fire_write _ p m' (fr_trackers _ F) Hcall Hm) as (d1 & k & E1 & D1 & D2 & D3 & D4 & D5 & D6).
  rewrite E in E1. injection E1 as -> ->. rewrite app_nil_r. cbv zeta.
  destruct (performed_frame v l1 l2 e _ d1 k F He Hn Htb) as (F' & _ & Hv); [by split|].
  split; [exact F'|]. exists x, tr. split; [done|]. split; [done|]. unfold in_phase.
  rewrite Hv, D6, app_nil_r. cbn [on_mem l_cpu l_events l_mem]. by rewrite D2.
Qed.

Lemma read_keeps v l1 l2 e p d w : frame v -> following v ->
  l_sched v = l1 ++ e :: l2 -> e.1 = l_now v -> e.2 = DmRead p ->
  outcome (memReadReqHandler p) (l_mem v) = Ok (d, w) ->
  let v' := on_mem d ((l1 ++ l2) ++ w) (l_req v) v in frame v' /\ following v'.
Proof.
  intros F (x & tr & Hr & M & P) He Hn E2 E.
  assert (Htb : event_access e = Some (e.1, RBeat p)) by (unfold event_access; by rewrite E2).
  destruct (access_due _ _ _ _ _ F He Hn Htb) as [Hcall Ha].
  unfold in_phase in P. rewrite Ha in P. apply phase_read in P as (Hnil & r & Hv & P).
  destruct (fire_read _ p r (fr_trackers _ F) Hcall Hv) as (d1 & k & E1 & D1 & D2 & D3 & D4 & D5 & D6).
  rewrite E in E1. injection E1 as -> ->. rewrite app_nil_r. cbv zeta.
  destruct (performed_frame v l1 l2 e _ d1 k F He Hn Htb) as (F' & _ & Hvs); [by split|].
  split; [exact F'|]. exists x, tr. split; [done|]. split; [done|]. unfold in_phase.
  rewrite Hvs, D6, Hnil. cbn [on_mem l_cpu l_events l_mem app]. rewrite D2. apply P.
Qed.

(** A request arrives: its access is scheduled behind the others. *)
Lemma arrival_keeps v q d w : frame v -> following v ->
  [q] `prefix_of` drop (l_req v) (accepted (c_reg (l_cpu v))) ->
  (l_req v + 1 <= S (l_req0 v))%nat ->
  outcome (DataMemory.step (l_now v) delay [q]) (l_mem v) = Ok (d, w) ->
  let v' := on_mem d (l_sched v ++ w) (l_req v + 1) v in frame v' /\ following v'.
Proof.
  intros F Hf Hp Hone E v'. destruct (prefix_drop _ _ _ Hp) as [Hd [Hlen|]]; [|done].
  cbn [length] in Hd, Hlen.
  assert (Hq : exists b, single b q).
  { pose proof (fr_requests _ F) as Hall. rewrite Forall_forall in Hall. apply Hall, elem_of_app. left.
    eapply (subseteq_drop (l_req v)). rewrite Hd. left. }
  destruct Hq as [b Hb].
  destruct (step_single (l_now v) delay _ b q Hb (fr_trackers _ F)) as (d' & d1 & E1 & Ht & R & Ed).
  rewrite E in E1. injection E1 as -> ->. pose proof R as [R1 R2 (l & R3 & R4)].
  assert (Hreg : dm_reg d' = dm_reg d1 /\ dm_respQ d' = dm_respQ d1 /\ dm_mem d' = dm_mem d1) by (by rewrite Ed).
  destruct Hreg as (G1 & G2 & G3).
  assert (Hs : scheduled v' = scheduled v ++ [(l_now v + delay, b)]).
  { unfold scheduled, v'. cbn [on_mem l_sched]. rewrite omap_app. f_equal. cbn.
    by rewrite event_access_beat. }
  pose proof (fr_req _ F) as Hreq. pose proof (fr_fresh _ F ltac:(lia)) as Hfresh.
  split.
  - apply frame_mem; try change (omap event_access _) with (scheduled v'); rewrite ?Hs, ?G1, ?G2; try done.
    + pose proof (fr_replies _ F) as Hr. by rewrite R4, app_assoc, <- R3 in Hr.
    + rewrite R3. by eexists.
    + lia.
    + apply Forall_app. split; [apply (fr_mem_due _ F)|]. repeat constructor; cbn; lia.
    + apply Forall_app. split; [apply (fr_callers _ F)|]. apply Forall_singleton, Hb.
    + rewrite map_app. apply StronglySorted_app_2; [|apply (fr_sorted _ F)|repeat constructor].
      cbn. intros t1 t2 Ht1 ->%list_elem_of_singleton.
      apply list_elem_of_In, in_map_iff in Ht1 as (tb & <- & Htb%list_elem_of_In).
      rewrite Forall_forall in Hfresh. by apply Hfresh.
    + apply Forall_app. split; [apply (fr_horizon _ F)|]. apply Forall_singleton. cbn. lia.
    + lia.
  - eapply following_keep; [exact Hf|by split|done| | |cbn; by rewrite G3].
    + unfold accesses. rewrite Hs, map_app, <- app_assoc. f_equal. unfold requests, v'. cbn [on_mem l_req l_cpu].
      rewrite Hd. cbn. by rewrite (single_beats _ _ Hb).
    + unfold values, undelivered, v'. cbn [on_mem l_mem l_resp]. rewrite G1, G2.
      by rewrite (resent_undelivered _ _ _ R) by apply (fr_resp _ F).
Qed.

Lemma mem_keeps v n c pend req d es n' : frame v -> following v -> mem_offer v c pend req ->
  dm_run n c (l_mem v) = Ok (d, es, n') ->
  let v' := on_mem d (pend ++ es) req v in frame v' /\ following v'.
Proof.
  intros F Hf Ho ([d1 w] & E & [= <- <- <-])%bind_ok. cbv zeta.
  destruct Ho as [|[t e] l1 l2 He Ht|ks Hp Hone].
  - destruct (send_resent (l_mem v)) as (d2 & E2 & R). unfold outcome, DataMemory.masterPortRetry in E.
    rewrite E2 in E. injection E as <- <-. rewrite app_nil_r.
    apply sends_keeps; try done. apply (fr_mem_due _ F).
  - destruct e as [p|p|]; cbn [dm_fire snd] in E; [by eapply read_keeps|by eapply write_keeps|].
    destruct (send_resent (l_mem v)) as (d2 & E2 & R). unfold outcome in E. rewrite E2 in E.
    injection E as <- <-. rewrite app_nil_r. pose proof (fr_mem_due _ F) as Hd. rewrite He in Hd.
    apply Forall_app in Hd as [Hd1 Hd2]. apply Forall_cons in Hd2 as [_ Hd2].
    apply sends_keeps; try done; [by apply Forall_app|].
    unfold scheduled. by rewrite He, !omap_app.
  - pose proof (fr_req _ F) as Hreq. destruct (at_most_one ks) as [->|[q ->]]; [lia| |].
    + destruct (step_none (l_now v) delay (l_mem v)) as (d2 & E2 & R). rewrite E in E2.
      injection E2 as -> ->. rewrite app_nil_r, Nat.add_0_r.
      apply sends_keeps; try done. apply (fr_mem_due _ F).
    + by apply (arrival_keeps v q).
Qed.

(** ** Every step *)

Theorem link_keeps v v' : link_step v v' -> calm v -> calm v' -> link_inv v -> link_inv v'.
Proof.
  intros Hst Hc Hc' [Hl|[F Hf]].
  - left. unfold lost in *. destruct Hst as [n c pend resp u s u' es n' _ Hrun|n c pend req d es n' _ _|r _|r _|_ _];
      cbn in *; try done. eapply soc_ref_run_none; [exact Hl|].
    pose proof (core_counts _ _ _ _ _ _ _ _ Hrun). lia.
  - destruct Hst as [n c pend resp u s u' es n' Ho Hrun|n c pend req d es n' Ho Hrun|r Hr|r Hr|Hx Hm].
    + by eapply core_keeps.
    + right. by eapply mem_keeps.
    + right. apply core_moves; try done; [|by apply resp_now].
      split; try done; cbn; by rewrite Hr.
    + right. apply sends_keeps; try done; [|apply (fr_mem_due _ F)]. split; try done.
      exists []. cbn. by rewrite Hr, app_nil_r.
    + right. split; [|exact Hf]. destruct F as [F1 F2 F3 F4 F5 F6 F7 F8 F9 F10 F11].
      split; try done; cbn.
      * lia.
      * lia.
      * intros e t He Ht. pose proof (Hx e t He Ht). lia.
      * eapply Forall_impl; [exact Hm|]. cbn. lia.
      * eapply Forall_impl; [exact F10|]. cbn. lia.
      * intros _. eapply Forall_impl; [exact F10|]. cbn. lia.
Qed.
End Link.
