(* ===== verification/SocTimed.v ===== *)
(** The SoC in time, while the DMA controller and the systolic array have
    nothing to do: its timed runs are runs of the processor and the memory
    ([SocLink]), so that in every run in which no store is refused they follow
    the reference machine. *)
From S2P Require Import Prelude Machine DataStruct Memory Bus DataMemory Cfu Isa Reference Cpu CpuRef.
From S2P Require Import Dma Grid SystolicPE Systolic CString Emulator Device Network Timed.
From S2P Require Import SocDevices SocDma SocSystolic SocSystem SocAccess SocExec SocLink.
Local Open Scope Z_scope.

(** * Devices that have nothing to do *)

Section Idle.
Context `{Framework} {PR : PipeRegister} {PL : PipeRegisterLaws PR}.

Record idle_dma (d : DMAController) : Prop := {
  id_req : accepted (m_req d) = [];
  id_resp : accepted (m_resp d) = [];
  id_reqQ : req_Q d = [];
  id_respQ : resp_Q d = [];
}.
Record idle_sa (d : SystolicArray) : Prop := {
  is_req : accepted (m_req_ d) = [];
  is_resp : accepted (m_resp_ d) = [];
  is_reqQ : req_Q_ d = [];
  is_respQ : resp_Q_ d = [];
}.

(** A retry, or a step that pops nothing. *)
Definition no_work {Ev} (k : call Ev) : Prop :=
  match k with CRetry _ => True | CStep _ _ ks => ks = [] | CFire _ _ _ => False end.

Lemma dma_idles c k d d' es ctr : idle_dma d -> no_work k -> dma_run c k d = Ok (d', es, ctr) ->
  idle_dma d' /\ es = [].
Proof.
  intros [I1 I2 I3 I4] Hk ([d1 w] & E & [= <- <- <-])%bind_ok.
  assert (Ok (d1, w) = Ok (Dma.set_req (req_Q d) (m_req d) c d, [])) as [= -> ->]; [|by split].
  rewrite <- E. destruct k as [now delay ks|now delay e|now]; [cbn in Hk; subst ks|done|].
  - unfold Dma.step, outcome. step_monad. by rewrite I3, I4.
  - unfold Dma.masterPortRetry, Dma.trySendPacket, outcome. step_monad. rewrite I3. step_monad. by rewrite I4.
Qed.

Lemma sa_idles junk c k d d' es ctr : idle_sa d -> no_work k -> sa_run junk c k d = Ok (d', es, ctr) ->
  idle_sa d' /\ es = [].
Proof.
  intros [I1 I2 I3 I4] Hk ([d1 w] & E & [= <- <- <-])%bind_ok.
  assert (Ok (d1, w) = Ok (Systolic.set_ctr c d, [])) as [= -> ->]; [|by split].
  rewrite <- E. destruct k as [now delay ks|now delay e|now]; [cbn in Hk; subst ks|done|].
  - unfold Systolic.step, outcome. step_monad. by rewrite I3, I4.
  - unfold Systolic.masterPortRetry, Systolic.trySendPacket, outcome. step_monad. rewrite I3.
    step_monad. by rewrite I4.
Qed.
End Idle.

(** * The SoC *)

Section Soc_timed.
Context `{Framework} {PR : PipeRegister} {PL : PipeRegisterLaws PR}.
Context (junk : nat -> nat -> nat -> Valid8) {X : CrossBar} {XL : CrossBarLaws X}.
#[local] Instance bus_of (d : soc_device) : BusDevice (soc_state d) (soc_event d) := soc_bus junk d.
Context (delay : Z).

Definition the_cpu (Y : SOC) : CPU := (n_dev _ _ Y cpu).1.
Definition the_mem (Y : SOC) : DataMemory := n_dev _ _ Y dmem.
Definition the_dma (Y : SOC) : DMAController := n_dev _ _ Y dma.
Definition the_sa (Y : SOC) : SystolicArray := n_dev _ _ Y sa.

(** The tick of an event. *)
Definition soc_tick (d : soc_device) : soc_event d -> option Z :=
  match d with
  | cpu => core_tick
  | dmem => fun e => Some e.1
  | dma => fun e => Some e.1
  | sa => fun e => Some e.1
  end.

Abbreviation soc_timed := (timed soc_state soc_event).
Abbreviation soc_step := (timed_step soc_state soc_event soc_tick delay).
Implicit Types (Y : SOC) (st : soc_timed).

(** The processor and the memory in it. *)
Definition link_of st : link :=
  let Y := tm_net _ _ st in
  Link (tm_now _ _ st) (the_cpu Y) (n_pend _ _ Y cpu) (the_mem Y) (n_pend _ _ Y dmem)
    (n_taken _ _ Y Req cpu) (n_taken _ _ Y Resp dmem)
    (tm_base _ _ st Req cpu) (tm_base _ _ st Resp dmem).

Record quiet Y : Prop := {
  qu_dma : idle_dma (the_dma Y);
  qu_dma_pend : n_pend _ _ Y dma = [];
  qu_sa : idle_sa (the_sa Y);
  qu_sa_pend : n_pend _ _ Y sa = [];
}.

(** ** Routes *)

(** Packets go from the processor to the memory and back, nowhere else. *)
Lemma routes st ch m k d : frame delay (link_of st) -> quiet (tm_net _ _ st) ->
  k ∈ issued soc_state soc_event (tm_net _ _ st) ch m -> routed ch m k d ->
  (ch = Req /\ m = cpu /\ d = dmem) \/ (ch = Resp /\ m = dmem /\ d = cpu).
Proof.
  intros F [[D1 D2 _ _] _ [S1 S2 _ _] _] Hk (i & Hi & Hd). rewrite xb_routes in Hd. cbn in Hi, Hd.
  unfold the_dma, the_sa in *.
  destruct ch, m; cbn in Hi, Hk; try done;
    rewrite ?D1, ?D2, ?S1, ?S2 in Hk; try by apply not_elem_of_nil in Hk.
  - pose proof (fr_requests _ _ F) as Hall. apply Forall_app in Hall as [Hall _].
    rewrite Forall_forall in Hall. destruct (Hall k Hk) as [b Hb].
    rewrite (single_dst _ _ Hb) in Hd. injection Hd as <-. by left.
  - pose proof (fr_replies _ _ F) as Hall. apply Forall_app in Hall as [Hall _].
    rewrite Forall_forall in Hall. destruct (Hall k Hk) as [Hb _].
    rewrite Hb in Hd. injection Hd as <-. by right.
Qed.

(** What a device can pop. *)
Lemma pops_idle st d t ks : frame delay (link_of st) -> quiet (tm_net _ _ st) -> d = dma \/ d = sa ->
  pops soc_state soc_event (tm_net _ _ st) d (n_taken _ _ (tm_net _ _ st)) ks t ->
  ks = [] /\ t = n_taken _ _ (tm_net _ _ st).
Proof.
  intros F Q Hd Hp. eapply pops_nothing; [exact Hp|]. intros ch m k Hk%subseteq_drop Hr.
  destruct (routes _ _ _ _ _ F Q Hk Hr) as [(_ & _ & ->)|(_ & _ & ->)]; by destruct Hd.
Qed.

Lemma pops_requests st t ks : frame delay (link_of st) -> quiet (tm_net _ _ st) ->
  pops soc_state soc_event (tm_net _ _ st) dmem (n_taken _ _ (tm_net _ _ st)) ks t ->
  ks `prefix_of` drop (l_req (link_of st)) (accepted (c_reg (l_cpu (link_of st))))
  /\ t Req cpu = (l_req (link_of st) + length ks)%nat /\ t Resp dmem = l_resp (link_of st).
Proof.
  intros F Q Hp. destruct (pops_one _ _ (tm_net _ _ st) dmem Req cpu _ _ _ Hp) as (H1 & H2 & H3).
  - intros ch m k Hk%subseteq_drop Hr. destruct (routes _ _ _ _ _ F Q Hk Hr) as [(? & ? & _)|(_ & _ & [=])]. done.
  - split; [exact H1|]. split; [exact H2|]. by apply H3.
Qed.

Lemma pops_replies st t ks : frame delay (link_of st) -> quiet (tm_net _ _ st) ->
  pops soc_state soc_event (tm_net _ _ st) cpu (n_taken _ _ (tm_net _ _ st)) ks t ->
  ks `prefix_of` drop (l_resp (link_of st)) (accepted (dm_reg (l_mem (link_of st))))
  /\ t Resp dmem = (l_resp (link_of st) + length ks)%nat /\ t Req cpu = l_req (link_of st).
Proof.
  intros F Q Hp. destruct (pops_one _ _ (tm_net _ _ st) cpu Resp dmem _ _ _ Hp) as (H1 & H2 & H3).
  - intros ch m k Hk%subseteq_drop Hr. destruct (routes _ _ _ _ _ F Q Hk Hr) as [(_ & _ & [=])|(? & ? & _)]. done.
  - split; [exact H1|]. split; [exact H2|]. by apply H3.
Qed.

(** ** Every step of the SoC is one of the processor and the memory *)

Definition linked st st' : Prop :=
  quiet (tm_net _ _ st') /\ (link_of st' = link_of st \/ link_step delay (link_of st) (link_of st')).

Lemma cpu_call_links now base Y c Y' : let st := Timed _ _ now base Y in
  frame delay (link_of st) -> quiet Y ->
  called soc_state soc_event Y cpu c Y' -> on_time soc_event soc_tick delay now cpu c ->
  (forall ch m, n_taken _ _ Y' ch m <= S (base ch m))%nat ->
  linked st (Timed _ _ now base Y').
Proof.
  intros st F Q [pend es ctr Ho Hrun Hpend Hoth _] Ht Hb.
  destruct (Hoth dmem ltac:(done)) as [Em Ep]. destruct (Hoth dma ltac:(done)) as [Ed Edp].
  destruct (Hoth sa ltac:(done)) as [Es Esp]. split.
  { destruct Q as [Q1 Q2 Q3 Q4]. split; unfold the_dma, the_sa; cbn [tm_net]; by rewrite ?Ed, ?Edp, ?Es, ?Esp. }
  right. specialize (Hb Resp dmem).
  assert (Hoffer : core_offer delay (link_of st) c pend (n_taken _ _ Y' Resp dmem)
    /\ n_taken _ _ Y' Req cpu = n_taken _ _ Y Req cpu).
  { remember (n_taken _ _ Y') as tk eqn:Htk in Ho. rewrite <- Htk in *. clear Htk.
    destruct Ho as [t|t l e l1 l2 He|t l ks t' Hp _]; cbn in Ht.
    - subst t. split; [|done]. apply (core_retry delay (link_of st)).
    - destruct Ht as (-> & -> & Ht). split; [|done]. by apply (core_fire delay (link_of st)).
    - destruct Ht as [-> ->]. destruct (pops_replies st _ _ F Q Hp) as (H1 & H2 & H3).
      rewrite H2 in *. split; [|done]. by apply (core_step delay (link_of st)). }
  destruct Hoffer as [Hoffer Hreq].
  replace (link_of (Timed _ _ now base Y'))
    with (on_core (the_cpu Y') (pend ++ es) (n_taken _ _ Y' Resp dmem) (link_of st)).
  - eapply (link_core delay (link_of st) (s32 (n_count _ _ Y)) c pend _ (n_dev _ _ Y cpu).2 (the_cpu Y')
      (n_dev _ _ Y' cpu).2); [exact Hoffer|].
    cbn [link_of l_cpu st tm_net]. unfold the_cpu. rewrite <- !surjective_pairing. exact Hrun.
  - unfold link_of, on_core. cbn. unfold the_mem. by rewrite Hpend, Em, Ep, Hreq.
Qed.

Lemma mem_call_links now base Y c Y' : let st := Timed _ _ now base Y in
  frame delay (link_of st) -> quiet Y ->
  called soc_state soc_event Y dmem c Y' -> on_time soc_event soc_tick delay now dmem c ->
  (forall ch m, n_taken _ _ Y' ch m <= S (base ch m))%nat ->
  linked st (Timed _ _ now base Y').
Proof.
  intros st F Q [pend es ctr Ho Hrun Hpend Hoth _] Ht Hb.
  destruct (Hoth cpu ltac:(done)) as [Em Ep]. destruct (Hoth dma ltac:(done)) as [Ed Edp].
  destruct (Hoth sa ltac:(done)) as [Es Esp]. split.
  { destruct Q as [Q1 Q2 Q3 Q4]. split; unfold the_dma, the_sa; cbn [tm_net]; by rewrite ?Ed, ?Edp, ?Es, ?Esp. }
  right. specialize (Hb Req cpu).
  assert (Hoffer : mem_offer delay (link_of st) c pend (n_taken _ _ Y' Req cpu)
    /\ n_taken _ _ Y' Resp dmem = n_taken _ _ Y Resp dmem).
  { remember (n_taken _ _ Y') as tk eqn:Htk in Ho. rewrite <- Htk in *. clear Htk.
    destruct Ho as [t|t l e l1 l2 He|t l ks t' Hp _]; cbn in Ht.
    - subst t. split; [|done]. apply (mem_retry delay (link_of st)).
    - destruct Ht as (-> & -> & Ht). split; [|done]. apply (mem_fire delay (link_of st)); [done|].
      by apply Ht.
    - destruct Ht as [-> ->]. destruct (pops_requests st _ _ F Q Hp) as (H1 & H2 & H3).
      rewrite H2 in *. split; [|done]. by apply (mem_step delay (link_of st)). }
  destruct Hoffer as [Hoffer Hresp].
  replace (link_of (Timed _ _ now base Y'))
    with (on_mem (the_mem Y') (pend ++ es) (n_taken _ _ Y' Req cpu) (link_of st)).
  - eapply (link_mem delay (link_of st) (s32 (n_count _ _ Y)) c pend); [exact Hoffer|exact Hrun].
  - unfold link_of, on_mem. cbn. unfold the_cpu. by rewrite Hpend, Em, Ep, Hresp.
Qed.

(** Nothing happens at an idle device. *)
Lemma offer_no_work st d c pend taken : frame delay (link_of st) -> quiet (tm_net _ _ st) ->
  d = dma \/ d = sa -> offers soc_state soc_event (tm_net _ _ st) d c pend taken ->
  no_work c /\ pend = [] /\ taken = n_taken _ _ (tm_net _ _ st).
Proof.
  intros F Q Hd Ho. assert (Hpend : n_pend _ _ (tm_net _ _ st) d = []).
  { by destruct Hd as [->| ->]; apply Q. }
  destruct Ho as [t|t l e l1 l2 He|t l ks t' Hp _]; cbn.
  - done.
  - rewrite He in Hpend. by apply app_eq_nil in Hpend as [_ ?].
  - by destruct (pops_idle st d _ _ F Q Hd Hp) as [-> ->].
Qed.

Lemma idle_call_links now base Y d c Y' : let st := Timed _ _ now base Y in
  frame delay (link_of st) -> quiet Y -> d = dma \/ d = sa ->
  called soc_state soc_event Y d c Y' -> linked st (Timed _ _ now base Y').
Proof.
  intros st F Q Hd [pend es ctr Ho Hrun Hpend Hoth _].
  destruct (offer_no_work st d c _ _ F Q Hd Ho) as (Hw & -> & Htk). destruct Q as [Q1 Q2 Q3 Q4].
  assert (Hq : quiet Y' /\ es = []).
  { destruct Hd as [->| ->]; cbn in Hrun.
    - destruct (dma_idles _ _ _ _ _ _ Q1 Hw Hrun) as [I ->].
      destruct (Hoth sa ltac:(done)) as [Es Esp]. split; [|done].
      split; [exact I|done|unfold the_sa; by rewrite Es|by rewrite Esp].
    - destruct (sa_idles _ _ _ _ _ _ _ Q3 Hw Hrun) as [I ->].
      destruct (Hoth dma ltac:(done)) as [Ed Edp]. split; [|done].
      split; [unfold the_dma; by rewrite Ed|by rewrite Edp|exact I|done]. }
  destruct Hq as [Hq ->]. split; [exact Hq|]. left.
  destruct (Hoth cpu) as [E1 E2]; [by destruct Hd as [->| ->]|].
  destruct (Hoth dmem) as [E3 E4]; [by destruct Hd as [->| ->]|].
  unfold link_of. cbn. unfold the_cpu, the_mem. by rewrite E1, E2, E3, E4, Htk.
Qed.

(** The crossbar drains or stalls registers. *)
Lemma ports_link now base Y d Y' : let st := Timed _ _ now base Y in
  quiet Y -> moved soc_state soc_event Y d Y' -> linked st (Timed _ _ now base Y').
Proof.
  intros st Q [Hp Hpend Hoth Htk _]. unfold linked. cbn [tm_net].
  assert (Hrest : forall d', d' <> d -> n_dev _ _ Y' d' = n_dev _ _ Y d' /\ n_pend _ _ Y' d' = n_pend _ _ Y d')
    by (intros; by apply Hoth).
  assert (Hall : forall d', n_pend _ _ Y' d' = n_pend _ _ Y d').
  { intros d'. destruct (decide (d' = d)) as [->|Hne]; [done|by apply Hrest]. }
  unfold link_of, the_cpu, the_mem, st. cbn. rewrite !Hall, Htk. destruct Q as [Q1 Q2 Q3 Q4].
  destruct d; cbn in Hp.
  - destruct Hp as (_ & r & Hr & Hs). destruct (Hrest dmem ltac:(done)) as [-> _].
    destruct (Hrest dma ltac:(done)) as [Ed _]. destruct (Hrest sa ltac:(done)) as [Es _].
    split; [split; unfold the_dma, the_sa; by rewrite ?Hall, ?Ed, ?Es|].
    right. rewrite Hs. by apply (link_core_port delay (link_of st)).
  - destruct Hp as (r & Hr & Hs). destruct (Hrest cpu ltac:(done)) as [-> _].
    destruct (Hrest dma ltac:(done)) as [Ed _]. destruct (Hrest sa ltac:(done)) as [Es _].
    split; [split; unfold the_dma, the_sa; by rewrite ?Hall, ?Ed, ?Es|].
    right. rewrite Hs. by apply (link_mem_port delay (link_of st)).
  - destruct Hp as (r1 & r2 & H1 & H2 & Hs). destruct (Hrest cpu ltac:(done)) as [-> _].
    destruct (Hrest dmem ltac:(done)) as [-> _]. destruct (Hrest sa ltac:(done)) as [Es _].
    split; [|by left]. split; unfold the_dma, the_sa; rewrite ?Hall, ?Hs, ?Es; try done.
    destruct Q1 as [I1 I2 I3 I4]. unfold the_dma in *. split; cbn; congruence.
  - destruct Hp as (r1 & r2 & H1 & H2 & Hs). destruct (Hrest cpu ltac:(done)) as [-> _].
    destruct (Hrest dmem ltac:(done)) as [-> _]. destruct (Hrest dma ltac:(done)) as [Ed _].
    split; [|by left]. split; unfold the_dma, the_sa; rewrite ?Hall, ?Hs, ?Ed; try done.
    destruct Q3 as [I1 I2 I3 I4]. unfold the_sa in *. split; cbn; congruence.
Qed.

Lemma timed_links st st' : frame delay (link_of st) -> quiet (tm_net _ _ st) -> soc_step st st' ->
  linked st st'.
Proof.
  intros F Q Hst. destruct Hst as [now base Y d c Y' Hc Ht Hb|now base Y d Y' Hm|now base Y Hn].
  - destruct d; [by eapply cpu_call_links|by eapply mem_call_links|..];
      eapply idle_call_links; [done|done| |exact Hc|done|done| |exact Hc]; auto.
  - by eapply ports_link.
  - split; [exact Q|]. right. apply (link_tick delay (link_of (Timed _ _ now base Y))); cbn.
    + intros e t He Ht. by eapply (Hn cpu).
    + apply Forall_forall. intros e He. by eapply (Hn dmem).
Qed.

(** * Runs *)

Section Runs.
Context (Hdelay : 0 <= delay) (imem : list instr) (Himem : Forall wf_used imem) (x0 : rv_state).

Definition soc_inv st : Prop :=
  lost imem x0 (link_of st)
  \/ (quiet (tm_net _ _ st) /\ frame delay (link_of st) /\ following imem x0 (link_of st)).

(** A run in which no store of the processor is refused. *)
Definition calm_step st st' : Prop := soc_step st st' /\ calm (link_of st').

(** The count of instructions does not fall. *)
Lemma count_grows st st' : soc_step st st' ->
  c_inst_cnt (the_cpu (tm_net _ _ st)) <= c_inst_cnt (the_cpu (tm_net _ _ st')).
Proof.
  unfold the_cpu.
  intros [now base Y d c Y' [pend es ctr _ Hrun _ Hoth _] _ _|now base Y d Y' [Hp _ Hoth _ _]|now base Y _];
    cbn [tm_net]; [| |done].
  all: destruct (decide (d = cpu)) as [->|Hne]; [|by destruct (Hoth cpu) as [-> _]].
  - cbn in Hrun. destruct (n_dev _ _ Y cpu) as [s u], (n_dev _ _ Y' cpu) as [s' u'].
    by eapply core_counts.
  - destruct Hp as (_ & r & _ & ->). done.
Qed.

Lemma calm_keeps st st' : calm_step st st' -> calm (link_of st) -> soc_inv st -> soc_inv st'.
Proof.
  intros [Hst Hc'] Hc [Hl|(Q & F & Hf)].
  - left. eapply soc_ref_run_none; [exact Hl|].
    pose proof (count_grows _ _ Hst). cbn. lia.
  - destruct (timed_links _ _ F Q Hst) as [Q' [E|Hl]].
    + right. rewrite E. auto.
    + destruct (link_keeps delay Hdelay imem Himem x0 _ _ Hl Hc Hc') as [?|[? ?]]; [by right|by left|by right].
Qed.
End Runs.
End Soc_timed.
