(* ===== verification/SocProgress.v ===== *)
(** The SoC can always go on: from every state of a run on a program that
    ends, the framework can take the processor and the memory to the end of
    the program. What there is to do has a cost, and some call, some draining
    of a register or the clock makes it smaller. *)
From stdpp Require Import sorting.
From S2P Require Import Prelude Machine DataStruct Memory Bus DataMemory Cfu Isa Reference Cpu CpuRef.
From S2P Require Import Dma Grid SystolicPE Systolic CString Emulator Device Network Timed.
From S2P Require Import SocDevices SocDma SocSystolic SocSystem SocAccess SocExec SocLink SocTimed.
Local Open Scope Z_scope.

(** * What can be called *)

Section Enabled.
Context `{Framework} {PR : PipeRegister} {PL : PipeRegisterLaws PR}.
Context (delay : Z) (imem : list instr) (Himem : Forall wf_used imem) (x0 : rv_state).
Implicit Types v : link.

Abbreviation frame := (frame delay).
Abbreviation following := (following imem x0).

(** An event of the memory that is due. *)
Lemma fire_enabled v l1 l2 e : frame v -> following v -> l_sched v = l1 ++ e :: l2 -> e.1 = l_now v ->
  exists d, outcome (dm_fire e.2) (l_mem v) = Ok (d, [])
    /\ match event_access e with
       | Some _ => exists k, performed (l_mem v) d k
       | None => resent (l_mem v) d
       end.
Proof.
  intros F (x & tr & Hr & M & P) He Hn. destruct e as [t e]. cbn [fst snd] in *.
  destruct e as [p|p|]; cbn [dm_fire event_access snd].
  - destruct (access_due delay v l1 l2 (t, DmRead p) _ F He Hn eq_refl) as [Hc Ha].
    unfold in_phase in P. rewrite Ha in P. apply phase_read in P as (_ & z & Hz & _).
    destruct (fire_read _ p z (fr_trackers _ _ F) Hc Hz) as (d & k & E & D1 & D2 & D3 & D4 & D5 & _).
    exists d. split; [exact E|]. by exists k.
  - destruct (access_due delay v l1 l2 (t, DmWrite p) _ F He Hn eq_refl) as [Hc Ha].
    unfold in_phase in P. rewrite Ha in P. apply phase_write in P as (m' & Hm & _).
    destruct (fire_write _ p m' (fr_trackers _ _ F) Hc Hm) as (d & k & E & D1 & D2 & D3 & D4 & D5 & _).
    exists d. split; [exact E|]. by exists k.
  - destruct (send_resent (l_mem v)) as (d & E & R). exists d. unfold outcome. rewrite E. by split.
Qed.

(** A response that the processor pops. *)
Lemma deliver_enabled v n k : frame v -> following v ->
  [k] `prefix_of` drop (l_resp v) (accepted (dm_reg (l_mem v))) ->
  exists s w, outcome (Cpu.step (l_now v) [BusItem k]) (begun n (l_cpu v)) = Ok (s, w)
    /\ same_bus (l_cpu v) s /\ c_inst_cnt s = c_inst_cnt (l_cpu v)
    /\ (w = [] \/ exists id, w = [ExecOneInstrEvent (l_now v + 1) id]).
Proof.
  intros F (x & tr & Hr & M & P) Hp. destruct (prefix_drop _ _ _ Hp) as [Hd _].
  assert (Hk : reply k).
  { pose proof (fr_replies _ _ F) as Hall. rewrite Forall_forall in Hall. apply Hall, elem_of_app. left.
    eapply (subseteq_drop (l_resp v)). rewrite Hd. left. }
  destruct Hk as [_ Hk]. destruct k as [p|p|p|p]; try done.
  - destruct Hk as [r Hpl].
    pose proof (undelivered_step v (l_cpu v) [] [ReadResp p] Hp) as Hu.
    assert (Hvals : exists R, values v = r :: R) by (unfold values; rewrite Hu; cbn; rewrite Hpl; by eexists).
    destruct Hvals as [R Hvals]. unfold in_phase in P. rewrite Hvals in P.
    destruct P as [t' ws _ _ PV|ws i tr1 _ _ PV|ws p' x' i _ _ PV|r' x' i PE PA PV PM PC _ PN PL' Pi P1 PL2
      |ws x' i _ _ PV|ws x' i r' _ _ PV]; try done. injection PV as <- _.
    destruct (load_completes imem Himem x x' i _ (l_now v) r (matches_begun _ x n _ M) PN PL' Pi P1 PL2)
      as (_ & s' & E' & _ & B & Hcnt).
    exists s', [ExecOneInstrEvent (l_now v + 1) (c_inst_cnt (begun n (l_cpu v)))]. split_and!; try done; [|by right; eexists].
    unfold Cpu.step, outcome. cbn [foreach step_item]. unfold memReadXBarRespHandler. rewrite Hpl.
    cbn [foreach]. step_monad. by rewrite E'.
  - exists (begun n (l_cpu v)), []. split_and!; try done. by left.
Qed.

Lemma cfu_enabled v p u : following v -> l_events v = [CoreToCfu p] ->
  exists u' r, outcome (cfu_step [p]) u = Ok (u', [r]).
Proof.
  intros (x & tr & Hr & M & P) He. unfold in_phase in P. rewrite He in P.
  destruct P as [t' ws PE|ws i tr1 PE|ws p' x' i PE|r x' i PE|ws x' i PE PA PR' PM PC _ PN PK|ws x' i r PE];
    try done. injection PE as ->. pose proof PN as (_ & _ & _ & Hs & _)%soc_next_inv.
  unfold soc_mstep in Hs. rewrite PK in Hs. destruct (simd_spec _ _ _) as [r|] eqn:Hsp; [|done].
  destruct (cfu_spec_run u i _ _ r Hsp) as [u' E]. exists u', (CFUResp i r).
  unfold cfu_step, outcome in *. cbn [foreach]. step_monad.
  destruct (packet_handler _ _) as [[[[] ?] ?]|]; [|done]. injection E as -> ->. done.
Qed.

Lemma result_enabled v n p : following v -> l_events v = [CoreFromCfu p] ->
  exists s id, outcome (CFURespHandler (l_now v) p) (begun n (l_cpu v))
      = Ok (s, [ExecOneInstrEvent (l_now v + 1) id])
    /\ same_bus (l_cpu v) s /\ c_inst_cnt s = c_inst_cnt (l_cpu v).
Proof.
  intros (x & tr & Hr & M & P) He. unfold in_phase in P. rewrite He in P.
  destruct P as [t' ws PE|ws i tr1 PE|ws p' x' i PE|r x' i PE|ws x' i PE|ws x' i r PE PA PR' PM PC _ PN PK PV];
    try done. injection PE as ->.
  destruct (simd_completes imem Himem x x' i _ (l_now v) r (matches_begun _ x n _ M) PN PK PV)
    as (Hm & s' & E' & M' & B & Hcnt).
  eexists s', _. unfold outcome. rewrite E'. by split_and!.
Qed.
End Enabled.

(** * The end of the program *)

Section Ends.
Context (fetch : Z -> option instr) (x0 xe : rv_state) (h : instr) (tre : list instr).

(** The reference machine executes [tre] and then the first [hcf]. *)
Record soc_ends : Prop := {
  se_run : soc_ref_run (S (length tre)) fetch x0 = Some (xe, h :: tre);
  se_hcf : i_op h = HCF;
  se_live : live tre;
}.

Lemma soc_run_length n x x' tr : soc_ref_run n fetch x = Some (x', tr) -> length tr = n.
Proof.
  revert x' tr. induction n as [|n IH]; intros x' tr; [by intros [= _ <-]|]. cbn.
  intros ([x1 tr1] & Hr & ([x2 j] & _ & [= _ <-])%bind_Some)%bind_Some. cbn. by rewrite (IH x1 tr1).
Qed.

Lemma soc_run_drop n k x x' tr : soc_ref_run (k + n) fetch x = Some (x', tr) ->
  exists x1, soc_ref_run n fetch x = Some (x1, drop k tr).
Proof.
  revert x' tr. induction k as [|k IH]; intros x' tr; [by exists x'|]. cbn.
  intros ([x1 tr1] & Hr & ([x2 j] & _ & [= _ <-])%bind_Some)%bind_Some. by apply (IH x1).
Qed.

Context (He : soc_ends).

(** A run without [hcf] is shorter, and goes on. *)
Lemma live_short x tr : soc_ref_run (length tr) fetch x0 = Some (x, tr) -> live tr ->
  (length tr <= length tre)%nat /\ exists x' i, soc_next fetch x = Some (x', i).
Proof.
  intros Hr Hl. destruct He as [Hrun Hh Hlive]. assert (Hlen : (length tr <= length tre)%nat).
  { destruct (decide (length tr <= length tre)%nat) as [|Hgt]; [done|exfalso].
    replace (length tr) with (length tr - S (length tre) + S (length tre))%nat in Hr by lia.
    apply soc_run_drop in Hr as [x1 Hr]. rewrite Hrun in Hr. injection Hr as _ Hd.
    unfold live in Hl. rewrite Forall_forall in Hl. apply (Hl h); [|done].
    eapply (subseteq_drop _ tr). rewrite <- Hd. left. }
  split; [done|].
  replace (S (length tre)) with (length tre - length tr + S (length tr))%nat in Hrun by lia.
  apply soc_run_drop in Hrun as [x1 Hrun]. cbn in Hrun. rewrite Hr in Hrun. cbn in Hrun.
  destruct (soc_next fetch x) as [[x2 j]|]; [by eexists _, _|done].
Qed.

(** A run that ends with the first [hcf] is the whole. *)
Lemma done_end x i tr : soc_ref_run (length (i :: tr)) fetch x0 = Some (x, i :: tr) ->
  i_op i = HCF -> live tr -> x = xe /\ tr = tre /\ i = h.
Proof.
  intros Hr Hi Hl. destruct He as [Hrun Hh Hlive]. unfold live in *. rewrite Forall_forall in Hl, Hlive.
  destruct (lt_eq_lt_dec (length tr) (length tre)) as [[Hlt|Heq]|Hgt].
  - exfalso. replace (S (length tre)) with (length tre - length tr + length (i :: tr))%nat in Hrun
      by (cbn; lia).
    apply soc_run_drop in Hrun as [x1 Hrun]. rewrite Hr in Hrun. injection Hrun as _ Hd.
    replace (length tre - length tr)%nat with (S (length tre - length tr - 1)) in Hd by lia.
    cbn [drop] in Hd. apply (Hlive i); [|done]. eapply (subseteq_drop _ tre). rewrite <- Hd. left.
  - cbn [length] in Hr. rewrite Heq, Hrun in Hr. by injection Hr.
  - exfalso. replace (length (i :: tr)) with (length tr - length tre + S (length tre))%nat in Hr
      by (cbn; lia).
    apply soc_run_drop in Hr as [x1 Hr]. rewrite Hrun in Hr. injection Hr as _ Hd.
    replace (length tr - length tre)%nat with (S (length tr - length tre - 1)) in Hd by lia.
    cbn [drop] in Hd. apply (Hl h); [|done]. eapply (subseteq_drop _ tr). rewrite <- Hd. left.
Qed.
End Ends.

(** * The cost of what there is to do *)

Section Progress.
Context `{Framework} {PR : PipeRegister} {PL : PipeRegisterLaws PR} {PV : PipeRegisterLive PR}.
Context (junk : nat -> nat -> nat -> Valid8) {X : CrossBar} {XL : CrossBarLaws X}.
#[local] Instance bus_of (d : soc_device) : BusDevice (soc_state d) (soc_event d) := soc_bus junk d.
Context (delay : Z) (Hdelay : 0 <= delay) (imem : list instr) (Himem : Forall wf_used imem).
Context (x0 xe : rv_state) (h : instr) (tre : list instr).
Context (Hends : soc_ends (fetch_imem imem) x0 xe h tre) (Hint : Z.of_nat (length tre) + 1 <= 2 ^ 31 - 1).
Implicit Types v : link.

Abbreviation frame := (frame delay).
Abbreviation following := (following imem x0).

(** Until an event is due. *)
Definition dist (now t : Z) : nat := Z.to_nat (t - now).

Definition event_cost (now : Z) (e : core_event) : nat :=
  match e with
  | CoreExec t => S (dist now t)
  | CoreToCfu _ => 6
  | CoreFromCfu _ => 4
  end.
Definition sched_cost (now : Z) (e : Z * dm_event) : nat :=
  dist now e.1 + match e.2 with DmTrySend => 1 | _ => 7 end.
Definition request_cost : nat := 20 + 2 * Z.to_nat delay.

(** What the bus, the memory and the pending events cost. *)
Definition work v : nat :=
  sum_list_with (event_cost (l_now v)) (l_events v) + sum_list_with (sched_cost (l_now v)) (l_sched v)
  + request_cost * length (drop (l_req v) (accepted (c_reg (l_cpu v))))
  + S request_cost * length (c_queue (l_cpu v))
  + 4 * length (drop (l_resp v) (accepted (dm_reg (l_mem v)))) + 5 * length (dm_respQ (l_mem v))
  + (l_req v - l_req0 v) + (l_resp v - l_resp0 v).

(** And the instructions that have not been begun. *)
Definition cost v : nat :=
  (S (length tre) - Z.to_nat (c_inst_cnt (l_cpu v))) * (request_cost + 10) + work v.

(** ** Calls of the SoC *)

Abbreviation soc_timed := (timed soc_state soc_event).
Abbreviation soc_step := (timed_step soc_state soc_event soc_tick delay).
Implicit Types st : soc_timed.

(** No register has handed over more than one packet in this tick. *)
Definition paced st : Prop :=
  forall ch m, (n_taken _ _ (tm_net _ _ st) ch m <= S (tm_base _ _ st ch m))%nat.

Record running st : Prop := {
  ru_quiet : quiet (tm_net _ _ st);
  ru_frame : frame (link_of st);
  ru_following : following (link_of st);
  ru_calm : calm (link_of st);
  ru_paced : paced st;
}.

Lemma step_paced st st' : soc_step st st' -> paced st -> paced st'.
Proof.
  intros [now base Y d c Y' _ _ Hb|now base Y d Y' Hm|now base Y _] Hp ch m; cbn in *.
  - apply Hb.
  - rewrite (mv_taken _ _ _ _ _ Hm). apply Hp.
  - lia.
Qed.

(** How many instructions were begun. *)
Lemma following_count v : following v -> (Z.to_nat (c_inst_cnt (l_cpu v)) <= S (length tre))%nat.
Proof.
  intros (x & tr & Hr & M & P).
  destruct P as [t ws _ _ _ _ C L|ws i tr1 _ _ _ _ C E Hi L|ws p x' i _ _ _ _ C L|r x' i _ _ _ _ C L
    |ws x' i _ _ _ _ C L|ws x' i r _ _ _ _ C L].
  2: { subst tr. destruct (done_end _ _ _ _ _ Hends x i tr1 Hr Hi L) as (_ & -> & _). cbn in C. lia. }
  all: pose proof (live_short _ _ _ _ _ Hends x tr Hr L) as [Hlen _]; lia.
Qed.

Lemma not_lost v : (Z.to_nat (c_inst_cnt (l_cpu v)) <= S (length tre))%nat -> ~ lost imem x0 v.
Proof.
  intros Hle Hl. pose proof (se_run _ _ _ _ _ Hends) as Hrun.
  by rewrite (soc_ref_run_none _ _ _ _ Hl Hle) in Hrun.
Qed.

Lemma step_running st st' : running st -> soc_step st st' -> calm (link_of st') ->
  (Z.to_nat (c_inst_cnt (l_cpu (link_of st'))) <= S (length tre))%nat -> running st'.
Proof.
  intros [Q F Hf Hc Hp] Hst Hc' Hn.
  destruct (calm_keeps junk delay Hdelay imem Himem x0 st st' (conj Hst Hc') Hc) as [Hl|(Q' & F' & Hf')].
  - right. auto.
  - by destruct (not_lost _ Hn).
  - split; try done. by eapply step_paced.
Qed.

(** No run begins more instructions than the program has. *)
Lemma link_step_count v v' : following v -> link_step delay v v' ->
  (Z.to_nat (c_inst_cnt (l_cpu v')) <= S (length tre))%nat.
Proof.
  intros Hf Hst. pose proof (following_count v Hf) as Hle.
  destruct Hst as [n c pend resp u s u' es n' Ho Hrun| | | |]; try exact Hle.
  apply core_begins in Hrun as [E|[E (now & dl & t & ->)]]; cbn; rewrite E; [done|].
  assert (He : exists l1 l2, l_events v = l1 ++ CoreExec t :: l2) by (inversion Ho; eauto).
  destruct He as (l1 & l2 & He). destruct Hf as (x & tr & Hr & _ & P). unfold in_phase in P.
  rewrite He in P.
  destruct P as [t' ws PE _ _ _ C L|ws i tr1 PE|ws p x' i PE|r x' i PE|ws x' i PE|ws x' i r PE];
    try (apply app_eq_nil in PE as [_ ?]; done); apply one_event in PE as (_ & _ & Ee); try done.
  pose proof (live_short _ _ _ _ _ Hends x tr Hr L) as [Hlen _]. lia.
Qed.

Lemma calm_running st st' : running st -> calm_step junk delay st st' -> running st'.
Proof.
  intros R [Hst Hc]. eapply step_running; try done.
  destruct (timed_links junk delay st st' (ru_frame _ R) (ru_quiet _ R) Hst) as [_ [E|Hl]].
  - rewrite E. apply following_count, R.
  - eapply link_step_count; [apply R|done].
Qed.

Lemma run_running st st' : rtc (calm_step junk delay) st st' -> running st -> running st'.
Proof. induction 1 as [|st1 st2 st3 H12 _ IH]; [done|]. intros R. by eapply IH, calm_running. Qed.

Lemma do_core st c pend taken s u es n' :
  offers soc_state soc_event (tm_net _ _ st) cpu c pend taken ->
  on_time soc_event soc_tick delay (tm_now _ _ st) cpu c ->
  core_run (s32 (n_count _ _ (tm_net _ _ st))) c (n_dev _ _ (tm_net _ _ st) cpu) = Ok ((s, u), es, n') ->
  (forall ch m, taken ch m <= S (tm_base _ _ st ch m))%nat ->
  taken Req cpu = l_req (link_of st) ->
  exists st', soc_step st st' /\ link_of st' = on_core s (pend ++ es) (taken Resp dmem) (link_of st).
Proof.
  destruct st as [now base Y]. cbn [tm_now tm_base tm_net]. intros Ho Ht Hrun Hb Hreq.
  eexists (Timed _ _ now base (Net _ _ (set_module cpu (s, u) (n_dev _ _ Y))
    (set_events cpu (pend ++ es) (n_pend _ _ Y)) taken _)).
  split.
  - eapply timed_call; [|exact Ht|exact Hb].
    eapply (soc_call_called junk); [exact Ho|]. unfold soc_call. cbn [bd_run soc_bus core_device].
    rewrite Hrun. reflexivity.
  - unfold link_of, on_core. cbn. by rewrite Hreq.
Qed.

Lemma do_mem st c pend taken d es n' :
  offers soc_state soc_event (tm_net _ _ st) dmem c pend taken ->
  on_time soc_event soc_tick delay (tm_now _ _ st) dmem c ->
  dm_run (s32 (n_count _ _ (tm_net _ _ st))) c (n_dev _ _ (tm_net _ _ st) dmem) = Ok (d, es, n') ->
  (forall ch m, taken ch m <= S (tm_base _ _ st ch m))%nat ->
  taken Resp dmem = l_resp (link_of st) ->
  exists st', soc_step st st' /\ link_of st' = on_mem d (pend ++ es) (taken Req cpu) (link_of st).
Proof.
  destruct st as [now base Y]. cbn [tm_now tm_base tm_net]. intros Ho Ht Hrun Hb Hresp.
  eexists (Timed _ _ now base (Net _ _ (set_module dmem d (n_dev _ _ Y))
    (set_events dmem (pend ++ es) (n_pend _ _ Y)) taken _)).
  split.
  - eapply timed_call; [|exact Ht|exact Hb].
    eapply (soc_call_called junk); [exact Ho|]. unfold soc_call. cbn [bd_run soc_bus dm_device].
    rewrite Hrun. reflexivity.
  - unfold link_of, on_mem. cbn. by rewrite Hresp.
Qed.

(** The crossbar empties a register. *)
Lemma do_drain_core st : exists st' r, soc_step st st' /\ open_reg r
  /\ accepted r = accepted (c_reg (l_cpu (link_of st)))
  /\ link_of st' = on_core (set_bus (c_queue (l_cpu (link_of st))) r (c_ctr (l_cpu (link_of st)))
       (l_cpu (link_of st))) (l_events (link_of st)) (l_resp (link_of st)) (link_of st).
Proof.
  destruct st as [now base Y]. destruct (pl_drained (c_reg (the_cpu Y))) as (r & Hr & Ho).
  set (s := set_bus (c_queue (the_cpu Y)) r (c_ctr (the_cpu Y)) (the_cpu Y)).
  exists (Timed _ _ now base (Net _ _ (set_module cpu (s, (n_dev _ _ Y cpu).2) (n_dev _ _ Y))
    (n_pend _ _ Y) (n_taken _ _ Y) (n_count _ _ Y))), r.
  split_and!; [|done|done|done]. eapply (timed_ports _ _ _ _ _ _ _ cpu). split; try done; cbn.
  - split; [done|]. by exists r.
  - intros d' Hd. by destruct d'.
Qed.

Lemma do_drain_mem st : exists st' r, soc_step st st' /\ open_reg r
  /\ accepted r = accepted (dm_reg (l_mem (link_of st)))
  /\ link_of st' = on_mem (DMem (dm_mem (l_mem (link_of st))) (dm_pending (l_mem (link_of st)))
       (dm_respQ (l_mem (link_of st))) r) (l_sched (link_of st)) (l_req (link_of st)) (link_of st).
Proof.
  destruct st as [now base Y]. destruct (pl_drained (dm_reg (the_mem Y))) as (r & Hr & Ho).
  set (d := DMem (dm_mem (the_mem Y)) (dm_pending (the_mem Y)) (dm_respQ (the_mem Y)) r).
  exists (Timed _ _ now base (Net _ _ (set_module dmem d (n_dev _ _ Y))
    (n_pend _ _ Y) (n_taken _ _ Y) (n_count _ _ Y))), r.
  split_and!; [|done|done|done]. eapply (timed_ports _ _ _ _ _ _ _ dmem). split; try done; cbn.
  - by exists r.
  - intros d' Hd. by destruct d'.
Qed.

Lemma do_tick st : quiet (tm_net _ _ st) ->
  (forall e t, e ∈ l_events (link_of st) -> core_tick e = Some t -> l_now (link_of st) < t) ->
  Forall (fun e => l_now (link_of st) < e.1) (l_sched (link_of st)) ->
  exists st', soc_step st st' /\ link_of st' = next_tick (link_of st).
Proof.
  destruct st as [now base Y]. intros [_ Q1 _ Q2] He Hm. cbn [tm_net] in *.
  exists (Timed _ _ (now + 1) (n_taken _ _ Y) Y). split; [|done]. apply timed_tick.
  intros d e t Hin Ht. destruct d; cbn in Ht.
  - by eapply He.
  - injection Ht as <-. rewrite Forall_forall in Hm. by apply Hm.
  - rewrite Q1 in Hin. by apply not_elem_of_nil in Hin.
  - rewrite Q2 in Hin. by apply not_elem_of_nil in Hin.
Qed.

(** ** Progress *)

Definition advances st : Prop :=
  exists st', rtc (calm_step junk delay) st st' /\ running st' /\ (cost (link_of st') < cost (link_of st))%nat.

Lemma one_step st st' v' : running st -> soc_step st st' -> link_of st' = v' -> calm v' ->
  c_inst_cnt (l_cpu v') = c_inst_cnt (l_cpu (link_of st)) -> (work v' < work (link_of st))%nat -> advances st.
Proof.
  intros R Hst <- Hc Hcnt Hw. exists st'. split; [by apply rtc_once|].
  split; [|unfold cost; rewrite Hcnt; lia]. eapply step_running; try done.
  rewrite Hcnt. apply following_count, R.
Qed.

Lemma begins_step st st' v' : running st -> soc_step st st' -> link_of st' = v' -> calm v' ->
  c_inst_cnt (l_cpu v') = c_inst_cnt (l_cpu (link_of st)) + 1 ->
  (Z.to_nat (c_inst_cnt (l_cpu (link_of st))) <= length tre)%nat -> 0 <= c_inst_cnt (l_cpu (link_of st)) ->
  (work v' < work (link_of st) + (request_cost + 10))%nat -> advances st.
Proof.
  intros R Hst <- Hc Hcnt Hle H0 Hw. exists st'. split; [by apply rtc_once|]. split.
  - eapply step_running; try done. rewrite Hcnt. lia.
  - unfold cost. rewrite Hcnt.
    replace (S (length tre) - Z.to_nat (c_inst_cnt (l_cpu (link_of st))))%nat
      with (S (S (length tre) - Z.to_nat (c_inst_cnt (l_cpu (link_of st)) + 1)))%nat by lia. lia.
Qed.

(** A register is emptied first. *)
Lemma drained_core st : running st -> exists st1 r, calm_step junk delay st st1 /\ running st1
  /\ cost (link_of st1) = cost (link_of st) /\ open_reg r
  /\ link_of st1 = on_core (set_bus (c_queue (l_cpu (link_of st))) r (c_ctr (l_cpu (link_of st)))
       (l_cpu (link_of st))) (l_events (link_of st)) (l_resp (link_of st)) (link_of st).
Proof.
  intros R. destruct (do_drain_core st) as (st1 & r & Hst & Ho & Hr & E). exists st1, r.
  assert (Hc : calm (link_of st1)) by (rewrite E; apply R).
  split_and!; try done.
  - eapply step_running; try done. rewrite E. exact (following_count _ (ru_following _ R)).
  - rewrite E. unfold cost, work. cbn. by rewrite Hr.
Qed.

Lemma drained_mem st : running st -> exists st1 r, calm_step junk delay st st1 /\ running st1
  /\ cost (link_of st1) = cost (link_of st) /\ open_reg r
  /\ link_of st1 = on_mem (DMem (dm_mem (l_mem (link_of st))) (dm_pending (l_mem (link_of st)))
       (dm_respQ (l_mem (link_of st))) r) (l_sched (link_of st)) (l_req (link_of st)) (link_of st).
Proof.
  intros R. destruct (do_drain_mem st) as (st1 & r & Hst & Ho & Hr & E). exists st1, r.
  assert (Hc : calm (link_of st1)) by (rewrite E; apply R).
  split_and!; try done.
  - eapply step_running; try done. rewrite E. exact (following_count _ (ru_following _ R)).
  - rewrite E. unfold cost, work. cbn. by rewrite Hr.
Qed.

Lemma advances_after st st1 : calm_step junk delay st st1 -> cost (link_of st1) = cost (link_of st) ->
  advances st1 -> advances st.
Proof.
  intros H1 E (st' & Hs & R & Hlt). exists st'. split; [by eapply rtc_l|]. split; [done|]. by rewrite <- E.
Qed.

(** *** The memory *)

Lemma sum_with_middle {A} (f : A -> nat) l1 a l2 :
  sum_list_with f (l1 ++ a :: l2) = (f a + sum_list_with f (l1 ++ l2))%nat.
Proof. rewrite !sum_list_with_app. cbn. lia. Qed.

(** Sending a response does not add work. *)
Lemma resent_work (d d' : DataMemory) n : resent d d' -> (n <= length (accepted (dm_reg d)))%nat ->
  (4 * length (drop n (accepted (dm_reg d'))) + 5 * length (dm_respQ d')
   <= 4 * length (drop n (accepted (dm_reg d))) + 5 * length (dm_respQ d))%nat.
Proof.
  intros [_ _ (l & -> & ->)] Hn. rewrite !length_drop, !length_app. lia.
Qed.

Lemma dist_due now t : t = now -> dist now t = 0%nat.
Proof. intros ->. unfold dist. lia. Qed.

Lemma fire_mem_advances st l1 l2 e : running st -> l_sched (link_of st) = l1 ++ e :: l2 ->
  e.1 = l_now (link_of st) -> advances st.
Proof.
  intros R He Hn. pose proof (ru_frame _ R) as F.
  destruct (fire_enabled delay imem x0 (link_of st) l1 l2 e F (ru_following _ R) He Hn)
    as (d & E & Hd).
  destruct (do_mem st (CFire (l_now (link_of st)) delay e) (l1 ++ l2) (n_taken _ _ (tm_net _ _ st)) d []
    (s32 (n_count _ _ (tm_net _ _ st)))) as (st' & Hst & El).
  - by apply (offers_fire _ _ (tm_net _ _ st) dmem _ _ e l1 l2).
  - split; [done|]. split; [done|]. cbn. intros t [= <-]. done.
  - unfold dm_run. change (n_dev _ _ (tm_net _ _ st) dmem) with (l_mem (link_of st)). by rewrite E.
  - apply (ru_paced _ R).
  - done.
  - eapply one_step; [done|exact Hst|exact El|apply R|done|]. rewrite app_nil_r.
    unfold work. cbn [on_mem l_now l_cpu l_events l_mem l_sched l_req l_resp l_req0 l_resp0].
    rewrite He, sum_with_middle. unfold sched_cost at 2. rewrite dist_due by done.
    pose proof (fr_resp _ _ F) as Hresp. destruct e as [t e]. cbn [fst snd] in *.
    change (n_taken _ _ (tm_net _ _ st) Req cpu) with (l_req (link_of st)).
    destruct (event_access (t, e)) as [tb|] eqn:Ea.
    + destruct Hd as (k & [_ P2 P3 _]). rewrite P2, P3, length_app. destruct e; cbn; [lia|lia|done].
    + pose proof (resent_work _ _ (l_resp (link_of st)) Hd ltac:(lia)). destruct e; [done|done|lia].
Qed.

Lemma send_advances st : running st -> dm_respQ (l_mem (link_of st)) <> [] -> advances st.
Proof.
  intros R Hq. destruct (drained_mem st R) as (st1 & r & Hst1 & R1 & Ec & Ho & E1).
  eapply advances_after; [exact Hst1|exact Ec|].
  set (d := l_mem (link_of st1)).
  assert (Hd : dm_respQ d <> [] /\ open_reg (dm_reg d)) by (unfold d; by rewrite E1).
  destruct Hd as [Hd Hopen]. destruct (dm_respQ d) as [|p q] eqn:Eq; [done|].
  destruct (open_push _ p Hopen) as [r' Hp].
  destruct (do_mem st1 (CRetry (l_now (link_of st1))) (n_pend _ _ (tm_net _ _ st1) dmem)
    (n_taken _ _ (tm_net _ _ st1)) (DMem (dm_mem d) (dm_pending d) q r') []
    (s32 (n_count _ _ (tm_net _ _ st1)))) as (st' & Hst & El).
  - apply offers_retry.
  - done.
  - unfold dm_run, outcome, DataMemory.masterPortRetry, DataMemory.trySendResponse.
    change (n_dev _ _ (tm_net _ _ st1) dmem) with d. step_monad. rewrite Eq, Hp. done.
  - apply (ru_paced _ R1).
  - done.
  - eapply one_step; [done|exact Hst|exact El|apply R1|done|]. rewrite app_nil_r.
    unfold work. cbn [on_mem l_now l_cpu l_events l_mem l_sched l_req l_resp l_req0 l_resp0].
    change (n_taken _ _ (tm_net _ _ st1) Req cpu) with (l_req (link_of st1)).
    change (n_pend _ _ (tm_net _ _ st1) dmem) with (l_sched (link_of st1)). fold d. rewrite Eq.
    cbn [dm_reg dm_respQ length]. apply try_push_true in Hp as ->.
    pose proof (fr_resp _ _ (ru_frame _ R1)) as Hresp. fold d in Hresp.
    rewrite !length_drop, length_app. cbn. lia.
Qed.

(** One packet has left the register of [m] on [ch]. *)
Definition taking (ch : channel) (m : soc_device) (Y : SOC) (ch' : channel) (m' : soc_device) : nat :=
  if decide ((ch', m') = (ch, m)) then S (n_taken _ _ Y ch m) else n_taken _ _ Y ch' m'.

Lemma pops_taking (Y : SOC) d ch m k rest :
  drop (n_taken _ _ Y ch m) (issued soc_state soc_event Y ch m) = k :: rest -> routed ch m k d ->
  pops soc_state soc_event Y d (n_taken _ _ Y) [k] (taking ch m Y).
Proof.
  intros Hd Hr. eapply (pops_cons _ _ Y d _ (taking ch m Y) _ ch m); [|exact Hr| | |apply pops_nil].
  - apply (f_equal head) in Hd. rewrite <- (Nat.add_0_r (n_taken _ _ Y ch m)), <- lookup_drop. by rewrite head_lookup in Hd.
  - unfold taking. by rewrite decide_True.
  - intros ch' m' Hne. unfold taking. by rewrite decide_False.
Qed.

Lemma paced_taking st ch m : paced st ->
  n_taken _ _ (tm_net _ _ st) ch m = tm_base _ _ st ch m ->
  forall ch' m', (taking ch m (tm_net _ _ st) ch' m' <= S (tm_base _ _ st ch' m'))%nat.
Proof.
  intros Hp E ch' m'. unfold taking. case_decide as Hd; [|apply Hp]. injection Hd as -> ->. lia.
Qed.

Lemma arrival_advances st q rest : running st ->
  drop (l_req (link_of st)) (accepted (c_reg (l_cpu (link_of st)))) = q :: rest ->
  l_req (link_of st) = l_req0 (link_of st) -> advances st.
Proof.
  intros R Hd Hfirst. pose proof (ru_frame _ R) as F.
  assert (Hq : exists b, single b q).
  { pose proof (fr_requests _ _ F) as Hall. rewrite Forall_forall in Hall. apply Hall, elem_of_app. left.
    eapply (subseteq_drop (l_req (link_of st))). rewrite Hd. left. }
  destruct Hq as [b Hb].
  destruct (step_single (l_now (link_of st)) delay _ b q Hb (fr_trackers _ _ F)) as (d' & d1 & E1 & _ & Hres & Ed).
  destruct (do_mem st (CStep (l_now (link_of st)) delay [q]) (n_pend _ _ (tm_net _ _ st) dmem)
    (taking Req cpu (tm_net _ _ st)) d' [(l_now (link_of st) + delay, beat_event b);
      (l_now (link_of st) + 1 + 1 + delay, DmTrySend)] (s32 (n_count _ _ (tm_net _ _ st)))) as (st' & Hst & El).
  - apply offers_step; [|cbn; unfold slave_ports; lia]. eapply pops_taking; [exact Hd|].
    exists 0%nat. split; [done|]. rewrite xb_routes, (single_dst _ _ Hb). done.
  - done.
  - unfold dm_run. change (n_dev _ _ (tm_net _ _ st) dmem) with (l_mem (link_of st)). by rewrite E1.
  - apply paced_taking; [apply (ru_paced _ R)|done].
  - done.
  - eapply one_step; [done|exact Hst|exact El|apply R|done|].
    unfold work. cbn [on_mem l_now l_cpu l_events l_mem l_sched l_req l_resp l_req0 l_resp0].
    change (n_pend _ _ (tm_net _ _ st) dmem) with (l_sched (link_of st)).
    change (taking Req cpu (tm_net _ _ st) Req cpu) with (S (l_req (link_of st))).
    rewrite sum_list_with_app, Hd.
    replace (drop (S (l_req (link_of st))) (accepted (c_reg (l_cpu (link_of st))))) with rest
      by (rewrite <- Nat.add_1_r, <- drop_drop, Hd; done).
    assert (dm_reg d' = dm_reg d1 /\ dm_respQ d' = dm_respQ d1) as [-> ->] by (by rewrite Ed).
    pose proof (fr_resp _ _ F) as Hresp.
    pose proof (resent_work _ _ (l_resp (link_of st)) Hres ltac:(lia)).
    cbn [length]. rewrite Nat.mul_succ_r.
    assert (Hnew : (sum_list_with (sched_cost (l_now (link_of st)))
      [((l_now (link_of st) + delay)%Z, beat_event b);
       ((l_now (link_of st) + 1 + 1 + delay)%Z, DmTrySend)] + 2 <= request_cost)%nat).
    { unfold request_cost. destruct b; cbn [sum_list_with sched_cost fst snd beat_event]; unfold sched_cost, dist; cbn [fst snd]; lia. }
    lia.
Qed.

(** *** The processor *)

Abbreviation ctr_of st := (s32 (n_count _ _ (tm_net _ _ st))).

(** A call of the processor that runs to its end. *)
Lemma do_cpu st c (m : M CPU cpu_effect unit) pend taken s w :
  (forall n y, core_run n c y = on_cpu n m y) ->
  outcome m (begun (ctr_of st) (l_cpu (link_of st))) = Ok (s, w) ->
  offers soc_state soc_event (tm_net _ _ st) cpu c pend taken ->
  on_time soc_event soc_tick delay (tm_now _ _ st) cpu c ->
  (forall ch m, taken ch m <= S (tm_base _ _ st ch m))%nat ->
  taken Req cpu = l_req (link_of st) ->
  exists st', soc_step st st'
    /\ link_of st' = on_core s (pend ++ map core_event_of w) (taken Resp dmem) (link_of st).
Proof.
  intros Hc E Ho Ht Hb Hreq. eapply do_core; try done. rewrite Hc. unfold on_cpu.
  unfold begun in E. cbn in E. unfold the_cpu in E. by rewrite E.
Qed.

Lemma deliver_advances st k rest : running st ->
  drop (l_resp (link_of st)) (accepted (dm_reg (l_mem (link_of st)))) = k :: rest ->
  l_resp (link_of st) = l_resp0 (link_of st) -> advances st.
Proof.
  intros R Hd Hfirst. pose proof (ru_frame _ R) as F.
  destruct (deliver_enabled delay imem Himem x0 (link_of st) (s32 (n_count _ _ (tm_net _ _ st))) k F
    (ru_following _ R)) as (s & w & E & [B1 B2] & Hcnt & Hw); [rewrite Hd; by exists rest|].
  assert (Hk : reply k).
  { pose proof (fr_replies _ _ F) as Hall. rewrite Forall_forall in Hall. apply Hall, elem_of_app. left.
    eapply (subseteq_drop (l_resp (link_of st))). rewrite Hd. left. }
  destruct (do_cpu st (CStep (l_now (link_of st)) delay [k]) (Cpu.step (l_now (link_of st)) [BusItem k])
    (n_pend _ _ (tm_net _ _ st) cpu) (taking Resp dmem (tm_net _ _ st)) s w) as (st' & Hst & El); [done|exact E|..].
  - apply offers_step; [|cbn; unfold slave_ports; lia]. eapply pops_taking; [exact Hd|].
    exists 0%nat. split; [done|]. rewrite xb_routes. destruct Hk as [-> _]. done.
  - done.
  - apply paced_taking; [apply (ru_paced _ R)|done].
  - done.
  - eapply one_step; [done|exact Hst|exact El| |exact Hcnt|].
    + intros q. cbn. rewrite B2. apply (ru_calm _ R).
    + unfold work. cbn [on_core l_now l_cpu l_events l_mem l_sched l_req l_resp l_req0 l_resp0].
      change (n_pend _ _ (tm_net _ _ st) cpu) with (l_events (link_of st)).
      change (taking Resp dmem (tm_net _ _ st) Resp dmem) with (S (l_resp (link_of st))).
      rewrite sum_list_with_app, Hd, B1, B2.
      replace (drop (S (l_resp (link_of st))) (accepted (dm_reg (l_mem (link_of st))))) with rest
        by (rewrite <- Nat.add_1_r, <- drop_drop, Hd; done).
      assert ((sum_list_with (event_cost (l_now (link_of st))) (map core_event_of w) <= 2)%nat).
      { destruct Hw as [->|[id ->]]; cbn [map core_event_of sum_list_with event_cost]; unfold dist; lia. }
      cbn [length]. lia.
Qed.

Lemma resend_advances st : running st -> c_queue (l_cpu (link_of st)) <> [] -> advances st.
Proof.
  intros R Hq. destruct (drained_core st R) as (st1 & r & Hst1 & R1 & Ec & Ho & E1).
  eapply advances_after; [exact Hst1|exact Ec|]. pose proof (ru_frame _ R1) as F.
  set (s := l_cpu (link_of st1)) in *.
  assert (Hs : c_queue s <> [] /\ open_reg (c_reg s)) by (unfold s; by rewrite E1).
  destruct Hs as [Hs Hopen]. destruct (c_queue s) as [|q Q] eqn:Eq; [done|].
  assert (Hsingle : exists b, single b q).
  { pose proof (fr_requests _ _ F) as Hall. rewrite Forall_forall in Hall. apply Hall, elem_of_app. right.
    fold s. rewrite Eq. left. }
  destruct Hsingle as [[p|p] [_ [t ->]]].
  2: { destruct (ru_calm _ R1 (XBarPacket t 0 1 [p] 0 0)). fold s. rewrite Eq. left. }
  destruct Hopen as [Hst Hpush]. destruct (Hpush (ReadReq (XBarPacket t 0 1 [p] 0 0))) as [r' Hp].
  destruct (do_cpu st1 (CRetry (l_now (link_of st1))) (Cpu.masterPortRetry (l_now (link_of st1)))
    (n_pend _ _ (tm_net _ _ st1) cpu) (n_taken _ _ (tm_net _ _ st1))
    (set_bus Q r' (ctr_of st1) (begun (ctr_of st1) s)) []) as (st' & Hst' & El); [done| |..].
  - unfold outcome, Cpu.masterPortRetry. fold s. step_monad. rewrite Hst, Eq. step_monad. by rewrite Hp.
  - apply offers_retry.
  - done.
  - apply (ru_paced _ R1).
  - done.
  - eapply one_step; [done|exact Hst'|exact El| |done|].
    + intros q Hin. apply (ru_calm _ R1 q). fold s. rewrite Eq. cbn in Hin. by right.
    + unfold work. cbn [on_core l_now l_cpu l_events l_mem l_sched l_req l_resp l_req0 l_resp0].
      change (n_pend _ _ (tm_net _ _ st1) cpu) with (l_events (link_of st1)).
      change (n_taken _ _ (tm_net _ _ st1) Resp dmem) with (l_resp (link_of st1)).
      fold s. rewrite Eq. cbn [map c_reg c_queue begun set_bus length]. rewrite app_nil_r.
      apply push_true in Hp as ->. pose proof (fr_req _ _ F) as Hreq. fold s in Hreq.
      rewrite !length_drop, length_app. cbn [length].
      replace (length (accepted (c_reg s)) + 1 - l_req (link_of st1))%nat
        with (S (length (accepted (c_reg s)) - l_req (link_of st1))) by lia.
      rewrite !Nat.mul_succ_r. lia.
Qed.

Lemma cfu_advances st p : running st -> l_events (link_of st) = [CoreToCfu p] -> advances st.
Proof.
  intros R He. destruct (cfu_enabled imem x0 (link_of st) p (n_dev _ _ (tm_net _ _ st) cpu).2 (ru_following _ R) He)
    as (u' & r & E).
  destruct (do_core st (CFire (l_now (link_of st)) delay (CoreToCfu p)) [] (n_taken _ _ (tm_net _ _ st))
    (the_cpu (tm_net _ _ st)) u' [CoreFromCfu r] (ctr_of st)) as (st' & Hst & El).
  - by apply (offers_fire _ _ (tm_net _ _ st) cpu _ _ (CoreToCfu p) [] []).
  - by split_and!.
  - cbn [core_run]. by rewrite E.
  - apply (ru_paced _ R).
  - done.
  - eapply one_step; [done|exact Hst|exact El|apply R|done|]. unfold work.
    cbn [on_core l_now l_cpu l_events l_mem l_sched l_req l_resp l_req0 l_resp0]. rewrite He.
    change (n_taken _ _ (tm_net _ _ st) Resp dmem) with (l_resp (link_of st)).
    change (the_cpu (tm_net _ _ st)) with (l_cpu (link_of st)). cbn [app sum_list_with event_cost]. lia.
Qed.

Lemma result_advances st p : running st -> l_events (link_of st) = [CoreFromCfu p] -> advances st.
Proof.
  intros R He.
  destruct (result_enabled imem Himem x0 (link_of st) (ctr_of st) p (ru_following _ R) He)
    as (s & id & E & [B1 B2] & Hcnt).
  destruct (do_cpu st (CFire (l_now (link_of st)) delay (CoreFromCfu p)) (CFURespHandler (l_now (link_of st)) p)
    [] (n_taken _ _ (tm_net _ _ st)) s _ (fun _ _ => eq_refl) E) as (st' & Hst & El).
  - by apply (offers_fire _ _ (tm_net _ _ st) cpu _ _ (CoreFromCfu p) [] []).
  - by split_and!.
  - apply (ru_paced _ R).
  - done.
  - eapply one_step; [done|exact Hst|exact El| |exact Hcnt|].
    { intros q. cbn. rewrite B2. apply (ru_calm _ R). }
    unfold work. cbn [on_core l_now l_cpu l_events l_mem l_sched l_req l_resp l_req0 l_resp0].
    rewrite He, B1, B2. change (n_taken _ _ (tm_net _ _ st) Resp dmem) with (l_resp (link_of st)).
    cbn [app map core_event_of sum_list_with event_cost]. unfold dist. lia.
Qed.

(** What an execution adds. *)
Lemma executes_work x x' i t s s' es : executes imem x x' i t s s' es ->
  c_queue s = [] -> c_queue s' = [] ->
  (sum_list_with (event_cost t) es <= 6)%nat
  /\ (length (accepted (c_reg s')) <= S (length (accepted (c_reg s))))%nat.
Proof.
  assert (Hexec : (sum_list_with (event_cost t) [CoreExec (t + 1)] <= 6)%nat).
  { cbn [sum_list_with event_cost]. unfold dist. lia. }
  assert (Hsent : forall b, sent b s s' -> c_queue s' = [] ->
    (length (accepted (c_reg s')) <= S (length (accepted (c_reg s))))%nat).
  { intros b (q & _ & _ & E) Hq. rewrite Hq, app_nil_r in E. rewrite E, length_app. cbn. lia. }
  intros [_ _ [-> _]|p _ _ S _ _ _ _|p _ _ S _|q Hin|_ _ [-> _]] Hq Hq'.
  - split; [|lia]. case_decide; [cbn; lia|done].
  - split; [cbn; lia|by eapply Hsent].
  - split; [done|by eapply Hsent].
  - rewrite Hq' in Hin. by apply not_elem_of_nil in Hin.
  - split; [cbn; lia|lia].
Qed.

Lemma exec_advances st : running st -> l_events (link_of st) = [CoreExec (l_now (link_of st))] -> advances st.
Proof.
  intros R He0. destruct (drained_core st R) as (st1 & r & Hst1 & R1 & Ec & Ho & E1).
  eapply advances_after; [exact Hst1|exact Ec|].
  assert (He : l_events (link_of st1) = [CoreExec (l_now (link_of st1))]) by (by rewrite E1).
  assert (Hopen : open_reg (c_reg (l_cpu (link_of st1)))) by (by rewrite E1).
  clear dependent st. pose proof (ru_frame _ R1) as F.
  pose proof (ru_following _ R1) as (x & tr & Hr & M & P). unfold in_phase in P. rewrite He in P.
  destruct P as [t ws _ PA _ _ C L|ws i tr1 PE|ws p x' i PE|r' x' i PE|ws x' i PE|ws x' i r' PE]; try done.
  pose proof (no_waiting delay _ ws F (ru_calm _ R1) PA) as Hq.
  destruct (live_short _ _ _ _ _ Hends x tr Hr L) as (Hlen & x' & i & Hn).
  set (v := link_of st1) in *.
  destruct (exec_succeeds imem Himem x x' i (l_now v) (begun (ctr_of st1) (l_cpu v)) (matches_begun _ x _ _ M) Hn Hq)
    as (s & w & E & Hex & Hq'); [change (c_inst_cnt (l_cpu v) < 2 ^ 31 - 1); lia|].
  specialize (Hq' Hopen). destruct (executes_work _ _ _ _ _ _ _ Hex Hq Hq') as [W1 W2].
  destruct (do_cpu st1 (CFire (l_now v) delay (CoreExec (l_now v))) (execOneInstr (l_now v))
    [] (n_taken _ _ (tm_net _ _ st1)) s w (fun _ _ => eq_refl) E) as (st' & Hst & El).
  - by apply (offers_fire _ _ (tm_net _ _ st1) cpu _ _ (CoreExec (l_now v)) [] []).
  - split_and!; try done. cbn. by intros t' [= <-].
  - apply (ru_paced _ R1).
  - done.
  - assert (Hcnt : c_inst_cnt s = c_inst_cnt (l_cpu v) + 1).
    { refine (wp_outcome _ (fun s _ => c_inst_cnt s = c_inst_cnt (l_cpu v) + 1) _ _ _ _ E).
      apply (exec_counts (l_now v) (begun (ctr_of st1) (l_cpu v))). }
    eapply begins_step; [done|exact Hst|exact El| |exact Hcnt|fold v; lia|fold v; lia|].
    { intros q. cbn. rewrite Hq'. apply not_elem_of_nil. }
    unfold work. cbn [on_core l_now l_cpu l_events l_mem l_sched l_req l_resp l_req0 l_resp0].
    fold v. rewrite He, Hq, Hq'. change (n_taken _ _ (tm_net _ _ st1) Resp dmem) with (l_resp v).
    rewrite app_nil_l. cbn [begun set_bus c_reg] in W2. rewrite !length_drop.
    cbn [sum_list_with event_cost length].
    assert ((request_cost * (length (accepted (c_reg s)) - l_req v)
      <= request_cost * (length (accepted (c_reg (l_cpu v))) - l_req v) + request_cost)%nat); [|lia].
    rewrite <- Nat.mul_succ_r. apply Nat.mul_le_mono_l. lia.
Qed.

(** *** The clock *)

Lemma sum_with_le {A} (f g : A -> nat) l : (forall a, f a <= g a)%nat ->
  (sum_list_with f l <= sum_list_with g l)%nat.
Proof. intros Hfg. induction l as [|a l IH]; cbn; [done|]. pose proof (Hfg a). lia. Qed.

Lemma event_cost_tick now e : (event_cost (now + 1) e <= event_cost now e)%nat.
Proof. destruct e as [t|p|p]; cbn; [unfold dist; lia|done..]. Qed.

Lemma sched_cost_tick now e : (sched_cost (now + 1) e <= sched_cost now e)%nat.
Proof. unfold sched_cost, dist. destruct e.2; lia. Qed.

Lemma work_tick v :
  (sum_list_with (event_cost (l_now v + 1)) (l_events v) < sum_list_with (event_cost (l_now v)) (l_events v))%nat
  \/ (sum_list_with (sched_cost (l_now v + 1)) (l_sched v) < sum_list_with (sched_cost (l_now v)) (l_sched v))%nat
  \/ (l_req0 v < l_req v)%nat \/ (l_resp0 v < l_resp v)%nat ->
  (work (next_tick v) < work v)%nat.
Proof.
  intros Hlt. unfold work. cbn [next_tick l_now l_cpu l_events l_mem l_sched l_req l_resp l_req0 l_resp0].
  pose proof (sum_with_le _ _ (l_events v) (event_cost_tick (l_now v))).
  pose proof (sum_with_le _ _ (l_sched v) (sched_cost_tick (l_now v))). lia.
Qed.

(** Nothing is due in this tick. *)
Definition none_due v : Prop :=
  (forall e t, e ∈ l_events v -> core_tick e = Some t -> l_now v < t)
  /\ Forall (fun e => l_now v < e.1) (l_sched v).

Lemma tick_advances st : running st -> none_due (link_of st) ->
  (l_sched (link_of st) <> [] \/ (exists t, l_events (link_of st) = [CoreExec t])
   \/ (l_req0 (link_of st) < l_req (link_of st))%nat \/ (l_resp0 (link_of st) < l_resp (link_of st))%nat) ->
  advances st.
Proof.
  intros R [H1 H2] Hwhy. destruct (do_tick st (ru_quiet _ R) H1 H2) as (st' & Hst & El).
  eapply one_step; [done|exact Hst|exact El|apply R|done|]. apply work_tick.
  set (v := link_of st) in *. destruct Hwhy as [Hs|[[t He]|Hwhy]]; [right; left|left|by right; right].
  - destruct (l_sched v) as [|e l]; [done|]. apply Forall_cons in H2 as [H2 _]. cbn [sum_list_with].
    pose proof (sum_with_le _ _ l (sched_cost_tick (l_now v))). unfold sched_cost at 1 3, dist. lia.
  - rewrite He in *. cbn [sum_list_with event_cost]. unfold dist.
    pose proof (H1 (CoreExec t) t ltac:(left) eq_refl). lia.
Qed.

(** ** The end *)

(** Nothing is pending or on its way. *)
Record finished v : Prop := {
  fi_events : l_events v = [];
  fi_sched : l_sched v = [];
  fi_requests : requests v = [];
  fi_replies : undelivered v = [];
}.

Lemma due_or_not v : frame v ->
  none_due v \/ (exists l1 l2 e, l_sched v = l1 ++ e :: l2 /\ e.1 = l_now v)
  \/ exists l1 l2, l_events v = l1 ++ CoreExec (l_now v) :: l2.
Proof.
  intros F. destruct (decide (Exists (fun e => e.1 = l_now v) (l_sched v))) as [Hd|Hs].
  - right. left. apply Exists_exists in Hd as (e & Hin & He).
    apply list_elem_of_split in Hin as (l1 & l2 & E). eauto.
  - destruct (decide (Exists (fun e => core_tick e = Some (l_now v)) (l_events v))) as [Hd|He].
    + right. right. apply Exists_exists in Hd as (e & Hin & Ht). destruct e as [t|p|p]; try done.
      injection Ht as ->. apply list_elem_of_split in Hin as (l1 & l2 & E). eauto.
    + left. split.
      * intros e t Hin Ht. pose proof (fr_exec_due _ _ F e t Hin Ht).
        assert (t <> l_now v); [|lia]. intros ->. apply He, Exists_exists. eauto.
      * apply Forall_forall. intros e Hin. pose proof (fr_mem_due _ _ F) as Hm.
        rewrite Forall_forall in Hm. pose proof (Hm e Hin). cbn in *.
        assert (e.1 <> l_now v); [|lia]. intros E. apply Hs, Exists_exists. eauto.
Qed.

(** The processor waits for at most one event. *)
Lemma following_events v : following v ->
  l_events v = [] \/ exists e, l_events v = [e].
Proof. intros (x & tr & _ & _ & P). destruct P; eauto. Qed.

Lemma progress st : running st -> advances st \/ finished (link_of st).
Proof.
  intros R. pose proof (ru_frame _ R) as F. set (v := link_of st) in *.
  destruct (due_or_not v F) as [Hnd|[(l1 & l2 & e & He & Hn)|(l1 & l2 & He)]].
  2: { left. by eapply fire_mem_advances. }
  2: { left. apply exec_advances; [done|]. fold v.
       destruct (following_events v (ru_following _ R)) as [E|[e E]]; rewrite E in He.
       - by apply app_cons_not_nil in He.
       - symmetry in He. apply one_event in He as (-> & -> & ->). done. }
  destruct (dm_respQ (l_mem v)) as [|p P] eqn:Eq; [|left; apply send_advances; [done|fold v; by rewrite Eq]].
  destruct (c_queue (l_cpu v)) as [|q Q] eqn:Ec; [|left; apply resend_advances; [done|fold v; by rewrite Ec]].
  pose proof (fr_req _ _ F) as Hreq. pose proof (fr_resp _ _ F) as Hresp.
  destruct (drop (l_resp v) (accepted (dm_reg (l_mem v)))) as [|k rest] eqn:Ek.
  2: { left. destruct (decide (l_resp v = l_resp0 v)) as [E|Hne]; [by eapply deliver_advances|].
       apply tick_advances; [done|exact Hnd|]. fold v. right. right. right. lia. }
  destruct (drop (l_req v) (accepted (c_reg (l_cpu v)))) as [|k rest] eqn:Er.
  2: { left. destruct (decide (l_req v = l_req0 v)) as [E|Hne]; [by eapply arrival_advances|].
       apply tick_advances; [done|exact Hnd|]. fold v. right. right. left. lia. }
  destruct (following_events v (ru_following _ R)) as [E|[[t|p|p] E]].
  - destruct (l_sched v) as [|e l] eqn:Es.
    + right. split; [done|done|..]; unfold requests, undelivered; by rewrite ?Er, ?Ec, ?Ek, ?Eq.
    + left. apply tick_advances; [done|exact Hnd|]. fold v. left. by rewrite Es.
  - left. apply tick_advances; [done|exact Hnd|]. fold v. right. left. by exists t.
  - left. by eapply cfu_advances.
  - left. by eapply result_advances.
Qed.

(** Whatever has been run so far can be run to the end of the program. *)
Lemma soc_completes st : running st -> exists st', rtc (calm_step junk delay) st st' /\ running st'
  /\ finished (link_of st').
Proof.
  remember (cost (link_of st)) as n eqn:Hn. revert st Hn.
  induction n as [n IH] using lt_wf_ind. intros st Hn R.
  destruct (progress st R) as [(st1 & H1 & R1 & Hlt)|Hf]; [|by exists st].
  destruct (IH (cost (link_of st1)) ltac:(lia) st1 eq_refl R1) as (st' & H2 & R' & Hf).
  exists st'. split; [by etrans|done].
Qed.

(** There the processor has executed the whole program. *)
Lemma finished_end v : following v -> finished v ->
  Z.to_nat (c_inst_cnt (l_cpu v)) = S (length tre) /\ matches imem xe (l_cpu v) /\ dm_mem (l_mem v) = x_mem xe.
Proof.
  intros (x & tr & Hr & M & P) [E1 E2 E3 E4]. unfold in_phase in P.
  assert (accesses v = []) as Ha by (unfold accesses, scheduled; by rewrite E2, E3).
  assert (values v = []) as Hv by (unfold values; by rewrite E4).
  rewrite E1, Ha, Hv in P.
  destruct P as [t ws E|ws i tr1 _ A _ Ms C E Hi L|ws p x' i _ A|r x' i _ _ V|ws x' i E|ws x' i r E]; try done.
  - subst tr. destruct (done_end _ _ _ _ _ Hends x i tr1 Hr Hi L) as (-> & -> & _).
    symmetry in A. apply map_eq_nil in A as ->. injection Ms as ->. cbn in C. split; [lia|done].
  - by apply app_cons_not_nil in A.
Qed.
End Progress.
