(* ===== verification/SocProgram.v ===== *)
(** Programs on the SoC, from their text: booted from the text of a program,
    the SoC follows the reference machine on the instructions that the text
    stands for, loads, stores and SIMD instructions included. *)
From Stdlib Require Import Ascii String.
From S2P Require Import Prelude Machine DataStruct Memory Bus DataMemory Cfu Isa Reference Cpu CpuRef.
From S2P Require Import Dma Grid SystolicPE Systolic CString Emulator Asm Assembler AsmPass AsmLink AsmCorrect AsmSource.
From S2P Require Import Device Network Timed SocDevices SocDma SocSystolic SocSystem SocAccess SocExec SocLink SocTimed SocProgress.
Local Open Scope string_scope.
Local Open Scope list_scope.
Local Open Scope Z_scope.

(** * Runs that mean the same *)

Lemma soc_mstep_same i j rf pc m : same_fields i j -> soc_mstep i rf pc m = soc_mstep j rf pc m.
Proof.
  intros Hs. unfold soc_mstep. rewrite (mstep_same _ _ _ _ _ Hs). revert Hs. same_cases i j.
Qed.

Lemma to_memory_same i j rf : same_fields i j -> to_memory i rf = to_memory j rf.
Proof. unfold to_memory, access_addr. same_cases i j. Qed.

Lemma soc_run_same (f g : Z -> option instr) n x x' tr :
  (forall pc j, g pc = Some j -> exists i, f pc = Some i /\ same_fields i j) ->
  soc_ref_run n g x = Some (x', tr) ->
  exists tr', soc_ref_run n f x = Some (x', tr') /\ Forall2 same_fields tr' tr.
Proof.
  intros Hfg. revert x' tr. induction n as [|n IH]; intros x' tr.
  - intros [= <- <-]. by exists [].
  - cbn. intros ([x1 tr1] & Hr & ([x2 j] & Hs & [= <- <-])%bind_Some)%bind_Some.
    destruct (IH x1 tr1 Hr) as (tr' & Hr' & Htr).
    pose proof (soc_next_inv _ _ _ _ Hs) as (Hj & Hc & Ht & Hm & Ecl).
    destruct (Hfg _ _ Hj) as (i & Hi & Hsame). exists (i :: tr'). split; [|by constructor].
    rewrite Hr'. cbn. unfold soc_next. rewrite Hi. cbn.
    rewrite (conforms_same _ _ _ _ Hsame), Hc, (to_memory_same _ _ _ Hsame), Ht,
      (soc_mstep_same _ _ _ _ _ Hsame), Hm. cbn.
    rewrite (clean_same _ _ _ Hsame), <- Ecl. by destruct x2.
Qed.

(** * The start *)

Section Program.
Context `{Framework} {PR : PipeRegister} {PL : PipeRegisterLaws PR}.
Context (junk : nat -> nat -> nat -> Valid8) {X : CrossBar} {XL : CrossBarLaws X}.
#[local] Existing Instance soc_assembler.
Context (cfg : EmulatorConfig) (p : program) (delay : Z) (Hdelay : 0 <= delay).

(** The instruction memory that [Cpu.init] leaves. *)
Definition soc_imem : list instr := replicate (Z.to_nat (data_offset cfg / 4)) empty_instr.

(** A well-formed program, of the size of the memories. What the fields of an
    instruction hold that [Cpu.init] does not set matters only if the program
    has jumps: the assembler then tests one of them. *)
Record soc_bootable : Prop := {
  sb_size : 0 <= memory_size cfg;
  sb_wf : wf_program cfg p;
  sb_fits : fits cfg (BaseMemory_new (Z.to_nat (memory_size cfg))) soc_imem p;
  sb_jumps : jumps (p_text p) = true -> jump_field indet_int;
}.

Abbreviation soc_timed := (timed soc_state soc_event).

(** The clock starts at the tick of the start-up. *)
Definition soc_start (now : Z) (Y : SOC) : soc_timed := Timed _ _ now (fun _ _ => 0%nat) Y.

(** The processor when the program is in its memory. *)
Definition cpu_start (imem : list instr) (r : preg) : CPU := MkCPU (replicate 32 0) 0 0 imem [] r 0.

Lemma init_starts now r : 0 <= data_offset cfg ->
  outcome (Cpu.init now (data_offset cfg)) (CPU_new r 0)
  = Ok (cpu_start soc_imem r, [ExecOneInstrEvent (now + 1) 1]).
Proof.
  intros Hd. unfold Cpu.init, outcome. step_monad.
  by rewrite (proj2 (Z.leb_le 0 (data_offset cfg))) by done.
Qed.

Lemma soc_boot_starts now parts : soc_bootable -> fresh_parts parts ->
  exists Y0 imem, soc_boot cfg now (Some (print_program p)) parts = Ok Y0
    /\ Forall wf_used imem /\ calm (link_of (soc_start now Y0))
    /\ quiet Y0 /\ frame delay (link_of (soc_start now Y0))
    /\ following imem (source_start cfg p) (link_of (soc_start now Y0)) /\ paced (soc_start now Y0)
    /\ forall pc j, source_fetch cfg p pc = Some j ->
         exists i, fetch_imem imem pc = Some i /\ same_fields i j.
Proof.
  intros [Hm Hp Hf Hz] [F1 F2 (_ & F4 & F5 & F6 & F7) (F8 & F9 & F10 & F11 & F12)].
  set (m := BaseMemory_new (Z.to_nat (memory_size cfg))) in *.
  assert (Hcl : Forall (ready (p_text p)) soc_imem) by (apply Forall_replicate; by split).
  destruct (assemble_ok cfg m soc_imem p Hp Hf Hcl) as (e & E & A).
  pose proof Hf as [[G1 G2] G3 G4 G5 G6]. assert (Hd : 0 <= data_offset cfg) by lia.
  eexists _, (e_imem e). split_and!.
  - unfold soc_boot. rewrite init_starts by done. cbn [mbind result_bind cpu_start c_imem]. fold m.
    rewrite E. reflexivity.
  - by eapply assembled_used.
  - intros q. apply not_elem_of_nil.
  - by split.
  - split; cbn; unfold scheduled; cbn; rewrite ?F1, ?F2; try done; try by constructor.
    intros ev t ->%list_elem_of_singleton [= <-]. lia.
  - exists (source_start cfg p), []. split; [done|]. split.
    + split; try done; [|cbn; by apply image_wf, Forall_replicate]. split; try done.
      split; [done|]. by repeat constructor.
    + unfold in_phase. eapply (ph_ready _ _ _ _ _ _ _ _ (now + 1) []); try done; cbn.
      * unfold accesses, scheduled, requests. cbn. by rewrite F1.
      * unfold values, undelivered. cbn. by rewrite F2.
      * by rewrite (as_mem _ _ _ _ _ A).
      * by constructor.
  - intros ch m'. cbn. lia.
  - intros pc j. by apply (source_fetched cfg m soc_imem p Hp Hf).
Qed.

(** The invariant holds throughout a calm run. *)
Lemma calm_run imem x0 st st' : Forall wf_used imem -> rtc (calm_step junk delay) st st' ->
  calm (link_of st) -> soc_inv delay imem x0 st -> soc_inv delay imem x0 st'.
Proof.
  intros Hw. induction 1 as [st|st1 st2 st3 H12 _ IH]; [done|]. intros Hc Hi.
  apply IH; [by apply H12|]. by eapply calm_keeps.
Qed.

(** Between two instructions: the next one is scheduled, or the last one was
    [hcf]. *)
Definition at_rest (st : soc_timed) (tr : list instr) : Prop :=
  (exists t, n_pend _ _ (tm_net _ _ st) cpu = [CoreExec t]) \/ (exists i, head tr = Some i /\ i_op i = HCF).

(** The registers and the program counter are those of the reference, and the
    stores that are on their way make the memory the one of the reference. *)
Record agrees (x : rv_state) (st : soc_timed) : Prop := {
  ag_registers : x0_view (x_clean x) (c_rf (the_cpu (tm_net _ _ st))) (x_rf x);
  ag_pc : c_pc (the_cpu (tm_net _ _ st)) = x_pc x;
  ag_memory : exists ws, accesses (link_of st) = map WBeat ws
    /\ store_all ws (dm_mem (the_mem (tm_net _ _ st))) = Ok (x_mem x);
}.

Lemma inv_agrees imem fetch x0 st x tr :
  (forall pc j, fetch pc = Some j -> exists i, fetch_imem imem pc = Some i /\ same_fields i j) ->
  soc_inv delay imem x0 st ->
  soc_ref_run (Z.to_nat (c_inst_cnt (the_cpu (tm_net _ _ st)))) fetch x0 = Some (x, tr) ->
  at_rest st tr -> agrees x st.
Proof.
  intros Hfetch Hi Hr Hrest. destruct (soc_run_same _ _ _ _ _ _ Hfetch Hr) as (tr' & Hr' & Hsame).
  destruct Hi as [Hl|(_ & _ & x1 & tr1 & Hr1 & M & P)]; [unfold lost in Hl; cbn in Hl; congruence|].
  assert (Hdone : forall ws, accesses (link_of st) = map WBeat ws ->
    store_all ws (dm_mem (the_mem (tm_net _ _ st))) = Ok (x_mem x1) ->
    c_inst_cnt (the_cpu (tm_net _ _ st)) = Z.of_nat (List.length tr1) -> agrees x st).
  { intros ws Ha Hs Hc. rewrite Hc, Nat2Z.id, Hr1 in Hr'. injection Hr' as -> ->.
    destruct M as [M1 M2 _ _]. split; [exact M1|exact M2|]. by exists ws. }
  assert (Hwait : forall x' i, soc_next (fetch_imem imem) x1 = Some (x', i) ->
    is_load (i_op i) || is_simd (i_op i) = true ->
    c_inst_cnt (the_cpu (tm_net _ _ st)) = Z.of_nat (List.length tr1) + 1 ->
    (forall t, n_pend _ _ (tm_net _ _ st) cpu <> [CoreExec t]) -> agrees x st).
  { intros x' i Hn Hk Hc Hev. exfalso. destruct Hrest as [[t Ht]|(j & Hj & Ej)]; [by destruct (Hev t)|].
    rewrite Hc in Hr'. replace (Z.to_nat _) with (S (List.length tr1)) in Hr' by lia.
    cbn in Hr'. rewrite Hr1 in Hr'. cbn in Hr'. rewrite Hn in Hr'. injection Hr' as <- <-.
    destruct tr as [|j' tr]; [done|]. injection Hj as ->. apply Forall2_cons_1 in Hsame as [[Eo _ _ _ _] _].
    rewrite Eo, Ej in Hk. done. }
  destruct P as [t ws E A V Ms C|ws i tr2 E A V Ms C|ws r x' i E A V Ms C _ N K|r x' i E A V Ms C _ N K
    |ws x' i E A V Ms C _ N K|ws x' i r E A V Ms C _ N K].
  all: first [ by eapply Hdone | eapply Hwait; [exact N|by rewrite K, ?orb_true_r|exact C|] ].
  all: intros t Ht; cbn in E; by rewrite E in Ht.
Qed.

(** C3. The SoC runs the program that its text says. Booted from the text of a
    well-formed program, in every timed run in which no store of the processor
    is refused by the bus, whatever the order of the events of a tick, the
    deliveries and the stalls: whenever the processor is between two
    instructions, its registers and its program counter are those of the
    reference machine after as many instructions of the program - loads,
    stores, SIMD instructions of the function unit included - and the stores
    that are still on their way make the data memory the reference's. *)
Theorem soc_program_followed now parts : soc_bootable -> fresh_parts parts ->
  exists Y0, soc_boot cfg now (Some (print_program p)) parts = Ok Y0
    /\ forall st, rtc (calm_step junk delay) (soc_start now Y0) st ->
         forall x tr,
           soc_ref_run (Z.to_nat (c_inst_cnt (the_cpu (tm_net _ _ st))))
             (source_fetch cfg p) (source_start cfg p) = Some (x, tr) ->
           at_rest st tr -> agrees x st.
Proof.
  intros Hb Hparts. destruct (soc_boot_starts now parts Hb Hparts) as (Y0 & imem & E & Hw & Hc & Q & F & Hfol & _ & Hf).
  exists Y0. split; [exact E|]. intros st Hst x tr. apply (inv_agrees imem); [exact Hf|].
  eapply calm_run; [done..|]. by right.
Qed.
(** The end of a program, in its text and in the memory. *)
Lemma soc_ends_same (f g : Z -> option instr) x0 xe h tre :
  (forall pc j, g pc = Some j -> exists i, f pc = Some i /\ same_fields i j) ->
  soc_ends g x0 xe h tre ->
  exists h' tre', soc_ends f x0 xe h' tre' /\ List.length tre' = List.length tre.
Proof.
  intros Hfg [Hr Hh Hl]. destruct (soc_run_same _ _ _ _ _ _ Hfg Hr) as (tr & Hr' & Hs).
  destruct tr as [|h' tre']; [by apply Forall2_nil_cons_inv in Hs|].
  apply Forall2_cons_1 in Hs as [Hsh Hst]. pose proof (Forall2_length _ _ _ Hst) as Hlen.
  exists h', tre'. split; [|done]. split.
  - by rewrite Hlen.
  - by rewrite (sf_op _ _ Hsh).
  - clear -Hl Hst. induction Hst as [|i j l1 l2 Hij _ IH]; [constructor|].
    apply Forall_cons in Hl as [Hj Hl]. constructor; [by rewrite (sf_op _ _ Hij)|by apply IH].
Qed.

(** C4. A program that ends is run to its end, and not beyond. Booted from the
    text of a well-formed program that ends, whatever the framework has run so
    far without a store being refused: no more instructions were begun than
    the program has, and the SoC can go on, with no store refused, until every
    instruction has been executed, nothing is pending or on its way, and
    registers, program counter and data memory are those with which the
    reference machine ends. No order of events, deliveries and stalls leads to
    a deadlock or loses an instruction, an access or a response. *)
Theorem soc_program_completes {PV : PipeRegisterLive PR} now parts xe h tre :
  soc_bootable -> fresh_parts parts ->
  soc_ends (source_fetch cfg p) (source_start cfg p) xe h tre ->
  Z.of_nat (List.length tre) + 1 <= 2 ^ 31 - 1 ->
  exists Y0, soc_boot cfg now (Some (print_program p)) parts = Ok Y0
    /\ forall st, rtc (calm_step junk delay) (soc_start now Y0) st ->
         (Z.to_nat (c_inst_cnt (the_cpu (tm_net _ _ st))) <= S (List.length tre))%nat
         /\ exists st', rtc (calm_step junk delay) st st' /\ finished (link_of st')
              /\ Z.to_nat (c_inst_cnt (the_cpu (tm_net _ _ st'))) = S (List.length tre)
              /\ x0_view (x_clean xe) (c_rf (the_cpu (tm_net _ _ st'))) (x_rf xe)
              /\ c_pc (the_cpu (tm_net _ _ st')) = x_pc xe
              /\ dm_mem (the_mem (tm_net _ _ st')) = x_mem xe.
Proof.
  intros Hb Hparts He Hint.
  destruct (soc_boot_starts now parts Hb Hparts) as (Y0 & imem & E & Hw & Hc & Q & F & Hfol & Hp & Hf).
  destruct (soc_ends_same _ _ _ _ _ _ Hf He) as (h' & tre' & He' & Hlen). rewrite <- Hlen in *.
  exists Y0. split; [exact E|]. intros st Hst.
  assert (R : running delay imem (source_start cfg p) st).
  { eapply (run_running junk); [done..|]. by split. }
  split; [exact (following_count imem _ _ _ _ He' _ (ru_following _ _ _ _ R))|].
  destruct (soc_completes junk delay Hdelay imem Hw _ _ _ _ He' Hint st R) as (st' & Hs & R' & Hfin).
  destruct (finished_end imem _ _ _ _ He' _ (ru_following _ _ _ _ R') Hfin) as (Hn & M & Hm).
  exists st'. split; [done|]. split; [done|]. split; [exact Hn|].
  split; [apply (ma_view _ _ _ M)|]. split; [apply (ma_pc _ _ _ M)|exact Hm].
Qed.
End Program.

(** * Witness *)

#[local] Existing Instance printing_framework.
#[local] Existing Instance SlotRegister.
#[local] Existing Instance plain_crossbar.
#[local] Existing Instance soc_assembler.

(** The word [n], added to itself lane by lane. *)
Definition w_lanes : program := Program
  [DLabel "n"; DVals 4 [0x017F80FF]]
  [ALa 5 "n"; AMem LW 6 0 5; ARegs S_ADDI8I8S_VV 7 6 6; AMem SW 7 0 5; AHcf].

Lemma w_lanes_bootable : soc_bootable w_soc_config w_lanes.
Proof.
  split; [done|split|by split; [split| | | |]; vm_compute|done].
  - by repeat constructor.
  - assert (forallb wf_asm (p_text w_lanes) = true) as Ht by by vm_compute.
    apply Forall_forall. intros a Ha%list_elem_of_In. by apply (proj1 (forallb_forall _ _) Ht).
  - intros a l Ha Hl. cbn [w_lanes p_text] in Ha.
    repeat (apply elem_of_cons in Ha as [->|Ha];
      [cbn [uses] in Hl; first [ by apply not_elem_of_nil in Hl
        | apply list_elem_of_singleton in Hl as ->; by vm_compute; eexists ]|]).
    by apply not_elem_of_nil in Ha.
  - vm_compute. congruence.
  - intros k s Hk.
    do 6 (destruct k as [|k]; [injection Hk as <-; cbn; try exact I;
      first [by left | right; intros a; vm_compute; by intros [= <-]]|]).
    done.
Qed.

Definition w_lanes_end : rv_state * list instr :=
  Eval vm_compute in default (source_start w_soc_config w_lanes, [])
    (soc_ref_run 6 (source_fetch w_soc_config w_lanes) (source_start w_soc_config w_lanes)).

(** After the six instructions, when no access is on its way. *)
Lemma soc_program_followed_witness :
  exists Y0, soc_boot w_soc_config 0 (Some (print_program w_lanes)) w_parts = Ok Y0
    /\ forall st, rtc (calm_step w_junk 1) (soc_start 0 Y0) st ->
         c_inst_cnt (the_cpu (tm_net _ _ st)) = 6 -> accesses (link_of st) = [] ->
         take 4 (drop 64 (dm_mem (the_mem (tm_net _ _ st)))) = [0xFE; 0x00; 0xFE; 0x02]
         /\ c_pc (the_cpu (tm_net _ _ st)) = 24.
Proof.
  destruct (soc_program_followed (PR := SlotRegister) (XL := plain_crossbar_laws) w_junk w_soc_config
    w_lanes 1 ltac:(lia) 0 w_parts w_lanes_bootable w_parts_fresh) as (Y0 & E & HY).
  exists Y0. split; [exact E|]. intros st Hst Hcnt Ha.
  destruct (HY st Hst w_lanes_end.1 w_lanes_end.2) as [_ Hpc (ws & Hws & Hm)].
  - rewrite Hcnt. by vm_compute.
  - right. eexists. split; reflexivity.
  - rewrite Ha in Hws. symmetry in Hws. apply map_eq_nil in Hws as ->. injection Hm as ->.
    split; [reflexivity|exact Hpc].
Defined.

Lemma w_lanes_ends : soc_ends (source_fetch w_soc_config w_lanes) (source_start w_soc_config w_lanes)
  w_lanes_end.1 (source_instr [] (SInstr HCF SNone SNone SNone)) (tail w_lanes_end.2).
Proof. split; [by vm_compute|done|]. repeat (constructor; [done|]). constructor. Qed.

(** The framework can run it to the end from the start. *)
Lemma soc_program_completes_witness :
  exists Y0, soc_boot w_soc_config 0 (Some (print_program w_lanes)) w_parts = Ok Y0
    /\ exists st, rtc (calm_step w_junk 1) (soc_start 0 Y0) st /\ finished (link_of st)
         /\ take 4 (drop 64 (dm_mem (the_mem (tm_net _ _ st)))) = [0xFE; 0x00; 0xFE; 0x02].
Proof.
  destruct (soc_program_completes (PR := SlotRegister) (XL := plain_crossbar_laws) (PV := SlotRegisterLive)
    w_junk w_soc_config w_lanes 1 ltac:(lia) 0 w_parts _ _ _ w_lanes_bootable w_parts_fresh w_lanes_ends)
    as (Y0 & E & HY); [by vm_compute|].
  exists Y0. split; [exact E|].
  destruct (HY (soc_start 0 Y0) (rtc_refl _ _)) as (_ & st & Hst & Hf & _ & _ & _ & Hm).
  exists st. split; [exact Hst|]. split; [exact Hf|]. by rewrite Hm.
Defined.
